(* ===== verification/_CoqProject ===== *)
-Q . S2P
Prelude.v
CString.v
Crc32.v
MHash.v
BobHash.v
RWLock.v
Slab.v
SlabThreads.v
SlabRaces.v
SlabRacesProps.v
IndexTypes.v
IndexLog.v
Bdb.v
Storage.v
StorageRefine.v
StorageProps.v
StorageThreads.v
Interleave.v
Linear.v
Progress.v
Concurrent.v
Protocol.v
Grammar.v
Task.v
Assign.v
AssignProps.v
AssignSafety.v
Query.v
QueryProps.v
Pool.v
PoolProps.v
IoLayer.v
Log.v
Datanode.v
Startup.v
Server.v
ServerProps.v
Lifetime.v
Master.v
Queue.v
QueueProps.v
