(* ===== verification/Prelude.v ===== *)
(** * linglongta: a verification development

    linglongta is a key-value server that speaks the memcached protocol and keeps
    its data in block files. This library models its C code as Rocq functions and
    proves what makes each part, and the whole server, correct.

    ** The program and its model

    - [Datanode] (src/src/datanode.c, src/src/global.c): the settings, the pipes
      between the threads, [init_datanode_vars] and the arguments of the threads.
      [Startup]: [main] creates the threads one by one and waits for each at a
      semaphore; the threads are processes that interleave, and each posts the
      semaphore a step before it enters its event loop.
    - [Assign] (src/src/assign_thread.c): one thread accepts connections and
      receives requests, event by event, through the states of a task. When a
      request is complete, the task's pointer is written to the pipe of a query
      thread. [Task] holds the task (src/include/query_thread.h), [Protocol] the
      parser of request heads (src/src/memcached_protocol.c), [Grammar] the
      grammar of request lines that it accepts, [CString] the functions of the
      C library that the parser calls.
    - [Query] (src/src/query_thread.c): a query thread takes a task from its pipe,
      calls the storage, and writes the answer to the client.
    - [Storage] (src/src/storage.c): blocks of data in files by size, free slots in
      the files' headers, an index from 16-byte keys to blocks, and the journal
      of the index. It uses [Crc32] (src/src/crc32.c) for checksums, [RWLock]
      (src/src/rwlock.c) for its locks, [Bdb] (src/src/bdblib.c) for the index, and
      [IndexLog] (src/src/indexlog.c, src/tools/replay_journal.c) for the journal;
      [IndexTypes] has the records they share with their memory layout.
    - [StorageThreads] has the operations of storage.c once more, cut into single
      accesses to what the threads share, and proves that each, run alone, is the
      function of [Storage]. [Interleave] runs any number of threads over them,
      one access at a time, under the locks of [RWLock].
    - [Pool] has the query threads at work together: each takes tasks from its
      pipe and serves one at a time with the handler of [Query], cut at its call
      of the storage, while the threads' storage operations interleave.
    - [Server] puts the assign thread in front of [Pool]: any number of open
      connections, event by event with the handlers of [Assign], while the query
      threads interleave with it. [Lifetime] has one such run after the other:
      start, load, [power halt] with clients still connected, the next start.
    - [Slab] (src/src/slab.c): the allocator. [SlabThreads] cuts its calls at the
      spin lock of a class and at the shared counter, [SlabRaces] runs any number
      of threads over them. [MHash] (src/src/mhash.c) and [BobHash]
      (src/src/bobhash.c): the hash functions. [IoLayer] (src/src/iolayer.c,
      src/src/utils.c): connections, descriptor flags and byte counters. [Log]
      (src/src/log.c): log lines and time stamps. [Queue]
      (src/include/bsdqueue.h): singly-linked queues as macros over memory.
    - [Master] (src/src/master_mirror.c): the beginnings of a replicating master:
      its command line and the coroutine that reads a request.

    A function of the code is a definition of the same name. State is passed
    explicitly: [Storage], [Assign] and [Query] each have a monad over their state
    whose outcomes are the ways a call can end (a result, a failed assertion, a
    lock that is never free, memory violated, a loop that spins). Machine integers
    are [Z] with their wrap-around written out (this file); accesses to buffers
    return [None] outside of the buffer.

    What the system answers (sockets, files, memory, pipes) comes from queues or
    records that are arguments of the model; an empty queue is the quiet case.
    Berkeley DB is the class [BerkeleyDB] of its functions, and its documented
    behaviour the class [BerkeleyDBLaws]; [MapDB] is an instance, on which the
    witnesses of the theorems run.

    ** What the theorems show

    - The whole server under load ([ServerProps]): after the start on an empty
      directory clients connect at any time, send requests in packets, hang up or
      are too slow, while all threads interleave; what is seen is what a desk
      shows at which each request takes effect on a map at one moment between its
      arrival and its answer ([datanode_linearizable]), and the server can always
      go on until every client that stays, and whose head was not cut, has its one
      answer ([node_progress]). Packets are what one [read] brings. A body may be
      cut anywhere; a head that is cut costs the client its connection, since the
      assign thread reads on at once and takes "nothing there yet" for a failure
      ([split_head_lost]; when the rest is there by then, it is written over the
      start, [head_overwritten], which these runs leave out). [every_cut] says
      that this is all that a client can do with the bytes of its request.
      A connection's task is related to the request that its client is sending
      ([standing]), the pool to the server of [PoolProps], and both to the desk's
      tickets, in any order. The desk's map survives any number of halts and
      starts ([lifetime_linearizable]): a halt drops the requests that have not
      had their moment. It must find no query thread at work, since
      [close_storage] takes no lock.
    - The whole server, one request after the other ([Datanode], [QueryProps]):
      after the start on an empty directory, any sequence of connections, with
      bodies cut into packets, is answered as a map from 16-byte keys would
      answer; and again after [power halt] and a new start on the same files. The
      simulation goes through [AssignProps] (a request reaches a query thread as it was sent),
      [StorageRefine] (the storage invariant and the run of every operation) and
      [QueryProps] (the answer of every command).
    - The storage ([StorageProps]): updates, lookups and deletions refine a finite
      map, also across restarts; and its behaviour with data that no block holds
      and without memory.
    - The storage under threads ([Concurrent]): whatever the interleaving of any
      number of threads, spurious wake-ups included, the answers are those of a
      map on which every request takes effect at one moment between its call and
      its return ([storage_linearizable]), and from every state in between all
      calls can return ([storage_progress]). [Linear] has the invariant that links
      a state of the threads to the map (which lock is held by whom, and what a
      thread in the middle of an operation relies on), with one simulation lemma
      per kind of step; [Progress] follows the holder of a lock to its release.
    - The query threads together ([PoolProps]): every history of dispatched tasks
      and of bytes sent is one of a server in which each request takes effect on
      a map at one moment between its dispatch and its answer
      ([server_linearizable]), and every dispatched request can be answered, with
      one answer each ([server_progress]).
    - The start ([Startup]): with a socket and memory, however the threads
      interleave, everything comes to rest after a fixed number of steps, with
      [main] in its joins and every thread in its loop; [main] reaches its joins
      when every thread has posted, though some may still be on their way into
      their loops. Without a socket it waits for ever.
    - The assign thread ([AssignSafety], [AssignProps]): on arbitrary bytes, with
      memory, the handler returns, aborts nowhere and gives a task away or
      destroys it exactly once; it exits exactly on an accepted [power halt] and
      leaves its memory exactly when a body is longer than its head says; the
      threads are served in turn; and the requests it loses.
    - The parser ([Protocol], [Grammar]): no access leaves its buffer, heads are
      read back, and what the parser returns for any head is what a grammar of
      request lines says ([parser_grammar]).
    - The locks ([RWLock]): a step relation over any number of threads, mutual
      exclusion as an invariant of the reachable states, no lost wake-up, and a
      writer that starves.
    - The allocator ([Slab]): chunks are disjoint and kept so, the class found is
      the smallest that fits, and reallocation keeps the contents. Under threads
      ([SlabRaces], [SlabRacesProps]) blocks stay apart and every call can return,
      but two threads that read the counter of the memory taken at the same time
      leave one of their two pages uncounted ([slab_counter_lost]).
    - The journal ([IndexLog]): what was appended is read back; failed writes.
    - The hashes and the checksum ([Crc32], [MHash], [BobHash]): the table of the
      checksum is the division by its polynomial; the variants of lookup3 agree;
      every access stays inside the key.
    - The queues ([QueueProps]): any history of calls on queues that share no item
      does to memory what the same calls do to lists.
    - The rest ([IoLayer], [Log], [Master]): which descriptors a connection leaves,
      what the counters hold, which messages fit the line buffer, which slaves a
      command line names, and how the master's coroutine ends on any bytes: what it answers
      and which bodies it frees.

    ** Bounds and fuel

    The loops of the parser have fuel 3 and 6, which [parser_run] shows to be
    enough. A turn of the event handler either reads at least one byte of the 512
    of a head, or leaves the head: [HANDLER_FUEL] is above twice 512 plus the last
    turns, and [handler_total] excludes running out. The loop over a body is
    bounded by the answers of the socket that are left; beyond them it spins. The
    hash loops recurse on the key, the slab search on the interval, [sync_headers]
    and the like on the number of files; the loops over a queue have as much fuel
    as there are items in memory. The storage theorems need room for one
    block more per update: [room] counts the slots below 2^32 that are left.

    ** Not modelled

    - The end of [execute_one_slave] in src/src/master_mirror.c: the code stops in
      the middle of a statement at line 225, and the file does not compile.
    - src/vendor/ (libev and a coroutine library) is third-party code.
    - In [Pool] and [Server] memory is never short, pipes take every pointer and a
      client is there to take its answer (what else happens is in the theorems on
      single calls: [body_allocation_aborts], [lost_client_aborts]); requests
      satisfy [request_ok], so that the storage can hold them; a turn of the
      assign thread, and what a query thread does to its own task, is one step.
      In [Interleave] an access is atomic, and the storage is neither opened,
      closed nor synchronised: the commands [sync] and [power] run when nobody else
      is inside of the storage ([AssignSafety], [Datanode], [Lifetime]). The
      allocator is not part of these runs: there an allocation is an answer.
    - The clock, the addresses of clients, the lines written to the log by other
      components, and functions that only print. *)

From Stdlib Require Import ZArith Lia.
From stdpp Require Import base numbers list gmap.

#[global] Open Scope Z_scope.

(** ** Machine integers

    A [w]-bit integer is a [Z]; the wrap-around of C's unsigned types is
    written out with [u8], [u32] and [u64], the two's complement conversion to
    the signed types with [i32] and [i64]. *)

Definition u8 (x : Z) : Z := x mod 2 ^ 8.
Definition u32 (x : Z) : Z := x mod 2 ^ 32.
Definition u64 (x : Z) : Z := x mod 2 ^ 64.
Definition i32 (x : Z) : Z := (x + 2 ^ 31) mod 2 ^ 32 - 2 ^ 31.
Definition i64 (x : Z) : Z := (x + 2 ^ 63) mod 2 ^ 64 - 2 ^ 63.

Definition in_range (w x : Z) : Prop := 0 <= x < 2 ^ w.
Abbreviation is_u8 := (in_range 8).
Abbreviation is_u32 := (in_range 32).
Abbreviation is_u64 := (in_range 64).

Definition bytes_ok (l : list Z) : Prop := Forall (in_range 8) l.

(** Little-endian encoding, the memory order of the x86-64 target. *)
Fixpoint le_split (n : nat) (z : Z) : list Z :=
  match n with
  | O => []
  | S n' => (z mod 256) :: le_split n' (z / 256)
  end.

Fixpoint le_combine (l : list Z) : Z :=
  match l with
  | [] => 0
  | b :: l' => b + 256 * le_combine l'
  end.

(** Overwriting [length d] bytes of [l] from position [n] (memcpy into an
    array); the caller guarantees that the bytes fit. *)
Definition splice (l : list Z) (n : nat) (d : list Z) : list Z :=
  take n l ++ d ++ drop (n + length d) l.

(** ** Lemmas on machine integers *)

Create HintDb word discriminated.

Ltac word_unfold :=
  unfold in_range, u8, u32, u64, i32, i64 in *.

(** [word] closes linear goals about wrap-around once the widths are numerals. *)
Ltac word :=
  word_unfold;
  change (2 ^ 8) with 256 in *; change (2 ^ 16) with 65536 in *;
  change (2 ^ 31) with 2147483648 in *; change (2 ^ 32) with 4294967296 in *;
  change (2 ^ 63) with 9223372036854775808 in *;
  change (2 ^ 64) with 18446744073709551616 in *;
  Z.div_mod_to_equations; lia.

Lemma u32_range x : is_u32 (u32 x).
Proof. word. Qed.
Lemma u64_range x : is_u64 (u64 x).
Proof. word. Qed.
Lemma u8_range x : is_u8 (u8 x).
Proof. word. Qed.
Lemma u32_small x : is_u32 x -> u32 x = x.
Proof. intros. apply Z.mod_small. exact H. Qed.
Lemma u64_small x : is_u64 x -> u64 x = x.
Proof. intros. apply Z.mod_small. exact H. Qed.
Lemma u8_small x : is_u8 x -> u8 x = x.
Proof. intros. apply Z.mod_small. exact H. Qed.
Lemma i32_small x : - 2 ^ 31 <= x < 2 ^ 31 -> i32 x = x.
Proof. word. Qed.
Lemma i64_small x : - 2 ^ 63 <= x < 2 ^ 63 -> i64 x = x.
Proof. word. Qed.

#[export] Hint Resolve u32_range u64_range u8_range : word.

(** ** Bit-level lemmas *)

Lemma in_range_bits w x :
  0 <= w -> 0 <= x -> (forall i, w <= i -> Z.testbit x i = false) -> in_range w x.
Proof.
  intros Hw Hx Hb. split; [done|].
  destruct (Z.eq_dec x 0) as [->|Hne]; [apply Z.pow_pos_nonneg; lia|].
  apply Z.log2_lt_pow2; [lia|].
  destruct (Z.lt_ge_cases (Z.log2 x) w) as [|Hge]; [done|].
  pose proof (Hb _ Hge) as Hf. rewrite Z.bit_log2 in Hf; [done|lia].
Qed.

Lemma bits_in_range w x i : in_range w x -> w <= i -> 0 <= w -> Z.testbit x i = false.
Proof.
  intros [Hx Hlt] Hi Hw.
  destruct (Z.eq_dec x 0) as [->|Hne]; [apply Z.bits_0|].
  apply Z.bits_above_log2; [done|].
  apply Z.lt_le_trans with w; [|done]. apply Z.log2_lt_pow2; lia.
Qed.

Lemma lxor_range w a b : 0 <= w -> in_range w a -> in_range w b -> in_range w (Z.lxor a b).
Proof.
  intros Hw Ha Hb. apply in_range_bits; [done| |].
  - apply Z.lxor_nonneg. unfold in_range in *. lia.
  - intros i Hi. rewrite Z.lxor_spec, (bits_in_range w a), (bits_in_range w b); auto.
Qed.

Lemma lor_range w a b : 0 <= w -> in_range w a -> in_range w b -> in_range w (Z.lor a b).
Proof.
  intros Hw Ha Hb. apply in_range_bits; [done| |].
  - apply Z.lor_nonneg. unfold in_range in *. lia.
  - intros i Hi. rewrite Z.lor_spec, (bits_in_range w a), (bits_in_range w b); auto.
Qed.

Lemma shiftr_range w a k : 0 <= k -> in_range w a -> in_range w (Z.shiftr a k).
Proof.
  intros Hk [Ha Hlt]. rewrite Z.shiftr_div_pow2 by done.
  assert (0 < 2 ^ k) by (apply Z.pow_pos_nonneg; lia).
  split; [apply Z.div_pos; lia|].
  apply Z.le_lt_trans with a; [|done]. apply Z.div_le_upper_bound; [done|nia].
Qed.

Lemma in_range_mono w w' a : 0 <= w <= w' -> in_range w a -> in_range w' a.
Proof.
  intros Hw [Ha Hlt]. split; [done|].
  apply Z.lt_le_trans with (2 ^ w); [done|]. apply Z.pow_le_mono_r; lia.
Qed.

Lemma lxor_cancel_r a b : Z.lxor (Z.lxor a b) b = a.
Proof. now rewrite Z.lxor_assoc, Z.lxor_nilpotent, Z.lxor_0_r. Qed.

Lemma lxor_inj_l a b c : Z.lxor a c = Z.lxor b c -> a = b.
Proof. intros H. rewrite <- (lxor_cancel_r a c), <- (lxor_cancel_r b c). now f_equal. Qed.

(** Disjoint bits: xor, or and addition agree. *)
Lemma lxor_shiftl_add a b k :
  0 <= k -> in_range k a -> 0 <= b -> Z.lxor a (Z.shiftl b k) = a + 2 ^ k * b.
Proof.
  intros Hk Ha Hb. rewrite Z.shiftl_mul_pow2 by done.
  rewrite (Z.mul_comm (2 ^ k)). symmetry. apply Z.add_nocarry_lxor.
  apply Z.bits_inj'; intros i Hi. rewrite Z.land_spec, Z.bits_0.
  destruct (Z.lt_ge_cases i k).
  - rewrite Z.mul_pow2_bits_low by done. apply andb_false_r.
  - rewrite (bits_in_range k a) by done. reflexivity.
Qed.

#[export] Hint Resolve lxor_range lor_range shiftr_range : word.
#[export] Hint Extern 1 (0 <= _) => lia : word.

(** ** Byte lists *)

(** Byte-list side conditions: split the list, use hypotheses, else compute. *)
Ltac solve_bytes :=
  repeat (apply Forall_cons_2 || apply Forall_nil_2);
  first [assumption | solve [auto with word] | unfold in_range; lia].

Lemma le_split_length n z : length (le_split n z) = n.
Proof. revert z; induction n; intros; cbn; [done|]. now rewrite IHn. Qed.

Lemma le_split_bytes n z : bytes_ok (le_split n z).
Proof.
  revert z; induction n; intros; cbn; constructor; [word|apply IHn].
Qed.

Lemma le_combine_split n z : le_combine (le_split n z) = z mod 2 ^ (8 * Z.of_nat n).
Proof.
  revert z; induction n; intros z; cbn [le_split le_combine].
  - now rewrite Z.mod_1_r.
  - rewrite IHn. replace (8 * Z.of_nat (S n)) with (8 + 8 * Z.of_nat n) by lia.
    rewrite Z.pow_add_r by lia. change (2 ^ 8) with 256.
    rewrite Z.rem_mul_r by (try apply Z.pow_nonzero; lia). lia.
Qed.

Lemma le_split_combine l : bytes_ok l -> le_split (length l) (le_combine l) = l.
Proof.
  induction l as [|b l IH]; intros Hl; [done|]. inversion Hl as [|?? Hb Hl']; subst.
  cbn [length le_split le_combine]. unfold in_range in Hb. change (2 ^ 8) with 256 in Hb.
  rewrite (Z.mul_comm 256), Z.mod_add, Z.div_add by lia.
  rewrite Z.mod_small, Z.div_small, Z.add_0_l, IH by done. done.
Qed.

Lemma le_combine_range l : bytes_ok l -> in_range (8 * Z.of_nat (length l)) (le_combine l).
Proof.
  intros Hl. rewrite <- (le_split_combine l Hl) at 2. rewrite le_combine_split.
  apply Z.mod_pos_bound, Z.pow_pos_nonneg; lia.
Qed.

Lemma le_combine_inj l1 l2 :
  bytes_ok l1 -> bytes_ok l2 -> length l1 = length l2 ->
  le_combine l1 = le_combine l2 -> l1 = l2.
Proof.
  intros H1 H2 Hl He. rewrite <- (le_split_combine l1 H1), <- (le_split_combine l2 H2).
  now rewrite Hl, He.
Qed.

Lemma le_combine_app l1 l2 :
  le_combine (l1 ++ l2) = le_combine l1 + 2 ^ (8 * Z.of_nat (length l1)) * le_combine l2.
Proof.
  induction l1 as [|b l1 IH]; cbn [app le_combine length]; [lia|].
  rewrite IH. replace (8 * Z.of_nat (S (length l1))) with (8 + 8 * Z.of_nat (length l1)) by lia.
  rewrite Z.pow_add_r by lia. change (2 ^ 8) with 256. lia.
Qed.

Lemma bytes_ok_app l1 l2 : bytes_ok (l1 ++ l2) <-> bytes_ok l1 /\ bytes_ok l2.
Proof. apply Forall_app. Qed.

Lemma splice_length l n d : (n + length d <= length l)%nat -> length (splice l n d) = length l.
Proof. intros. unfold splice. rewrite !length_app, length_take, length_drop. lia. Qed.

Lemma splice_read l n d :
  (n + length d <= length l)%nat -> take (length d) (drop n (splice l n d)) = d.
Proof.
  intros. unfold splice. rewrite drop_app_ge by (rewrite length_take; lia).
  rewrite length_take, Nat.min_l by lia. rewrite Nat.sub_diag, drop_0.
  rewrite take_app_le by lia. now rewrite take_ge by lia.
Qed.

Lemma splice_take l n d m : (m <= n)%nat -> (n <= length l)%nat -> take m (splice l n d) = take m l.
Proof.
  intros. unfold splice. rewrite take_app_le by (rewrite length_take; lia).
  rewrite take_take. now rewrite Nat.min_l by lia.
Qed.

#[export] Hint Resolve le_split_bytes : word.

(** ** Lists up to the order of their items *)

Lemma list_focus {A} (l : list A) i x :
  l !! i = Some x -> l ≡ₚ x :: delete i l /\ forall y, <[i := y]> l ≡ₚ y :: delete i l.
Proof.
  intros Hi. destruct (list_elem_of_split_length l i x Hi) as (l1 & l2 & -> & ->). rewrite delete_middle.
  split; [by rewrite Permutation_middle|]. intros y. rewrite <- (Nat.add_0_r (length l1)), insert_app_r. cbn.
  by rewrite Permutation_middle.
Qed.

Lemma mbind_focus {A B} (f : A -> list B) (l : list A) i x :
  l !! i = Some x -> exists rest, l ≫= f ≡ₚ f x ++ rest /\ forall y, <[i := y]> l ≫= f ≡ₚ f y ++ rest.
Proof.
  intros Hi. destruct (list_focus l i x Hi) as [H1 H2]. exists (delete i l ≫= f). split; [by rewrite H1 at 1|].
  intros y. by rewrite H2.
Qed.

Lemma omap_focus {A B} (f : A -> option B) (l : list A) i x :
  l !! i = Some x -> exists rest, omap f l ≡ₚ option_list (f x) ++ rest /\
    forall y, omap f (<[i := y]> l) ≡ₚ option_list (f y) ++ rest.
Proof.
  intros Hi. destruct (list_focus l i x Hi) as [H1 H2]. exists (omap f (delete i l)).
  assert (Ho : forall y, omap f (y :: delete i l) = option_list (f y) ++ omap f (delete i l)) by (intros y; cbn; by destruct (f y)).
  split; [by rewrite <- Ho, H1 at 1|]. intros y. by rewrite <- Ho, H2.
Qed.
