(* ===== verification/CString.v ===== *)
(** C strings: byte buffers with checked accesses, and the functions of
    [<string.h>] and [<stdlib.h>] that the parser calls, as glibc implements
    them in the C locale. A pointer into a buffer is its index; [None] is an
    access outside of the buffer. *)

From Stdlib Require Import ZArith Lia String Ascii.
From stdpp Require Import base numbers list.
From S2P Require Import Prelude.

Module CString.

(** The bytes of a literal. *)
Definition str (s : string) : list Z := (fun a => Z.of_nat (nat_of_ascii a)) <$> list_ascii_of_string s.
Definition CR : Z := 13.
Definition LF : Z := 10.
Definition SP : Z := 32.

(** [strcasecmp(object, name) == 0] for a lower-case [name]. *)
Definition tolower (c : Z) : Z := if (65 <=? c) && (c <=? 90) then c + 32 else c.
Definition is_word (name object : list Z) : bool := bool_decide (tolower <$> object = name).

(** ** Buffers *)

Definition rd (b : list Z) (p : Z) : option Z := if p <? 0 then None else b !! Z.to_nat p.
Definition wr (b : list Z) (p v : Z) : option (list Z) :=
  if (p <? 0) || (Z.of_nat (length b) <=? p) then None else Some (<[Z.to_nat p := v]> b).
Definition from (b : list Z) (p : Z) : option (list Z) := if p <? 0 then None else Some (drop (Z.to_nat p) b).

(** [l] written at [off]. *)
Definition write_at (block : list Z) (off : Z) (l : list Z) : option (list Z) :=
  if (0 <=? off) && (off + Z.of_nat (length l) <=? Z.of_nat (length block))
  then Some (splice block (Z.to_nat off) l) else None.

(** The number of bytes before the first one that satisfies [stop]. *)
Fixpoint count_until (stop : Z -> bool) (l : list Z) : option Z :=
  match l with
  | [] => None
  | c :: l => if stop c then Some 0 else n ← count_until stop l; Some (n + 1)
  end.
Definition is_nul (c : Z) : bool := c =? 0.
Definition not_sp (c : Z) : bool := negb (c =? SP).
Definition sp_or_nul (c : Z) : bool := (c =? SP) || (c =? 0).

Definition strlen (b : list Z) (p : Z) : option Z := l ← from b p; count_until is_nul l.
(** The string at [p]. *)
Definition cstr (b : list Z) (p : Z) : option (list Z) :=
  n ← strlen b p; Some (take (Z.to_nat n) (drop (Z.to_nat p) b)).

(** [strtok_r(s, ' ', &saveptr)]: the buffer, the token and [saveptr]. *)
Definition strtok_r (b : list Z) (s : Z) : option (list Z * option Z * Z) :=
  c ← rd b s;
  if c =? 0 then Some (b, None, s)
  else
    l ← from b s; n ← count_until not_sp l;
    c ← rd b (s + n);
    if c =? 0 then Some (b, None, s + n)
    else
      l ← from b (s + n); k ← count_until sp_or_nul l;
      c ← rd b (s + n + k);
      if c =? 0 then Some (b, Some (s + n), s + n + k)
      else b ← wr b (s + n + k) 0; Some (b, Some (s + n), s + n + k + 1).

(** [strstr(s, CR LF)]; reading on after the last byte is outside. *)
Fixpoint strstr_crlf (l : list Z) (i : Z) : option (option Z) :=
  match l with
  | [] => None
  | c :: l =>
      if c =? 0 then Some None
      else if c =? CR then
        match l with
        | [] => None
        | c' :: _ => if c' =? LF then Some (Some i) else strstr_crlf l (i + 1)
        end
      else strstr_crlf l (i + 1)
  end.

(** ** Numbers *)

Definition is_space (c : Z) : bool := (c =? 32) || ((9 <=? c) && (c <=? 13)).
Definition is_digit (c : Z) : bool := (48 <=? c) && (c <=? 57).
Fixpoint skip_space (l : list Z) : list Z :=
  match l with c :: l' => if is_space c then skip_space l' else l | [] => [] end.
Fixpoint digits (l : list Z) (acc : Z) : Z :=
  match l with c :: l' => if is_digit c then digits l' (10 * acc + (c - 48)) else acc | [] => acc end.
Definition clamp (x : Z) : Z := Z.max (- 2 ^ 63) (Z.min (2 ^ 63 - 1) x).
(** [strtol(s, NULL, 10)] saturates. *)
Definition strtol (l : list Z) : Z :=
  clamp (match skip_space l with
         | c :: l' => if c =? 45 then - digits l' 0 else if c =? 43 then digits l' 0 else digits (c :: l') 0
         | [] => 0
         end).
Definition atol (l : list Z) : Z := strtol l.
Definition atoi (l : list Z) : Z := i32 (strtol l).

(** [%d] and [%zu]: decimal digits, at most [fuel]. *)
Fixpoint dec_digits (fuel : nat) (n : Z) (acc : list Z) : list Z :=
  match fuel with
  | O => acc
  | S fuel => let acc := (48 + n mod 10) :: acc in if n / 10 =? 0 then acc else dec_digits fuel (n / 10) acc
  end.
Definition print_dec (n : Z) : list Z :=
  if n <? 0 then 45 :: dec_digits 20 (- n) [] else dec_digits 20 n [].

(** ** Buffers that end in a NUL *)

(** [n] bytes, the last of them NUL: no string function leaves the buffer. *)
Definition terminated (n : Z) (b : list Z) : Prop :=
  Z.of_nat (length b) = n /\ rd b (n - 1) = Some 0.

Lemma rd_some b p : 0 <= p < Z.of_nat (length b) -> exists c, rd b p = Some c.
Proof.
  intros Hp. unfold rd. rewrite (proj2 (Z.ltb_ge _ _)) by lia. apply lookup_lt_is_Some_2. lia.
Qed.

Lemma write_at_some block off (l : list Z) :
  0 <= off -> off + Z.of_nat (length l) <= Z.of_nat (length block) ->
  exists b, write_at block off l = Some b /\ length b = length block.
Proof.
  intros H1 H2. unfold write_at. rewrite (proj2 (Z.leb_le _ _)), (proj2 (Z.leb_le _ _)) by lia. cbn [andb].
  eexists. split; [reflexivity|]. apply splice_length. lia.
Qed.

Lemma wr_terminated n b p : terminated n b -> 0 <= p < n -> exists b', wr b p 0 = Some b' /\ terminated n b'.
Proof.
  intros [Hl Ht] Hp. unfold wr. rewrite (proj2 (Z.ltb_ge _ _)), (proj2 (Z.leb_gt _ _)) by lia. cbn [orb].
  eexists. split; [done|]. split; [now rewrite length_insert|].
  unfold rd in *. destruct (Z.ltb_spec (n - 1) 0); [done|].
  destruct (decide (Z.to_nat p = Z.to_nat (n - 1))) as [->|Hne];
    [apply list_lookup_insert_eq; lia|now rewrite list_lookup_insert_ne by done].
Qed.

Lemma count_until_some stop l j c :
  l !! j = Some c -> stop c = true ->
  exists n c', count_until stop l = Some n /\ 0 <= n <= Z.of_nat j /\ l !! Z.to_nat n = Some c' /\ stop c' = true /\
    (forall i x, (i < Z.to_nat n)%nat -> l !! i = Some x -> stop x = false).
Proof.
  revert j; induction l as [|x l IH]; intros j Hj Hs; [done|]. cbn [count_until].
  destruct (stop x) eqn:Hx; [exists 0, x; split; [done|]; split; [lia|]; split; [done|]; split; [done|]; intros; lia|].
  destruct j as [|j]; [cbn in Hj; congruence|].
  destruct (IH j Hj Hs) as (n & c' & E & Hn & Hc & Hsc & Hall). rewrite E. exists (n + 1), c'.
  split; [done|]. split; [lia|]. replace (Z.to_nat (n + 1)) with (S (Z.to_nat n)) by lia. split; [done|]. split; [done|].
  intros [|i] y Hi Hy; [cbn in Hy; congruence|]. apply (Hall i y); [lia|done].
Qed.

Lemma count_terminated stop n b p :
  terminated n b -> stop 0 = true -> 0 <= p < n ->
  exists l k c, from b p = Some l /\ count_until stop l = Some k /\ 0 <= k /\ p + k < n /\
    rd b (p + k) = Some c /\ stop c = true /\
    (forall i x, p <= i < p + k -> rd b i = Some x -> stop x = false).
Proof.
  intros [Hl Ht] Hs Hp. unfold from. rewrite (proj2 (Z.ltb_ge _ _)) by lia.
  unfold rd in Ht. rewrite (proj2 (Z.ltb_ge _ _)) in Ht by lia.
  destruct (count_until_some stop (drop (Z.to_nat p) b) (Z.to_nat (n - 1) - Z.to_nat p) 0)
    as (k & c & E & Hk & Hc & Hsc & Hall); [|done|].
  { rewrite lookup_drop, Nat.add_comm, Nat.sub_add by lia. done. }
  exists (drop (Z.to_nat p) b), k, c. split; [done|]. split; [done|]. split; [lia|]. split; [lia|].
  unfold rd. rewrite (proj2 (Z.ltb_ge _ _)) by lia. rewrite lookup_drop in Hc.
  replace (Z.to_nat (p + k)) with (Z.to_nat p + Z.to_nat k)%nat by lia. split; [done|]. split; [done|].
  intros i x Hi. rewrite (proj2 (Z.ltb_ge _ _)) by lia. intros Hx. apply (Hall (Z.to_nat i - Z.to_nat p)%nat x); [lia|].
  rewrite lookup_drop. now replace (Z.to_nat p + (Z.to_nat i - Z.to_nat p))%nat with (Z.to_nat i) by lia.
Qed.

Lemma strlen_terminated n b p :
  terminated n b -> 0 <= p < n ->
  exists k, strlen b p = Some k /\ 0 <= k /\ p + k < n /\ rd b (p + k) = Some 0 /\
    cstr b p = Some (take (Z.to_nat k) (drop (Z.to_nat p) b)).
Proof.
  intros Ht Hp. destruct (count_terminated is_nul n b p Ht eq_refl Hp) as (l & k & c & E1 & E2 & Hk & Hpk & Hc & Hs & _).
  assert (E : strlen b p = Some k) by (unfold strlen; rewrite E1; exact E2).
  exists k. split; [done|]. split; [done|]. split; [done|].
  apply Z.eqb_eq in Hs. subst c. split; [done|]. unfold cstr. now rewrite E.
Qed.

Lemma strtok_terminated n b s :
  terminated n b -> 0 <= s < n ->
  exists b' t s', strtok_r b s = Some (b', t, s') /\ terminated n b' /\ s <= s' < n /\
    (forall p, t = Some p -> s <= p < s' /\ exists k, strlen b' p = Some k /\ p + k <= s').
Proof.
  intros Ht Hs. unfold strtok_r. destruct (rd_some b s) as [c0 E0]; [destruct Ht; lia|]. rewrite E0. cbn [mbind option_bind].
  destruct (Z.eqb_spec c0 0) as [->|Hc0].
  { exists b, None, s. split; [done|]. split; [done|]. split; [lia|done]. }
  destruct (count_terminated not_sp n b s Ht eq_refl Hs) as (l & k & c & E1 & E2 & Hk & Hpk & Hc & Hsc & _).
  rewrite E1. cbn [mbind option_bind]. rewrite E2. cbn [mbind option_bind]. rewrite Hc. cbn [mbind option_bind].
  destruct (Z.eqb_spec c 0) as [->|Hc0'].
  { exists b, None, (s + k). split; [done|]. split; [done|]. split; [lia|done]. }
  destruct (count_terminated sp_or_nul n b (s + k) Ht eq_refl ltac:(lia))
    as (l' & k' & c' & E1' & E2' & Hk' & Hpk' & Hc' & Hsc' & _).
  rewrite E1'. cbn [mbind option_bind]. rewrite E2'. cbn [mbind option_bind]. rewrite Hc'. cbn [mbind option_bind].
  assert (Hpos : 0 < k').
  { destruct (Z.eq_dec k' 0) as [->|]; [|lia]. rewrite Z.add_0_r in Hc'. rewrite Hc in Hc'. injection Hc' as <-.
    unfold sp_or_nul, not_sp in *. destruct (Z.eqb_spec c SP); [discriminate|].
    destruct (Z.eqb_spec c 0); [done|discriminate]. }
  destruct (Z.eqb_spec c' 0) as [->|Hne].
  - exists b, (Some (s + k)), (s + k + k'). split; [done|]. split; [done|]. split; [lia|].
    intros p [= <-]. split; [lia|].
    destruct (strlen_terminated n b (s + k) Ht ltac:(lia)) as (len & El & Hlen & Hlt & Hz & _).
    exists len. split; [done|]. destruct (Z.le_gt_cases len k'); [lia|exfalso].
    unfold strlen in El. rewrite E1' in El. cbn [mbind option_bind] in El.
    destruct (count_terminated is_nul n b (s + k) Ht eq_refl ltac:(lia)) as (l2 & k2 & c2 & F1 & F2 & _ & _ & _ & _ & F3).
    rewrite E1' in F1. injection F1 as <-. rewrite El in F2. injection F2 as <-.
    specialize (F3 (s + k + k') 0 ltac:(lia) Hc'). done.
  - destruct (wr_terminated n b (s + k + k') Ht ltac:(lia)) as (b' & Eb & Ht'). rewrite Eb. cbn [mbind option_bind].
    exists b', (Some (s + k)), (s + k + k' + 1). split; [done|]. split; [done|].
    assert (Hend : s + k + k' + 1 < n).
    { destruct (Z.eq_dec (s + k + k') (n - 1)) as [E|]; [|lia]. destruct Ht as [_ Hlast]. rewrite E in Hc'. congruence. }
    split; [lia|]. intros p [= <-]. split; [lia|].
    destruct (strlen_terminated n b' (s + k) Ht' ltac:(lia)) as (len & El & Hlen & Hlt & Hz & _).
    exists len. split; [done|]. destruct (Z.le_gt_cases len (k' + 1)); [lia|exfalso].
    destruct (count_terminated is_nul n b' (s + k) Ht' eq_refl ltac:(lia)) as (l2 & k2 & c2 & F1 & F2 & _ & _ & _ & _ & F3).
    unfold strlen in El. rewrite F1 in El. cbn [mbind option_bind] in El. rewrite El in F2. injection F2 as <-.
    assert (Hnul : rd b' (s + k + k') = Some 0).
    { unfold wr in Eb. destruct (_ || _) eqn:Eo in Eb; [done|]. injection Eb as <-. unfold rd.
      rewrite (proj2 (Z.ltb_ge _ _)) by lia. apply list_lookup_insert_eq. destruct Ht; lia. }
    specialize (F3 (s + k + k') 0 ltac:(lia) Hnul). done.
Qed.

(** ** Buffers whose contents are known *)

(** A token: no NUL, no space, not empty. *)
Definition is_token (s : list Z) : Prop := s <> [] /\ Forall (fun c => c <> 0 /\ c <> SP) s.

Lemma from_app pre l : from (pre ++ l) (Z.of_nat (length pre)) = Some l.
Proof. unfold from. rewrite (proj2 (Z.ltb_ge _ _)) by lia. now rewrite Nat2Z.id, drop_app_length. Qed.

Lemma rd_app pre c l : rd (pre ++ c :: l) (Z.of_nat (length pre)) = Some c.
Proof. unfold rd. rewrite (proj2 (Z.ltb_ge _ _)) by lia. rewrite Nat2Z.id. now rewrite list_lookup_middle by done. Qed.

Lemma wr_app pre c l v : wr (pre ++ c :: l) (Z.of_nat (length pre)) v = Some (pre ++ v :: l).
Proof.
  unfold wr. rewrite length_app. cbn [length]. rewrite (proj2 (Z.ltb_ge _ _)), (proj2 (Z.leb_gt _ _)) by lia.
  cbn [orb]. rewrite Nat2Z.id. now rewrite insert_app_r_alt, Nat.sub_diag by lia.
Qed.

Lemma count_until_app stop a x rest :
  Forall (fun c => stop c = false) a -> stop x = true ->
  count_until stop (a ++ x :: rest) = Some (Z.of_nat (length a)).
Proof.
  intros Ha Hx. induction Ha as [|c a Hc _ IH]; cbn [app count_until length]; [now rewrite Hx|].
  rewrite Hc, IH. cbn [mbind option_bind]. f_equal. lia.
Qed.

Lemma strlen_app pre s rest :
  Forall (fun c => c <> 0) s -> strlen (pre ++ s ++ 0 :: rest) (Z.of_nat (length pre)) = Some (Z.of_nat (length s)).
Proof.
  intros Hs. unfold strlen. rewrite from_app. cbn [mbind option_bind]. apply count_until_app; [|done].
  eapply Forall_impl; [exact Hs|]. intros c Hc. now apply Z.eqb_neq.
Qed.

Lemma cstr_app pre s rest :
  Forall (fun c => c <> 0) s -> cstr (pre ++ s ++ 0 :: rest) (Z.of_nat (length pre)) = Some s.
Proof.
  intros Hs. unfold cstr. rewrite strlen_app by done. cbn [mbind option_bind].
  now rewrite !Nat2Z.id, drop_app_length, take_app_length.
Qed.

Lemma token_nonzero s : is_token s -> Forall (fun c => c <> 0) s.
Proof. intros [_ Hs]. eapply Forall_impl; [exact Hs|]. now intros c []. Qed.

(** The next token, up to a space or the end of the string. *)
Lemma strtok_app pre s sep rest :
  is_token s -> sep = SP \/ sep = 0 ->
  strtok_r (pre ++ s ++ sep :: rest) (Z.of_nat (length pre)) =
  Some (pre ++ s ++ 0 :: rest, Some (Z.of_nat (length pre)),
        Z.of_nat (length pre) + Z.of_nat (length s) + (if sep =? SP then 1 else 0)).
Proof.
  intros [Hne Hs] Hsep. destruct s as [|c s]; [done|]. inversion Hs as [|?? [Hc0 Hc1] Hs']; subst.
  unfold strtok_r. cbn [app]. rewrite rd_app. cbn [mbind option_bind]. rewrite (proj2 (Z.eqb_neq c 0)) by done.
  rewrite from_app. cbn [mbind option_bind count_until]. unfold not_sp at 1.
  rewrite (proj2 (Z.eqb_neq c SP)) by done. cbn [negb mbind option_bind]. rewrite Z.add_0_r, rd_app.
  cbn [mbind option_bind]. rewrite (proj2 (Z.eqb_neq c 0)) by done. rewrite from_app. cbn [mbind option_bind].
  change (c :: s ++ sep :: rest) with ((c :: s) ++ sep :: rest).
  rewrite (count_until_app sp_or_nul (c :: s) sep rest).
  2: { eapply Forall_impl; [exact Hs|]. intros x [Hx0 Hx1]. unfold sp_or_nul.
       now rewrite (proj2 (Z.eqb_neq x SP)), (proj2 (Z.eqb_neq x 0)) by done. }
  2: { destruct Hsep as [-> | ->]; reflexivity. }
  cbn [mbind option_bind]. rewrite app_assoc, <- Nat2Z.inj_add, <- length_app, rd_app. cbn [mbind option_bind].
  destruct Hsep as [-> | ->]; cbn [SP Z.eqb Pos.eqb].
  - rewrite wr_app. cbn [mbind option_bind]. now rewrite <- app_assoc.
  - now rewrite <- app_assoc, Z.add_0_r.
Qed.

(** *** Numbers *)

Lemma digits_app fuel n acc :
  0 <= n < 10 ^ Z.of_nat fuel -> (0 < fuel)%nat ->
  exists ds, dec_digits fuel n acc = ds ++ acc /\ ds <> [] /\ Forall (fun c => 48 <= c <= 57) ds /\
    forall a rest, digits (ds ++ rest) a = digits rest (a * 10 ^ Z.of_nat (length ds) + n).
Proof.
  revert n acc; induction fuel as [|fuel IH]; intros n acc Hn Hf; [lia|]. cbn [dec_digits].
  pose proof (Z.mod_pos_bound n 10 ltac:(lia)) as Hm. pose proof (Z.div_mod n 10 ltac:(lia)) as Hd.
  assert (Hdig : forall a rest, digits (48 + n mod 10 :: rest) a = digits rest (10 * a + n mod 10)).
  { intros a rest. cbn [digits]. unfold is_digit.
    rewrite (proj2 (Z.leb_le _ _)), (proj2 (Z.leb_le _ _)) by lia. cbn [andb]. f_equal. lia. }
  destruct (Z.eqb_spec (n / 10) 0) as [E|E].
  - exists [48 + n mod 10]. split; [done|]. split; [done|]. split; [repeat constructor; lia|].
    intros a rest. cbn [app length]. rewrite Hdig. f_equal. change (10 ^ Z.of_nat 1) with 10. lia.
  - destruct fuel as [|fuel]; [change (10 ^ Z.of_nat 1) with 10 in Hn; rewrite Z.div_small in E by lia; done|].
    destruct (IH (n / 10) ((48 + n mod 10) :: acc)) as (ds & E1 & Hne & Hds & Hall); [|lia|].
    { split; [apply Z.div_pos; lia|]. apply Z.div_lt_upper_bound; [lia|].
      replace (Z.of_nat (S (S fuel))) with (1 + Z.of_nat (S fuel)) in Hn by lia.
      rewrite Z.pow_add_r in Hn by lia. lia. }
    exists (ds ++ [48 + n mod 10]). split; [now rewrite E1, <- app_assoc|]. split; [by destruct ds|].
    split; [apply Forall_app; split; [done|repeat constructor; lia]|].
    intros a rest. rewrite <- app_assoc. cbn [app]. rewrite Hall, Hdig, length_app. cbn [length]. f_equal.
    replace (Z.of_nat (length ds + 1)) with (Z.of_nat (length ds) + 1) by lia.
    rewrite Z.pow_add_r by lia. lia.
Qed.

Lemma print_dec_digits n :
  0 <= n < 10 ^ 20 ->
  exists c ds, dec_digits 20 n [] = c :: ds /\ Forall (fun c => 48 <= c <= 57) (c :: ds) /\ digits (c :: ds) 0 = n.
Proof.
  intros Hn. destruct (digits_app 20 n [] Hn ltac:(lia)) as (ds & E & Hne & Hds & Hall).
  rewrite app_nil_r in E. destruct ds as [|c ds]; [done|]. exists c, ds. split; [done|]. split; [done|].
  specialize (Hall 0 []). rewrite app_nil_r in Hall. rewrite Hall. cbn [digits]. lia.
Qed.

Lemma atol_print_dec n : - 2 ^ 63 <= n < 2 ^ 63 -> atol (print_dec n) = n.
Proof.
  intros Hn. change (2 ^ 63) with 9223372036854775808 in Hn. unfold atol, strtol, print_dec.
  assert (Hclamp : forall x, - 2 ^ 63 <= x < 2 ^ 63 -> clamp x = x) by (unfold clamp; lia).
  change (2 ^ 63) with 9223372036854775808 in Hclamp.
  destruct (Z.ltb_spec n 0) as [Hneg|Hpos].
  - destruct (print_dec_digits (- n)) as (c & ds & E & _ & Hd); [change (10 ^ 20) with 100000000000000000000; lia|].
    rewrite E. cbn [skip_space is_space Z.eqb Pos.eqb Z.leb Z.compare Pos.compare Pos.compare_cont andb orb].
    rewrite Hd, Hclamp; lia.
  - destruct (print_dec_digits n) as (c & ds & E & Hc & Hd); [change (10 ^ 20) with 100000000000000000000; lia|].
    rewrite E. pose proof (Forall_inv Hc) as Hc0. cbn beta in Hc0. cbn [skip_space]. unfold is_space.
    rewrite (proj2 (Z.eqb_neq c 32)), (proj2 (Z.leb_gt c 13)) by lia. rewrite andb_false_r. cbn [orb].
    rewrite (proj2 (Z.eqb_neq c 45)), (proj2 (Z.eqb_neq c 43)) by lia. rewrite Hd, Hclamp; lia.
Qed.

Lemma atoi_print_dec n : - 2 ^ 31 <= n < 2 ^ 31 -> atoi (print_dec n) = n.
Proof. intros Hn. unfold atoi. fold (atol (print_dec n)). rewrite atol_print_dec by lia. now apply i32_small. Qed.

Lemma print_dec_token n : - 10 ^ 19 < n < 10 ^ 19 -> is_token (print_dec n).
Proof.
  intros Hn. change (10 ^ 19) with 10000000000000000000 in Hn. unfold print_dec.
  assert (Hdig : forall l, Forall (fun c => 48 <= c <= 57) l -> Forall (fun c => c <> 0 /\ c <> SP) l).
  { intros l Hl. eapply Forall_impl; [exact Hl|]. intros c Hc. unfold SP. cbn beta in Hc. lia. }
  destruct (Z.ltb_spec n 0) as [Hneg|Hpos].
  - destruct (print_dec_digits (- n)) as (c & ds & E & Hc & _); [change (10 ^ 20) with 100000000000000000000; lia|].
    rewrite E. split; [done|]. constructor; [unfold SP; lia|]. now apply Hdig.
  - destruct (print_dec_digits n) as (c & ds & E & Hc & _); [change (10 ^ 20) with 100000000000000000000; lia|].
    rewrite E. split; [done|]. now apply Hdig.
Qed.

Lemma dec_digits_length fuel n acc : (length (dec_digits fuel n acc) <= fuel + length acc)%nat.
Proof.
  revert n acc; induction fuel as [|fuel IH]; intros n acc; cbn [dec_digits]; [lia|].
  destruct (n / 10 =? 0); [cbn; lia|]. etransitivity; [apply IH|]. cbn. lia.
Qed.

(** At most 21 characters, digits or a sign. *)
Lemma print_dec_shape n :
  - 10 ^ 19 < n < 10 ^ 19 -> Forall (fun c => 45 <= c <= 57) (print_dec n) /\ (length (print_dec n) <= 21)%nat.
Proof.
  intros Hn. change (10 ^ 19) with 10000000000000000000 in Hn. unfold print_dec.
  assert (Hdig : forall l, Forall (fun c => 48 <= c <= 57) l -> Forall (fun c => 45 <= c <= 57) l).
  { intros l Hl. eapply Forall_impl; [exact Hl|]. cbn. lia. }
  destruct (Z.ltb_spec n 0) as [Hneg|Hpos].
  - destruct (print_dec_digits (- n)) as (c & ds & E & Hc & _); [change (10 ^ 20) with 100000000000000000000; lia|].
    pose proof (dec_digits_length 20 (- n) []) as Hl. rewrite E in *. cbn in Hl. split; [|cbn; lia].
    constructor; [lia|]. now apply Hdig.
  - destruct (print_dec_digits n) as (c & ds & E & Hc & _); [change (10 ^ 20) with 100000000000000000000; lia|].
    pose proof (dec_digits_length 20 n []) as Hl. rewrite E in *. cbn in Hl. split; [|cbn; lia]. now apply Hdig.
Qed.

End CString.
