(* ===== verification/Crc32.v ===== *)
(** CRC-32 of [src/src/crc32.c]: the 256-entry table, the table-driven loop
    [crc32_calc] that fills [index_value_t.crc32] and the header of every
    journal block, the bit-by-bit definition of the same checksum, and what the
    checksum detects. *)

From Stdlib Require Import ZArith Lia.
From stdpp Require Import base numbers list.
From S2P Require Import Prelude.

Module Crc32.

(** [static uint32_t crc32_tab[256]]. *)
Definition crc32_tab : list Z :=
  [
   0x00000000; 0x77073096; 0xee0e612c; 0x990951ba; 0x076dc419; 0x706af48f;
   0xe963a535; 0x9e6495a3; 0x0edb8832; 0x79dcb8a4; 0xe0d5e91e; 0x97d2d988;
   0x09b64c2b; 0x7eb17cbd; 0xe7b82d07; 0x90bf1d91; 0x1db71064; 0x6ab020f2;
   0xf3b97148; 0x84be41de; 0x1adad47d; 0x6ddde4eb; 0xf4d4b551; 0x83d385c7;
   0x136c9856; 0x646ba8c0; 0xfd62f97a; 0x8a65c9ec; 0x14015c4f; 0x63066cd9;
   0xfa0f3d63; 0x8d080df5; 0x3b6e20c8; 0x4c69105e; 0xd56041e4; 0xa2677172;
   0x3c03e4d1; 0x4b04d447; 0xd20d85fd; 0xa50ab56b; 0x35b5a8fa; 0x42b2986c;
   0xdbbbc9d6; 0xacbcf940; 0x32d86ce3; 0x45df5c75; 0xdcd60dcf; 0xabd13d59;
   0x26d930ac; 0x51de003a; 0xc8d75180; 0xbfd06116; 0x21b4f4b5; 0x56b3c423;
   0xcfba9599; 0xb8bda50f; 0x2802b89e; 0x5f058808; 0xc60cd9b2; 0xb10be924;
   0x2f6f7c87; 0x58684c11; 0xc1611dab; 0xb6662d3d; 0x76dc4190; 0x01db7106;
   0x98d220bc; 0xefd5102a; 0x71b18589; 0x06b6b51f; 0x9fbfe4a5; 0xe8b8d433;
   0x7807c9a2; 0x0f00f934; 0x9609a88e; 0xe10e9818; 0x7f6a0dbb; 0x086d3d2d;
   0x91646c97; 0xe6635c01; 0x6b6b51f4; 0x1c6c6162; 0x856530d8; 0xf262004e;
   0x6c0695ed; 0x1b01a57b; 0x8208f4c1; 0xf50fc457; 0x65b0d9c6; 0x12b7e950;
   0x8bbeb8ea; 0xfcb9887c; 0x62dd1ddf; 0x15da2d49; 0x8cd37cf3; 0xfbd44c65;
   0x4db26158; 0x3ab551ce; 0xa3bc0074; 0xd4bb30e2; 0x4adfa541; 0x3dd895d7;
   0xa4d1c46d; 0xd3d6f4fb; 0x4369e96a; 0x346ed9fc; 0xad678846; 0xda60b8d0;
   0x44042d73; 0x33031de5; 0xaa0a4c5f; 0xdd0d7cc9; 0x5005713c; 0x270241aa;
   0xbe0b1010; 0xc90c2086; 0x5768b525; 0x206f85b3; 0xb966d409; 0xce61e49f;
   0x5edef90e; 0x29d9c998; 0xb0d09822; 0xc7d7a8b4; 0x59b33d17; 0x2eb40d81;
   0xb7bd5c3b; 0xc0ba6cad; 0xedb88320; 0x9abfb3b6; 0x03b6e20c; 0x74b1d29a;
   0xead54739; 0x9dd277af; 0x04db2615; 0x73dc1683; 0xe3630b12; 0x94643b84;
   0x0d6d6a3e; 0x7a6a5aa8; 0xe40ecf0b; 0x9309ff9d; 0x0a00ae27; 0x7d079eb1;
   0xf00f9344; 0x8708a3d2; 0x1e01f268; 0x6906c2fe; 0xf762575d; 0x806567cb;
   0x196c3671; 0x6e6b06e7; 0xfed41b76; 0x89d32be0; 0x10da7a5a; 0x67dd4acc;
   0xf9b9df6f; 0x8ebeeff9; 0x17b7be43; 0x60b08ed5; 0xd6d6a3e8; 0xa1d1937e;
   0x38d8c2c4; 0x4fdff252; 0xd1bb67f1; 0xa6bc5767; 0x3fb506dd; 0x48b2364b;
   0xd80d2bda; 0xaf0a1b4c; 0x36034af6; 0x41047a60; 0xdf60efc3; 0xa867df55;
   0x316e8eef; 0x4669be79; 0xcb61b38c; 0xbc66831a; 0x256fd2a0; 0x5268e236;
   0xcc0c7795; 0xbb0b4703; 0x220216b9; 0x5505262f; 0xc5ba3bbe; 0xb2bd0b28;
   0x2bb45a92; 0x5cb36a04; 0xc2d7ffa7; 0xb5d0cf31; 0x2cd99e8b; 0x5bdeae1d;
   0x9b64c2b0; 0xec63f226; 0x756aa39c; 0x026d930a; 0x9c0906a9; 0xeb0e363f;
   0x72076785; 0x05005713; 0x95bf4a82; 0xe2b87a14; 0x7bb12bae; 0x0cb61b38;
   0x92d28e9b; 0xe5d5be0d; 0x7cdcefb7; 0x0bdbdf21; 0x86d3d2d4; 0xf1d4e242;
   0x68ddb3f8; 0x1fda836e; 0x81be16cd; 0xf6b9265b; 0x6fb077e1; 0x18b74777;
   0x88085ae6; 0xff0f6a70; 0x66063bca; 0x11010b5c; 0x8f659eff; 0xf862ae69;
   0x616bffd3; 0x166ccf45; 0xa00ae278; 0xd70dd2ee; 0x4e048354; 0x3903b3c2;
   0xa7672661; 0xd06016f7; 0x4969474d; 0x3e6e77db; 0xaed16a4a; 0xd9d65adc;
   0x40df0b66; 0x37d83bf0; 0xa9bcae53; 0xdebb9ec5; 0x47b2cf7f; 0x30b5ffe9;
   0xbdbdf21c; 0xcabac28a; 0x53b39330; 0x24b4a3a6; 0xbad03605; 0xcdd70693;
   0x54de5729; 0x23d967bf; 0xb3667a2e; 0xc4614ab8; 0x5d681b02; 0x2a6f2b94;
   0xb40bbe37; 0xc30c8ea1; 0x5a05df1b; 0x2d02ef8d
  ].

(** One turn of [while (size--) crc = crc32_tab[(crc ^ *p++) & 0xFF] ^ (crc >> 8)]. *)
Definition crc32_step (crc b : Z) : Z :=
  Z.lxor (nth (Z.to_nat (Z.land (Z.lxor crc b) 0xFF)) crc32_tab 0) (Z.shiftr crc 8).

(** [crc32_calc(buf, size)]; the list is the [size] bytes at [buf]. *)
Definition crc32_calc (buf : list Z) : Z :=
  Z.lxor (fold_left crc32_step buf 0xFFFFFFFF) 0xFFFFFFFF.

(** ** The polynomial definition

    The file's comment describes the shift register the table stands for:
    reflected polynomial 0xedb88320, one shift per bit, low bit first. *)

Definition crc_bit (r : Z) : Z :=
  if Z.odd r then Z.lxor (Z.shiftr r 1) 0xEDB88320 else Z.shiftr r 1.

Fixpoint crc_bits (n : nat) (r : Z) : Z :=
  match n with
  | O => r
  | S n' => crc_bits n' (crc_bit r)
  end.

Definition crc_byte (crc b : Z) : Z := crc_bits 8 (Z.lxor crc b).

Definition crc32_spec (buf : list Z) : Z :=
  Z.lxor (fold_left crc_byte buf 0xFFFFFFFF) 0xFFFFFFFF.

(** ** Linearity and invertibility of the shift register *)

Lemma odd_lxor a b : Z.odd (Z.lxor a b) = xorb (Z.odd a) (Z.odd b).
Proof. now rewrite <- !Z.bit0_odd, Z.lxor_spec. Qed.

Lemma crc_bit_lxor a b : crc_bit (Z.lxor a b) = Z.lxor (crc_bit a) (crc_bit b).
Proof.
  unfold crc_bit. rewrite odd_lxor, Z.shiftr_lxor.
  destruct (Z.odd a), (Z.odd b); cbn [xorb]; apply Z.bits_inj'; intros i Hi;
    rewrite !Z.lxor_spec; repeat destruct (Z.testbit _ i); done.
Qed.

Lemma crc_bits_lxor n a b : crc_bits n (Z.lxor a b) = Z.lxor (crc_bits n a) (crc_bits n b).
Proof. revert a b; induction n; intros; cbn; [done|]. now rewrite crc_bit_lxor. Qed.

Lemma crc_bits_add n m r : crc_bits (n + m) r = crc_bits m (crc_bits n r).
Proof. revert r; induction n; intros; cbn; [done|apply IHn]. Qed.

Lemma crc_bit_range r : is_u32 r -> is_u32 (crc_bit r).
Proof.
  intros Hr. unfold crc_bit. assert (is_u32 (Z.shiftr r 1)) by auto with word.
  destruct (Z.odd r); [|done]. apply lxor_range; [lia|done|]. unfold in_range; lia.
Qed.

Lemma crc_bits_range n r : is_u32 r -> is_u32 (crc_bits n r).
Proof. revert r; induction n; intros; cbn; [done|]. apply IHn, crc_bit_range; done. Qed.

(** Zeros shifted out of the low end leave the register shifted. *)
Lemma crc_bits_shiftl n r : 0 <= r -> crc_bits n (Z.shiftl r (Z.of_nat n)) = r.
Proof.
  revert r; induction n as [|n IH]; intros r Hr; [apply Z.shiftl_0_r|].
  cbn [crc_bits].
  assert (crc_bit (Z.shiftl r (Z.of_nat (S n))) = Z.shiftl r (Z.of_nat n)) as ->; [|auto].
  unfold crc_bit. rewrite <- Z.bit0_odd, Z.shiftl_spec_low by lia.
  rewrite Z.shiftr_shiftl_l by lia. f_equal. lia.
Qed.

(** The top bit of the polynomial is set, so no shift loses information. *)
Lemma crc_bit_inj a b : is_u32 a -> is_u32 b -> crc_bit a = crc_bit b -> a = b.
Proof.
  intros Ha Hb He.
  assert (Hkey : Z.odd a = Z.odd b).
  { assert (Hbit : forall x, is_u32 x -> Z.testbit (crc_bit x) 31 = Z.odd x).
    { intros x Hx. unfold crc_bit. destruct (Z.odd x).
      - rewrite Z.lxor_spec, Z.shiftr_spec by lia.
        now rewrite (bits_in_range 32 x) by (auto; lia).
      - rewrite Z.shiftr_spec by lia. now rewrite (bits_in_range 32 x) by (auto; lia). }
    now rewrite <- (Hbit a Ha), <- (Hbit b Hb), He. }
  assert (Hs : Z.shiftr a 1 = Z.shiftr b 1).
  { unfold crc_bit in He. rewrite Hkey in He. destruct (Z.odd b); [|done].
    now apply lxor_inj_l in He. }
  rewrite !Z.shiftr_div_pow2 in Hs by lia. change (2 ^ 1) with 2 in Hs.
  rewrite <- !Z.bit0_odd in Hkey. apply (f_equal Z.b2z) in Hkey.
  rewrite !Z.bit0_mod in Hkey. rewrite (Z.div_mod a 2), (Z.div_mod b 2) by lia. lia.
Qed.

Lemma crc_bits_inj n a b : is_u32 a -> is_u32 b -> crc_bits n a = crc_bits n b -> a = b.
Proof.
  revert a b; induction n; intros a b Ha Hb He; cbn in He; [done|].
  apply crc_bit_inj; auto using crc_bit_range.
Qed.

(** ** The table *)

Lemma crc32_tab_entries :
  forallb (fun n => nth n crc32_tab 0 =? crc_bits 8 (Z.of_nat n)) (seq 0 256) = true.
Proof. vm_compute. reflexivity. Qed.

Lemma crc32_tab_nth n : (n < 256)%nat -> nth n crc32_tab 0 = crc_bits 8 (Z.of_nat n).
Proof.
  intros Hn. pose proof crc32_tab_entries as H. rewrite forallb_forall in H.
  apply Z.eqb_eq, H, in_seq. lia.
Qed.

Lemma split_low_byte r : 0 <= r -> r = Z.lxor (Z.land r 0xFF) (Z.shiftl (Z.shiftr r 8) 8).
Proof.
  intros Hr. change 0xFF with (Z.ones 8). rewrite Z.land_ones by lia.
  rewrite lxor_shiftl_add.
  - rewrite Z.shiftr_div_pow2 by lia. rewrite (Z.div_mod r (2 ^ 8)) at 1 by lia. lia.
  - lia.
  - apply Z.mod_pos_bound. lia.
  - apply Z.shiftr_nonneg. done.
Qed.

Lemma crc32_step_byte crc b : is_u32 crc -> is_u8 b -> crc32_step crc b = crc_byte crc b.
Proof.
  intros Hc Hb. unfold crc32_step, crc_byte. set (r := Z.lxor crc b).
  assert (Hr : 0 <= r) by (apply Z.lxor_nonneg; unfold in_range in *; lia).
  assert (Hlow : 0 <= Z.land r 0xFF < 256).
  { change 0xFF with (Z.ones 8). rewrite Z.land_ones by lia. apply Z.mod_pos_bound. lia. }
  rewrite crc32_tab_nth by lia. rewrite Z2Nat.id by lia.
  rewrite (split_low_byte r Hr) at 2. rewrite crc_bits_lxor. f_equal.
  rewrite (crc_bits_shiftl 8) by (apply Z.shiftr_nonneg; done).
  unfold r. rewrite Z.shiftr_lxor.
  assert (Z.shiftr b 8 = 0) as ->; [|now rewrite Z.lxor_0_r].
  rewrite Z.shiftr_div_pow2 by lia. apply Z.div_small. exact Hb.
Qed.

Lemma crc_byte_range crc b : is_u32 crc -> is_u8 b -> is_u32 (crc_byte crc b).
Proof.
  intros Hc Hb. apply crc_bits_range, lxor_range; [lia|done|].
  apply (in_range_mono 8); [lia|done].
Qed.

Lemma fold_crc_range buf r : is_u32 r -> bytes_ok buf -> is_u32 (fold_left crc_byte buf r).
Proof.
  intros Hr Hb. revert r Hr. induction Hb as [|b l Hb Hl IH]; intros; cbn [fold_left]; [done|].
  apply IH, crc_byte_range; done.
Qed.

Lemma fold_crc_step buf r :
  is_u32 r -> bytes_ok buf -> fold_left crc32_step buf r = fold_left crc_byte buf r.
Proof.
  intros Hr Hb. revert r Hr. induction Hb as [|b l Hb Hl IH]; intros; cbn [fold_left]; [done|].
  rewrite crc32_step_byte by done. apply IH. apply crc_byte_range; done.
Qed.

Lemma crc_init_range : is_u32 0xFFFFFFFF.
Proof. unfold in_range. lia. Qed.
#[local] Hint Resolve crc_init_range : word.

Lemma crc32_calc_range buf : bytes_ok buf -> is_u32 (crc32_calc buf).
Proof.
  intros Hb. unfold crc32_calc. rewrite fold_crc_step by auto with word.
  apply lxor_range; auto using fold_crc_range with word.
Qed.

(** A suffix is an injection of the register. *)
Lemma fold_crc_inj buf r s :
  is_u32 r -> is_u32 s -> bytes_ok buf ->
  fold_left crc_byte buf r = fold_left crc_byte buf s -> r = s.
Proof.
  intros Hr Hs Hb. revert r s Hr Hs. induction Hb as [|b l Hb Hl IH]; intros r s Hr Hs He; [done|].
  cbn [fold_left] in He. apply IH in He; auto using crc_byte_range.
  assert (is_u32 b) by (apply (in_range_mono 8); [lia|done]).
  apply crc_bits_inj in He; auto with word. now apply lxor_inj_l in He.
Qed.

(** Up to four bytes act on the register as one little-endian word. *)
Lemma fold_crc_word w r :
  bytes_ok w -> is_u32 r ->
  fold_left crc_byte w r = crc_bits (8 * length w) (Z.lxor r (le_combine w)).
Proof.
  intros Hw. revert r. induction Hw as [|b l Hb Hl IH]; intros r Hr.
  { cbn. now rewrite Z.lxor_0_r. }
  cbn [fold_left]. rewrite IH by auto using crc_byte_range.
  replace (8 * length (b :: l))%nat with (8 + 8 * length l)%nat by (cbn [length]; lia).
  rewrite crc_bits_add. f_equal. unfold crc_byte.
  assert (0 <= le_combine l) by (apply le_combine_range in Hl; unfold in_range in Hl; lia).
  cbn [le_combine]. change 256 with (2 ^ 8). rewrite <- (lxor_shiftl_add b) by (done || lia).
  rewrite <- Z.lxor_assoc, (crc_bits_lxor 8 (Z.lxor r b)).
  f_equal. symmetry. now apply (crc_bits_shiftl 8).
Qed.

(** ** Properties *)

(** C25: the table-driven loop computes the bit-by-bit CRC of the
    reflected polynomial 0xedb88320 on every byte string, and the result is a
    32-bit value. *)
Theorem crc32_calc_correct (buf : list Z) :
  bytes_ok buf -> crc32_calc buf = crc32_spec buf /\ is_u32 (crc32_calc buf).
Proof.
  intros Hb. split; [|now apply crc32_calc_range].
  unfold crc32_calc, crc32_spec. now rewrite fold_crc_step by auto with word.
Qed.

(** The check value of the CRC-32 catalogue: "123456789" gives 0xCBF43926. *)
Lemma crc32_calc_correct_witness :
  crc32_calc [49; 50; 51; 52; 53; 54; 55; 56; 57] = 0xCBF43926 /\
  crc32_calc [49; 50; 51; 52; 53; 54; 55; 56; 57] =
    crc32_spec [49; 50; 51; 52; 53; 54; 55; 56; 57].
Proof.
  split; [vm_compute; reflexivity|].
  apply (crc32_calc_correct [49; 50; 51; 52; 53; 54; 55; 56; 57]).
  repeat constructor; unfold in_range; lia.
Defined.

(** A record damaged inside a window of at most four
    consecutive bytes never keeps its checksum. *)
Theorem crc32_detects_burst (pre w1 w2 suf : list Z) :
  bytes_ok pre -> bytes_ok w1 -> bytes_ok w2 -> bytes_ok suf ->
  length w1 = length w2 -> (length w1 <= 4)%nat -> w1 <> w2 ->
  crc32_calc (pre ++ w1 ++ suf) <> crc32_calc (pre ++ w2 ++ suf).
Proof.
  intros Hp H1 H2 Hs Hlen H4 Hne He. apply Hne.
  unfold crc32_calc in He. apply lxor_inj_l in He.
  assert (Hok : forall w, bytes_ok w -> bytes_ok (pre ++ w ++ suf)).
  { intros. rewrite !bytes_ok_app. auto. }
  rewrite !fold_crc_step in He by auto with word.
  rewrite !fold_left_app in He. pose proof (fold_crc_range pre _ crc_init_range Hp) as Hr.
  assert (Hw : forall w, bytes_ok w -> length w = length w1 -> is_u32 (le_combine w)).
  { intros w Hw Hl. apply (in_range_mono (8 * Z.of_nat (length w))); [lia|].
    now apply le_combine_range. }
  apply fold_crc_inj in He; auto using fold_crc_range.
  rewrite (fold_crc_word w1), (fold_crc_word w2), <- Hlen in He by done.
  apply crc_bits_inj in He; auto with word.
  rewrite !(Z.lxor_comm (fold_left _ _ _)) in He. apply lxor_inj_l in He.
  now apply le_combine_inj.
Qed.

Lemma crc32_detects_burst_witness :
  crc32_calc ([1; 2] ++ [3; 4; 5; 6] ++ [7]) <> crc32_calc ([1; 2] ++ [6; 5; 4; 3] ++ [7]).
Proof.
  apply (crc32_detects_burst [1; 2] [3; 4; 5; 6] [6; 5; 4; 3] [7]);
    try (repeat constructor; unfold in_range; lia); try reflexivity; discriminate.
Defined.

End Crc32.
