(* ===== verification/MHash.v ===== *)
(** 64-bit MurmurHash2 of [src/src/mhash.c], the second half of
    [calc_hash_key]: the block loop, the fall-through tail switch and the final
    avalanche, on 64-bit wrap-around arithmetic; and its collision behaviour. *)

From Stdlib Require Import ZArith Lia.
From stdpp Require Import base numbers list.
From S2P Require Import Prelude.

Module MHash.

Definition m : Z := 0xc6a4a7935bd1e995.
Definition r : Z := 47.
Definition seed : Z := 0xfeedbeef.

(** [k *= m; k ^= k >> r; k *= m;] of the block loop. *)
Definition mix_k (k : Z) : Z :=
  let k := u64 (k * m) in
  let k := Z.lxor k (Z.shiftr k r) in
  u64 (k * m).

(** The body of [while (data != end)]: consume one 64-bit word. *)
Definition block (h k : Z) : Z := u64 (Z.lxor h (mix_k k) * m).

(** The loop; [n] words remain, [data] are the bytes from the cursor on. A read
    past the end of the key is [None]. *)
Fixpoint blocks (n : nat) (data : list Z) (h : Z) : option (Z * list Z) :=
  match n with
  | O => Some (h, data)
  | S n' =>
      if (length data <? 8)%nat then None
      else blocks n' (drop 8 data) (block h (le_combine (take 8 data)))
  end.

(** [switch(len & 7)]: every case falls through to the next one. *)
Definition tail (rem : Z) (d : list Z) (h : Z) : Z :=
  let c (i : nat) (h : Z) := Z.lxor h (Z.shiftl (nth i d 0) (8 * Z.of_nat i)) in
  let case1 h := u64 (c 0%nat h * m) in
  let case2 h := case1 (c 1%nat h) in
  let case3 h := case2 (c 2%nat h) in
  let case4 h := case3 (c 3%nat h) in
  let case5 h := case4 (c 4%nat h) in
  let case6 h := case5 (c 5%nat h) in
  let case7 h := case6 (c 6%nat h) in
  if rem =? 7 then case7 h else if rem =? 6 then case6 h
  else if rem =? 5 then case5 h else if rem =? 4 then case4 h
  else if rem =? 3 then case3 h else if rem =? 2 then case2 h
  else if rem =? 1 then case1 h else h.

Definition avalanche (h : Z) : Z :=
  let h := Z.lxor h (Z.shiftr h r) in
  let h := u64 (h * m) in
  Z.lxor h (Z.shiftr h r).

(** [MurmurHash64A(key, len)]: [len] is an [int]; [key] are the bytes readable
    at the pointer. A negative word count never meets [end]; [None] there, and
    when a byte past the end of the key is read. *)
Definition MurmurHash64A (key : list Z) (len : Z) : option Z :=
  let h := Z.lxor seed (u64 (len * m)) in
  let words := Z.quot len 8 in
  if words <? 0 then None
  else
    match blocks (Z.to_nat words) key h with
    | None => None
    | Some (h, data2) =>
        if (length data2 <? Z.to_nat (Z.land len 7))%nat then None
        else Some (avalanche (tail (Z.land len 7) data2 h))
    end.

(** ** Invertibility of the building blocks *)

(** The inverse of the multiplier modulo 2^64. *)
Definition m_inv : Z := 0x5f7a0ea7e59b19bd.

Lemma m_inverse : u64 (m * m_inv) = 1.
Proof. vm_compute. reflexivity. Qed.

Lemma mul_m_inj a b : is_u64 a -> is_u64 b -> u64 (a * m) = u64 (b * m) -> a = b.
Proof.
  intros Ha Hb He.
  assert (Hi : forall x, is_u64 x -> u64 (u64 (x * m) * m_inv) = x).
  { intros x Hx. unfold u64. rewrite Z.mul_mod_idemp_l by lia.
    rewrite <- Z.mul_assoc, <- Z.mul_mod_idemp_r by lia.
    fold (u64 (m * m_inv)). rewrite m_inverse, Z.mul_1_r. now apply Z.mod_small. }
  now rewrite <- (Hi a Ha), <- (Hi b Hb), He.
Qed.

(** [x ^ (x >> k)] determines [x] bit by bit from the top. *)
Lemma xorshift_inj w k a b :
  0 < k -> 0 <= w -> in_range w a -> in_range w b ->
  Z.lxor a (Z.shiftr a k) = Z.lxor b (Z.shiftr b k) -> a = b.
Proof.
  intros Hk Hw Ha Hb He. apply Z.bits_inj'. intros i Hi.
  assert (Hbit : forall j, 0 <= j -> xorb (Z.testbit a j) (Z.testbit a (j + k)) =
                       xorb (Z.testbit b j) (Z.testbit b (j + k))).
  { intros j Hj. rewrite <- !Z.shiftr_spec, <- !Z.lxor_spec by done. now rewrite He. }
  assert (Hn : forall n j, 0 <= j -> w - j <= Z.of_nat n -> Z.testbit a j = Z.testbit b j).
  { induction n as [|n IH]; intros j Hj Hn.
    - rewrite !(bits_in_range w) by (done || lia). done.
    - pose proof (Hbit j Hj) as H. rewrite (IH (j + k)) in H by lia.
      destruct (Z.testbit a j), (Z.testbit b j), (Z.testbit b (j + k)); done. }
  apply (Hn (Z.to_nat w)); lia.
Qed.

Lemma xorshift_range a : is_u64 a -> is_u64 (Z.lxor a (Z.shiftr a r)).
Proof. intros. unfold r. auto with word. Qed.
#[local] Hint Resolve xorshift_range : word.

Lemma mix_k_range k : is_u64 (mix_k k).
Proof. apply u64_range. Qed.

Lemma mix_k_inj a b : is_u64 a -> is_u64 b -> mix_k a = mix_k b -> a = b.
Proof.
  intros Ha Hb He. unfold mix_k in He. apply mul_m_inj in He; auto with word.
  apply (xorshift_inj 64) in He; auto with word; [|now compute].
  apply mul_m_inj in He; auto.
Qed.

Lemma block_range h k : is_u64 (block h k).
Proof. apply u64_range. Qed.

Lemma block_inj_h g h k : is_u64 g -> is_u64 h -> block g k = block h k -> g = h.
Proof.
  intros Hg Hh He. pose proof (mix_k_range k). unfold block in He.
  apply mul_m_inj in He; auto with word. now apply lxor_inj_l in He.
Qed.

Lemma block_inj_k h a b : is_u64 h -> is_u64 a -> is_u64 b -> block h a = block h b -> a = b.
Proof.
  intros Hh Ha Hb He. pose proof (mix_k_range a). pose proof (mix_k_range b). unfold block in He.
  apply mul_m_inj in He; auto with word.
  rewrite !(Z.lxor_comm h) in He. apply lxor_inj_l, mix_k_inj in He; auto.
Qed.

Lemma avalanche_inj a b : is_u64 a -> is_u64 b -> avalanche a = avalanche b -> a = b.
Proof.
  intros Ha Hb He. unfold avalanche in He.
  apply (xorshift_inj 64) in He; auto with word; [|now compute].
  apply mul_m_inj in He; auto with word.
  apply (xorshift_inj 64) in He; auto; now compute.
Qed.

(** ** The loop and the tail *)

Lemma blocks_split n pre suf h :
  length pre = (8 * n)%nat ->
  blocks n (pre ++ suf) h = option_map (fun p => (fst p, suf)) (blocks n pre h).
Proof.
  revert pre h; induction n as [|n IH]; intros pre h Hl; cbn [blocks].
  - destruct pre; [done|cbn in Hl; lia].
  - rewrite length_app.
    rewrite !(proj2 (Nat.ltb_ge _ 8)) by lia.
    rewrite take_app_le, drop_app_le by lia. apply IH. rewrite length_drop. lia.
Qed.

Lemma blocks_total n data h :
  (8 * n <= length data)%nat -> is_u64 h ->
  exists h', blocks n data h = Some (h', drop (8 * n) data) /\ is_u64 h'.
Proof.
  revert data h; induction n as [|n IH]; intros data h Hl Hh; cbn [blocks].
  - exists h. now rewrite Nat.mul_0_r, drop_0.
  - rewrite (proj2 (Nat.ltb_ge _ 8)) by lia.
    destruct (IH (drop 8 data) (block h (le_combine (take 8 data)))) as (h' & He & Hh').
    + rewrite length_drop. lia.
    + apply block_range.
    + exists h'. split; [|done]. rewrite He, drop_drop. do 2 f_equal. f_equal. lia.
Qed.

Lemma le_combine_lxor b l :
  is_u8 b -> bytes_ok l -> le_combine (b :: l) = Z.lxor b (Z.shiftl (le_combine l) 8).
Proof.
  intros Hb Hl. cbn [le_combine]. change 256 with (2 ^ 8).
  apply le_combine_range in Hl as [Hl _]. symmetry. apply (lxor_shiftl_add b _ 8); [lia|done|lia].
Qed.

(** Normalise closed shift distances. *)
Ltac eval_shifts :=
  repeat match goal with
  | |- context [Z.shiftl _ ?k] => progress (let k' := eval vm_compute in k in change k with k')
  end.

(** The switch xors in the little-endian value of the remaining bytes. *)
Lemma tail_spec d h :
  (length d < 8)%nat -> bytes_ok d ->
  tail (Z.of_nat (length d)) d h =
    match d with [] => h | _ => u64 (Z.lxor h (le_combine d) * m) end.
Proof.
  intros Hl Hb.
  destruct d as [|b0 [|b1 [|b2 [|b3 [|b4 [|b5 [|b6 [|b7 d]]]]]]]]; [reflexivity|..];
    [| | | | | | | cbn [length] in Hl; lia];
    repeat match goal with
      H : Forall _ (_ :: _) |- _ => inversion H; clear H; subst
    | H : bytes_ok (_ :: _) |- _ => inversion H; clear H; subst end;
    unfold tail; cbn -[Z.lxor Z.shiftl u64 le_combine Z.mul];
    do 2 f_equal; rewrite !le_combine_lxor by solve_bytes;
    cbn [le_combine]; rewrite ?Z.shiftl_lxor, ?Z.shiftl_shiftl, ?Z.shiftl_0_l by done;
    rewrite ?Z.lxor_0_r; eval_shifts; rewrite ?Z.shiftl_0_r;
    apply Z.bits_inj'; intros i Hi; rewrite !Z.lxor_spec;
    repeat match goal with |- context [Z.testbit ?x i] => destruct (Z.testbit x i) end; done.
Qed.

(** ** Whole keys *)

Lemma blocks_add n1 n2 data h :
  blocks (n1 + n2) data h =
    match blocks n1 data h with Some (h', d) => blocks n2 d h' | None => None end.
Proof.
  revert data h; induction n1 as [|n1 IH]; intros data h; cbn [blocks Nat.add]; [done|].
  destruct (length data <? 8)%nat; [done|apply IH].
Qed.

Lemma blocks_inj n data g h x :
  is_u64 g -> is_u64 h ->
  option_map fst (blocks n data g) = Some x -> option_map fst (blocks n data h) = Some x -> g = h.
Proof.
  revert data g h; induction n as [|n IH]; intros data g h Hg Hh Ea Eb; cbn [blocks] in *.
  - cbn in *. congruence.
  - destruct (length data <? 8)%nat; [done|].
    specialize (IH _ _ _ (block_range _ _) (block_range _ _) Ea Eb). now apply block_inj_h in IH.
Qed.

Lemma tail_range d h :
  (length d < 8)%nat -> bytes_ok d -> is_u64 h -> is_u64 (tail (Z.of_nat (length d)) d h).
Proof. intros. rewrite tail_spec by done. destruct d; auto with word. Qed.

Lemma tail_inj_h d g h :
  (length d < 8)%nat -> bytes_ok d -> is_u64 g -> is_u64 h ->
  tail (Z.of_nat (length d)) d g = tail (Z.of_nat (length d)) d h -> g = h.
Proof.
  intros Hl Hd Hg Hh. rewrite !tail_spec by done. destruct d as [|b d]; [done|]. intros He.
  assert (is_u64 (le_combine (b :: d))).
  { apply (in_range_mono (8 * Z.of_nat (length (b :: d)))); [lia|]. now apply le_combine_range. }
  apply mul_m_inj in He; auto with word. now apply lxor_inj_l in He.
Qed.

Lemma tail_inj_d d1 d2 h :
  length d1 = length d2 -> (length d1 < 8)%nat -> bytes_ok d1 -> bytes_ok d2 -> is_u64 h ->
  tail (Z.of_nat (length d1)) d1 h = tail (Z.of_nat (length d2)) d2 h -> d1 = d2.
Proof.
  intros He Hl Hd1 Hd2 Hh. rewrite !tail_spec by (done || lia).
  destruct d1 as [|b1 d1], d2 as [|b2 d2]; try done. intros Eq.
  assert (Hr : forall d, bytes_ok d -> (length d < 8)%nat -> is_u64 (le_combine d)).
  { intros d Hd Hld. apply (in_range_mono (8 * Z.of_nat (length d))); [lia|].
    now apply le_combine_range. }
  assert (is_u64 (le_combine (b1 :: d1)) /\ is_u64 (le_combine (b2 :: d2))) as [? ?].
  { split; apply Hr; done || lia. }
  apply mul_m_inj in Eq; auto with word.
  rewrite !(Z.lxor_comm h) in Eq. apply lxor_inj_l in Eq. now apply le_combine_inj.
Qed.

(** The hash of a key cut at a word boundary: the words of [w], then [t]. *)
Lemma murmur_cut (w t : list Z) n :
  length w = (8 * n)%nat -> (length t < 8)%nat ->
  let key := w ++ t in
  MurmurHash64A key (Z.of_nat (length key)) =
    match blocks n w (Z.lxor seed (u64 (Z.of_nat (length key) * m))) with
    | Some (h, _) => Some (avalanche (tail (Z.of_nat (length t)) t h))
    | None => None
    end.
Proof.
  intros Hw Ht key. unfold MurmurHash64A.
  assert (Hlen : Z.of_nat (length key) = 8 * Z.of_nat n + Z.of_nat (length t)).
  { unfold key. rewrite length_app. lia. }
  assert (Hq : Z.quot (Z.of_nat (length key)) 8 = Z.of_nat n).
  { rewrite Z.quot_div_nonneg, Hlen, Z.mul_comm, Z.div_add_l, Z.div_small by lia. lia. }
  assert (Hr : Z.land (Z.of_nat (length key)) 7 = Z.of_nat (length t)).
  { change 7 with (Z.ones 3). rewrite Z.land_ones, Hlen by lia. change (2 ^ 3) with 8.
    rewrite Z.mul_comm, Z.add_comm, Z.mod_add by lia. apply Z.mod_small. lia. }
  rewrite Hq, Hr, Nat2Z.id. rewrite (proj2 (Z.ltb_ge _ 0)) by lia.
  unfold key at 2. rewrite (blocks_split n w t) by done.
  destruct (blocks n w _) as [[h d]|]; cbn [option_map fst]; [|done].
  now rewrite Nat2Z.id, Nat.ltb_irrefl.
Qed.

Lemma murmur_init_range x : is_u64 (Z.lxor seed (u64 x)).
Proof. apply lxor_range; auto with word. unfold in_range, seed; lia. Qed.

Lemma key_cut (key : list Z) :
  exists w t n, key = w ++ t /\ length w = (8 * n)%nat /\ (length t < 8)%nat.
Proof.
  exists (take (8 * (length key / 8)) key), (drop (8 * (length key / 8)) key), (length key / 8)%nat.
  pose proof (Nat.div_mod_eq (length key) 8). pose proof (Nat.mod_upper_bound (length key) 8).
  rewrite take_drop, length_take, length_drop. repeat split; lia.
Qed.

Lemma blocks_run n w h :
  length w = (8 * n)%nat -> is_u64 h -> exists h', blocks n w h = Some (h', []) /\ is_u64 h'.
Proof.
  intros Hw Hh. destruct (blocks_total n w h) as (h' & He & Hh'); [lia|done|].
  exists h'. split; [|done]. rewrite He. now rewrite drop_ge by lia.
Qed.

(** ** Properties *)

(** On a key of [n] bytes the function reads only inside the
    key, terminates and returns a 64-bit value. *)
Theorem murmur_total (key : list Z) :
  bytes_ok key -> exists h, MurmurHash64A key (Z.of_nat (length key)) = Some h /\ is_u64 h.
Proof.
  intros Hk. destruct (key_cut key) as (w & t & n & -> & Hw & Ht).
  apply bytes_ok_app in Hk as [Hkw Hkt].
  rewrite (murmur_cut w t n) by done.
  destruct (blocks_run n w _ Hw (murmur_init_range (Z.of_nat (length (w ++ t)) * m)))
    as (h & -> & Hh).
  eexists; split; [done|]. pose proof (tail_range t h Ht Hkt Hh). unfold avalanche, r. auto with word.
Qed.

Lemma murmur_total_witness :
  MurmurHash64A [107; 101; 121] 3 = Some 11575931881383357175 /\
  exists h, MurmurHash64A [107; 101; 121] 3 = Some h /\ is_u64 h.
Proof.
  split; [vm_compute; reflexivity|].
  apply (murmur_total [107; 101; 121]). solve_bytes.
Defined.

(** Two keys of the same length that differ only inside one
    aligned eight-byte window (or inside the short tail) never collide. *)
Theorem murmur_window_injective (pre w1 w2 suf : list Z) (n : nat) :
  bytes_ok pre -> bytes_ok w1 -> bytes_ok w2 -> bytes_ok suf ->
  length pre = (8 * n)%nat -> length w1 = length w2 ->
  (length w1 = 8)%nat \/ ((length w1 < 8)%nat /\ suf = []) ->
  w1 <> w2 ->
  MurmurHash64A (pre ++ w1 ++ suf) (Z.of_nat (length (pre ++ w1 ++ suf))) <>
  MurmurHash64A (pre ++ w2 ++ suf) (Z.of_nat (length (pre ++ w2 ++ suf))).
Proof.
  intros Hp H1 H2 Hs Hn Hlen Hcase Hne He. apply Hne.
  assert (Hl : length (pre ++ w1 ++ suf) = length (pre ++ w2 ++ suf)) by (rewrite !length_app; lia).
  destruct Hcase as [H8|[Hlt ->]].
  - destruct (key_cut suf) as (v & t & k & -> & Hv & Ht).
    apply bytes_ok_app in Hs as [Hsv Hst].
    assert (Hcut : forall w, length w = 8%nat ->
      pre ++ w ++ v ++ t = (pre ++ w ++ v) ++ t /\ length (pre ++ w ++ v) = (8 * (n + (1 + k)))%nat).
    { intros w Hw. split; [now rewrite <- !app_assoc|]. rewrite !length_app. lia. }
    destruct (Hcut w1) as [E1 L1]; [done|]. destruct (Hcut w2) as [E2 L2]; [lia|].
    rewrite E1, E2 in Hl, He. rewrite !(murmur_cut _ t (n + (1 + k))), Hl in He by done.
    set (h0 := Z.lxor seed _) in He. assert (Hh0 : is_u64 h0) by apply murmur_init_range.
    destruct (blocks_run n pre h0 Hn Hh0) as (h & Hb & Hh).
    assert (Hrun : forall w, bytes_ok w -> length w = 8%nat ->
      blocks (n + (1 + k)) (pre ++ w ++ v) h0 = blocks k v (block h (le_combine w))).
    { intros w Hw Hw8. rewrite blocks_add, blocks_split, Hb by done. cbn [option_map fst].
      rewrite blocks_add. cbn [blocks]. rewrite length_app, Hw8.
      cbn [Nat.add Nat.ltb Nat.leb]. now rewrite take_app_length', drop_app_length' by done. }
    rewrite !Hrun in He by (done || lia).
    destruct (blocks_run k v (block h (le_combine w1)) Hv (block_range _ _)) as (a & Ea & Ha).
    destruct (blocks_run k v (block h (le_combine w2)) Hv (block_range _ _)) as (b & Eb & Hb').
    rewrite Ea, Eb in He. injection He as He.
    apply avalanche_inj in He; auto using tail_range. apply tail_inj_h in He; auto. subst b.
    assert (Hblk : block h (le_combine w1) = block h (le_combine w2)).
    { apply (blocks_inj k v _ _ a); auto using block_range; [now rewrite Ea|now rewrite Eb]. }
    assert (Hw : forall w, bytes_ok w -> length w = 8%nat -> is_u64 (le_combine w)).
    { intros w Hw Hw8. pose proof (le_combine_range w Hw) as Hr. now rewrite Hw8 in Hr. }
    apply block_inj_k in Hblk; auto; [now apply le_combine_inj|]. apply Hw; [done|lia].
  - rewrite !app_nil_r in *. rewrite !(murmur_cut pre _ n), Hl in He by (done || lia).
    destruct (blocks_run n pre _ Hn (murmur_init_range (Z.of_nat (length (pre ++ w2)) * m)))
      as (h & Hb & Hh).
    rewrite Hb in He. injection He as He.
    apply avalanche_inj in He; [|apply tail_range; done || lia..].
    apply tail_inj_d in He; done.
Qed.

Lemma murmur_window_injective_witness :
  MurmurHash64A ([] ++ [1; 2; 3; 4; 5; 6; 7; 8] ++ [9]) 9 <>
  MurmurHash64A ([] ++ [8; 7; 6; 5; 4; 3; 2; 1] ++ [9]) 9.
Proof.
  apply (murmur_window_injective [] [1; 2; 3; 4; 5; 6; 7; 8] [8; 7; 6; 5; 4; 3; 2; 1] [9] 0);
    [solve_bytes|solve_bytes|solve_bytes|solve_bytes|reflexivity|reflexivity|left; reflexivity|
     discriminate].
Defined.

End MHash.
