(* ===== verification/BobHash.v ===== *)
(** Bob Jenkins' lookup3 hash of [src/src/bobhash.c]: the [mix] and [final]
    macros, [hashword]/[hashword2] over 32-bit words, the three alignment paths
    of [hashlittle]/[hashlittle2] over bytes in memory, and the wrappers
    [bobhash] and [bobhash64]. The target is little-endian x86-64, so
    [HASH_LITTLE_ENDIAN] is 1; the [VALGRIND] branches are not compiled. *)

From Stdlib Require Import ZArith Lia.
From stdpp Require Import base numbers list.
From S2P Require Import Prelude.

Module BobHash.

(** The internal state [uint32_t a, b, c]. *)
Record abc := Abc { st_a : Z; st_b : Z; st_c : Z }.

Definition add32 (x y : Z) : Z := u32 (x + y).
Definition sub32 (x y : Z) : Z := u32 (x - y).

(** [rot(x,k)]: [((x)<<(k)) | ((x)>>(32-(k)))] on [uint32_t]. *)
Definition rot (x k : Z) : Z := Z.lor (u32 (Z.shiftl x k)) (Z.shiftr x (32 - k)).

(** The macro [mix(a,b,c)]. *)
Definition mix (s : abc) : abc :=
  let '(Abc a b c) := s in
  let a := sub32 a c in let a := Z.lxor a (rot c 4) in let c := add32 c b in
  let b := sub32 b a in let b := Z.lxor b (rot a 6) in let a := add32 a c in
  let c := sub32 c b in let c := Z.lxor c (rot b 8) in let b := add32 b a in
  let a := sub32 a c in let a := Z.lxor a (rot c 16) in let c := add32 c b in
  let b := sub32 b a in let b := Z.lxor b (rot a 19) in let a := add32 a c in
  let c := sub32 c b in let c := Z.lxor c (rot b 4) in let b := add32 b a in
  Abc a b c.

(** The macro [final(a,b,c)]. *)
Definition final (s : abc) : abc :=
  let '(Abc a b c) := s in
  let c := Z.lxor c b in let c := sub32 c (rot b 14) in
  let a := Z.lxor a c in let a := sub32 a (rot c 11) in
  let b := Z.lxor b a in let b := sub32 b (rot a 25) in
  let c := Z.lxor c b in let c := sub32 c (rot b 16) in
  let a := Z.lxor a c in let a := sub32 a (rot c 4) in
  let b := Z.lxor b a in let b := sub32 b (rot a 14) in
  let c := Z.lxor c b in let c := sub32 c (rot b 24) in
  Abc a b c.

(** ** hashword: keys that are arrays of [uint32_t] *)

(** [while (length > 3)]: three words per turn. *)
Fixpoint hashword_loop (k : list Z) (s : abc) : abc * list Z :=
  match k with
  | k0 :: k1 :: k2 :: ((_ :: _) as k') =>
      hashword_loop k'
        (mix (Abc (add32 (st_a s) k0) (add32 (st_b s) k1) (add32 (st_c s) k2)))
  | _ => (s, k)
  end.

(** The fall-through [switch (length)] over the last 0 to 3 words. *)
Definition hashword_last (p : abc * list Z) : abc :=
  let '(s, k) := p in
  match k with
  | [] => s
  | [k0] => final (Abc (add32 (st_a s) k0) (st_b s) (st_c s))
  | [k0; k1] => final (Abc (add32 (st_a s) k0) (add32 (st_b s) k1) (st_c s))
  | k0 :: k1 :: k2 :: _ =>
      final (Abc (add32 (st_a s) k0) (add32 (st_b s) k1) (add32 (st_c s) k2))
  end.

(** [hashword(k, length, initval)]; [k] lists the [length] words. *)
Definition hashword (k : list Z) (initval : Z) : Z :=
  let i := add32 (add32 0xfeedbeef (u32 (Z.shiftl (u32 (Z.of_nat (length k))) 2))) initval in
  st_c (hashword_last (hashword_loop k (Abc i i i))).

(** [hashword2(k, length, &pc, &pb)] returns the pair [(pc, pb)]. *)
Definition hashword2 (k : list Z) (pc pb : Z) : Z * Z :=
  let i := add32 (add32 0xfeedbeef (u32 (Z.shiftl (Z.of_nat (length k)) 2))) pc in
  let s := hashword_last (hashword_loop k (Abc i i (add32 i pb))) in
  (st_c s, st_b s).

(** ** hashlittle: keys that are bytes in memory

    [mem p] is the byte at address [p]. *)

Section Memory.
Variable mem : Z -> Z.

Definition load8 (p : Z) : Z := mem p.
Definition load16 (p : Z) : Z := le_combine [mem p; mem (p + 1)].
Definition load32 (p : Z) : Z := le_combine [mem p; mem (p + 1); mem (p + 2); mem (p + 3)].

(** 4-aligned key: [while (length > 12)], three 32-bit reads. *)
Fixpoint hashlittle_loop32 (fuel : nat) (k length : Z) (s : abc) : abc * Z * Z :=
  match fuel with
  | O => (s, k, length)
  | S fuel' =>
      if 12 <? length then
        hashlittle_loop32 fuel' (k + 12) (length - 12)
          (mix (Abc (add32 (st_a s) (load32 k)) (add32 (st_b s) (load32 (k + 4)))
                    (add32 (st_c s) (load32 (k + 8)))))
      else (s, k, length)
  end.

(** 4-aligned key, last block: whole-word reads with the excess masked off;
    [None] is the early return of [case 0]. *)
Definition hashlittle_tail32 (k length : Z) (s : abc) : option abc :=
  let '(Abc a b c) := s in
  match length with
  | 12 => Some (Abc (add32 a (load32 k)) (add32 b (load32 (k + 4))) (add32 c (load32 (k + 8))))
  | 11 => Some (Abc (add32 a (load32 k)) (add32 b (load32 (k + 4)))
                    (add32 c (Z.land (load32 (k + 8)) 0xffffff)))
  | 10 => Some (Abc (add32 a (load32 k)) (add32 b (load32 (k + 4)))
                    (add32 c (Z.land (load32 (k + 8)) 0xffff)))
  | 9 => Some (Abc (add32 a (load32 k)) (add32 b (load32 (k + 4)))
                   (add32 c (Z.land (load32 (k + 8)) 0xff)))
  | 8 => Some (Abc (add32 a (load32 k)) (add32 b (load32 (k + 4))) c)
  | 7 => Some (Abc (add32 a (load32 k)) (add32 b (Z.land (load32 (k + 4)) 0xffffff)) c)
  | 6 => Some (Abc (add32 a (load32 k)) (add32 b (Z.land (load32 (k + 4)) 0xffff)) c)
  | 5 => Some (Abc (add32 a (load32 k)) (add32 b (Z.land (load32 (k + 4)) 0xff)) c)
  | 4 => Some (Abc (add32 a (load32 k)) b c)
  | 3 => Some (Abc (add32 a (Z.land (load32 k) 0xffffff)) b c)
  | 2 => Some (Abc (add32 a (Z.land (load32 k) 0xffff)) b c)
  | 1 => Some (Abc (add32 a (Z.land (load32 k) 0xff)) b c)
  | 0 => None
  | _ => Some (Abc a b c)
  end.

(** [k[i] + (((uint32_t)k[i+1])<<16)] on [uint16_t *k]. *)
Definition hashlittle_half (k : Z) : Z := u32 (load16 k + u32 (Z.shiftl (load16 (k + 2)) 16)).

(** 2-aligned key: six 16-bit reads per turn. *)
Fixpoint hashlittle_loop16 (fuel : nat) (k length : Z) (s : abc) : abc * Z * Z :=
  match fuel with
  | O => (s, k, length)
  | S fuel' =>
      if 12 <? length then
        hashlittle_loop16 fuel' (k + 12) (length - 12)
          (mix (Abc (add32 (st_a s) (hashlittle_half k)) (add32 (st_b s) (hashlittle_half (k + 4)))
                    (add32 (st_c s) (hashlittle_half (k + 8)))))
      else (s, k, length)
  end.

(** 2-aligned key, last block; the odd cases fall through to the even ones. *)
Definition hashlittle_tail16 (k8 length : Z) (s : abc) : option abc :=
  let '(Abc a b c) := s in
  let case10 c := Some (Abc (add32 a (hashlittle_half k8)) (add32 b (hashlittle_half (k8 + 4)))
                            (add32 c (load16 (k8 + 8)))) in
  let case8 c := Some (Abc (add32 a (hashlittle_half k8)) (add32 b (hashlittle_half (k8 + 4))) c) in
  let case6 b := Some (Abc (add32 a (hashlittle_half k8)) (add32 b (load16 (k8 + 4))) c) in
  let case4 b := Some (Abc (add32 a (hashlittle_half k8)) b c) in
  let case2 a := Some (Abc (add32 a (load16 k8)) b c) in
  match length with
  | 12 => Some (Abc (add32 a (hashlittle_half k8)) (add32 b (hashlittle_half (k8 + 4)))
                    (add32 c (hashlittle_half (k8 + 8))))
  | 11 => case10 (add32 c (u32 (Z.shiftl (load8 (k8 + 10)) 16)))
  | 10 => case10 c
  | 9 => case8 (add32 c (load8 (k8 + 8)))
  | 8 => case8 c
  | 7 => case6 (add32 b (u32 (Z.shiftl (load8 (k8 + 6)) 16)))
  | 6 => case6 b
  | 5 => case4 (add32 b (load8 (k8 + 4)))
  | 4 => case4 b
  | 3 => case2 (add32 a (u32 (Z.shiftl (load8 (k8 + 2)) 16)))
  | 2 => case2 a
  | 1 => Some (Abc (add32 a (load8 k8)) b c)
  | 0 => None
  | _ => Some (Abc a b c)
  end.

(** [x += k[0]; x += k[1]<<8; x += k[2]<<16; x += k[3]<<24;] byte by byte. *)
Definition hashlittle_bytes4 (x k : Z) : Z :=
  let x := add32 x (load8 k) in
  let x := add32 x (u32 (Z.shiftl (load8 (k + 1)) 8)) in
  let x := add32 x (u32 (Z.shiftl (load8 (k + 2)) 16)) in
  add32 x (u32 (Z.shiftl (load8 (k + 3)) 24)).

(** Unaligned key: one byte at a time. *)
Fixpoint hashlittle_loop8 (fuel : nat) (k length : Z) (s : abc) : abc * Z * Z :=
  match fuel with
  | O => (s, k, length)
  | S fuel' =>
      if 12 <? length then
        hashlittle_loop8 fuel' (k + 12) (length - 12)
          (mix (Abc (hashlittle_bytes4 (st_a s) k) (hashlittle_bytes4 (st_b s) (k + 4))
                    (hashlittle_bytes4 (st_c s) (k + 8))))
      else (s, k, length)
  end.

(** Unaligned key, last block: every case falls through to the next. *)
Definition hashlittle_tail8 (k length : Z) (s : abc) : option abc :=
  let '(Abc a b c) := s in
  let case1 a b c := Some (Abc (add32 a (load8 k)) b c) in
  let case2 a b c := case1 (add32 a (u32 (Z.shiftl (load8 (k + 1)) 8))) b c in
  let case3 a b c := case2 (add32 a (u32 (Z.shiftl (load8 (k + 2)) 16))) b c in
  let case4 a b c := case3 (add32 a (u32 (Z.shiftl (load8 (k + 3)) 24))) b c in
  let case5 a b c := case4 a (add32 b (load8 (k + 4))) c in
  let case6 a b c := case5 a (add32 b (u32 (Z.shiftl (load8 (k + 5)) 8))) c in
  let case7 a b c := case6 a (add32 b (u32 (Z.shiftl (load8 (k + 6)) 16))) c in
  let case8 a b c := case7 a (add32 b (u32 (Z.shiftl (load8 (k + 7)) 24))) c in
  let case9 a b c := case8 a b (add32 c (load8 (k + 8))) in
  let case10 a b c := case9 a b (add32 c (u32 (Z.shiftl (load8 (k + 9)) 8))) in
  let case11 a b c := case10 a b (add32 c (u32 (Z.shiftl (load8 (k + 10)) 16))) in
  let case12 a b c := case11 a b (add32 c (u32 (Z.shiftl (load8 (k + 11)) 24))) in
  match length with
  | 12 => case12 a b c
  | 11 => case11 a b c
  | 10 => case10 a b c
  | 9 => case9 a b c
  | 8 => case8 a b c
  | 7 => case7 a b c
  | 6 => case6 a b c
  | 5 => case5 a b c
  | 4 => case4 a b c
  | 3 => case3 a b c
  | 2 => case2 a b c
  | 1 => case1 a b c
  | 0 => None
  | _ => Some (Abc a b c)
  end.

(** [hashlittle(key, length, initval)]: dispatch on the alignment of [key]. *)
Definition hashlittle (key length initval : Z) : Z :=
  let i := add32 (add32 0xfeedbeef (u32 length)) initval in
  let s := Abc i i i in
  let fuel := Z.to_nat length in
  let '(s, last) :=
    if Z.land key 3 =? 0 then
      let '(s, k, length) := hashlittle_loop32 fuel key length s in
      (s, hashlittle_tail32 k length s)
    else if Z.land key 1 =? 0 then
      let '(s, k, length) := hashlittle_loop16 fuel key length s in
      (s, hashlittle_tail16 k length s)
    else
      let '(s, k, length) := hashlittle_loop8 fuel key length s in
      (s, hashlittle_tail8 k length s) in
  match last with
  | None => st_c s
  | Some s => st_c (final s)
  end.

(** The same code written out again in [hashlittle2]: 4-aligned key, [while (length > 12)], three 32-bit reads. *)
Fixpoint hashlittle2_loop32 (fuel : nat) (k length : Z) (s : abc) : abc * Z * Z :=
  match fuel with
  | O => (s, k, length)
  | S fuel' =>
      if 12 <? length then
        hashlittle2_loop32 fuel' (k + 12) (length - 12)
          (mix (Abc (add32 (st_a s) (load32 k)) (add32 (st_b s) (load32 (k + 4)))
                    (add32 (st_c s) (load32 (k + 8)))))
      else (s, k, length)
  end.

(** 4-aligned key, last block: whole-word reads with the excess masked off;
    [None] is the early return of [case 0]. *)
Definition hashlittle2_tail32 (k length : Z) (s : abc) : option abc :=
  let '(Abc a b c) := s in
  match length with
  | 12 => Some (Abc (add32 a (load32 k)) (add32 b (load32 (k + 4))) (add32 c (load32 (k + 8))))
  | 11 => Some (Abc (add32 a (load32 k)) (add32 b (load32 (k + 4)))
                    (add32 c (Z.land (load32 (k + 8)) 0xffffff)))
  | 10 => Some (Abc (add32 a (load32 k)) (add32 b (load32 (k + 4)))
                    (add32 c (Z.land (load32 (k + 8)) 0xffff)))
  | 9 => Some (Abc (add32 a (load32 k)) (add32 b (load32 (k + 4)))
                   (add32 c (Z.land (load32 (k + 8)) 0xff)))
  | 8 => Some (Abc (add32 a (load32 k)) (add32 b (load32 (k + 4))) c)
  | 7 => Some (Abc (add32 a (load32 k)) (add32 b (Z.land (load32 (k + 4)) 0xffffff)) c)
  | 6 => Some (Abc (add32 a (load32 k)) (add32 b (Z.land (load32 (k + 4)) 0xffff)) c)
  | 5 => Some (Abc (add32 a (load32 k)) (add32 b (Z.land (load32 (k + 4)) 0xff)) c)
  | 4 => Some (Abc (add32 a (load32 k)) b c)
  | 3 => Some (Abc (add32 a (Z.land (load32 k) 0xffffff)) b c)
  | 2 => Some (Abc (add32 a (Z.land (load32 k) 0xffff)) b c)
  | 1 => Some (Abc (add32 a (Z.land (load32 k) 0xff)) b c)
  | 0 => None
  | _ => Some (Abc a b c)
  end.

(** [k[i] + (((uint32_t)k[i+1])<<16)] on [uint16_t *k]. *)
Definition hashlittle2_half (k : Z) : Z := u32 (load16 k + u32 (Z.shiftl (load16 (k + 2)) 16)).

(** 2-aligned key: six 16-bit reads per turn. *)
Fixpoint hashlittle2_loop16 (fuel : nat) (k length : Z) (s : abc) : abc * Z * Z :=
  match fuel with
  | O => (s, k, length)
  | S fuel' =>
      if 12 <? length then
        hashlittle2_loop16 fuel' (k + 12) (length - 12)
          (mix (Abc (add32 (st_a s) (hashlittle2_half k)) (add32 (st_b s) (hashlittle2_half (k + 4)))
                    (add32 (st_c s) (hashlittle2_half (k + 8)))))
      else (s, k, length)
  end.

(** 2-aligned key, last block; the odd cases fall through to the even ones. *)
Definition hashlittle2_tail16 (k8 length : Z) (s : abc) : option abc :=
  let '(Abc a b c) := s in
  let case10 c := Some (Abc (add32 a (hashlittle2_half k8)) (add32 b (hashlittle2_half (k8 + 4)))
                            (add32 c (load16 (k8 + 8)))) in
  let case8 c := Some (Abc (add32 a (hashlittle2_half k8)) (add32 b (hashlittle2_half (k8 + 4))) c) in
  let case6 b := Some (Abc (add32 a (hashlittle2_half k8)) (add32 b (load16 (k8 + 4))) c) in
  let case4 b := Some (Abc (add32 a (hashlittle2_half k8)) b c) in
  let case2 a := Some (Abc (add32 a (load16 k8)) b c) in
  match length with
  | 12 => Some (Abc (add32 a (hashlittle2_half k8)) (add32 b (hashlittle2_half (k8 + 4)))
                    (add32 c (hashlittle2_half (k8 + 8))))
  | 11 => case10 (add32 c (u32 (Z.shiftl (load8 (k8 + 10)) 16)))
  | 10 => case10 c
  | 9 => case8 (add32 c (load8 (k8 + 8)))
  | 8 => case8 c
  | 7 => case6 (add32 b (u32 (Z.shiftl (load8 (k8 + 6)) 16)))
  | 6 => case6 b
  | 5 => case4 (add32 b (load8 (k8 + 4)))
  | 4 => case4 b
  | 3 => case2 (add32 a (u32 (Z.shiftl (load8 (k8 + 2)) 16)))
  | 2 => case2 a
  | 1 => Some (Abc (add32 a (load8 k8)) b c)
  | 0 => None
  | _ => Some (Abc a b c)
  end.

(** [x += k[0]; x += k[1]<<8; x += k[2]<<16; x += k[3]<<24;] byte by byte. *)
Definition hashlittle2_bytes4 (x k : Z) : Z :=
  let x := add32 x (load8 k) in
  let x := add32 x (u32 (Z.shiftl (load8 (k + 1)) 8)) in
  let x := add32 x (u32 (Z.shiftl (load8 (k + 2)) 16)) in
  add32 x (u32 (Z.shiftl (load8 (k + 3)) 24)).

(** Unaligned key: one byte at a time. *)
Fixpoint hashlittle2_loop8 (fuel : nat) (k length : Z) (s : abc) : abc * Z * Z :=
  match fuel with
  | O => (s, k, length)
  | S fuel' =>
      if 12 <? length then
        hashlittle2_loop8 fuel' (k + 12) (length - 12)
          (mix (Abc (hashlittle2_bytes4 (st_a s) k) (hashlittle2_bytes4 (st_b s) (k + 4))
                    (hashlittle2_bytes4 (st_c s) (k + 8))))
      else (s, k, length)
  end.

(** Unaligned key, last block: every case falls through to the next. *)
Definition hashlittle2_tail8 (k length : Z) (s : abc) : option abc :=
  let '(Abc a b c) := s in
  let case1 a b c := Some (Abc (add32 a (load8 k)) b c) in
  let case2 a b c := case1 (add32 a (u32 (Z.shiftl (load8 (k + 1)) 8))) b c in
  let case3 a b c := case2 (add32 a (u32 (Z.shiftl (load8 (k + 2)) 16))) b c in
  let case4 a b c := case3 (add32 a (u32 (Z.shiftl (load8 (k + 3)) 24))) b c in
  let case5 a b c := case4 a (add32 b (load8 (k + 4))) c in
  let case6 a b c := case5 a (add32 b (u32 (Z.shiftl (load8 (k + 5)) 8))) c in
  let case7 a b c := case6 a (add32 b (u32 (Z.shiftl (load8 (k + 6)) 16))) c in
  let case8 a b c := case7 a (add32 b (u32 (Z.shiftl (load8 (k + 7)) 24))) c in
  let case9 a b c := case8 a b (add32 c (load8 (k + 8))) in
  let case10 a b c := case9 a b (add32 c (u32 (Z.shiftl (load8 (k + 9)) 8))) in
  let case11 a b c := case10 a b (add32 c (u32 (Z.shiftl (load8 (k + 10)) 16))) in
  let case12 a b c := case11 a b (add32 c (u32 (Z.shiftl (load8 (k + 11)) 24))) in
  match length with
  | 12 => case12 a b c
  | 11 => case11 a b c
  | 10 => case10 a b c
  | 9 => case9 a b c
  | 8 => case8 a b c
  | 7 => case7 a b c
  | 6 => case6 a b c
  | 5 => case5 a b c
  | 4 => case4 a b c
  | 3 => case3 a b c
  | 2 => case2 a b c
  | 1 => case1 a b c
  | 0 => None
  | _ => Some (Abc a b c)
  end.

(** [hashlittle2(key, length, &pc, &pb)] returns the pair [(pc, pb)]. *)
Definition hashlittle2 (key length pc pb : Z) : Z * Z :=
  let i := add32 (add32 0xfeedbeef (u32 length)) pc in
  let s := Abc i i (add32 i pb) in
  let fuel := Z.to_nat length in
  let '(s, last) :=
    if Z.land key 3 =? 0 then
      let '(s, k, length) := hashlittle2_loop32 fuel key length s in
      (s, hashlittle2_tail32 k length s)
    else if Z.land key 1 =? 0 then
      let '(s, k, length) := hashlittle2_loop16 fuel key length s in
      (s, hashlittle2_tail16 k length s)
    else
      let '(s, k, length) := hashlittle2_loop8 fuel key length s in
      (s, hashlittle2_tail8 k length s) in
  match last with
  | None => (st_c s, st_b s)
  | Some s => let s := final s in (st_c s, st_b s)
  end.

(** [bobhash(key, length)]. *)
Definition bobhash (key length : Z) : Z := hashlittle key length 607.

(** [bobhash64(key, length)]. The locals [pc] and [pb] are passed to
    [hashlittle2] without having been given a value: their indeterminate
    contents are the two extra arguments. *)
Definition bobhash64 (key length pc0 pb0 : Z) : Z :=
  let '(pc, pb) := hashlittle2 key length pc0 pb0 in
  u64 (pc + u64 (Z.shiftl pb 32)).

End Memory.

(** ** Reversibility of the mixing steps *)

Definition abc_ok (s : abc) : Prop := is_u32 (st_a s) /\ is_u32 (st_b s) /\ is_u32 (st_c s).

Lemma add32_range x y : is_u32 (add32 x y).
Proof. apply u32_range. Qed.
Lemma sub32_range x y : is_u32 (sub32 x y).
Proof. apply u32_range. Qed.
Lemma rot_range x k : 0 <= k <= 32 -> is_u32 x -> is_u32 (rot x k).
Proof. intros. unfold rot. auto with word. Qed.

Lemma add_sub32 x y : is_u32 x -> sub32 (add32 x y) y = x.
Proof. unfold add32, sub32. word. Qed.
Lemma sub_add32 x y : is_u32 x -> add32 (sub32 x y) y = x.
Proof. unfold add32, sub32. word. Qed.
Lemma add32_add32 x y z : add32 (add32 x y) z = add32 x (y + z).
Proof. unfold add32. word. Qed.
Lemma add32_u32 x y : add32 x (u32 y) = add32 x y.
Proof. unfold add32. word. Qed.

#[local] Hint Resolve add32_range sub32_range rot_range : word.

(** One line of the macros: [a -= c; a ^= rot(c,k); c += b;] and its inverse. *)
Definition mix_line (k a b c : Z) : Z * Z :=
  (Z.lxor (sub32 a c) (rot c k), add32 c b).
Definition unmix_line (k a b c : Z) : Z * Z :=
  let c := sub32 c b in (add32 (Z.lxor a (rot c k)) c, c).

Lemma unmix_line_mix k a b c :
  is_u32 a -> is_u32 c ->
  let '(a', c') := mix_line k a b c in unmix_line k a' b c' = (a, c).
Proof.
  intros Ha Hc. cbn. unfold unmix_line. rewrite add_sub32 by done.
  now rewrite lxor_cancel_r, sub_add32.
Qed.

Lemma mix_line_unmix k a b c :
  0 <= k <= 32 -> is_u32 a -> is_u32 c ->
  let '(a', c') := unmix_line k a b c in mix_line k a' b c' = (a, c).
Proof.
  intros Hk Ha Hc. cbn. unfold mix_line.
  rewrite add_sub32 by auto with word. now rewrite lxor_cancel_r, sub_add32.
Qed.

(** The macro run backwards, the line order reversed. *)
Definition unmix (s : abc) : abc :=
  let '(Abc a b c) := s in
  let '(c, b) := unmix_line 4 c a b in
  let '(b, a) := unmix_line 19 b c a in
  let '(a, c) := unmix_line 16 a b c in
  let '(c, b) := unmix_line 8 c a b in
  let '(b, a) := unmix_line 6 b c a in
  let '(a, c) := unmix_line 4 a b c in
  Abc a b c.

Lemma mix_lines a b c :
  mix (Abc a b c) =
    (let '(a, c) := mix_line 4 a b c in
     let '(b, a) := mix_line 6 b c a in
     let '(c, b) := mix_line 8 c a b in
     let '(a, c) := mix_line 16 a b c in
     let '(b, a) := mix_line 19 b c a in
     let '(c, b) := mix_line 4 c a b in
     Abc a b c).
Proof. reflexivity. Qed.

Lemma mix_line_range k a b c a' c' :
  0 <= k <= 32 -> is_u32 a -> is_u32 c -> mix_line k a b c = (a', c') -> is_u32 a' /\ is_u32 c'.
Proof. intros Hk Ha Hc He. injection He as <- <-. auto with word. Qed.

Lemma unmix_line_range k a b c a' c' :
  0 <= k <= 32 -> is_u32 a -> is_u32 c -> unmix_line k a b c = (a', c') -> is_u32 a' /\ is_u32 c'.
Proof. intros Hk Ha Hc He. injection He as <- <-. auto with word. Qed.

(** Run the next line of a macro, keeping the ranges and the inverse equation. *)
Ltac fwd_line :=
  match goal with
  | |- context [mix_line ?k ?a ?b ?c] =>
      let E := fresh "E" in let a' := fresh "a" in let c' := fresh "c" in
      let R1 := fresh "R" in let R2 := fresh "Q" in
      pose proof (unmix_line_mix k a b c ltac:(assumption) ltac:(assumption));
      destruct (mix_line k a b c) as [a' c'] eqn:E;
      destruct (mix_line_range k a b c a' c' ltac:(lia) ltac:(assumption) ltac:(assumption) E)
        as [R1 R2]; cbn beta iota in *; clear E
  end.
Ltac bwd_line :=
  match goal with
  | |- context [unmix_line ?k ?a ?b ?c] =>
      let E := fresh "E" in let a' := fresh "a" in let c' := fresh "c" in
      let R1 := fresh "R" in let R2 := fresh "Q" in
      pose proof (mix_line_unmix k a b c ltac:(lia) ltac:(assumption) ltac:(assumption));
      destruct (unmix_line k a b c) as [a' c'] eqn:E;
      destruct (unmix_line_range k a b c a' c' ltac:(lia) ltac:(assumption) ltac:(assumption) E)
        as [R1 R2]; cbn beta iota in *; clear E
  end.

Lemma unmix_mix s : abc_ok s -> unmix (mix s) = s.
Proof.
  destruct s as [a b c]. intros (Ha & Hb & Hc). cbn in Ha, Hb, Hc. rewrite mix_lines.
  do 6 fwd_line. unfold unmix.
  repeat match goal with H : unmix_line _ _ _ _ = _ |- _ => rewrite H; clear H end.
  reflexivity.
Qed.

Lemma mix_unmix s : abc_ok s -> mix (unmix s) = s.
Proof.
  destruct s as [a b c]. intros (Ha & Hb & Hc). cbn in Ha, Hb, Hc. unfold unmix.
  do 6 bwd_line. rewrite mix_lines.
  repeat match goal with H : mix_line _ _ _ _ = _ |- _ => rewrite H; clear H end.
  reflexivity.
Qed.

Lemma mix_ok s : abc_ok s -> abc_ok (mix s).
Proof.
  destruct s as [a b c]. intros (Ha & Hb & Hc). cbn in Ha, Hb, Hc. rewrite mix_lines.
  do 6 fwd_line. unfold abc_ok; cbn [st_a st_b st_c]; auto.
Qed.

Lemma final_ok s : abc_ok (final s).
Proof. destruct s as [a b c]. unfold final, abc_ok. cbn. auto with word. Qed.

(** [final] line: [c ^= b; c -= rot(b,k);]. *)
Lemma final_line_inj k b c d :
  is_u32 b -> is_u32 c -> is_u32 d ->
  sub32 (Z.lxor c b) (rot b k) = sub32 (Z.lxor d b) (rot b k) -> c = d.
Proof.
  intros Hb Hc Hd He. apply (f_equal (fun x => add32 x (rot b k))) in He.
  rewrite !sub_add32 in He by auto with word. now apply lxor_inj_l in He.
Qed.

(** ** The byte-list specification of the hash *)

(** Twelve bytes (or the short rest) added to the state as little-endian words. *)
Definition add_block (s : abc) (w : list Z) : abc :=
  Abc (add32 (st_a s) (le_combine (take 4 w)))
      (add32 (st_b s) (le_combine (take 4 (drop 4 w))))
      (add32 (st_c s) (le_combine (drop 8 w))).

Fixpoint lookup3_loop (fuel : nat) (bs : list Z) (s : abc) : abc * list Z :=
  match fuel with
  | O => (s, bs)
  | S fuel' =>
      if (12 <? length bs)%nat
      then lookup3_loop fuel' (drop 12 bs) (mix (add_block s (take 12 bs)))
      else (s, bs)
  end.

(** lookup3 on a byte list: full blocks are mixed, the last non-empty block is
    finalised, an empty key is not mixed at all. *)
Definition lookup3 (bs : list Z) (pc pb : Z) : abc :=
  let i := add32 (add32 0xfeedbeef (u32 (Z.of_nat (length bs)))) pc in
  let '(s, rest) := lookup3_loop (length bs) bs (Abc i i (add32 i pb)) in
  match rest with [] => s | _ => final (add_block s rest) end.

Section MemoryFacts.
Variable mem : Z -> Z.
Hypothesis mem_bytes : forall p, is_u8 (mem p).

(** The bytes at [p], [p+1], ... *)
Fixpoint bytes_at (p : Z) (n : nat) : list Z :=
  match n with O => [] | S n' => mem p :: bytes_at (p + 1) n' end.

Lemma bytes_at_length p n : length (bytes_at p n) = n.
Proof. revert p; induction n; intros; cbn; [done|]. now rewrite IHn. Qed.

Lemma bytes_at_add p n k : bytes_at p (n + k) = bytes_at p n ++ bytes_at (p + Z.of_nat n) k.
Proof.
  revert p; induction n as [|n IH]; intros p; cbn [bytes_at Nat.add app].
  - f_equal. lia.
  - f_equal. rewrite IH. do 2 f_equal. lia.
Qed.

Lemma load16_le p : load16 mem p = le_combine (bytes_at p 2).
Proof. reflexivity. Qed.

Lemma load32_le p : load32 mem p = le_combine (bytes_at p 4).
Proof.
  unfold load32. cbn [bytes_at].
  replace (p + 1 + 1) with (p + 2) by lia. now replace (p + 2 + 1) with (p + 3) by lia.
Qed.

Lemma bytes_at_ok p n : bytes_ok (bytes_at p n).
Proof.
  revert p; induction n as [|n IH]; intros p; [constructor|].
  apply Forall_cons_2; [apply mem_bytes|apply IH].
Qed.

Lemma land_load32 p n :
  (n <= 4)%nat -> Z.land (load32 mem p) (Z.ones (8 * Z.of_nat n)) = le_combine (bytes_at p n).
Proof.
  intros Hn. rewrite Z.land_ones by lia. rewrite load32_le.
  replace 4%nat with (n + (4 - n))%nat by lia. rewrite bytes_at_add, le_combine_app, bytes_at_length.
  rewrite Z.mul_comm, Z.mod_add by (apply Z.pow_nonzero; lia). apply Z.mod_small.
  pose proof (le_combine_range _ (bytes_at_ok p n)) as H. now rewrite bytes_at_length in H.
Qed.

Lemma half_le p : hashlittle_half mem p = le_combine (bytes_at p 4).
Proof.
  unfold hashlittle_half. rewrite !load16_le. change 4%nat with (2 + 2)%nat.
  rewrite bytes_at_add, le_combine_app. cbn [bytes_at length le_combine].
  pose proof (mem_bytes p). pose proof (mem_bytes (p + 1)).
  pose proof (mem_bytes (p + 2)). pose proof (mem_bytes (p + 2 + 1)).
  rewrite Z.shiftl_mul_pow2 by lia. change (Z.of_nat 2) with 2. change (8 * 2) with 16. word.
Qed.

Lemma shiftl_byte p k : 0 <= k <= 24 -> u32 (Z.shiftl (load8 mem p) k) = mem p * 2 ^ k.
Proof.
  intros Hk. unfold load8. rewrite Z.shiftl_mul_pow2 by lia. apply u32_small.
  pose proof (mem_bytes p) as H. unfold in_range in *. split; [nia|].
  apply Z.lt_le_trans with (2 ^ 8 * 2 ^ k); [nia|]. rewrite <- Z.pow_add_r by lia.
  apply Z.pow_le_mono_r; lia.
Qed.

Lemma bytes4_le x p : hashlittle_bytes4 mem x p = add32 x (le_combine (bytes_at p 4)).
Proof.
  unfold hashlittle_bytes4. rewrite !shiftl_byte, !add32_add32 by lia. unfold load8.
  rewrite <- load32_le. unfold load32. cbn [le_combine].
  change (2 ^ 8) with 256. change (2 ^ 16) with 65536. change (2 ^ 24) with 16777216.
  f_equal. lia.
Qed.

Lemma bytes_at_take p n k : (k <= n)%nat -> take k (bytes_at p n) = bytes_at p k.
Proof.
  intros. replace n with (k + (n - k))%nat by lia. rewrite bytes_at_add.
  rewrite take_app_le by (rewrite bytes_at_length; lia).
  now rewrite take_ge by (rewrite bytes_at_length; lia).
Qed.

Lemma bytes_at_drop p n k :
  (k <= n)%nat -> drop k (bytes_at p n) = bytes_at (p + Z.of_nat k) (n - k).
Proof.
  intros. replace n with (k + (n - k))%nat at 1 by lia. rewrite bytes_at_add.
  now rewrite drop_app_length' by (rewrite bytes_at_length; lia).
Qed.

(** A full block, whatever the width of the reads. *)
Lemma add_block_full k s :
  add_block s (bytes_at k 12) =
  Abc (add32 (st_a s) (le_combine (bytes_at k 4)))
      (add32 (st_b s) (le_combine (bytes_at (k + 4) 4)))
      (add32 (st_c s) (le_combine (bytes_at (k + 8) 4))).
Proof. unfold add_block. rewrite !bytes_at_drop, !bytes_at_take by lia. reflexivity. Qed.

(** The three loops are the one on the byte list. *)
Definition loops_like (loop : nat -> Z -> Z -> abc -> abc * Z * Z) : Prop :=
  forall fuel n k s, (n <= fuel)%nat ->
    exists s' k' n', loop fuel k (Z.of_nat n) s = (s', k', Z.of_nat n') /\ (n' <= 12)%nat /\
      lookup3_loop fuel (bytes_at k n) s = (s', bytes_at k' n').

Lemma loops_like_intro loop :
  (forall k n s, loop O k n s = (s, k, n)) ->
  (forall fuel k n s, loop (S fuel) k n s =
     if 12 <? n then loop fuel (k + 12) (n - 12) (mix (add_block s (bytes_at k 12)))
     else (s, k, n)) ->
  loops_like loop.
Proof.
  intros H0 HS fuel. induction fuel as [|fuel IH]; intros n k s Hn.
  - exists s, k, n. rewrite H0. split; [done|]. split; [lia|done].
  - rewrite HS. cbn [lookup3_loop]. rewrite bytes_at_length.
    destruct (Z.ltb_spec 12 (Z.of_nat n)) as [Hlt|Hge], (Nat.ltb_spec 12 n); try lia.
    + rewrite bytes_at_take, bytes_at_drop by lia.
      replace (Z.of_nat n - 12) with (Z.of_nat (n - 12)) by lia.
      apply IH. lia.
    + exists s, k, n. auto.
Qed.

Lemma loop32_like : loops_like (hashlittle_loop32 mem).
Proof.
  apply loops_like_intro; [done|]. intros. cbn [hashlittle_loop32].
  now rewrite add_block_full, !load32_le.
Qed.
Lemma loop16_like : loops_like (hashlittle_loop16 mem).
Proof.
  apply loops_like_intro; [done|]. intros. cbn [hashlittle_loop16].
  now rewrite add_block_full, !half_le.
Qed.
Lemma loop8_like : loops_like (hashlittle_loop8 mem).
Proof.
  apply loops_like_intro; [done|]. intros. cbn [hashlittle_loop8].
  now rewrite add_block_full, !bytes4_le.
Qed.

(** The three tails add the last block, or return early on an empty one. *)
Definition tails_like (tail : Z -> Z -> abc -> option abc) : Prop :=
  forall n k s, (n <= 12)%nat -> abc_ok s ->
    tail k (Z.of_nat n) s =
      match n with O => None | _ => Some (add_block s (bytes_at k n)) end.

Lemma add32_0 x : is_u32 x -> add32 x 0 = x.
Proof. unfold add32. rewrite Z.add_0_r. apply u32_small. Qed.

Lemma nat_upto_12 (P : nat -> Prop) :
  P 0%nat -> P 1%nat -> P 2%nat -> P 3%nat -> P 4%nat -> P 5%nat -> P 6%nat -> P 7%nat ->
  P 8%nat -> P 9%nat -> P 10%nat -> P 11%nat -> P 12%nat -> forall n, (n <= 12)%nat -> P n.
Proof. intros. do 13 (destruct n as [|n]; [assumption|]). lia. Qed.

Lemma add_block_bytes n k a b c :
  add_block (Abc a b c) (bytes_at k n) =
  Abc (add32 a (le_combine (bytes_at k (Nat.min 4 n))))
      (add32 b (le_combine (bytes_at (k + 4) (Nat.min 4 (n - 4)))))
      (add32 c (le_combine (bytes_at (k + 8) (n - 8)))).
Proof.
  assert (Htake : forall p j, take 4 (bytes_at p j) = bytes_at p (Nat.min 4 j)).
  { intros p j. destruct (Nat.le_ge_cases 4 j).
    - rewrite bytes_at_take by done. now rewrite Nat.min_l.
    - rewrite take_ge by (rewrite bytes_at_length; lia). now rewrite Nat.min_r. }
  assert (Hdrop : forall j, drop j (bytes_at k n) = bytes_at (k + Z.of_nat j) (n - j)).
  { intros j. destruct (Nat.le_ge_cases j n); [now apply bytes_at_drop|].
    rewrite drop_ge by (rewrite bytes_at_length; lia). now replace (n - j)%nat with 0%nat by lia. }
  unfold add_block. cbn [st_a st_b st_c]. now rewrite !Hdrop, !Htake.
Qed.

Lemma mask24 p : Z.land (load32 mem p) 0xffffff = le_combine (bytes_at p 3).
Proof. apply (land_load32 p 3). lia. Qed.
Lemma mask16 p : Z.land (load32 mem p) 0xffff = le_combine (bytes_at p 2).
Proof. apply (land_load32 p 2). lia. Qed.
Lemma mask8 p : Z.land (load32 mem p) 0xff = le_combine (bytes_at p 1).
Proof. apply (land_load32 p 1). lia. Qed.

Lemma load8_le p : load8 mem p = le_combine (bytes_at p 1).
Proof. cbn [bytes_at le_combine]. unfold load8. lia. Qed.

(** A word of two to four bytes added from its last byte to its first. *)
Lemma add_half3 x p q :
  q = p + 2 ->
  add32 (add32 x (u32 (Z.shiftl (load8 mem q) 16))) (load16 mem p) =
  add32 x (le_combine (bytes_at p 3)).
Proof.
  intros ->. rewrite shiftl_byte, add32_add32 by lia. unfold load16. cbn [bytes_at le_combine].
  replace (p + 1 + 1) with (p + 2) by lia. change (2 ^ 16) with 65536. f_equal. lia.
Qed.

Lemma add_byte2 x p q :
  q = p + 1 ->
  add32 (add32 x (u32 (Z.shiftl (load8 mem q) 8))) (load8 mem p) =
  add32 x (le_combine (bytes_at p 2)).
Proof.
  intros ->. rewrite shiftl_byte, add32_add32 by lia. unfold load8. cbn [bytes_at le_combine].
  change (2 ^ 8) with 256. f_equal. lia.
Qed.

Lemma add_byte3 x p q1 q2 :
  q1 = p + 1 -> q2 = p + 2 ->
  add32 (add32 (add32 x (u32 (Z.shiftl (load8 mem q2) 16))) (u32 (Z.shiftl (load8 mem q1) 8)))
        (load8 mem p) = add32 x (le_combine (bytes_at p 3)).
Proof.
  intros -> ->. rewrite !shiftl_byte, !add32_add32 by lia. unfold load8. cbn [bytes_at le_combine].
  replace (p + 1 + 1) with (p + 2) by lia. change (2 ^ 8) with 256. change (2 ^ 16) with 65536.
  f_equal. lia.
Qed.

Lemma add_byte4 x p q1 q2 q3 :
  q1 = p + 1 -> q2 = p + 2 -> q3 = p + 3 ->
  add32 (add32 (add32 (add32 x (u32 (Z.shiftl (load8 mem q3) 24)))
    (u32 (Z.shiftl (load8 mem q2) 16))) (u32 (Z.shiftl (load8 mem q1) 8))) (load8 mem p) =
  add32 x (le_combine (bytes_at p 4)).
Proof.
  intros -> -> ->. rewrite !shiftl_byte, !add32_add32 by lia. rewrite <- load32_le.
  unfold load8, load32. cbn [le_combine].
  change (2 ^ 8) with 256. change (2 ^ 16) with 65536. change (2 ^ 24) with 16777216.
  f_equal. lia.
Qed.

(** Case analysis on the twelve lengths, each closed by the word lemmas. *)
Ltac tail_cases :=
  intros n k [a b c] Hn (Ha & Hb & Hc); cbn [st_a st_b st_c] in Ha, Hb, Hc;
  revert n Hn; apply nat_upto_12; [reflexivity|..];
  rewrite add_block_bytes;
  cbn -[add32 le_combine bytes_at load8 load16 load32 hashlittle_half u32 Z.add Z.shiftl];
  cbn [Nat.min Nat.sub];
  change (le_combine (bytes_at (k + 4) 0)) with 0; change (le_combine (bytes_at (k + 8) 0)) with 0;
  rewrite ?add32_0 by assumption.

Lemma tail32_like : tails_like (hashlittle_tail32 mem).
Proof. tail_cases; rewrite ?mask24, ?mask16, ?mask8, ?load32_le; reflexivity. Qed.

Lemma tail16_like : tails_like (hashlittle_tail16 mem).
Proof.
  tail_cases; rewrite ?add_half3 by lia; rewrite ?half_le, ?load16_le, ?load8_le; reflexivity.
Qed.

Lemma tail8_like : tails_like (hashlittle_tail8 mem).
Proof.
  tail_cases; rewrite ?add_byte4 by lia; rewrite ?add_byte3 by lia; rewrite ?add_byte2 by lia;
    rewrite ?load8_le; reflexivity.
Qed.

Lemma lookup3_loop_ok fuel bs s : abc_ok s -> abc_ok (fst (lookup3_loop fuel bs s)).
Proof.
  revert bs s; induction fuel as [|fuel IH]; intros bs s Hs; cbn [lookup3_loop]; [done|].
  destruct (12 <? length bs)%nat; [|done]. apply IH, mix_ok.
  unfold add_block, abc_ok. cbn [st_a st_b st_c]. auto with word.
Qed.

(** One alignment path of the C code against the byte-list hash. *)
Lemma path_like loop tail key n s :
  loops_like loop -> tails_like tail -> abc_ok s ->
  (let '(s', k', l') := loop n key (Z.of_nat n) s in
   match tail k' l' s' with None => s' | Some s'' => final s'' end) =
  (let '(s', rest) := lookup3_loop n (bytes_at key n) s in
   match rest with [] => s' | _ => final (add_block s' rest) end).
Proof.
  intros Hloop Htail Hs. destruct (Hloop n n key s (Nat.le_refl n)) as (s' & k' & n' & E & Hn' & El).
  pose proof (lookup3_loop_ok n (bytes_at key n) s Hs) as Hs'. rewrite El in Hs'. cbn in Hs'.
  rewrite E, El, Htail by done. destruct n'; reflexivity.
Qed.

Lemma hashlittle_path key n initval :
  hashlittle mem key (Z.of_nat n) initval = st_c (lookup3 (bytes_at key n) initval 0).
Proof.
  unfold hashlittle, lookup3. rewrite Nat2Z.id, bytes_at_length, add32_0 by auto with word.
  set (i := add32 (add32 _ _) initval).
  assert (Hs : abc_ok (Abc i i i)) by (unfold abc_ok, i; cbn; auto with word).
  pose proof (path_like _ _ key n _ loop32_like tail32_like Hs) as P32.
  pose proof (path_like _ _ key n _ loop16_like tail16_like Hs) as P16.
  pose proof (path_like _ _ key n _ loop8_like tail8_like Hs) as P8.
  destruct (lookup3_loop n (bytes_at key n) (Abc i i i)) as [t rest].
  destruct (Z.land key 3 =? 0); [|destruct (Z.land key 1 =? 0)].
  - destruct (hashlittle_loop32 mem n key (Z.of_nat n) (Abc i i i)) as [[s' k'] l'].
    rewrite <- P32. destruct (hashlittle_tail32 mem k' l' s'); reflexivity.
  - destruct (hashlittle_loop16 mem n key (Z.of_nat n) (Abc i i i)) as [[s' k'] l'].
    rewrite <- P16. destruct (hashlittle_tail16 mem k' l' s'); reflexivity.
  - destruct (hashlittle_loop8 mem n key (Z.of_nat n) (Abc i i i)) as [[s' k'] l'].
    rewrite <- P8. destruct (hashlittle_tail8 mem k' l' s'); reflexivity.
Qed.

(** The copies of the loops and tails in [hashlittle2] are the same code. *)
Lemma hashlittle2_copies :
  hashlittle2_loop32 mem = hashlittle_loop32 mem /\ hashlittle2_tail32 mem = hashlittle_tail32 mem /\
  hashlittle2_loop16 mem = hashlittle_loop16 mem /\ hashlittle2_tail16 mem = hashlittle_tail16 mem /\
  hashlittle2_loop8 mem = hashlittle_loop8 mem /\ hashlittle2_tail8 mem = hashlittle_tail8 mem.
Proof. repeat split; reflexivity. Qed.

Lemma hashlittle2_path key n pc pb :
  hashlittle2 mem key (Z.of_nat n) pc pb =
  let r := lookup3 (bytes_at key n) pc pb in (st_c r, st_b r).
Proof.
  destruct hashlittle2_copies as (L32 & T32 & L16 & T16 & L8 & T8).
  unfold hashlittle2, lookup3. rewrite L32, T32, L16, T16, L8, T8, Nat2Z.id, bytes_at_length.
  set (i := add32 (add32 _ _) pc). set (s := Abc i i (add32 i pb)).
  assert (Hs : abc_ok s) by (unfold abc_ok, s, i; cbn; auto with word).
  pose proof (path_like _ _ key n _ loop32_like tail32_like Hs) as P32.
  pose proof (path_like _ _ key n _ loop16_like tail16_like Hs) as P16.
  pose proof (path_like _ _ key n _ loop8_like tail8_like Hs) as P8.
  destruct (lookup3_loop n (bytes_at key n) s) as [t rest]. cbv zeta.
  destruct (Z.land key 3 =? 0); [|destruct (Z.land key 1 =? 0)].
  - destruct (hashlittle_loop32 mem n key (Z.of_nat n) s) as [[s' k'] l'].
    rewrite <- P32. destruct (hashlittle_tail32 mem k' l' s'); reflexivity.
  - destruct (hashlittle_loop16 mem n key (Z.of_nat n) s) as [[s' k'] l'].
    rewrite <- P16. destruct (hashlittle_tail16 mem k' l' s'); reflexivity.
  - destruct (hashlittle_loop8 mem n key (Z.of_nat n) s) as [[s' k'] l'].
    rewrite <- P8. destruct (hashlittle_tail8 mem k' l' s'); reflexivity.
Qed.

End MemoryFacts.

(** ** hashword on the bytes of its words *)

Definition word_bytes (k : list Z) : list Z := mjoin (le_split 4 <$> k).

Lemma word_bytes_cons w k : word_bytes (w :: k) = le_split 4 w ++ word_bytes k.
Proof. reflexivity. Qed.

Lemma word_bytes_length k : length (word_bytes k) = (4 * length k)%nat.
Proof.
  induction k as [|w k IH]; [done|].
  rewrite word_bytes_cons, length_app, IH, le_split_length. cbn [length]. lia.
Qed.

Lemma le_combine_split4 w : is_u32 w -> le_combine (le_split 4 w) = w.
Proof. intros. rewrite le_combine_split. apply Z.mod_small. done. Qed.

Lemma add_block_words s k0 k1 k2 :
  is_u32 k0 -> is_u32 k1 -> is_u32 k2 ->
  add_block s (word_bytes [k0; k1; k2]) =
  Abc (add32 (st_a s) k0) (add32 (st_b s) k1) (add32 (st_c s) k2).
Proof.
  intros H0 H1 H2. rewrite !word_bytes_cons. change (word_bytes []) with (@nil Z).
  rewrite app_nil_r. unfold add_block.
  rewrite take_app_length', drop_app_length', take_app_length' by (now rewrite le_split_length).
  rewrite (app_assoc (le_split 4 k0)), drop_app_length'
    by (rewrite length_app, !le_split_length; reflexivity).
  now rewrite !le_combine_split4.
Qed.

Lemma word_bytes_app k l : word_bytes (k ++ l) = word_bytes k ++ word_bytes l.
Proof. unfold word_bytes. now rewrite fmap_app, join_app. Qed.

Lemma hashword_loop_bytes fuel k s :
  (length k <= fuel)%nat -> Forall (in_range 32) k ->
  lookup3_loop fuel (word_bytes k) s =
    (let '(s', rest) := hashword_loop k s in (s', word_bytes rest)).
Proof.
  revert k s. induction fuel as [|fuel IH]; intros k s Hl Hk.
  { destruct k; [reflexivity|cbn [length] in Hl; lia]. }
  cbn [lookup3_loop]. rewrite word_bytes_length.
  destruct (Nat.ltb_spec 12 (4 * length k)) as [Hlt|Hge].
  - destruct k as [|k0 [|k1 [|k2 [|k3 k]]]]; try (cbn [length] in Hlt; lia).
    inversion Hk as [|?? H0 Hk0]; subst. inversion Hk0 as [|?? H1 Hk1]; subst.
    inversion Hk1 as [|?? H2 Hk2]; subst.
    change (k0 :: k1 :: k2 :: k3 :: k) with ([k0; k1; k2] ++ k3 :: k) at 1 2.
    rewrite word_bytes_app, take_app_length', drop_app_length' by (now rewrite word_bytes_length).
    rewrite add_block_words by done. cbn [hashword_loop].
    apply IH; [cbn [length] in *; lia|done].
  - destruct k as [|k0 [|k1 [|k2 [|k3 k]]]]; try reflexivity. cbn [length] in Hge. lia.
Qed.

Lemma hashword_loop_rest k s :
  (length (snd (hashword_loop k s)) <= 3)%nat /\
  (Forall (in_range 32) k -> Forall (in_range 32) (snd (hashword_loop k s))).
Proof.
  remember (length k) as n eqn:Hn. revert k s Hn.
  induction n as [n IH] using lt_wf_ind. intros k s Hn.
  destruct k as [|k0 [|k1 [|k2 [|k3 k]]]]; cbn [hashword_loop snd length] in *; try (split; [lia|done]).
  destruct (IH (S (length k)) ltac:(lia) (k3 :: k)
    (mix (Abc (add32 (st_a s) k0) (add32 (st_b s) k1) (add32 (st_c s) k2))) eq_refl) as [Hlen Hall].
  split; [done|]. intros Hk. apply Hall.
  do 3 (apply Forall_cons_1 in Hk as [_ Hk]). exact Hk.
Qed.

Lemma add_block_u32 s w : abc_ok (add_block s w).
Proof. unfold add_block, abc_ok. cbn. auto with word. Qed.

Lemma hashword_lookup3 k pc pb :
  Forall (in_range 32) k ->
  hashword_last (hashword_loop k
    (let i := add32 (add32 0xfeedbeef (u32 (4 * Z.of_nat (length k)))) pc in Abc i i (add32 i pb))) =
  lookup3 (word_bytes k) pc pb.
Proof.
  intros Hk. unfold lookup3. rewrite word_bytes_length. cbv zeta.
  replace (Z.of_nat (4 * length k)) with (4 * Z.of_nat (length k)) by lia.
  set (i := add32 (add32 _ _) pc). set (s := Abc i i (add32 i pb)).
  assert (Hs : abc_ok s) by (unfold abc_ok, s, i; cbn; auto with word).
  pose proof (lookup3_loop_ok (4 * length k) (word_bytes k) s Hs) as Ht.
  rewrite hashword_loop_bytes by (done || lia). rewrite hashword_loop_bytes in Ht by (done || lia).
  destruct (hashword_loop_rest k s) as [Hlen Hall]. specialize (Hall Hk).
  destruct (hashword_loop k s) as [[a b c] rest]. cbn [snd] in *.
  destruct Ht as (Ha & Hb & Hc). cbn [fst st_a st_b st_c] in *.
  destruct rest as [|k0 [|k1 [|k2 [|k3 rest]]]]; cbn [hashword_last st_a st_b st_c];
    [reflexivity|..|cbn [length] in Hlen; lia];
    repeat match goal with H : Forall _ (_ :: _) |- _ => apply Forall_cons_1 in H as [? H] end.
  - change (word_bytes [k0]) with (le_split 4 k0 ++ []). rewrite app_nil_r.
    cbn [le_split]. unfold add_block. cbn [take drop st_a st_b st_c].
    change [_; _; _; _] with (le_split 4 k0). rewrite le_combine_split4 by done.
    cbn [le_combine]. now rewrite !add32_0.
  - change (word_bytes [k0; k1]) with (le_split 4 k0 ++ le_split 4 k1).
    assert (Hab : add_block (Abc a b c) (le_split 4 k0 ++ le_split 4 k1) = Abc (add32 a k0) (add32 b k1) c).
    { unfold add_block. cbn [st_a st_b st_c].
      rewrite take_app_length', drop_app_length' by (now rewrite le_split_length).
      rewrite take_ge by (rewrite le_split_length; lia).
      rewrite drop_ge by (rewrite length_app, !le_split_length; lia).
      cbn [le_combine]. now rewrite !le_combine_split4, add32_0. }
    rewrite Hab. reflexivity.
  - pose proof (add_block_words (Abc a b c) k0 k1 k2) as Hab. rewrite Hab by done. reflexivity.
Qed.

(** ** Properties *)

(** [mix] is reversible, as its comment promises: on 32-bit
    states it has a two-sided inverse. *)
Theorem mix_reversible (s : abc) :
  abc_ok s -> unmix (mix s) = s /\ mix (unmix s) = s.
Proof. intros Hs. split; [now apply unmix_mix|now apply mix_unmix]. Qed.

Lemma mix_reversible_witness :
  mix (Abc 1 2 3) = Abc 2273116832 3440859789 3824966690 /\
  unmix (mix (Abc 1 2 3)) = Abc 1 2 3 /\ mix (unmix (Abc 1 2 3)) = Abc 1 2 3.
Proof.
  split; [vm_compute; reflexivity|].
  apply (mix_reversible (Abc 1 2 3)). repeat split; cbn; unfold in_range; lia.
Defined.

(** The hash depends only on the [length] bytes of the key.
    For every address, hence for every alignment path (32-bit reads with masked
    excess, 16-bit reads, byte reads), [hashlittle] and [hashlittle2] compute
    lookup3 of the byte list; bytes past the end of the key do not matter. *)
Theorem hashlittle_alignment_free (mem : Z -> Z) (key : Z) (n : nat) (pc pb : Z) :
  (forall p, is_u8 (mem p)) ->
  hashlittle mem key (Z.of_nat n) pc = st_c (lookup3 (bytes_at mem key n) pc 0) /\
  hashlittle2 mem key (Z.of_nat n) pc pb =
    (let r := lookup3 (bytes_at mem key n) pc pb in (st_c r, st_b r)).
Proof. intros Hm. split; [now apply hashlittle_path|now apply hashlittle2_path]. Qed.

(** The same five bytes at an aligned, a half-aligned and an odd address. *)
Definition demo_mem (p : Z) : Z := if (p mod 7) <? 5 then 97 + p mod 7 else 0.

Lemma hashlittle_alignment_free_witness :
  hashlittle demo_mem 28 5 0 = hashlittle demo_mem 7 5 0 /\
  hashlittle demo_mem 14 5 0 = hashlittle demo_mem 7 5 0 /\
  hashlittle demo_mem 28 (Z.of_nat 5) 0 = st_c (lookup3 (bytes_at demo_mem 28 5) 0 0).
Proof.
  split; [vm_compute; reflexivity|]. split; [vm_compute; reflexivity|].
  apply (hashlittle_alignment_free demo_mem 28 5 0 0). intros p. unfold demo_mem.
  destruct (Z.ltb_spec (p mod 7) 5); word.
Defined.

(** C26: the relations the file's comments state. [hashword] is
    [hashlittle] on the bytes of its words; [hashword2] and [hashlittle2] with a
    zero second seed return the same primary hash. *)
Theorem lookup3_variants_agree (mem : Z -> Z) (key : Z) (k : list Z) (seed : Z) :
  (forall p, is_u8 (mem p)) -> Forall (in_range 32) k ->
  bytes_at mem key (4 * length k) = word_bytes k ->
  hashword k seed = hashlittle mem key (4 * Z.of_nat (length k)) seed /\
  fst (hashword2 k seed 0) = hashword k seed /\
  fst (hashlittle2 mem key (4 * Z.of_nat (length k)) seed 0) = hashword k seed.
Proof.
  intros Hm Hk Hb.
  assert (Hw : hashword k seed = st_c (lookup3 (word_bytes k) seed 0)).
  { unfold hashword. rewrite <- (hashword_lookup3 k seed 0 Hk). cbv zeta.
    rewrite (add32_0 (add32 _ seed)) by apply add32_range.
    rewrite Z.shiftl_mul_pow2 by lia. change (2 ^ 2) with 4.
    replace (u32 (u32 (Z.of_nat (length k)) * 4)) with (u32 (4 * Z.of_nat (length k))) by word.
    reflexivity. }
  replace (4 * Z.of_nat (length k)) with (Z.of_nat (4 * length k)) by lia.
  rewrite hashlittle_path, hashlittle2_path, Hb by done. split; [done|]. split; [|done].
  rewrite Hw, <- (hashword_lookup3 k seed 0 Hk). unfold hashword2. cbn [fst].
  rewrite Z.shiftl_mul_pow2 by lia. change (2 ^ 2) with 4. cbv zeta.
  now rewrite (Z.mul_comm (Z.of_nat (length k))).
Qed.

Lemma lookup3_variants_agree_witness :
  hashword [0x64636261; 0] 7 = 0x467cb2e3 /\
  let mem p := if p =? 0 then 97 else if p =? 1 then 98 else if p =? 2 then 99
               else if p =? 3 then 100 else 0 in
  hashword [0x64636261; 0] 7 = hashlittle mem 0 8 7 /\
  fst (hashword2 [0x64636261; 0] 7 0) = hashword [0x64636261; 0] 7 /\
  fst (hashlittle2 mem 0 8 7 0) = hashword [0x64636261; 0] 7.
Proof.
  split; [vm_compute; reflexivity|]. intros mem.
  apply (lookup3_variants_agree mem 0 [0x64636261; 0] 7); [|solve_bytes|vm_compute; reflexivity].
  intros p. unfold mem, in_range. repeat destruct (_ =? _); lia.
Defined.

(** [bobhash64] is not a function of the key. Its two seeds are the
    uninitialised locals [pc] and [pb]; already for the three bytes "abc" two
    stack contents give different 64-bit hashes. *)
Theorem bobhash64_uninitialised :
  let mem p := if (0 <=? p) && (p <? 3) then 97 + p else 0 in
  bobhash64 mem 0 3 0 0 <> bobhash64 mem 0 3 1 0 /\
  bobhash64 mem 0 3 0 0 <> bobhash64 mem 0 3 0 1.
Proof. split; vm_compute; discriminate. Qed.

End BobHash.
