(* ===== verification/RWLock.v ===== *)
(** The read-write lock of [src/src/rwlock.c]: three counters under a mutex and
    one condition variable. The lock's operations are split at their
    [pthread_cond_wait]: every piece between two releases of the mutex is one
    atomic step, threads interleave between pieces, [pthread_cond_broadcast]
    wakes every waiter, and a waiter may also wake spuriously. *)

From Stdlib Require Import ZArith Lia.
From stdpp Require Import base numbers list relations.
From S2P Require Import Prelude.

Module RWLock.

(** [struct rwlock_t] without its mutex and condition variable. *)
Record rwlock_t := Rwlock {
  tobe_write_queue_len : Z;
  write_queue_len : Z;
  read_queue_len : Z
}.

(** [rwlock_init], [rwlock_new] and [rwlock_build] zero the counters; the first
    two return NULL when their allocator does, the third -1 on NULL. *)
Definition rwlock_zero : rwlock_t := Rwlock 0 0 0.
Definition rwlock_init (my_alloc : bool) : option rwlock_t :=
  if my_alloc then Some rwlock_zero else None.
Definition rwlock_new (malloc : bool) : option rwlock_t :=
  if malloc then Some rwlock_zero else None.
Definition rwlock_build (rwlock : option rwlock_t) : Z * option rwlock_t :=
  match rwlock with None => (-1, None) | Some _ => (0, Some rwlock_zero) end.

(** [rwlock_destory] and [rwlock_free] give the lock's memory back ([None] in the
    pair); on NULL their assertion aborts. Neither looks at the counters. *)
Definition rwlock_destory (rwlock : option rwlock_t) : option (Z * option rwlock_t) :=
  match rwlock with None => None | Some _ => Some (0, None) end.
Definition rwlock_free := rwlock_destory.

(** [rwlock_rdlock] up to its loop: announce the reader. *)
Definition rdlock_enter (l : rwlock_t) : rwlock_t :=
  Rwlock (tobe_write_queue_len l) (write_queue_len l) (u64 (read_queue_len l + 1)).
(** The loop condition: the reader must wait. *)
Definition rdlock_blocked (l : rwlock_t) : bool := 0 <? write_queue_len l.

(** [rwlock_wrlock] up to its loop, the loop condition, and the rest. *)
Definition wrlock_enter (l : rwlock_t) : rwlock_t :=
  Rwlock (u64 (tobe_write_queue_len l + 1)) (write_queue_len l) (read_queue_len l).
Definition wrlock_blocked (l : rwlock_t) : bool :=
  (0 <? read_queue_len l) || (0 <? write_queue_len l).
Definition wrlock_acquire (l : rwlock_t) : rwlock_t :=
  Rwlock (u64 (tobe_write_queue_len l - 1)) (u64 (write_queue_len l + 1)) (read_queue_len l).

(** [rwlock_unrdlock] and [rwlock_unwrlock]: the new counters and whether the
    condition is broadcast. *)
Definition rwlock_unrdlock (l : rwlock_t) : rwlock_t * bool :=
  let l := Rwlock (tobe_write_queue_len l) (write_queue_len l) (u64 (read_queue_len l - 1)) in
  (l, (read_queue_len l =? 0) && (0 <? tobe_write_queue_len l)).
Definition rwlock_unwrlock (l : rwlock_t) : rwlock_t * bool :=
  let l := Rwlock (tobe_write_queue_len l) (u64 (write_queue_len l - 1)) (read_queue_len l) in
  (l, (0 <? read_queue_len l) || (0 <? tobe_write_queue_len l)).

(** The whole call by a thread that runs alone: [None] when it would block. *)
Definition rwlock_rdlock (l : rwlock_t) : option rwlock_t :=
  let l := rdlock_enter l in if rdlock_blocked l then None else Some l.
Definition rwlock_wrlock (l : rwlock_t) : option rwlock_t :=
  let l := wrlock_enter l in if wrlock_blocked l then None else Some (wrlock_acquire l).

(** ** Threads and steps *)

(** Where a thread is with respect to the lock; a waiter is asleep in
    [pthread_cond_wait] or awake and about to test its loop condition again. *)
Inductive tstate :=
  | Idle
  | RWait (awake : bool)
  | Reading
  | WWait (awake : bool)
  | Writing.

#[export] Instance tstate_eq_dec : EqDecision tstate.
Proof. solve_decision. Defined.

Record config := Config { lock : rwlock_t; threads : list tstate }.

Definition wake (t : tstate) : tstate :=
  match t with RWait _ => RWait true | WWait _ => WWait true | _ => t end.
Definition broadcast (b : bool) (ts : list tstate) : list tstate :=
  if b then wake <$> ts else ts.

Inductive step : config -> config -> Prop :=
  | step_rdlock_go l ts i :
      ts !! i = Some Idle -> rdlock_blocked (rdlock_enter l) = false ->
      step (Config l ts) (Config (rdlock_enter l) (<[i := Reading]> ts))
  | step_rdlock_wait l ts i :
      ts !! i = Some Idle -> rdlock_blocked (rdlock_enter l) = true ->
      step (Config l ts) (Config (rdlock_enter l) (<[i := RWait false]> ts))
  | step_rd_retry_go l ts i :
      ts !! i = Some (RWait true) -> rdlock_blocked l = false ->
      step (Config l ts) (Config l (<[i := Reading]> ts))
  | step_rd_retry_wait l ts i :
      ts !! i = Some (RWait true) -> rdlock_blocked l = true ->
      step (Config l ts) (Config l (<[i := RWait false]> ts))
  | step_wrlock_go l ts i :
      ts !! i = Some Idle -> wrlock_blocked (wrlock_enter l) = false ->
      step (Config l ts) (Config (wrlock_acquire (wrlock_enter l)) (<[i := Writing]> ts))
  | step_wrlock_wait l ts i :
      ts !! i = Some Idle -> wrlock_blocked (wrlock_enter l) = true ->
      step (Config l ts) (Config (wrlock_enter l) (<[i := WWait false]> ts))
  | step_wr_retry_go l ts i :
      ts !! i = Some (WWait true) -> wrlock_blocked l = false ->
      step (Config l ts) (Config (wrlock_acquire l) (<[i := Writing]> ts))
  | step_wr_retry_wait l ts i :
      ts !! i = Some (WWait true) -> wrlock_blocked l = true ->
      step (Config l ts) (Config l (<[i := WWait false]> ts))
  | step_unrdlock l ts i l' b :
      ts !! i = Some Reading -> rwlock_unrdlock l = (l', b) ->
      step (Config l ts) (Config l' (broadcast b (<[i := Idle]> ts)))
  | step_unwrlock l ts i l' b :
      ts !! i = Some Writing -> rwlock_unwrlock l = (l', b) ->
      step (Config l ts) (Config l' (broadcast b (<[i := Idle]> ts)))
  | step_spurious l ts i t :
      ts !! i = Some t -> step (Config l ts) (Config l (<[i := wake t]> ts)).

Definition init (n : nat) : config := Config rwlock_zero (replicate n Idle).
Definition reachable (n : nat) (c : config) : Prop := rtc step (init n) c.

(** ** Counting threads *)

Fixpoint countb (p : tstate -> bool) (ts : list tstate) : Z :=
  match ts with [] => 0 | t :: ts' => Z.b2z (p t) + countb p ts' end.

Definition is_reader (t : tstate) : bool := match t with RWait _ | Reading => true | _ => false end.
Definition is_reading (t : tstate) : bool := match t with Reading => true | _ => false end.
Definition is_writing (t : tstate) : bool := match t with Writing => true | _ => false end.
Definition is_wwait (t : tstate) : bool := match t with WWait _ => true | _ => false end.
Definition asleep_r (t : tstate) : bool := match t with RWait false => true | _ => false end.
Definition asleep_w (t : tstate) : bool := match t with WWait false => true | _ => false end.

Lemma countb_nonneg p ts : 0 <= countb p ts.
Proof. induction ts as [|t ts IH]; cbn; [lia|]. destruct (p t); cbn; lia. Qed.

Lemma countb_bound p ts : countb p ts <= Z.of_nat (length ts).
Proof. induction ts as [|t ts IH]; cbn [countb length]; [lia|]. destruct (p t); cbn [Z.b2z]; lia. Qed.

Lemma countb_insert p ts i t t' :
  ts !! i = Some t -> countb p (<[i := t']> ts) = countb p ts - Z.b2z (p t) + Z.b2z (p t').
Proof.
  revert i; induction ts as [|a ts IH]; intros [|i] Hi; simpl in *; try done.
  - injection Hi as ->. lia.
  - rewrite (IH i Hi). lia.
Qed.

Lemma countb_lookup p ts i t : ts !! i = Some t -> p t = true -> 0 < countb p ts.
Proof.
  revert i; induction ts as [|a ts IH]; intros [|i] Hi Hp; simpl in *; try done.
  - injection Hi as ->. rewrite Hp. pose proof (countb_nonneg p ts). simpl. lia.
  - pose proof (IH i Hi Hp). destruct (p a); simpl; lia.
Qed.

Lemma countb_pos p ts : 0 < countb p ts -> exists i t, ts !! i = Some t /\ p t = true.
Proof.
  induction ts as [|a ts IH]; cbn; intros H; [lia|].
  destruct (p a) eqn:Hp; [now exists 0%nat, a|].
  destruct (IH ltac:(cbn in H; lia)) as (i & t & Hi & Ht). now exists (S i), t.
Qed.

Lemma countb_mono p q ts : (forall t, p t = true -> q t = true) -> countb p ts <= countb q ts.
Proof.
  intros Hpq. induction ts as [|t ts IH]; cbn; [lia|].
  specialize (Hpq t). destruct (p t); [rewrite Hpq by done|]; destruct (q t); cbn; lia.
Qed.

Lemma countb_broadcast p b ts :
  (forall t, p (wake t) = p t) -> countb p (broadcast b ts) = countb p ts.
Proof.
  intros Hp. destruct b; [|done]. unfold broadcast.
  induction ts as [|t ts IH]; cbn; [done|]. now rewrite Hp, IH.
Qed.

Lemma countb_all_awake p ts : (forall t, p (wake t) = false) -> countb p (wake <$> ts) = 0.
Proof. intros Hp. induction ts as [|t ts IH]; cbn; [done|]. now rewrite Hp, IH. Qed.

Lemma countb_replicate p n : p Idle = false -> countb p (replicate n Idle) = 0.
Proof. intros Hp. induction n as [|n IH]; cbn; [done|]. now rewrite Hp, IH. Qed.

(** ** The invariant *)

(** The counters count; at most one writer, and never with a reader inside; a
    thread sleeps only while its loop condition holds (no lost wake-up). *)
Record inv (c : config) : Prop := {
  inv_read : read_queue_len (lock c) = countb is_reader (threads c);
  inv_write : write_queue_len (lock c) = countb is_writing (threads c);
  inv_tobe : tobe_write_queue_len (lock c) = countb is_wwait (threads c);
  inv_one_writer : countb is_writing (threads c) <= 1;
  inv_exclusive : 0 < countb is_writing (threads c) -> countb is_reading (threads c) = 0;
  inv_asleep_r : 0 < countb asleep_r (threads c) -> 0 < write_queue_len (lock c);
  inv_asleep_w : 0 < countb asleep_w (threads c) ->
                 0 < read_queue_len (lock c) \/ 0 < write_queue_len (lock c)
}.

Lemma init_inv n : inv (init n).
Proof. split; cbn; rewrite ?countb_replicate by done; lia. Qed.

Lemma u64_succ x : 0 <= x -> x + 1 < 2 ^ 64 -> u64 (x + 1) = x + 1.
Proof. word. Qed.
Lemma u64_pred x : 0 < x -> x < 2 ^ 64 -> u64 (x - 1) = x - 1.
Proof. word. Qed.

(** What the counts of one thread list always satisfy. *)
Lemma count_bounds ts :
  0 <= countb is_reading ts <= countb is_reader ts /\ countb is_reader ts <= Z.of_nat (length ts) /\
  0 <= countb is_writing ts <= Z.of_nat (length ts) /\
  0 <= countb asleep_w ts <= countb is_wwait ts /\ countb is_wwait ts <= Z.of_nat (length ts) /\
  0 <= countb asleep_r ts <= countb is_reader ts.
Proof.
  pose proof (countb_nonneg is_reading ts). pose proof (countb_nonneg is_writing ts).
  pose proof (countb_nonneg asleep_r ts). pose proof (countb_nonneg asleep_w ts).
  pose proof (countb_mono is_reading is_reader ts ltac:(now intros [])).
  pose proof (countb_mono asleep_r is_reader ts ltac:(now intros [|[]| | |])).
  pose proof (countb_mono asleep_w is_wwait ts ltac:(now intros [| | |[]|])).
  pose proof (countb_bound is_reader ts). pose proof (countb_bound is_writing ts).
  pose proof (countb_bound is_wwait ts). lia.
Qed.

(** The counts after thread [i] moves from [t] to [t'] and a possible broadcast. *)
Lemma counts_after b ts i t t' ts' :
  ts !! i = Some t -> ts' = broadcast b (<[i := t']> ts) ->
  countb is_reader ts' = countb is_reader ts - Z.b2z (is_reader t) + Z.b2z (is_reader t') /\
  countb is_reading ts' = countb is_reading ts - Z.b2z (is_reading t) + Z.b2z (is_reading t') /\
  countb is_writing ts' = countb is_writing ts - Z.b2z (is_writing t) + Z.b2z (is_writing t') /\
  countb is_wwait ts' = countb is_wwait ts - Z.b2z (is_wwait t) + Z.b2z (is_wwait t') /\
  countb asleep_r ts' =
    (if b then 0 else countb asleep_r ts - Z.b2z (asleep_r t) + Z.b2z (asleep_r t')) /\
  countb asleep_w ts' =
    (if b then 0 else countb asleep_w ts - Z.b2z (asleep_w t) + Z.b2z (asleep_w t')).
Proof.
  intros Hi ->.
  rewrite !(countb_broadcast _ b) by (now intros []). rewrite !(countb_insert _ _ _ _ _ Hi).
  repeat (split; [done|]). destruct b; unfold broadcast.
  - rewrite !countb_all_awake by (now intros []). done.
  - now rewrite !(countb_insert _ _ _ _ _ Hi).
Qed.

(** The moving thread itself is counted. *)
Lemma counts_of_thread ts i t :
  ts !! i = Some t ->
  Z.b2z (is_reader t) <= countb is_reader ts /\ Z.b2z (is_reading t) <= countb is_reading ts /\
  Z.b2z (is_writing t) <= countb is_writing ts /\ Z.b2z (is_wwait t) <= countb is_wwait ts.
Proof.
  intros Hi.
  assert (H : forall p, Z.b2z (p t) <= countb p ts).
  { intros p. destruct (p t) eqn:Hp; [|apply countb_nonneg].
    pose proof (countb_lookup p ts i t Hi Hp). cbn [Z.b2z]. lia. }
  auto.
Qed.

Lemma step_length c c' : step c c' -> length (threads c') = length (threads c).
Proof.
  destruct 1; cbn [threads]; rewrite ?length_insert; try done;
    destruct b; cbn [broadcast]; now rewrite ?length_fmap, ?length_insert.
Qed.

(** Replace each counter's wrapped increment or decrement by the plain one. *)
Ltac wrap_counters :=
  repeat match goal with
  | |- context [u64 (?x + 1)] => rewrite (u64_succ x) in * by lia
  | |- context [u64 (?x - 1)] => rewrite (u64_pred x) in * by lia
  end;
  repeat match goal with
  | H : (_ || _) = true |- _ => apply orb_true_iff in H
  | H : (_ || _) = false |- _ => apply orb_false_iff in H as [? ?]
  | H : (_ && _) = true |- _ => apply andb_true_iff in H as [? ?]
  | H : (_ && _) = false |- _ => apply andb_false_iff in H
  end;
  rewrite ?Z.ltb_lt, ?Z.ltb_ge, ?Z.eqb_eq, ?Z.eqb_neq in *.

(** One step: move the thread, name the counts before and after, do the
    arithmetic on the counters. *)
Ltac lock_step Hinv Hi :=
  destruct Hinv as [Hr Hw Ht H1 Hx Hsr Hsw]; cbn [lock threads] in *;
  match type of Hi with ?ts !! ?i = Some ?t =>
    pose proof (count_bounds ts); pose proof (counts_of_thread ts i t Hi);
    match goal with
    | |- inv (Config _ (broadcast ?b (<[i := ?t']> ts))) =>
        pose proof (counts_after b ts i t t' _ Hi eq_refl)
    | |- inv (Config _ (<[i := ?t']> ts)) =>
        pose proof (counts_after false ts i t t' (<[i := t']> ts) Hi eq_refl)
    end
  end;
  unfold rdlock_blocked, wrlock_blocked, rdlock_enter, wrlock_enter, wrlock_acquire in *;
  cbn [tobe_write_queue_len write_queue_len read_queue_len
       is_reader is_reading is_writing is_wwait asleep_r asleep_w Z.b2z] in *;
  destruct_and?; wrap_counters;
  split; cbn [lock threads tobe_write_queue_len write_queue_len read_queue_len]; lia.

Lemma lock_step_inv c c' :
  Z.of_nat (length (threads c)) + 1 < 2 ^ 64 -> inv c -> step c c' -> inv c'.
Proof.
  intros Hlen Hinv Hstep.
  destruct Hstep as [l ts i Hi Hb|l ts i Hi Hb|l ts i Hi Hb|l ts i Hi Hb|l ts i Hi Hb|l ts i Hi Hb
    |l ts i Hi Hb|l ts i Hi Hb|l ts i l' b Hi He|l ts i l' b Hi He|l ts i t Hi]; cbn [threads] in Hlen.
  1-8: lock_step Hinv Hi.
  - apply pair_equal_spec in He as [<- <-].
    destruct (_ && _) eqn:Hb; lock_step Hinv Hi.
  - apply pair_equal_spec in He as [<- <-].
    destruct (_ || _) eqn:Hb; lock_step Hinv Hi.
  - destruct t as [|[]| |[]|]; cbn [wake]; lock_step Hinv Hi.
Qed.

Lemma lock_reachable_inv n c :
  Z.of_nat n + 1 < 2 ^ 64 -> reachable n c -> inv c /\ length (threads c) = n.
Proof.
  intros Hn H. unfold reachable in H.
  refine (rtc_ind_r (fun c => inv c /\ length (threads c) = n) _ _ _ c H).
  - split; [apply init_inv|]. apply length_replicate.
  - intros c1 c2 _ Hs [Hi Hl]. split; [|now rewrite (step_length c1)].
    apply (lock_step_inv c1); [now rewrite Hl|done|done].
Qed.

(** A writer excludes whoever else could be inside. *)
Lemma writing_excludes c i j t :
  inv c -> threads c !! i = Some Writing -> threads c !! j = Some t -> i <> j -> t <> Reading /\ t <> Writing.
Proof.
  intros [_ _ _ H1 Hx _ _] Hi Hj Hij.
  pose proof (countb_lookup is_writing _ i Writing Hi eq_refl) as Hpos. split; intros ->.
  - pose proof (countb_lookup is_reading _ j Reading Hj eq_refl). lia.
  - pose proof (countb_insert is_writing _ i _ Idle Hi) as Hc'.
    assert (Hj' : <[i := Idle]> (threads c) !! j = Some Writing)
      by (now rewrite list_lookup_insert_ne).
    pose proof (countb_lookup is_writing _ j Writing Hj' eq_refl). cbn in Hc'. lia.
Qed.

(** ** Properties *)

(** C18: mutual exclusion. However [n] threads interleave their calls, whoever
    is woken and however often a wait returns spuriously, a thread that holds
    the lock for writing excludes every other writer and every reader. *)
Theorem rwlock_exclusion n c i j t :
  Z.of_nat n + 1 < 2 ^ 64 -> reachable n c ->
  threads c !! i = Some Writing -> threads c !! j = Some t -> i <> j ->
  t <> Reading /\ t <> Writing.
Proof.
  intros Hn Hc. apply writing_excludes, (lock_reachable_inv n c Hn Hc).
Qed.

(** Two threads: one writes while the other waits to read. *)
Definition example_config : config := Config (Rwlock 0 1 1) [Writing; RWait false].

Lemma example_reachable : reachable 2 example_config.
Proof.
  apply (rtc_l _ _ (Config (Rwlock 0 1 0) [Writing; Idle])).
  { exact (step_wrlock_go rwlock_zero [Idle; Idle] 0%nat eq_refl eq_refl). }
  apply rtc_once.
  exact (step_rdlock_wait (Rwlock 0 1 0) [Writing; Idle] 1%nat eq_refl eq_refl).
Defined.

Lemma rwlock_exclusion_witness :
  threads example_config !! 0%nat = Some Writing /\ RWait false <> Reading /\ RWait false <> Writing.
Proof.
  split; [reflexivity|].
  apply (rwlock_exclusion 2 example_config 0 1 (RWait false));
    [lia|apply example_reachable|reflexivity|reflexivity|lia].
Defined.

Lemma countb_not_elem p t ts : (forall u, p u = true -> u = t) -> t ∉ ts -> countb p ts = 0.
Proof.
  intros Hp Ht. pose proof (countb_nonneg p ts).
  destruct (decide (0 < countb p ts)) as [Hpos|]; [|lia].
  apply countb_pos in Hpos as (i & u & Hi & Hu). apply Hp in Hu as ->.
  now apply list_elem_of_lookup_2 in Hi.
Qed.

(** C27: no lost wake-up. When nobody holds the lock and some thread is inside
    a lock call, some waiter is awake and acquires the lock as soon as it runs:
    no unlock leaves every waiter asleep. *)
Theorem rwlock_no_lost_wakeup n c i t :
  Z.of_nat n + 1 < 2 ^ 64 -> reachable n c ->
  Reading ∉ threads c -> Writing ∉ threads c ->
  threads c !! i = Some t -> t <> Idle ->
  exists j u, threads c !! j = Some u /\
    ((u = RWait true /\ step c (Config (lock c) (<[j := Reading]> (threads c)))) \/
     (u = WWait true /\ step c (Config (wrlock_acquire (lock c)) (<[j := Writing]> (threads c))))).
Proof.
  intros Hn Hc Hnr Hnw Hi Hidle.
  destruct (lock_reachable_inv n c Hn Hc) as [[Hr Hw _ _ _ Hsr Hsw] _].
  assert (H0 : countb is_writing (threads c) = 0)
    by (apply (countb_not_elem _ Writing); [now intros []|done]).
  destruct c as [l ts]; cbn [lock threads] in *.
  destruct (decide (0 < countb is_reader ts)) as [Hpos|Hno].
  - apply countb_pos in Hpos as (j & u & Hj & Hu). exists j, u. split; [done|]. left.
    destruct u as [|[]| |a|]; try done.
    + split; [done|]. apply step_rd_retry_go; [done|].
      unfold rdlock_blocked. apply Z.ltb_ge. lia.
    + pose proof (countb_lookup asleep_r ts j (RWait false) Hj eq_refl). lia.
    + now apply list_elem_of_lookup_2 in Hj.
  - pose proof (countb_nonneg is_reader ts). exists i, t. split; [done|]. right.
    destruct t as [|a| |[]|]; try done.
    + pose proof (countb_lookup is_reader ts i (RWait a) Hi eq_refl). lia.
    + now apply list_elem_of_lookup_2 in Hi.
    + split; [done|]. apply step_wr_retry_go; [done|].
      unfold wrlock_blocked. rewrite orb_false_iff, !Z.ltb_ge. lia.
    + pose proof (countb_lookup asleep_w ts i (WWait false) Hi eq_refl). lia.
    + now apply list_elem_of_lookup_2 in Hi.
Qed.

(** The writer has left and broadcast: the reader is awake. *)
Lemma rwlock_no_lost_wakeup_witness :
  let c := Config (Rwlock 0 0 1) [Idle; RWait true] in
  reachable 2 c /\
  exists j u, threads c !! j = Some u /\
    ((u = RWait true /\ step c (Config (lock c) (<[j := Reading]> (threads c)))) \/
     (u = WWait true /\ step c (Config (wrlock_acquire (lock c)) (<[j := Writing]> (threads c))))).
Proof.
  intros c.
  assert (Hc : reachable 2 c).
  { eapply rtc_r; [apply example_reachable|].
    exact (step_unwrlock (Rwlock 0 1 1) [Writing; RWait false] 0%nat _ true eq_refl eq_refl). }
  split; [exact Hc|].
  apply (rwlock_no_lost_wakeup 2 c 1 (RWait true));
    [lia|exact Hc|by apply (bool_decide_unpack _)|by apply (bool_decide_unpack _)|reflexivity|done].
Defined.

(** Thread 2 stays inside [rwlock_wrlock] in every configuration passed. *)
Definition passes_over (c c' : config) : Prop :=
  step c c' /\ exists a, threads c' !! 2%nat = Some (WWait a).

(** Thread 0 reads while thread 2 waits to write. *)
Definition starving (a : bool) : config := Config (Rwlock 1 0 1) [Reading; Idle; WWait a].

(** The lock's documented priority for readers has its price. Two readers
    whose critical sections overlap keep a waiting writer out forever: from a
    reachable configuration there is a cycle of steps that wakes the writer,
    lets both readers leave and enter again, and never admits the writer. *)
Theorem rwlock_writer_starves :
  reachable 3 (starving false) /\ tc passes_over (starving false) (starving false).
Proof.
  split.
  - apply (rtc_l _ _ (Config (Rwlock 0 0 1) [Reading; Idle; Idle])).
    { exact (step_rdlock_go rwlock_zero [Idle; Idle; Idle] 0%nat eq_refl eq_refl). }
    apply rtc_once.
    exact (step_wrlock_wait (Rwlock 0 0 1) [Reading; Idle; Idle] 2%nat eq_refl eq_refl).
  - apply (tc_l _ _ (starving true)).
    { split; [|now exists true]. exact (step_spurious (Rwlock 1 0 1) [Reading; Idle; WWait false] 2%nat (WWait false) eq_refl). }
    apply (tc_l _ _ (starving false)).
    { split; [|now exists false].
      exact (step_wr_retry_wait (Rwlock 1 0 1) [Reading; Idle; WWait true] 2%nat eq_refl eq_refl). }
    apply (tc_l _ _ (Config (Rwlock 1 0 2) [Reading; Reading; WWait false])).
    { split; [|now exists false]. exact (step_rdlock_go (Rwlock 1 0 1) [Reading; Idle; WWait false] 1%nat eq_refl eq_refl). }
    apply (tc_l _ _ (Config (Rwlock 1 0 1) [Idle; Reading; WWait false])).
    { split; [|now exists false].
      exact (step_unrdlock (Rwlock 1 0 2) [Reading; Reading; WWait false] 0%nat _ false eq_refl eq_refl). }
    apply (tc_l _ _ (Config (Rwlock 1 0 2) [Reading; Reading; WWait false])).
    { split; [|now exists false]. exact (step_rdlock_go (Rwlock 1 0 1) [Idle; Reading; WWait false] 0%nat eq_refl eq_refl). }
    apply tc_once. split; [|now exists false].
    exact (step_unrdlock (Rwlock 1 0 2) [Reading; Reading; WWait false] 1%nat _ false eq_refl eq_refl).
Qed.

End RWLock.
