(* ===== verification/Slab.v ===== *)
(** The slab allocator of [src/src/slab.c] and [src/include/slab.h], in the
    configuration the Makefile builds: [NEED_DEBUG] 0, [BSEARCH_BLOCK],
    [USE_FIXED_BLOCK], [USE_VALLOC], no [USE_SYSTEM_MALLOC].

    The class table, the free lists and the page carving are modelled on
    addresses; the headers the allocator keeps in front of every block are
    bytes of a flat memory. The answers of [malloc], [valloc] and [realloc] are
    an argument ([env]); the arrays [slots] and [slab_list] live in memory of
    their own and are kept as their used prefix. *)

From Stdlib Require Import ZArith Lia Floats.SpecFloat.
From stdpp Require Import base numbers list relations.
From S2P Require Import Prelude.

Module Slab.

Definition POWER_SMALLEST : Z := 1.
Definition POWER_LARGEST : Z := 200.
Definition POWER_BLOCK : Z := 1024 * 1024 * 4.
Definition CHUNK_ALIGN_BYTES : Z := 8.
Definition TINY_SIZE : Z := 16.
(** [sizeof(slabhead_t)]: a bool, padding, a [uint32_t], a flexible array. *)
Definition sizeof_slabhead_t : Z := 8.

(** [slabclass_t]; [sl_curr] is the length of [slots] (its head is the top of
    the stack) and [slabs] the length of [slab_list]. *)
Record slabclass_t := Slabclass {
  size : Z;
  perslab : Z;
  slots : list Z;
  sl_total : Z;
  end_page_ptr : Z;
  end_page_free : Z;
  slab_list : list Z;
  list_size : Z
}.
Definition sl_curr (p : slabclass_t) : Z := Z.of_nat (length (slots p)).
Definition slabs (p : slabclass_t) : Z := Z.of_nat (length (slab_list p)).

(** A class after the [memset] of [slab_init], and after its sizes are set. *)
Definition sized_class (sz per : Z) : slabclass_t := Slabclass sz per [] 0 0 0 [] 0.
Definition zero_class : slabclass_t := sized_class 0 0.

(** The file-scope variables and the memory they refer to. *)
Record slab_t := Slab {
  slabclass : list slabclass_t;
  mem_limit : Z;
  mem_malloced : Z;
  power_largest : Z;
  mem : Z -> Z
}.

Definition class_at (tab : list slabclass_t) (id : Z) : slabclass_t :=
  nth (Z.to_nat id) tab zero_class.
Definition set_class (st : slab_t) (id : Z) (p : slabclass_t) : slab_t :=
  Slab (<[Z.to_nat id := p]> (slabclass st)) (mem_limit st) (mem_malloced st)
       (power_largest st) (mem st).
Definition set_mem (st : slab_t) (m : Z -> Z) : slab_t :=
  Slab (slabclass st) (mem_limit st) (mem_malloced st) (power_largest st) m.

(** ** Memory *)

(** [memcpy(d, s, n)] and [memset(d, v, n)]. *)
Definition mem_copy (m : Z -> Z) (d s n : Z) : Z -> Z :=
  fun x => if (d <=? x) && (x <? d + n) then m (s + (x - d)) else m x.
Definition mem_set (m : Z -> Z) (d v n : Z) : Z -> Z :=
  fun x => if (d <=? x) && (x <? d + n) then v else m x.

(** [head->is_malloc] and [head->size], at offsets 0 and 4. *)
Definition head_is_malloc (m : Z -> Z) (head : Z) : bool := negb (m head =? 0).
Definition head_size (m : Z -> Z) (head : Z) : Z :=
  le_combine [m (head + 4); m (head + 5); m (head + 6); m (head + 7)].
Definition head_store (m : Z -> Z) (head : Z) (is_malloc : bool) (sz : Z) : Z -> Z :=
  fun x => if x =? head then Z.b2z is_malloc
           else if (head + 4 <=? x) && (x <? head + 8)
                then nth (Z.to_nat (x - (head + 4))) (le_split 4 (u32 sz)) 0
                else m x.

(** What the C library answers during one call: whether [realloc] succeeds, and
    the addresses [valloc] and [malloc] return (0 is NULL). *)
Record env := Env { env_realloc : bool; env_valloc : Z; env_malloc : Z }.

(** ** slab_clsid *)

(** The loop of the [BSEARCH_BLOCK] version; every turn narrows [left..right],
    so [power_largest + 1] turns of fuel are enough ([clsid_smallest_fit]). *)
Fixpoint clsid_loop (tab : list slabclass_t) (pl sz : Z) (fuel : nat) (left right : Z) : Z :=
  match fuel with
  | O => pl + 1
  | S fuel =>
      let res := (left + right) / 2 in
      if left <=? right then
        if sz <? size (class_at tab res) then
          if size (class_at tab (res - 1)) <? sz then res
          else clsid_loop tab pl sz fuel left (res - 1)
        else if size (class_at tab res) <? sz
        then clsid_loop tab pl sz fuel (res + 1) right
        else res
      else pl + 1
  end.

Definition slab_clsid (tab : list slabclass_t) (pl sz : Z) : Z :=
  if sz =? 0 then 0 else clsid_loop tab pl sz (S (Z.to_nat pl)) 1 pl.

(** ** slab_init *)

(** IEEE double arithmetic. *)
Definition double_mul : spec_float -> spec_float -> spec_float := SFmul 53 1024.
Definition double_of (x : Z) : spec_float := binary_normalize 53 1024 x 0 false.
(** [(int)d], with the x86-64 answer for values that do not fit. *)
Definition int_of_double (d : spec_float) : Z :=
  let clip z := if (- 2 ^ 31 <=? z) && (z <? 2 ^ 31) then z else - 2 ^ 31 in
  match d with
  | S754_zero _ => 0
  | S754_finite s m e =>
      let a := if 0 <=? e then Z.pos m * 2 ^ e else Z.pos m / 2 ^ (- e) in
      clip (if s then - a else a)
  | _ => - 2 ^ 31
  end.
(** The double 1.125, the factor of both callers. *)
Definition factor_1_125 : spec_float := S754_finite false (9 * 2 ^ 49) (-52).

Definition align_size (sz : Z) : Z :=
  if sz mod CHUNK_ALIGN_BYTES =? 0 then sz
  else u32 (sz + (CHUNK_ALIGN_BYTES - sz mod CHUNK_ALIGN_BYTES)).

(** The sizing loop: [i] is the class filled next; fuel [POWER_LARGEST] since
    [i] starts at 1. *)
Fixpoint init_loop (factor : spec_float) (fuel : nat) (i sz : Z) (tab : list slabclass_t)
  : Z * list slabclass_t :=
  match fuel with
  | O => (i, tab)
  | S fuel =>
      if (i <? POWER_LARGEST) && (sz <=? POWER_BLOCK / 2) then
        let sz := align_size sz in
        let tab := <[Z.to_nat i := sized_class sz (POWER_BLOCK / sz)]> tab in
        init_loop factor fuel (i + 1) (u32 (int_of_double (double_mul (double_of sz) factor))) tab
      else (i, tab)
  end.

(** [None]: the assertion [factor > 1.0] fails. *)
Definition slab_init (st : slab_t) (limit : Z) (factor : spec_float) : option slab_t :=
  if SFltb (double_of 1) factor then
    let '(i, tab) := init_loop factor (Z.to_nat POWER_LARGEST) POWER_SMALLEST TINY_SIZE
                       (replicate (Z.to_nat (POWER_LARGEST + 1)) zero_class) in
    Some (Slab (<[Z.to_nat i := sized_class POWER_BLOCK 1]> tab) limit (mem_malloced st) i (mem st))
  else None.

(** ** Pages *)

Definition grow_slab_list (e : env) (p : slabclass_t) : option slabclass_t :=
  if slabs p =? list_size p then
    let new_size := if negb (list_size p =? 0) then u32 (list_size p * 2) else 16 in
    if env_realloc e
    then Some (Slabclass (size p) (perslab p) (slots p) (sl_total p) (end_page_ptr p)
                         (end_page_free p) (slab_list p) new_size)
    else None
  else Some p.

Definition do_slabs_newslab (st : slab_t) (e : env) (id : Z) : slab_t * bool :=
  let p := class_at (slabclass st) id in
  let len := POWER_BLOCK in
  if negb (mem_limit st =? 0) && (mem_limit st <? u64 (mem_malloced st + len)) && (0 <? slabs p)
  then (st, false)
  else match grow_slab_list e p with
       | None => (st, false)
       | Some p =>
           let ptr := env_valloc e in
           if ptr =? 0 then (set_class st id p, false)
           else
             let p := Slabclass (size p) (perslab p) (slots p) (sl_total p) ptr (perslab p)
                                (slab_list p ++ [ptr]) (list_size p) in
             let st := set_class st id p in
             (Slab (slabclass st) (mem_limit st) (u64 (mem_malloced st + len))
                   (power_largest st) (mem st), true)
       end.

(** ** Allocation *)

(** From the free list, or from the end of the newest page ([size] already
    includes the header); [0] when neither has a chunk. *)
Definition take_chunk (st : slab_t) (id sz : Z) : slab_t * Z :=
  let p := class_at (slabclass st) id in
  match slots p with
  | head :: slots' =>
      let st := set_class st id (Slabclass (size p) (perslab p) slots' (sl_total p)
                  (end_page_ptr p) (end_page_free p) (slab_list p) (list_size p)) in
      (set_mem st (head_store (mem st) head false sz), head + sizeof_slabhead_t)
  | [] =>
      if negb (end_page_ptr p =? 0) then
        let head := end_page_ptr p in
        let free := u32 (end_page_free p - 1) in
        let st := set_class st id (Slabclass (size p) (perslab p) (slots p) (sl_total p)
                    (if negb (free =? 0) then end_page_ptr p + size p else 0) free
                    (slab_list p) (list_size p)) in
        (set_mem st (head_store (mem st) head false sz), head + sizeof_slabhead_t)
      else (st, 0)
  end.

(** [None]: the assertion [power_largest > 0] fails. *)
Definition _slab_alloc (st : slab_t) (e : env) (sz : Z) : option (slab_t * Z) :=
  if 0 <? power_largest st then
    let sz := u64 (sz + sizeof_slabhead_t) in
    let id := slab_clsid (slabclass st) (power_largest st) sz in
    if id <? POWER_SMALLEST then Some (st, 0)
    else if power_largest st <? id then
      let head := env_malloc e in
      if negb (head =? 0)
      then Some (set_mem st (head_store (mem st) head true sz), head + sizeof_slabhead_t)
      else Some (st, 0)
    else
      let p := class_at (slabclass st) id in
      if negb (end_page_ptr p =? 0) || negb (sl_curr p =? 0) then Some (take_chunk st id sz)
      else let '(st, ok) := do_slabs_newslab st e id in
           if ok then Some (take_chunk st id sz) else Some (st, 0)
  else None.

(** [slab_calloc]: the whole requested size is cleared. *)
Definition _slab_calloc (st : slab_t) (e : env) (sz : Z) : option (slab_t * Z) :=
  match _slab_alloc st e sz with
  | None => None
  | Some (st, ptr) =>
      if ptr =? 0 then Some (st, 0) else Some (set_mem st (mem_set (mem st) ptr 0 sz), ptr)
  end.

(** ** Release *)

(** The block goes to the free list of the class its header's size selects;
    when the list cannot grow it is dropped. *)
Definition _slab_free (st : slab_t) (e : env) (ptr : Z) : slab_t :=
  if ptr =? 0 then st
  else
    let head := ptr - sizeof_slabhead_t in
    let sz := head_size (mem st) head in
    if head_is_malloc (mem st) head then st
    else
      let id := u8 (slab_clsid (slabclass st) (power_largest st) sz) in
      if id <? POWER_SMALLEST then st
      else
        let p := class_at (slabclass st) id in
        let push total := set_class st id (Slabclass (size p) (perslab p) (head :: slots p) total
                            (end_page_ptr p) (end_page_free p) (slab_list p) (list_size p)) in
        if sl_curr p =? sl_total p then
          if env_realloc e
          then push (if negb (sl_total p =? 0) then u32 (sl_total p * 2) else 1024)
          else st
        else push (sl_total p).

(** Allocate, copy, free; [e'] answers during the free. *)
Definition _slab_realloc (st : slab_t) (e e' : env) (ptr sz : Z) : option (slab_t * Z) :=
  if sz =? 0 then Some (st, 0)
  else if ptr =? 0 then _slab_alloc st e sz
  else match _slab_alloc st e sz with
       | None => None
       | Some (st, p) =>
           if p =? 0 then Some (st, 0)
           else
             let head := ptr - sizeof_slabhead_t in
             let new_size := if sz <? head_size (mem st) head then sz
                             else head_size (mem st) head in
             let st := set_mem st (mem_copy (mem st) p (head + sizeof_slabhead_t) new_size) in
             Some (_slab_free st e' (head + sizeof_slabhead_t), p)
       end.

(** Without [NEED_DEBUG] every pointer is valid. *)
Definition is_valid_mem (ptr : Z) : bool := true.

(** ** The class table *)

(** Sizes grow strictly from class 1 to [power_largest], where they reach
    [POWER_BLOCK]; a page holds the chunks it is divided into. *)
Record table_ok (tab : list slabclass_t) (pl : Z) : Prop := {
  table_length : Z.of_nat (length tab) = POWER_LARGEST + 1;
  table_pl : 1 <= pl <= POWER_LARGEST;
  table_zero : size (class_at tab 0) = 0;
  table_tiny : TINY_SIZE <= size (class_at tab 1);
  table_mono : forall i, 1 <= i <= pl -> size (class_at tab (i - 1)) < size (class_at tab i);
  table_page : forall i, 1 <= i <= pl ->
    1 <= perslab (class_at tab i) /\
    perslab (class_at tab i) * size (class_at tab i) <= POWER_BLOCK;
  table_last : size (class_at tab pl) = POWER_BLOCK
}.

(** The same as a test. *)
Definition table_okb (tab : list slabclass_t) (pl : Z) : bool :=
  (Z.of_nat (length tab) =? POWER_LARGEST + 1) && (1 <=? pl) && (pl <=? POWER_LARGEST) &&
  (size (class_at tab 0) =? 0) && (TINY_SIZE <=? size (class_at tab 1)) &&
  forallb (fun i => (size (class_at tab (i - 1)) <? size (class_at tab i)) &&
                    (1 <=? perslab (class_at tab i)) &&
                    (perslab (class_at tab i) * size (class_at tab i) <=? POWER_BLOCK))
          (seqZ 1 pl) &&
  (size (class_at tab pl) =? POWER_BLOCK).

Lemma table_okb_sound tab pl : table_okb tab pl = true -> table_ok tab pl.
Proof.
  unfold table_okb. rewrite !andb_true_iff, forallb_forall, !Z.eqb_eq, !Z.leb_le.
  intros [[[[[[Hl H1] H2] H0] Ht] Hall] Hlast].
  assert (Hi : forall i, 1 <= i <= pl ->
    size (class_at tab (i - 1)) < size (class_at tab i) /\
    1 <= perslab (class_at tab i) /\
    perslab (class_at tab i) * size (class_at tab i) <= POWER_BLOCK).
  { intros i Hi. assert (Hin : In i (seqZ 1 pl)) by (apply list_elem_of_In, elem_of_seqZ; lia).
    specialize (Hall i Hin). rewrite !andb_true_iff, Z.ltb_lt, !Z.leb_le in Hall. tauto. }
  split; try done; intros i Hb; destruct (Hi i Hb) as (? & ? & ?); done.
Qed.

Lemma table_mono_le tab pl i j :
  table_ok tab pl -> 0 <= i <= j -> j <= pl -> size (class_at tab i) <= size (class_at tab j).
Proof.
  intros Ht Hij Hj. replace j with (i + Z.of_nat (Z.to_nat (j - i))) in * by lia.
  induction (Z.to_nat (j - i)) as [|k IH]; [replace (i + Z.of_nat 0) with i by lia; lia|].
  pose proof (table_mono _ _ Ht (i + Z.of_nat (S k)) ltac:(lia)) as Hm.
  replace (i + Z.of_nat (S k) - 1) with (i + Z.of_nat k) in Hm by lia. lia.
Qed.

Lemma table_size_bounds tab pl i :
  table_ok tab pl -> 1 <= i <= pl -> TINY_SIZE <= size (class_at tab i) <= POWER_BLOCK.
Proof.
  intros Ht Hi. rewrite <- (table_last _ _ Ht). pose proof (table_tiny _ _ Ht).
  pose proof (table_mono_le _ _ 1 i Ht ltac:(lia) ltac:(lia)).
  pose proof (table_mono_le _ _ i pl Ht ltac:(lia) ltac:(lia)). lia.
Qed.

(** What [slab_clsid] promises for a nonzero size. *)
Definition fits (tab : list slabclass_t) (pl sz r : Z) : Prop :=
  (1 <= r <= pl /\ size (class_at tab (r - 1)) < sz <= size (class_at tab r)) \/
  (r = pl + 1 /\ size (class_at tab pl) < sz).

Lemma clsid_loop_fits tab pl sz fuel left right :
  table_ok tab pl -> 1 <= left -> left <= right + 1 -> right <= pl -> right - left + 1 < Z.of_nat fuel ->
  size (class_at tab (left - 1)) < sz ->
  right = pl \/ sz <= size (class_at tab right) ->
  fits tab pl sz (clsid_loop tab pl sz fuel left right).
Proof.
  intros Ht. revert left right.
  induction fuel as [|fuel IH]; intros left right Hl Hlr Hr Hf Hlow Hup; [lia|].
  cbn [clsid_loop]. set (res := (left + right) / 2).
  destruct (Z.leb_spec left right).
  - assert (left <= res <= right) by (subst res; Z.div_mod_to_equations; lia).
    destruct (Z.ltb_spec sz (size (class_at tab res))).
    + destruct (Z.ltb_spec (size (class_at tab (res - 1))) sz); [left; lia|].
      apply IH; try lia.
    + destruct (Z.ltb_spec (size (class_at tab res)) sz).
      * apply IH; try lia. replace (res + 1 - 1) with res by lia. done.
      * left. split; [lia|]. pose proof (table_mono _ _ Ht res ltac:(lia)). lia.
  - right. split; [done|]. replace (left - 1) with right in Hlow by lia.
    destruct Hup as [->|]; lia.
Qed.

Lemma slab_clsid_fits tab pl sz : table_ok tab pl -> 0 < sz -> fits tab pl sz (slab_clsid tab pl sz).
Proof.
  intros Ht Hsz. unfold slab_clsid. destruct (Z.eqb_spec sz 0); [lia|].
  pose proof (table_pl _ _ Ht). apply clsid_loop_fits; try lia; [done|].
  change (1 - 1) with 0. rewrite (table_zero _ _ Ht). lia.
Qed.

Lemma fits_unique tab pl sz r r' : table_ok tab pl -> fits tab pl sz r -> fits tab pl sz r' -> r = r'.
Proof.
  intros Ht H H'. pose proof (table_pl _ _ Ht).
  destruct H as [[Hr [H1 H2]]|[-> H1]], H' as [[Hr' [H1' H2']]|[-> H1']]; try done.
  - destruct (Z.lt_trichotomy r r') as [Hlt|[|Hlt]]; [|done|].
    + pose proof (table_mono_le _ _ r (r' - 1) Ht ltac:(lia) ltac:(lia)). lia.
    + pose proof (table_mono_le _ _ r' (r - 1) Ht ltac:(lia) ltac:(lia)). lia.
  - pose proof (table_mono_le _ _ r pl Ht ltac:(lia) ltac:(lia)). lia.
  - pose proof (table_mono_le _ _ r' pl Ht ltac:(lia) ltac:(lia)). lia.
Qed.

(** The table both programs build: [slab_init(limit, 1.125)]. *)
Definition production (limit : Z) : option slab_t :=
  slab_init (Slab [] 0 0 (-1) (fun _ => 0)) limit factor_1_125.

(** The production table, as a constant. *)
Definition production_tab : list slabclass_t :=
  Eval vm_compute in match production 0 with Some st => slabclass st | None => [] end.

Lemma production_eq limit : production limit = Some (Slab production_tab limit 0 92 (fun _ => 0)).
Proof. vm_compute. reflexivity. Qed.

(** [slab_init] with the factor 1.125 that both programs pass, computed in
    IEEE double arithmetic, yields 92 usable classes whose sizes are multiples
    of 8, grow strictly from 16 to [POWER_BLOCK], whose chunks fit in a page,
    and whose numbers fit the [unsigned char] of [_slab_free]. *)
Theorem slab_init_production limit :
  exists st, production limit = Some st /\ power_largest st = 92 /\ mem_limit st = limit /\
    table_ok (slabclass st) (power_largest st) /\
    Forall (fun p => size p mod CHUNK_ALIGN_BYTES = 0) (slabclass st) /\
    Forall (fun p => slots p = [] /\ end_page_ptr p = 0 /\ slab_list p = []) (slabclass st).
Proof.
  rewrite production_eq. eexists. split; [reflexivity|]. cbn [power_largest mem_limit slabclass].
  split; [done|]. split; [done|]. split.
  - apply table_okb_sound. vm_compute. reflexivity.
  - split; apply (bool_decide_unpack _); vm_compute; exact I.
Qed.

(** The binary search of [slab_clsid] terminates and returns the smallest
    class that holds the size, [power_largest + 1] exactly when none does, and
    0 only for size 0. *)
Theorem clsid_smallest_fit tab pl sz :
  table_ok tab pl -> 0 <= sz ->
  let r := slab_clsid tab pl sz in
  (r = 0 <-> sz = 0) /\ (r = pl + 1 <-> POWER_BLOCK < sz) /\
  (0 < sz <= POWER_BLOCK ->
     1 <= r <= pl /\ sz <= size (class_at tab r) /\
     forall i, 1 <= i < r -> size (class_at tab i) < sz).
Proof.
  intros Ht Hsz r. pose proof (table_pl _ _ Ht). pose proof (table_last _ _ Ht) as Hlast.
  destruct (decide (sz = 0)) as [->|Hnz].
  { unfold r, slab_clsid. cbn [Z.eqb]. unfold POWER_BLOCK. repeat split; lia. }
  destruct (slab_clsid_fits tab pl sz Ht ltac:(lia)) as [[Hr [H1 H2]]|[Hr H1]]; fold r in Hr; fold r in H1.
  - fold r in H2. pose proof (table_mono_le _ _ r pl Ht ltac:(lia) ltac:(lia)).
    split; [lia|]. split; [lia|]. intros _. split; [done|]. split; [done|].
    intros i Hi. pose proof (table_mono_le _ _ i (r - 1) Ht ltac:(lia) ltac:(lia)). lia.
  - split; [lia|]. split; [lia|]. lia.
Qed.

Lemma clsid_smallest_fit_witness :
  let r := slab_clsid production_tab 92 1000 in
  1 <= r <= 92 /\ 1000 <= size (class_at production_tab r) /\
  forall i, 1 <= i < r -> size (class_at production_tab i) < 1000.
Proof.
  apply (clsid_smallest_fit production_tab 92 1000).
  - apply table_okb_sound. vm_compute. reflexivity.
  - lia.
  - unfold POWER_BLOCK. lia.
Defined.

(** ** Headers *)

Lemma head_size_store m head b sz : head_size (head_store m head b sz) head = u32 sz.
Proof.
  unfold head_size, head_store.
  rewrite !(proj2 (Z.eqb_neq _ _)), !(proj2 (Z.leb_le _ _)), !(proj2 (Z.ltb_lt _ _)) by lia.
  replace (head + 4 - (head + 4)) with 0 by lia. replace (head + 5 - (head + 4)) with 1 by lia.
  replace (head + 6 - (head + 4)) with 2 by lia. replace (head + 7 - (head + 4)) with 3 by lia.
  change (le_combine (le_split 4 (u32 sz)) = u32 sz).
  rewrite le_combine_split. apply Z.mod_small. pose proof (u32_range sz). exact H.
Qed.

Lemma head_malloc_store m head b sz : head_is_malloc (head_store m head b sz) head = b.
Proof. unfold head_is_malloc, head_store. rewrite Z.eqb_refl. now destruct b. Qed.

Lemma head_store_frame m head b sz x : x < head \/ head + 8 <= x -> head_store m head b sz x = m x.
Proof.
  intros H. unfold head_store. rewrite (proj2 (Z.eqb_neq x head)) by lia.
  destruct (Z.leb_spec (head + 4) x), (Z.ltb_spec x (head + 8)); try done. lia.
Qed.

(** Two memories that agree on a header read the same header. *)
Lemma header_ext m m' head :
  (forall x, head <= x < head + 8 -> m' x = m x) ->
  head_is_malloc m' head = head_is_malloc m head /\ head_size m' head = head_size m head.
Proof. intros H. unfold head_is_malloc, head_size. rewrite !H by lia. done. Qed.

(** ** Cells: the address ranges the allocator is responsible for *)

(** Start and length. *)
Definition cell : Type := Z * Z.
Definition disj (a b : cell) : Prop := a.1 + a.2 <= b.1 \/ b.1 + b.2 <= a.1.
Fixpoint disjoint_list (l : list cell) : Prop :=
  match l with [] => True | a :: l' => Forall (disj a) l' /\ disjoint_list l' end.

Lemma disj_sym a b : disj a b -> disj b a.
Proof. unfold disj. tauto. Qed.

#[export] Instance disjoint_list_perm : Proper (Permutation ==> iff) disjoint_list.
Proof.
  assert (H : forall l l', l ≡ₚ l' -> disjoint_list l -> disjoint_list l').
  { induction 1 as [|a l l' Hp IH|a b l|l1 l2 l3 _ IH1 _ IH2]; cbn; try tauto.
    - intros [Ha Hl]. split; [now rewrite <- Hp|auto].
    - intros [Hb [Ha Hl]]. apply Forall_cons in Hb as [Hba Hb].
      split; [apply Forall_cons; auto using disj_sym|auto]. }
  intros l l' Hp. split; apply H; [done|now symmetry].
Qed.

Lemma disjoint_list_app l k :
  disjoint_list (l ++ k) <->
  disjoint_list l /\ disjoint_list k /\ Forall (fun a => Forall (disj a) k) l.
Proof.
  induction l as [|a l IH]; cbn; [rewrite Forall_nil; tauto|].
  rewrite Forall_app, IH, Forall_cons. tauto.
Qed.

(** The chunks a page still offers, and those of a whole page. *)
Definition chunk_run (base sz n : Z) : list Z := (fun k => base + k * sz) <$> seqZ 0 n.
Definition end_chunks (p : slabclass_t) : list Z :=
  if end_page_ptr p =? 0 then [] else chunk_run (end_page_ptr p) (size p) (end_page_free p).
Definition free_chunks (p : slabclass_t) : list Z := slots p ++ end_chunks p.

(** A block handed out: its header's address, its class (0: from [malloc]) and
    the size in its header. *)
Record block := Block { b_head : Z; b_class : Z; b_size : Z }.
#[export] Instance block_eq_dec : EqDecision block.
Proof. solve_decision. Defined.

Definition free_cells (p : slabclass_t) : list cell := (fun a => (a, size p)) <$> free_chunks p.
Definition block_cell (tab : list slabclass_t) (b : block) : cell :=
  (b_head b, if b_class b =? 0 then b_size b else size (class_at tab (b_class b))).
(** Everything the allocator is responsible for: free chunks, the blocks in use
    ([L]) and the blocks it dropped ([X]). *)
Definition all_cells (tab : list slabclass_t) (L X : list block) : list cell :=
  concat (free_cells <$> tab) ++ (block_cell tab <$> L) ++ (block_cell tab <$> X).

Lemma chunk_run_cons base sz n : 0 < n -> chunk_run base sz n = base :: chunk_run (base + sz) sz (n - 1).
Proof.
  intros Hn. unfold chunk_run. rewrite seqZ_cons by lia. cbn [fmap list_fmap]. f_equal; [lia|].
  change (Z.succ 0) with (0 + 1). rewrite <- (fmap_add_seqZ 1 0). rewrite <- list_fmap_compose.
  replace (Z.pred n) with (n - 1) by lia. apply list_fmap_ext. intros _ k _. cbn. lia.
Qed.

Lemma chunk_run_length base sz n : Z.of_nat (length (chunk_run base sz n)) = Z.max 0 n.
Proof. unfold chunk_run. rewrite length_fmap, length_seqZ. lia. Qed.

Lemma chunk_run_elem base sz n a :
  a ∈ chunk_run base sz n <-> exists k, a = base + k * sz /\ 0 <= k < n.
Proof.
  unfold chunk_run. rewrite list_elem_of_fmap. setoid_rewrite elem_of_seqZ.
  split; intros (k & -> & Hk); exists k; (split; [done|lia]).
Qed.

(** The chunks of one page do not overlap. *)
Lemma chunk_run_disjoint sz n base :
  0 <= sz -> disjoint_list ((fun a => (a, sz)) <$> chunk_run base sz n).
Proof.
  intros Hsz. destruct (Z.le_gt_cases n 0) as [Hn|Hn].
  { unfold chunk_run. rewrite seqZ_nil by lia. done. }
  replace n with (Z.of_nat (Z.to_nat n)) by lia.
  revert base; induction (Z.to_nat n) as [|m IH]; intros base; [done|].
  rewrite chunk_run_cons by lia. replace (Z.of_nat (S m) - 1) with (Z.of_nat m) by lia.
  cbn [fmap list_fmap disjoint_list]. split; [|apply IH].
  apply Forall_forall. intros c Hc. apply list_elem_of_fmap in Hc as (a & -> & Ha).
  apply chunk_run_elem in Ha as (k & -> & Hk). left. cbn. nia.
Qed.

(** ** The invariant *)

Definition count_class (id : Z) (l : list block) : Z :=
  Z.of_nat (length (filter (fun b => b_class b = id) l)).

(** [a] is a whole chunk inside one of the class's pages. *)
Definition in_page (p : slabclass_t) (a : Z) : Prop :=
  exists base, base ∈ slab_list p /\ 0 < base <= a /\ a + size p <= base + POWER_BLOCK.

(** One class: the free chunks are in its pages; every chunk of every page is
    free, in use or dropped; the two arrays are large enough. *)
Record class_inv (L X : list block) (id : Z) (p : slabclass_t) : Prop := {
  ci_end : end_page_ptr p = 0 \/ 0 < end_page_free p <= perslab p;
  ci_inside : Forall (in_page p) (free_chunks p);
  ci_count : Z.of_nat (length (free_chunks p)) + count_class id L + count_class id X
             = slabs p * perslab p;
  ci_slots : sl_curr p <= sl_total p;
  ci_list : slabs p <= list_size p
}.

(** A block in use: its header is intact and it lies in a page of its class. *)
Record block_ok (st : slab_t) (b : block) : Prop := {
  bo_head : 0 < b_head b;
  bo_malloc : head_is_malloc (mem st) (b_head b) = (b_class b =? 0);
  bo_size : head_size (mem st) (b_head b) = b_size b;
  bo_range : 8 <= b_size b < 2 ^ 32;
  bo_class : b_class b = 0 \/
    (1 <= b_class b <= power_largest st /\
     b_class b = slab_clsid (slabclass st) (power_largest st) (b_size b) /\
     in_page (class_at (slabclass st) (b_class b)) (b_head b))
}.

Definition sumZ (l : list Z) : Z := foldr Z.add 0 l.
(** Pages in all classes, and classes with at least one page. *)
Definition total_slabs (tab : list slabclass_t) : Z := sumZ (slabs <$> tab).
Definition used_classes (tab : list slabclass_t) : Z :=
  sumZ ((fun p => Z.b2z (0 <? slabs p)) <$> tab).

(** The limit is set and small enough (16 GB) for the 32-bit array sizes. *)
Definition limit_ok (limit : Z) : Prop := 0 < limit <= 2 ^ 34.

Record inv (st : slab_t) (L X : list block) : Prop := {
  i_table : table_ok (slabclass st) (power_largest st);
  i_limit : limit_ok (mem_limit st);
  i_class : forall id, 1 <= id <= power_largest st ->
              class_inv L X id (class_at (slabclass st) id);
  i_blocks : Forall (block_ok st) L;
  i_lost : Forall (fun b => 1 <= b_class b) X;
  i_disj : disjoint_list (all_cells (slabclass st) L X);
  i_malloced : mem_malloced st = POWER_BLOCK * total_slabs (slabclass st);
  i_bound : POWER_BLOCK * total_slabs (slabclass st)
            <= mem_limit st + POWER_BLOCK * used_classes (slabclass st)
}.

(** ** Steps *)

(** The allocator with the blocks in use and the blocks it dropped. *)
Record world := World { w_st : slab_t; w_live : list block; w_lost : list block }.

(** What the C library promises: a block it returns overlaps nothing else. *)
Definition fresh (w : world) (a n : Z) : Prop :=
  0 < a /\ Forall (disj (a, n)) (all_cells (slabclass (w_st w)) (w_live w) (w_lost w)).
Definition env_ok (w : world) (e : env) (n : Z) : Prop :=
  (env_valloc e <> 0 -> fresh w (env_valloc e) POWER_BLOCK) /\
  (env_malloc e <> 0 -> fresh w (env_malloc e) n).

(** The block behind a pointer that [_slab_alloc] returned for [n] bytes. *)
Definition new_block (st : slab_t) (p n : Z) : block :=
  let id := slab_clsid (slabclass st) (power_largest st) (n + sizeof_slabhead_t) in
  Block (p - sizeof_slabhead_t) (if power_largest st <? id then 0 else id) (n + sizeof_slabhead_t).

(** Whether [_slab_free] drops the block because the free list cannot grow. *)
Definition dropped (st : slab_t) (e : env) (b : block) : bool :=
  let p := class_at (slabclass st) (b_class b) in
  negb (b_class b =? 0) && (sl_curr p =? sl_total p) && negb (env_realloc e).

(** The client allocates, frees what it holds, and writes inside its blocks. *)
Inductive step : world -> world -> Prop :=
  | step_alloc w e n st' p :
      0 <= n -> n + sizeof_slabhead_t < 2 ^ 32 -> env_ok w e (n + sizeof_slabhead_t) ->
      _slab_alloc (w_st w) e n = Some (st', p) ->
      step w (World st' (if p =? 0 then w_live w else new_block (w_st w) p n :: w_live w) (w_lost w))
  | step_free w e b L :
      w_live w ≡ₚ b :: L ->
      step w (World (_slab_free (w_st w) e (b_head b + sizeof_slabhead_t)) L
                    (if dropped (w_st w) e b then b :: w_lost w else w_lost w))
  | step_write w m :
      (forall x, (forall b, b ∈ w_live w ->
                  ~ b_head b + sizeof_slabhead_t <= x < b_head b + b_size b) ->
                 m x = mem (w_st w) x) ->
      step w (World (set_mem (w_st w) m) (w_live w) (w_lost w)).

(** After [slab_init] in either program. *)
Definition reachable (limit : Z) (w : world) : Prop :=
  exists st, production limit = Some st /\ rtc step (World st [] []) w.

(** ** The table under updates *)

(** Same sizes, pages only added. *)
Record class_le (p q : slabclass_t) : Prop := {
  cl_size : size q = size p;
  cl_perslab : perslab q = perslab p;
  cl_pages : slab_list p ⊆ slab_list q
}.

#[export] Instance class_le_refl : Reflexive class_le.
Proof. now split. Qed.

Lemma in_page_le p q a : class_le p q -> in_page p a -> in_page q a.
Proof.
  intros [Hs _ Hp] (b & Hb & Ha). exists b. rewrite Hs. split; [now apply Hp|done].
Qed.

Lemma class_at_set st id p id' :
  0 <= id -> 0 <= id' -> (Z.to_nat id < length (slabclass st))%nat ->
  class_at (slabclass (set_class st id p)) id' =
  if decide (id = id') then p else class_at (slabclass st) id'.
Proof.
  intros H0 H0' Hid. unfold class_at, set_class; cbn [slabclass].
  rewrite !nth_lookup. destruct (decide (id = id')) as [->|Hne].
  - now rewrite list_lookup_insert_eq.
  - now rewrite list_lookup_insert_ne by lia.
Qed.

Lemma class_at_lookup tab pl id :
  table_ok tab pl -> 1 <= id <= pl -> tab !! Z.to_nat id = Some (class_at tab id).
Proof.
  intros Ht Hid. unfold class_at. rewrite nth_lookup.
  destruct (lookup_lt_is_Some_2 tab (Z.to_nat id)) as [p Hp].
  { pose proof (table_length _ _ Ht). pose proof (table_pl _ _ Ht). lia. }
  now rewrite Hp.
Qed.

(** [slab_clsid] and the table's shape depend on the sizes only. *)
Definition same_sizes (tab tab' : list slabclass_t) : Prop :=
  length tab' = length tab /\
  forall i, 0 <= i -> size (class_at tab' i) = size (class_at tab i) /\
            perslab (class_at tab' i) = perslab (class_at tab i).

Lemma clsid_same_sizes tab tab' pl sz :
  same_sizes tab tab' -> slab_clsid tab' pl sz = slab_clsid tab pl sz.
Proof.
  intros [_ Hs]. unfold slab_clsid. destruct (sz =? 0); [done|].
  assert (Hloop : forall fuel left right, 1 <= left ->
    clsid_loop tab' pl sz fuel left right = clsid_loop tab pl sz fuel left right).
  { induction fuel as [|fuel IH]; intros left right Hl; [done|]. cbn [clsid_loop].
    destruct (Z.leb_spec left right); [|done].
    assert (1 <= (left + right) / 2) by (Z.div_mod_to_equations; lia).
    rewrite !(fun i H => proj1 (Hs i H)) by lia. now rewrite !IH by lia. }
  apply Hloop. lia.
Qed.

Lemma table_same_sizes tab tab' pl : same_sizes tab tab' -> table_ok tab pl -> table_ok tab' pl.
Proof.
  intros [Hlen Hs] [Hl Hpl H0 Ht Hm Hp Hlast].
  split; try done; intros;
    rewrite ?Hlen, ?(fun i H => proj1 (Hs i H)), ?(fun i H => proj2 (Hs i H)) by lia; auto.
Qed.

Lemma set_class_same_sizes st id p :
  0 <= id -> (Z.to_nat id < length (slabclass st))%nat ->
  class_le (class_at (slabclass st) id) p ->
  same_sizes (slabclass st) (slabclass (set_class st id p)).
Proof.
  intros Hid Hlen [Hs Hp _]. split; [cbn; apply length_insert|]. intros i Hi.
  rewrite class_at_set by done. now destruct (decide (id = i)) as [->|].
Qed.

Definition tab_le (tab tab' : list slabclass_t) : Prop :=
  length tab' = length tab /\ forall i, 0 <= i -> class_le (class_at tab i) (class_at tab' i).

#[export] Instance tab_le_refl : Reflexive tab_le.
Proof. now split. Qed.

Lemma tab_le_sizes tab tab' : tab_le tab tab' -> same_sizes tab tab'.
Proof. intros [Hl Hi]. split; [done|]. intros i H0. now destruct (Hi i H0). Qed.

Lemma set_class_le st id p :
  0 <= id -> (Z.to_nat id < length (slabclass st))%nat ->
  class_le (class_at (slabclass st) id) p ->
  tab_le (slabclass st) (slabclass (set_class st id p)).
Proof.
  intros Hid Hlen Hp. split; [apply length_insert|]. intros i Hi.
  rewrite class_at_set by done. now destruct (decide (id = i)) as [->|].
Qed.

Lemma block_cell_le tab tab' b :
  tab_le tab tab' -> 0 <= b_class b -> block_cell tab' b = block_cell tab b.
Proof.
  intros Ht Hb. unfold block_cell. destruct (b_class b =? 0); [done|].
  now rewrite (proj1 (proj2 (tab_le_sizes _ _ Ht) _ Hb)).
Qed.

(** A block stays fine while its header is untouched and the table grows. *)
Lemma block_ok_mono st st' b :
  power_largest st' = power_largest st -> tab_le (slabclass st) (slabclass st') ->
  (forall x, b_head b <= x < b_head b + 8 -> mem st' x = mem st x) ->
  block_ok st b -> block_ok st' b.
Proof.
  intros Hpl Ht Hm [Hh Hmal Hsz Hr Hc]. destruct (header_ext _ _ _ Hm) as [E1 E2].
  split; [done|congruence|congruence|done|].
  destruct Hc as [|(Hi & Hid & Hin)]; [now left|right]. rewrite Hpl.
  split; [done|]. split.
  - now rewrite (clsid_same_sizes _ _ _ _ (tab_le_sizes _ _ Ht)).
  - apply (in_page_le (class_at (slabclass st) (b_class b))); [|done]. apply Ht. lia.
Qed.

Lemma class_inv_count L X L' X' id p :
  count_class id L' = count_class id L -> count_class id X' = count_class id X ->
  class_inv L X id p -> class_inv L' X' id p.
Proof. intros HL HX [He Hin Hc Hs Hl]. split; try done. now rewrite HL, HX. Qed.

Lemma count_class_cons id b l :
  count_class id (b :: l) = (if decide (b_class b = id) then 1 else 0) + count_class id l.
Proof. unfold count_class. rewrite filter_cons. destruct (decide _); cbn [length]; lia. Qed.

Lemma count_class_perm id l l' : l ≡ₚ l' -> count_class id l = count_class id l'.
Proof. intros H. unfold count_class. now rewrite H. Qed.

Lemma count_class_nonneg id l : 0 <= count_class id l.
Proof. unfold count_class. lia. Qed.

(** ** Cells and sums under an update of one class *)

Lemma concat_insert {A B} (f : A -> list B) l i x y :
  l !! i = Some x -> concat (f <$> <[i := y]> l) ≡ₚ f y ++ concat (f <$> delete i l).
Proof.
  revert i; induction l as [|a l IH]; intros [|i] Hi; try done.
  change (f a ++ concat (f <$> <[i := y]> l) ≡ₚ f y ++ f a ++ concat (f <$> delete i l)).
  rewrite (IH i Hi), !app_assoc. f_equiv. apply Permutation_app_comm.
Qed.

Lemma sumZ_insert {A} (f : A -> Z) l i x y :
  l !! i = Some x -> sumZ (f <$> <[i := y]> l) = sumZ (f <$> l) - f x + f y.
Proof.
  revert i; induction l as [|a l IH]; intros [|i] Hi; try done.
  - injection Hi as ->. cbn. lia.
  - specialize (IH i Hi).
    change (f a + sumZ (f <$> <[i := y]> l) = f a + sumZ (f <$> l) - f x + f y). lia.
Qed.

Lemma block_cells_le tab tab' l :
  tab_le tab tab' -> Forall (fun b => 0 <= b_class b) l ->
  block_cell tab' <$> l = block_cell tab <$> l.
Proof.
  intros Ht Hl. apply list_fmap_ext. intros i b Hb.
  apply block_cell_le; [done|]. exact (Forall_lookup_1 _ _ _ _ Hl Hb).
Qed.

(** The cells that do not belong to class [id]'s free list. *)
Definition other_cells (tab : list slabclass_t) (id : Z) (L X : list block) : list cell :=
  concat (free_cells <$> delete (Z.to_nat id) tab) ++ (block_cell tab <$> L) ++ (block_cell tab <$> X).

Lemma all_cells_split tab pl id L X :
  table_ok tab pl -> 1 <= id <= pl ->
  all_cells tab L X ≡ₚ free_cells (class_at tab id) ++ other_cells tab id L X.
Proof.
  intros Ht Hid. pose proof (class_at_lookup _ _ _ Ht Hid) as Hl.
  pose proof (concat_insert free_cells _ _ _ (class_at tab id) Hl) as E.
  rewrite (list_insert_id _ _ _ Hl) in E.
  unfold all_cells, other_cells. now rewrite E, <- app_assoc.
Qed.

Lemma all_cells_set st pl id p L X :
  table_ok (slabclass st) pl -> 1 <= id <= pl ->
  class_le (class_at (slabclass st) id) p ->
  Forall (fun b => 0 <= b_class b) L -> Forall (fun b => 0 <= b_class b) X ->
  all_cells (slabclass (set_class st id p)) L X ≡ₚ
  free_cells p ++ other_cells (slabclass st) id L X.
Proof.
  intros Ht Hid Hle HL HX. pose proof (class_at_lookup _ _ _ Ht Hid) as Hl.
  assert (Htab : tab_le (slabclass st) (slabclass (set_class st id p))).
  { apply set_class_le; [lia|apply lookup_lt_Some in Hl; done|done]. }
  unfold all_cells, other_cells. rewrite !(block_cells_le _ _ _ Htab) by done.
  cbn [set_class slabclass]. now rewrite (concat_insert _ _ _ _ p Hl), <- app_assoc.
Qed.

(** ** Operations preserve the invariant *)

Lemma live_class st L : Forall (block_ok st) L -> Forall (fun b => 0 <= b_class b) L.
Proof. intros H. eapply Forall_impl; [exact H|]. intros b [_ _ _ _ [|]]; lia. Qed.

Lemma lost_class X : Forall (fun b => 1 <= b_class b) X -> Forall (fun b => 0 <= b_class b) X.
Proof. intros H. eapply Forall_impl; [exact H|]. cbn. lia. Qed.

(** A live block's cell holds its header and its bytes. *)
Lemma block_cell_size st b :
  table_ok (slabclass st) (power_largest st) -> block_ok st b ->
  8 <= (block_cell (slabclass st) b).2 /\ b_size b <= (block_cell (slabclass st) b).2.
Proof.
  intros Ht [_ _ _ Hr Hc]. unfold block_cell; cbn [snd].
  destruct (Z.eqb_spec (b_class b) 0); [lia|].
  destruct Hc as [|(Hi & Hid & _)]; [lia|].
  pose proof (table_size_bounds _ _ _ Ht Hi) as Hb. unfold TINY_SIZE in Hb.
  destruct (slab_clsid_fits _ _ (b_size b) Ht ltac:(lia)) as [[_ [_ Hf]]|[Hf _]];
    rewrite <- Hid in Hf; lia.
Qed.

Lemma disjoint_elem_app l k a b :
  disjoint_list (l ++ k) -> a ∈ l -> b ∈ k -> disj a b.
Proof.
  intros (_ & _ & H)%disjoint_list_app Ha Hb.
  rewrite Forall_forall in H. specialize (H a Ha). rewrite Forall_forall in H. auto.
Qed.

Lemma live_in_other tab id L X b : b ∈ L -> block_cell tab b ∈ other_cells tab id L X.
Proof.
  intros Hb. unfold other_cells. rewrite !elem_of_app. right. left. now apply list_elem_of_fmap_2.
Qed.

Lemma free_elem p a : a ∈ free_chunks p -> (a, size p) ∈ free_cells p.
Proof. intros H. unfold free_cells. now apply (list_elem_of_fmap_2 (fun a => (a, size p))). Qed.

(** Storing the header of a free chunk leaves every live block's header alone. *)
Lemma store_free_header st L X id h b m sz x :
  inv st L X -> 1 <= id <= power_largest st -> h ∈ free_chunks (class_at (slabclass st) id) ->
  b ∈ L -> b_head b <= x < b_head b + 8 ->
  head_store (mem st) h m sz x = mem st x.
Proof.
  intros Hinv Hid Hh Hb Hx. pose proof (i_table _ _ _ Hinv) as Ht.
  pose proof (i_disj _ _ _ Hinv) as Hd. rewrite (all_cells_split _ _ id _ _ Ht Hid) in Hd.
  pose proof (disjoint_elem_app _ _ _ _ Hd (free_elem _ _ Hh) (live_in_other _ _ _ _ _ Hb)) as Hdis.
  pose proof (proj1 (Forall_forall _ _) (i_blocks _ _ _ Hinv) b Hb) as Hok.
  pose proof (block_cell_size _ _ Ht Hok) as [Hc _].
  pose proof (table_size_bounds _ _ _ Ht Hid) as Hs. unfold TINY_SIZE in Hs.
  apply head_store_frame. unfold disj in Hdis. unfold block_cell in *. cbn [fst snd] in *. lia.
Qed.

(** Sums over the table when a class keeps its pages. *)
Lemma sums_same_pages st pl id p :
  table_ok (slabclass st) pl -> 1 <= id <= pl ->
  slab_list p = slab_list (class_at (slabclass st) id) ->
  total_slabs (slabclass (set_class st id p)) = total_slabs (slabclass st) /\
  used_classes (slabclass (set_class st id p)) = used_classes (slabclass st).
Proof.
  intros Ht Hid Hp. pose proof (class_at_lookup _ _ _ Ht Hid) as Hl.
  unfold total_slabs, used_classes; cbn [set_class slabclass].
  rewrite !(sumZ_insert _ _ _ _ _ Hl). unfold slabs. rewrite Hp. lia.
Qed.

Lemma in_range_id st L X id : inv st L X -> 1 <= id <= power_largest st ->
  (Z.to_nat id < length (slabclass st))%nat.
Proof.
  intros Hinv Hid. pose proof (i_table _ _ _ Hinv) as Ht.
  pose proof (table_length _ _ Ht). pose proof (table_pl _ _ Ht). lia.
Qed.

(** The general shape of an update of one class that keeps its pages. *)
Lemma update_class st L X id p m L' X' :
  inv st L X -> 1 <= id <= power_largest st ->
  class_le (class_at (slabclass st) id) p ->
  slab_list p = slab_list (class_at (slabclass st) id) ->
  class_inv L' X' id p ->
  (forall id', 1 <= id' <= power_largest st -> id' <> id ->
     count_class id' L' = count_class id' L /\ count_class id' X' = count_class id' X) ->
  Forall (block_ok (set_mem (set_class st id p) m)) L' ->
  Forall (fun b => 1 <= b_class b) X' ->
  disjoint_list (all_cells (slabclass (set_class st id p)) L' X') ->
  inv (set_mem (set_class st id p) m) L' X'.
Proof.
  intros Hinv Hid Hle Hp Hci Hcount Hok HX Hd.
  pose proof (in_range_id _ _ _ _ Hinv Hid) as Hlen.
  destruct Hinv as [Ht Hlim Hcl _ _ _ Hmal Hb].
  destruct (sums_same_pages _ _ _ _ Ht Hid Hp) as [E1 E2].
  split; cbn [set_mem set_class slabclass mem_limit mem_malloced power_largest]; try done.
  - apply (table_same_sizes (slabclass st)); [|done].
    apply tab_le_sizes, (set_class_le st id p); [lia|done|done].
  - intros id' Hid'. change (class_inv L' X' id' (class_at (slabclass (set_class st id p)) id')).
    rewrite class_at_set by (done || lia).
    destruct (decide (id = id')) as [<-|Hne]; [done|].
    destruct (Hcount id' Hid' ltac:(lia)). now apply (class_inv_count L X); auto.
  - cbn [set_class slabclass] in E1. lia.
  - cbn [set_class slabclass] in E1, E2. lia.
Qed.

(** The chunk [h] of class [id] goes from the free ones to the blocks. *)
Lemma handed_cells tab id p h sz L X :
  free_chunks (class_at tab id) ≡ₚ h :: free_chunks p -> size p = size (class_at tab id) -> id <> 0 ->
  free_cells p ++ other_cells tab id (Block h id sz :: L) X ≡ₚ free_cells (class_at tab id) ++ other_cells tab id L X.
Proof.
  intros Hfree Hs Hid. unfold free_cells at 2. rewrite Hfree. unfold other_cells. cbn [fmap list_fmap].
  unfold block_cell at 1; cbn [b_class b_head]. rewrite (proj2 (Z.eqb_neq id 0)) by done.
  unfold free_cells. rewrite Hs. solve_Permutation.
Qed.

Lemma hand_out st L X id p h sz :
  inv st L X -> 1 <= id <= power_largest st ->
  id = slab_clsid (slabclass st) (power_largest st) sz -> 8 <= sz < 2 ^ 32 ->
  class_le (class_at (slabclass st) id) p ->
  slab_list p = slab_list (class_at (slabclass st) id) ->
  list_size p = list_size (class_at (slabclass st) id) ->
  sl_total p = sl_total (class_at (slabclass st) id) ->
  sl_curr p <= sl_curr (class_at (slabclass st) id) ->
  end_page_ptr p = 0 \/ 0 < end_page_free p <= perslab p ->
  free_chunks (class_at (slabclass st) id) ≡ₚ h :: free_chunks p ->
  inv (set_mem (set_class st id p) (head_store (mem st) h false sz)) (Block h id sz :: L) X.
Proof.
  intros Hinv Hid Hcls Hsz Hle Hp Hls Hst Hsc Hend Hfree.
  pose proof (in_range_id _ _ _ _ Hinv Hid) as Hlen.
  pose proof (i_table _ _ _ Hinv) as Ht. pose proof (i_class _ _ _ Hinv id Hid) as [_ Hin Hc Hs Hl].
  assert (Htab : tab_le (slabclass st) (slabclass (set_class st id p)))
    by (apply set_class_le; [lia|done|done]).
  rewrite Hfree in Hin. apply Forall_cons in Hin as [Hh Hin].
  assert (Hh' : in_page p h) by (now apply (in_page_le _ _ _ Hle)).
  pose proof (i_blocks _ _ _ Hinv) as Hok. pose proof (live_class _ _ Hok) as HL.
  apply update_class with (L := L) (X := X); try done.
  - split; [done| | | |].
    + eapply Forall_impl; [exact Hin|]. intros a. now apply in_page_le.
    + rewrite count_class_cons, decide_True by done. rewrite Hfree in Hc. cbn [length] in Hc.
      unfold slabs in *. rewrite Hp, (cl_perslab _ _ Hle). lia.
    + lia.
    + unfold slabs in *. rewrite Hp. lia.
  - intros id' _ Hne. rewrite count_class_cons, decide_False by (cbn; lia). lia.
  - apply Forall_cons. split.
    + split; cbn [b_head b_class b_size set_mem set_class mem slabclass power_largest].
      * destruct Hh as (base & _ & ? & _). lia.
      * rewrite head_malloc_store. symmetry. apply Z.eqb_neq. lia.
      * rewrite head_size_store. apply Z.mod_small. lia.
      * done.
      * right. split; [done|]. split.
        { rewrite Hcls at 1. symmetry. apply (clsid_same_sizes _ _ _ _ (tab_le_sizes _ _ Htab)). }
        change (in_page (class_at (slabclass (set_class st id p)) id) h).
        rewrite class_at_set by (done || lia). now rewrite decide_True.
    + apply Forall_forall. intros b Hb. pose proof (proj1 (Forall_forall _ _) Hok b Hb) as Hbok.
      apply (block_ok_mono st); [done|done| |done]. intros x Hx. cbn [set_mem mem].
      eapply store_free_header; [exact Hinv|exact Hid| |exact Hb|exact Hx].
      rewrite Hfree. apply list_elem_of_here.
  - exact (i_lost _ _ _ Hinv).
  - pose proof (i_disj _ _ _ Hinv) as Hd. rewrite (all_cells_split _ _ id _ _ Ht Hid) in Hd.
    rewrite (all_cells_set st (power_largest st) id p) by
      (done || (apply Forall_cons; split; [cbn; lia|done]) || apply lost_class, (i_lost _ _ _ Hinv)).
    rewrite (handed_cells (slabclass st) id p h sz L X Hfree); [exact Hd|apply (cl_size _ _ Hle)|lia].
Qed.

(** [take_chunk] hands out a free chunk of its class when there is one. *)
Lemma take_chunk_inv st L X id sz st' ptr :
  inv st L X -> 1 <= id <= power_largest st ->
  id = slab_clsid (slabclass st) (power_largest st) sz -> 8 <= sz < 2 ^ 32 ->
  slots (class_at (slabclass st) id) <> [] \/ end_page_ptr (class_at (slabclass st) id) <> 0 ->
  take_chunk st id sz = (st', ptr) ->
  ptr <> 0 /\ inv st' (Block (ptr - sizeof_slabhead_t) id sz :: L) X.
Proof.
  intros Hinv Hid Hcls Hsz Hsome Htake.
  pose proof (i_table _ _ _ Hinv) as Ht. pose proof (i_class _ _ _ Hinv id Hid) as Hci.
  assert (Hpos : forall a, a ∈ free_chunks (class_at (slabclass st) id) -> 0 < a).
  { intros a Ha. pose proof (proj1 (Forall_forall _ _) (ci_inside _ _ _ _ Hci) a Ha) as (b & _ & ? & _). lia. }
  pose proof (table_size_bounds _ _ _ Ht Hid) as Hs. pose proof (table_page _ _ Ht id Hid) as Hper.
  unfold TINY_SIZE, POWER_BLOCK in *.
  set (p := class_at (slabclass st) id) in *. unfold take_chunk in Htake. fold p in Htake.
  destruct (slots p) as [|h sl] eqn:Hslots.
  - destruct (Z.eqb_spec (end_page_ptr p) 0) as [|Hne]; [now destruct Hsome|]. cbn [negb] in Htake.
    assert (Hfree : free_chunks p = end_page_ptr p :: chunk_run (end_page_ptr p + size p) (size p) (end_page_free p - 1)).
    { unfold free_chunks, end_chunks. rewrite Hslots, (proj2 (Z.eqb_neq _ _)) by done.
      destruct (ci_end _ _ _ _ Hci); [done|]. rewrite chunk_run_cons by lia. done. }
    assert (0 < end_page_ptr p) by (apply Hpos; rewrite Hfree; apply list_elem_of_here).
    destruct (ci_end _ _ _ _ Hci) as [|Hef]; [done|].
    rewrite (u32_small (end_page_free p - 1)) in Htake by (unfold in_range; nia).
    injection Htake as <- <-. split; [unfold sizeof_slabhead_t; lia|].
    replace (end_page_ptr p + sizeof_slabhead_t - sizeof_slabhead_t) with (end_page_ptr p) by lia.
    apply hand_out; try done; cbn [size perslab slots sl_total end_page_ptr end_page_free slab_list list_size].
    + unfold sl_curr; cbn [slots length]. lia.
    + destruct (Z.eqb_spec (end_page_free p - 1) 0); [now left|right; lia].
    + fold p. rewrite Hfree. unfold free_chunks, end_chunks; cbn [slots end_page_ptr end_page_free size app].
      destruct (Z.eqb_spec (end_page_free p - 1) 0) as [->|]; cbn [negb].
      * unfold chunk_run. rewrite seqZ_nil by lia. done.
      * rewrite (proj2 (Z.eqb_neq _ _)) by lia. done.
  - injection Htake as <- <-.
    assert (0 < h) by (apply Hpos; unfold free_chunks; rewrite Hslots; apply list_elem_of_here).
    split; [unfold sizeof_slabhead_t; lia|].
    replace (h + sizeof_slabhead_t - sizeof_slabhead_t) with h by lia.
    apply hand_out; try done; cbn [size perslab slots sl_total end_page_ptr end_page_free slab_list list_size].
    + unfold sl_curr; cbn [slots]. fold p. rewrite Hslots. cbn [length]. lia.
    + exact (ci_end _ _ _ _ Hci).
    + fold p. unfold free_chunks. rewrite Hslots. done.
Qed.

Lemma sumZ_fmap_bound {A} (f : A -> Z) lo hi l :
  (forall a, lo <= f a <= hi) ->
  lo * Z.of_nat (length l) <= sumZ (f <$> l) <= hi * Z.of_nat (length l).
Proof.
  intros H. induction l as [|a l IH]; cbn [fmap list_fmap sumZ foldr length]; [lia|].
  specialize (H a). unfold sumZ in *. nia.
Qed.

Lemma sumZ_elem {A} (f : A -> Z) l x : (forall a, 0 <= f a) -> x ∈ l -> f x <= sumZ (f <$> l).
Proof.
  intros Hf. assert (Hn : forall l, 0 <= sumZ (f <$> l)).
  { induction l0 as [|a k IH]; [done|]. specialize (Hf a).
    change (0 <= f a + sumZ (f <$> k)). lia. }
  induction 1 as [x l|x y l _ IH].
  - change (f x <= f x + sumZ (f <$> l)). specialize (Hn l). lia.
  - change (f x <= f y + sumZ (f <$> l)). specialize (Hf y). lia.
Qed.

Lemma total_slabs_elem tab p : p ∈ tab -> 0 <= slabs p <= total_slabs tab.
Proof.
  intros Hp. split; [unfold slabs; lia|]. apply sumZ_elem; [|done]. intros a. unfold slabs. lia.
Qed.

(** The limit bounds the number of pages, hence of chunks. *)
Lemma pages_bound st L X id :
  inv st L X -> 1 <= id <= power_largest st ->
  0 <= slabs (class_at (slabclass st) id) <= total_slabs (slabclass st) /\
  total_slabs (slabclass st) <= 4297.
Proof.
  intros Hinv Hid. pose proof (i_table _ _ _ Hinv) as Ht. split.
  - apply total_slabs_elem. eapply list_elem_of_lookup_2, (class_at_lookup _ _ _ Ht Hid).
  - pose proof (i_bound _ _ _ Hinv) as Hb. pose proof (i_limit _ _ _ Hinv) as [_ Hl].
    assert (used_classes (slabclass st) <= 201).
    { pose proof (sumZ_fmap_bound (fun p => Z.b2z (0 <? slabs p)) 0 1 (slabclass st)
        ltac:(intros p; cbn beta; destruct (0 <? slabs p); cbn [Z.b2z]; lia)) as Hu.
      fold (used_classes (slabclass st)) in Hu. rewrite (table_length _ _ Ht) in Hu.
      unfold POWER_LARGEST in Hu. lia. }
    unfold POWER_BLOCK in *. lia.
Qed.

(** No class ever holds as many as 2^31 chunks. *)
Lemma chunks_bound st L X id :
  inv st L X -> 1 <= id <= power_largest st ->
  sl_curr (class_at (slabclass st) id) < 2 ^ 31.
Proof.
  intros Hinv Hid. pose proof (pages_bound _ _ _ _ Hinv Hid) as Hp.
  pose proof (i_table _ _ _ Hinv) as Ht. pose proof (ci_count _ _ _ _ (i_class _ _ _ Hinv id Hid)) as Hc.
  pose proof (table_size_bounds _ _ _ Ht Hid) as Hs. pose proof (table_page _ _ Ht id Hid) as Hper.
  pose proof (count_class_nonneg id L). pose proof (count_class_nonneg id X).
  unfold free_chunks in Hc. rewrite length_app in Hc. unfold sl_curr, TINY_SIZE, POWER_BLOCK in *.
  assert (perslab (class_at (slabclass st) id) <= 262144) by nia. nia.
Qed.

Lemma sums_new_page st pl id p a :
  table_ok (slabclass st) pl -> 1 <= id <= pl ->
  slab_list p = slab_list (class_at (slabclass st) id) ++ [a] ->
  total_slabs (slabclass (set_class st id p)) = total_slabs (slabclass st) + 1 /\
  used_classes (slabclass (set_class st id p)) = used_classes (slabclass st)
    + (if 0 <? slabs (class_at (slabclass st) id) then 0 else 1).
Proof.
  intros Ht Hid Hp. pose proof (class_at_lookup _ _ _ Ht Hid) as Hl.
  unfold total_slabs, used_classes; cbn [set_class slabclass].
  rewrite !(sumZ_insert _ _ _ _ _ Hl). unfold slabs. rewrite Hp, length_app. cbn [length].
  rewrite Nat2Z.inj_add. destruct (Z.ltb_spec 0 (Z.of_nat (length (slab_list (class_at (slabclass st) id)))));
  rewrite (proj2 (Z.ltb_lt 0 (_ + _))) by lia; cbn [Z.b2z]; lia.
Qed.

(** Pages of fresh memory. *)
Lemma new_page_cells base sz n cells :
  0 <= sz -> 0 < base -> n * sz <= POWER_BLOCK ->
  Forall (disj (base, POWER_BLOCK)) cells -> disjoint_list cells ->
  disjoint_list (((fun a => (a, sz)) <$> chunk_run base sz n) ++ cells).
Proof.
  intros Hsz Hb Hn Hf Hd. apply disjoint_list_app. split; [now apply chunk_run_disjoint|].
  split; [done|]. apply Forall_forall. intros c Hc.
  apply list_elem_of_fmap in Hc as (a & -> & (k & -> & Hk)%chunk_run_elem).
  eapply Forall_impl; [exact Hf|]. intros [x y]. unfold disj; cbn. nia.
Qed.

Lemma grow_slab_list_spec st L X id e p :
  inv st L X -> 1 <= id <= power_largest st ->
  grow_slab_list e (class_at (slabclass st) id) = Some p ->
  slabs p < list_size p /\
  exists n, p = Slabclass (size (class_at (slabclass st) id)) (perslab (class_at (slabclass st) id))
    (slots (class_at (slabclass st) id)) (sl_total (class_at (slabclass st) id))
    (end_page_ptr (class_at (slabclass st) id)) (end_page_free (class_at (slabclass st) id))
    (slab_list (class_at (slabclass st) id)) n.
Proof.
  intros Hinv Hid. pose proof (pages_bound _ _ _ _ Hinv Hid) as Hp.
  pose proof (ci_list _ _ _ _ (i_class _ _ _ Hinv id Hid)) as Hl.
  unfold grow_slab_list. destruct (class_at (slabclass st) id) as [sz per sl tot ep ef pl ls].
  unfold slabs in *; cbn [slab_list list_size] in *.
  destruct (Z.eqb_spec (Z.of_nat (length pl)) ls) as [E|E].
  - destruct (env_realloc e); [|done]. intros [= <-]. split; [|now eexists]. cbn [slab_list list_size].
    destruct (Z.eqb_spec ls 0); cbn [negb]; [lia|]. rewrite u32_small by (unfold in_range; lia). lia.
  - intros [= <-]. split; [cbn; lia|now eexists].
Qed.

(** What a call may do to the rest of the state. *)
Record extends (st st' : slab_t) : Prop := {
  ex_tab : tab_le (slabclass st) (slabclass st');
  ex_pl : power_largest st' = power_largest st;
  ex_mem : mem st' = mem st
}.

(** A class that only got a larger [list_size]. *)
Lemma resized_list_inv st L X id p n :
  inv st L X -> 1 <= id <= power_largest st -> slabs p < n ->
  p = class_at (slabclass st) id ->
  inv (set_class st id (Slabclass (size p) (perslab p) (slots p) (sl_total p)
         (end_page_ptr p) (end_page_free p) (slab_list p) n)) L X.
Proof.
  intros Hinv Hid Hn Hp. pose proof (i_table _ _ _ Hinv) as Ht.
  pose proof (in_range_id _ _ _ _ Hinv Hid) as Hlen.
  pose proof (i_class _ _ _ Hinv id Hid) as [He Hin Hc Hs Hl]. rewrite <- Hp in *.
  set (q := Slabclass _ _ _ _ _ _ _ n).
  assert (Hle : class_le (class_at (slabclass st) id) q) by (rewrite <- Hp; now split).
  change (inv (set_mem (set_class st id q) (mem st)) L X).
  apply update_class with (L := L) (X := X); try done; try (rewrite <- Hp; done).
  - split; try done. unfold slabs, q in *; cbn [slab_list list_size] in *. lia.
  - apply Forall_forall. intros b Hb. pose proof (proj1 (Forall_forall _ _) (i_blocks _ _ _ Hinv) b Hb).
    apply (block_ok_mono st); try done. exact (set_class_le st id q ltac:(lia) Hlen Hle).
  - exact (i_lost _ _ _ Hinv).
  - rewrite (all_cells_set st (power_largest st) id q) by
      (done || eapply live_class, (i_blocks _ _ _ Hinv) || apply lost_class, (i_lost _ _ _ Hinv)).
    pose proof (i_disj _ _ _ Hinv) as Hd. rewrite (all_cells_split _ _ id _ _ Ht Hid), <- Hp in Hd.
    exact Hd.
Qed.

(** The class after it got a page: the whole page is free. *)
Definition paged_class (p : slabclass_t) (a n : Z) : slabclass_t :=
  Slabclass (size p) (perslab p) (slots p) (sl_total p) a (perslab p) (slab_list p ++ [a]) n.

Lemma paged_free p a n :
  slots p = [] -> a <> 0 -> free_chunks (paged_class p a n) = chunk_run a (size p) (perslab p).
Proof.
  intros Hsl Ha. unfold free_chunks, end_chunks, paged_class; cbn [slots end_page_ptr end_page_free size].
  now rewrite Hsl, (proj2 (Z.eqb_neq _ _)) by done.
Qed.

Lemma paged_class_inv L X id p a n :
  class_inv L X id p -> slots p = [] -> free_chunks p = [] -> slabs p < n -> 0 < a ->
  0 <= size p -> 1 <= perslab p -> perslab p * size p <= POWER_BLOCK ->
  class_inv L X id (paged_class p a n).
Proof.
  intros [_ _ Hc Hsc _] Hsl Hnofree Hroom Ha Hsz Hper Hfit.
  rewrite Hnofree in Hc. cbn [length] in Hc.
  assert (Hslabs : slabs (paged_class p a n) = slabs p + 1).
  { unfold slabs; cbn [paged_class slab_list]. rewrite length_app. cbn [length]. lia. }
  split; cbn [end_page_ptr end_page_free perslab list_size paged_class]; [right; lia| | |exact Hsc|].
  - rewrite paged_free by (done || lia). apply Forall_forall. intros x (k & -> & Hk)%chunk_run_elem.
    exists a. cbn [paged_class slab_list size]. split; [apply elem_of_app; right; apply list_elem_of_here|]. nia.
  - rewrite paged_free, chunk_run_length by (done || lia). rewrite Hslabs. lia.
  - change (slabs (paged_class p a n) <= n). lia.
Qed.

(** The accounting of one more page, under the guard of [do_slabs_newslab]. *)
Lemma paged_sums st L X id q a :
  inv st L X -> 1 <= id <= power_largest st ->
  slab_list q = slab_list (class_at (slabclass st) id) ++ [a] ->
  negb (mem_limit st =? 0) && (mem_limit st <? u64 (mem_malloced st + POWER_BLOCK)) &&
    (0 <? slabs (class_at (slabclass st) id)) = false ->
  let tab := slabclass (set_class st id q) in
  u64 (mem_malloced st + POWER_BLOCK) = POWER_BLOCK * total_slabs tab /\
  POWER_BLOCK * total_slabs tab <= mem_limit st + POWER_BLOCK * used_classes tab.
Proof.
  intros Hinv Hid Hq Hguard tab. pose proof (pages_bound _ _ _ _ Hinv Hid) as [Hp Htotal].
  destruct Hinv as [Ht [Hl0 _] _ _ _ _ Hmal Hb].
  destruct (sums_new_page st (power_largest st) id q a Ht Hid Hq) as [E1 E2]. fold tab in E1, E2.
  pose proof (sumZ_fmap_bound (fun p => Z.b2z (0 <? slabs p)) 0 1 (slabclass st)
    ltac:(intros p; cbn beta; destruct (0 <? slabs p); cbn [Z.b2z]; lia)) as Hu.
  fold (used_classes (slabclass st)) in Hu. rewrite E1, E2. rewrite Hmal in *.
  rewrite (proj2 (Z.eqb_neq _ _)) in Hguard by lia. cbn [negb andb] in Hguard.
  unfold POWER_BLOCK in *. rewrite u64_small in * by (unfold in_range; lia).
  split; [lia|]. destruct (Z.ltb_spec 0 (slabs (class_at (slabclass st) id))) as [Hsp|Hsp]; [|lia].
  rewrite andb_true_r, Z.ltb_ge in Hguard. lia.
Qed.

(** Fresh memory for a page keeps the cells apart. *)
Lemma paged_cells st L X id a n :
  let p := class_at (slabclass st) id in
  inv st L X -> 1 <= id <= power_largest st -> slots p = [] -> free_chunks p = [] ->
  fresh (World st L X) a POWER_BLOCK ->
  disjoint_list (all_cells (slabclass (set_class st id (paged_class p a n))) L X).
Proof.
  intros p Hinv Hid Hsl Hnofree [Hpos Hdis]. cbn [w_st w_live w_lost] in Hdis.
  destruct Hinv as [Ht _ _ Hok Hlost Hd _ _].
  pose proof (table_size_bounds _ _ _ Ht Hid) as Hs. pose proof (table_page _ _ Ht id Hid) as Hper.
  fold p in Hs, Hper. unfold TINY_SIZE in Hs.
  rewrite (all_cells_split _ _ id _ _ Ht Hid) in Hd, Hdis. fold p in Hd, Hdis.
  rewrite (all_cells_set st (power_largest st) id) by
    (done || eapply live_class, Hok || apply lost_class, Hlost ||
     (split; [done|done|apply list_subseteq_app_l; done])).
  unfold free_cells in *. rewrite Hnofree in Hd, Hdis. cbn [fmap list_fmap app] in Hd, Hdis.
  rewrite paged_free by (done || lia). cbn [paged_class size].
  apply new_page_cells; try done; lia.
Qed.

(** [do_slabs_newslab] on a class that has nothing left. *)
Lemma do_slabs_newslab_inv st L X id e st' ok :
  inv st L X -> 1 <= id <= power_largest st ->
  slots (class_at (slabclass st) id) = [] -> end_page_ptr (class_at (slabclass st) id) = 0 ->
  (env_valloc e <> 0 -> fresh (World st L X) (env_valloc e) POWER_BLOCK) ->
  do_slabs_newslab st e id = (st', ok) ->
  inv st' L X /\ extends st st' /\ (ok = true -> end_page_ptr (class_at (slabclass st') id) <> 0).
Proof.
  intros Hinv Hid Hsl Hend Hfresh. unfold do_slabs_newslab.
  set (p := class_at (slabclass st) id) in *.
  destruct (negb (mem_limit st =? 0) && _ && _) eqn:Hguard; [intros [= <- <-]; done|].
  destruct (grow_slab_list e p) as [q|] eqn:Hgrow; [|intros [= <- <-]; done].
  destruct (grow_slab_list_spec _ _ _ _ _ _ Hinv Hid Hgrow) as [Hroom [n ->]]. fold p in Hroom |- *.
  pose proof (in_range_id _ _ _ _ Hinv Hid) as Hlen.
  destruct (Z.eqb_spec (env_valloc e) 0) as [|Hv].
  { intros [= <- <-]. split; [now apply resized_list_inv|]. split; [|done].
    split; [|done|done]. apply set_class_le; [lia|done|now split]. }
  intros [= <- <-]. cbn [size perslab slots sl_total slab_list list_size].
  fold (paged_class p (env_valloc e) n). set (q := paged_class p (env_valloc e) n).
  pose proof (i_table _ _ _ Hinv) as Ht. pose proof (Hfresh Hv) as [Hpos _].
  assert (Hnofree : free_chunks p = []) by (unfold free_chunks, end_chunks; rewrite Hsl, Hend; done).
  assert (Hle : class_le p q) by (split; [done|done|apply list_subseteq_app_l; done]).
  pose proof (set_class_le st id q ltac:(lia) Hlen Hle) as Htab.
  destruct (paged_sums st L X id q _ Hinv Hid eq_refl Hguard) as [E1 E2].
  pose proof (paged_cells st L X id _ n Hinv Hid Hsl Hnofree (Hfresh Hv)) as Hcells.
  split; [|split; [split; [exact Htab|done|done]|]].
  - pose proof (table_size_bounds _ _ _ Ht Hid) as Hs. unfold TINY_SIZE in Hs. fold p in Hs.
    pose proof (table_page _ _ Ht id Hid) as [Hper1 Hper2]. fold p in Hper1, Hper2.
    split; cbn [slabclass mem_limit mem_malloced power_largest set_class]; try done; try apply Hinv.
    + apply (table_same_sizes (slabclass st)); [|done]. now apply tab_le_sizes.
    + intros id' Hid'. change (class_inv L X id' (class_at (slabclass (set_class st id q)) id')).
      rewrite class_at_set by (done || lia). destruct (decide (id = id')) as [<-|]; [|now apply Hinv].
      apply paged_class_inv; try done; [now apply Hinv|lia].
    + eapply Forall_impl; [apply (i_blocks _ _ _ Hinv)|]. intros b Hbok. apply (block_ok_mono st); done.
  - intros _. change (end_page_ptr (class_at (slabclass (set_class st id q)) id) <> 0).
    rewrite class_at_set by (done || lia). now rewrite decide_True.
Qed.

(** A block straight from [malloc]. *)
Lemma malloc_inv st L X a sz :
  inv st L X -> fresh (World st L X) a sz -> 8 <= sz < 2 ^ 32 ->
  inv (set_mem st (head_store (mem st) a true sz)) (Block a 0 sz :: L) X.
Proof.
  intros [Ht Hlim Hcl Hok Hlost Hd Hmal Hb] [Hpos Hdis] Hsz. cbn [w_st w_live w_lost] in Hdis.
  split; cbn [set_mem slabclass mem_limit mem_malloced power_largest]; try done.
  - intros id Hid. apply (class_inv_count L X); [|done|auto].
    rewrite count_class_cons, decide_False by (cbn; lia). done.
  - apply Forall_cons. split.
    + split; cbn [b_head b_class b_size mem set_mem]; try done; [| |now left].
      * apply head_malloc_store.
      * rewrite head_size_store. apply Z.mod_small. lia.
    + apply Forall_forall. intros b HbL. pose proof (proj1 (Forall_forall _ _) Hok b HbL) as Hbok.
      apply (block_ok_mono st); try done. intros x Hx. apply head_store_frame.
      pose proof (block_cell_size _ _ Ht Hbok) as [Hc _].
      rewrite Forall_forall in Hdis. assert (Hdb : disj (a, sz) (block_cell (slabclass st) b)).
      { apply Hdis. unfold all_cells. rewrite !elem_of_app. right. left. now apply list_elem_of_fmap_2. }
      unfold disj, block_cell in *. cbn [fst snd] in *. lia.
  - assert (E : all_cells (slabclass st) (Block a 0 sz :: L) X ≡ₚ (a, sz) :: all_cells (slabclass st) L X)
      by (unfold all_cells; cbn [fmap list_fmap]; unfold block_cell at 1; cbn; solve_Permutation).
    rewrite E. split; done.
Qed.

Lemma slab_alloc_inv st L X e n st' ptr :
  inv st L X -> 0 <= n -> n + sizeof_slabhead_t < 2 ^ 32 ->
  env_ok (World st L X) e (n + sizeof_slabhead_t) ->
  _slab_alloc st e n = Some (st', ptr) ->
  inv st' (if ptr =? 0 then L else new_block st ptr n :: L) X.
Proof.
  intros Hinv Hn Hsz [Hv Hm]. pose proof (i_table _ _ _ Hinv) as Ht. pose proof (table_pl _ _ Ht).
  unfold _slab_alloc, new_block, sizeof_slabhead_t, POWER_SMALLEST in *.
  rewrite (proj2 (Z.ltb_lt _ _)) by lia. rewrite u64_small by (unfold in_range; lia).
  pose proof (slab_clsid_fits _ _ (n + 8) Ht ltac:(lia)) as Hfits.
  set (id := slab_clsid (slabclass st) (power_largest st) (n + 8)) in *.
  destruct Hfits as [[Hid _]|[Hid _]].
  - rewrite !(proj2 (Z.ltb_ge _ _)) by lia.
    assert (Htake : forall st1, inv st1 L X -> extends st st1 ->
      (slots (class_at (slabclass st1) id) <> [] \/ end_page_ptr (class_at (slabclass st1) id) <> 0) ->
      Some (take_chunk st1 id (n + 8)) = Some (st', ptr) ->
      inv st' (if ptr =? 0 then L else Block (ptr - 8) id (n + 8) :: L) X).
    { intros st1 Hinv1 [Htab Hpl _] Hsome [= Htk].
      destruct (take_chunk_inv st1 L X id (n + 8) st' ptr) as [Hne Hi]; try done; try lia.
      - rewrite Hpl. symmetry. apply (clsid_same_sizes _ _ _ _ (tab_le_sizes _ _ Htab)).
      - now rewrite (proj2 (Z.eqb_neq _ _)). }
    destruct (Z.eqb_spec (end_page_ptr (class_at (slabclass st) id)) 0) as [He|He]; cbn [negb orb].
    + destruct (Z.eqb_spec (sl_curr (class_at (slabclass st) id)) 0) as [Hs|Hs]; cbn [negb].
      * assert (Hnil : slots (class_at (slabclass st) id) = []).
        { unfold sl_curr in Hs. destruct (slots _); [done|cbn [length] in Hs; lia]. }
        destruct (do_slabs_newslab st e id) as [st1 ok] eqn:Hnew.
        destruct (do_slabs_newslab_inv st L X id e st1 ok) as (Hi1 & Hex & Hend); try done.
        destruct ok; [apply Htake; [done|done|now right; apply Hend]|].
        now intros [= <- <-].
      * apply Htake; [done|done|]. left. intros E. unfold sl_curr in Hs. now rewrite E in Hs.
    + apply Htake; [done|done|now right].
  - rewrite (proj2 (Z.ltb_ge _ 1)), (proj2 (Z.ltb_lt (power_largest st) _)) by lia.
    destruct (Z.eqb_spec (env_malloc e) 0) as [|He]; cbn [negb]; [now intros [= <- <-]|].
    intros [= <- <-]. specialize (Hm He). pose proof Hm as [Hpos _].
    rewrite (proj2 (Z.eqb_neq _ _)) by lia.
    replace (env_malloc e + 8 - 8) with (env_malloc e) by lia. apply malloc_inv; [done|done|lia].
Qed.

(** Moving a block between the lists without touching the allocator. *)
Lemma relabel_inv st L X L' X' :
  inv st L X ->
  (forall id, 1 <= id -> count_class id L' + count_class id X' = count_class id L + count_class id X) ->
  Forall (block_ok st) L' -> Forall (fun b => 1 <= b_class b) X' ->
  disjoint_list (all_cells (slabclass st) L' X') -> inv st L' X'.
Proof.
  intros [Ht Hlim Hcl _ _ _ Hmal Hb] Hcount Hok HX Hd. split; try done.
  intros id Hid. destruct (Hcl id Hid) as [He Hin Hc Hs Hl]. specialize (Hcount id ltac:(lia)).
  split; try done. lia.
Qed.

Lemma all_cells_perm tab L X L' X' :
  L ≡ₚ L' -> X ≡ₚ X' -> all_cells tab L X ≡ₚ all_cells tab L' X'.
Proof. intros HL HX. unfold all_cells. now rewrite HL, HX. Qed.

(** Pushing a live chunk on its class's free list. *)
Lemma push_inv st L X b L' total :
  let p := class_at (slabclass st) (b_class b) in
  inv st L X -> L ≡ₚ b :: L' -> b_class b <> 0 -> sl_curr p < total ->
  inv (set_class st (b_class b) (Slabclass (size p) (perslab p) (b_head b :: slots p) total
         (end_page_ptr p) (end_page_free p) (slab_list p) (list_size p))) L' X.
Proof.
  intros p Hinv HL Hb0 Htot. pose proof (i_blocks _ _ _ Hinv) as Hok. rewrite HL in Hok.
  apply Forall_cons in Hok as [Hbok Hok].
  destruct (bo_class _ _ Hbok) as [|(Hid & _ & Hpage)]; [done|]. fold p in Hpage.
  pose proof (in_range_id _ _ _ _ Hinv Hid) as Hlen. pose proof (i_table _ _ _ Hinv) as Ht.
  pose proof (i_class _ _ _ Hinv _ Hid) as [He Hin Hc Hs Hl]. fold p in He, Hin, Hc, Hs, Hl.
  set (q := Slabclass _ _ (b_head b :: slots p) _ _ _ _ _).
  assert (Hle : class_le p q) by now split.
  assert (Hfree : free_chunks q = b_head b :: free_chunks p) by done.
  change (inv (set_mem (set_class st (b_class b) q) (mem st)) L' X).
  assert (Hcount : forall id, count_class id L =
    (if decide (b_class b = id) then 1 else 0) + count_class id L')
    by (intros id; rewrite (count_class_perm _ _ _ HL); apply count_class_cons).
  apply update_class with (L := L) (X := X); try done.
  - specialize (Hcount (b_class b)). rewrite decide_True in Hcount by done.
    split; [done| | |unfold sl_curr in *; unfold q; cbn [slots sl_total length]; lia|done].
    + rewrite Hfree. apply Forall_cons. split; [done|]. exact Hin.
    + rewrite Hfree. cbn [length]. change (slabs q) with (slabs p). change (perslab q) with (perslab p). lia.
  - intros id' _ Hne. rewrite (Hcount id'), decide_False by lia. lia.
  - eapply Forall_impl; [exact Hok|]. intros b' Hb'. apply (block_ok_mono st); try done.
    apply (set_class_le st _ q); [lia|exact Hlen|exact Hle].
  - exact (i_lost _ _ _ Hinv).
  - pose proof (i_disj _ _ _ Hinv) as Hd.
    rewrite (all_cells_perm _ _ _ _ _ HL (reflexivity X)) in Hd.
    rewrite (all_cells_split _ _ _ _ _ Ht Hid) in Hd. fold p in Hd.
    rewrite (all_cells_set st (power_largest st) (b_class b) q) by
      (done || eapply live_class, Hok || apply lost_class, (i_lost _ _ _ Hinv)).
    assert (E : free_cells q ++ other_cells (slabclass st) (b_class b) L' X ≡ₚ
                free_cells p ++ other_cells (slabclass st) (b_class b) (b :: L') X); [|now rewrite E].
    unfold other_cells; cbn [fmap list_fmap]. unfold block_cell at 3.
    rewrite (proj2 (Z.eqb_neq _ _)) by done. fold p.
    unfold free_cells. rewrite Hfree. cbn [fmap list_fmap]. change (size q) with (size p). solve_Permutation.
Qed.

(** The block leaves [L]; a class chunk goes to its free list or is dropped. *)
Lemma slab_free_inv st L X e b L' :
  inv st L X -> L ≡ₚ b :: L' ->
  inv (_slab_free st e (b_head b + sizeof_slabhead_t)) L' (if dropped st e b then b :: X else X).
Proof.
  intros Hinv HL. pose proof (i_blocks _ _ _ Hinv) as Hok. rewrite HL in Hok.
  apply Forall_cons in Hok as [Hb Hok]. pose proof (i_disj _ _ _ Hinv) as Hd.
  rewrite (all_cells_perm _ _ _ _ _ HL (reflexivity X)) in Hd.
  assert (Hcount : forall id, count_class id L =
    (if decide (b_class b = id) then 1 else 0) + count_class id L')
    by (intros id; rewrite (count_class_perm _ _ _ HL); apply count_class_cons).
  unfold _slab_free, dropped, sizeof_slabhead_t. pose proof (bo_head _ _ Hb).
  rewrite (proj2 (Z.eqb_neq _ 0)) by lia. replace (b_head b + 8 - 8) with (b_head b) by lia.
  rewrite (bo_malloc _ _ Hb), (bo_size _ _ Hb).
  destruct (Z.eqb_spec (b_class b) 0) as [E0|E0]; cbn [negb andb].
  - apply (relabel_inv st L X); try done; [|now apply Hinv|].
    + intros id Hid. rewrite (Hcount id), decide_False by lia. lia.
    + unfold all_cells in *. cbn [fmap list_fmap] in Hd.
      assert (E : forall l k (c : cell), l ++ (c :: k) ++ (block_cell (slabclass st) <$> X) ≡ₚ
        c :: (l ++ k ++ (block_cell (slabclass st) <$> X))) by (intros; solve_Permutation).
      rewrite E in Hd. apply Hd.
  - destruct (bo_class _ _ Hb) as [|(Hid & Hcls & _)]; [done|]. rewrite <- Hcls.
    pose proof (table_pl _ _ (i_table _ _ _ Hinv)) as Hpl. unfold POWER_LARGEST, POWER_SMALLEST in *.
    rewrite u8_small by (unfold in_range; lia). rewrite (proj2 (Z.ltb_ge _ 1)) by lia.
    pose proof (chunks_bound _ _ _ _ Hinv Hid) as Hbound.
    pose proof (ci_slots _ _ _ _ (i_class _ _ _ Hinv _ Hid)) as Hroom.
    destruct (Z.eqb_spec (sl_curr (class_at (slabclass st) (b_class b))) (sl_total (class_at (slabclass st) (b_class b)))) as [Ef|Ef]; cbn [andb].
    + destruct (env_realloc e); cbn [negb].
      * apply push_inv with (L := L); try done. rewrite <- Ef.
        destruct (Z.eqb_spec (sl_curr (class_at (slabclass st) (b_class b))) 0) as [->|]; cbn [negb]; [lia|].
        unfold sl_curr in *. rewrite u32_small by (unfold in_range; lia). lia.
      * apply (relabel_inv st L X); try done.
        { intros id _. rewrite count_class_cons, (Hcount id). lia. }
        { apply Forall_cons. split; [lia|now apply Hinv]. }
        { assert (E : all_cells (slabclass st) L' (b :: X) ≡ₚ all_cells (slabclass st) (b :: L') X)
            by (unfold all_cells; cbn [fmap list_fmap]; solve_Permutation). now rewrite E. }
    + apply push_inv with (L := L); try done. lia.
Qed.

Lemma live_disjoint st L X b b' :
  inv st L X -> b ∈ L -> b' ∈ L -> b <> b' ->
  disj (block_cell (slabclass st) b) (block_cell (slabclass st) b').
Proof.
  intros Hinv Hb Hb' Hne. pose proof (i_disj _ _ _ Hinv) as Hd.
  destruct (proj1 (elem_of_Permutation _ _) Hb) as [k Hk]. rewrite Hk in Hb'.
  apply elem_of_cons in Hb' as [|Hb']; [done|].
  rewrite (all_cells_perm _ _ _ _ _ Hk (reflexivity X)) in Hd. unfold all_cells in Hd.
  apply disjoint_list_app in Hd as (_ & (Hd & _)%disjoint_list_app & _). cbn in Hd.
  destruct Hd as [Hd _]. rewrite Forall_forall in Hd. apply Hd. now apply list_elem_of_fmap_2.
Qed.

Lemma live_nodup st L X : inv st L X -> NoDup L.
Proof.
  intros Hinv. pose proof (i_disj _ _ _ Hinv) as Hd. pose proof (i_blocks _ _ _ Hinv) as Hok.
  pose proof (i_table _ _ _ Hinv) as Ht. unfold all_cells in Hd.
  apply disjoint_list_app in Hd as (_ & (Hd & _)%disjoint_list_app & _).
  clear Hinv. induction Hok as [|b L Hb Hok IH]; [constructor|]. cbn in Hd. destruct Hd as [Hd Hrest].
  constructor; [|auto]. intros Hin. rewrite Forall_forall in Hd.
  specialize (Hd _ (list_elem_of_fmap_2 (block_cell (slabclass st)) _ _ Hin)).
  pose proof (block_cell_size _ _ Ht Hb) as [? _]. unfold disj in Hd. lia.
Qed.

(** Writes by the client inside its blocks touch no header. *)
Lemma write_inv st L X m :
  inv st L X ->
  (forall x, (forall b, b ∈ L -> ~ b_head b + sizeof_slabhead_t <= x < b_head b + b_size b) ->
             m x = mem st x) ->
  inv (set_mem st m) L X.
Proof.
  intros Hinv Hm. pose proof Hinv as [Ht Hlim Hcl Hok Hlost Hd Hmal Hb]. split; try done.
  apply Forall_forall. intros b HbL. pose proof (proj1 (Forall_forall _ _) Hok b HbL) as Hbok.
  apply (block_ok_mono st); try done. intros x Hx. apply Hm. intros b' Hb' Hx'.
  pose proof (proj1 (Forall_forall _ _) Hok b' Hb') as Hbok'. unfold sizeof_slabhead_t in Hx'.
  pose proof (block_cell_size _ _ Ht Hbok) as [Hc _].
  pose proof (block_cell_size _ _ Ht Hbok') as [_ Hc'].
  destruct (decide (b = b')) as [->|Hne]; [lia|].
  pose proof (live_disjoint _ _ _ _ _ Hinv HbL Hb' Hne) as Hdis.
  unfold disj, block_cell in *. cbn [fst snd] in *. lia.
Qed.

Lemma step_inv w w' : inv (w_st w) (w_live w) (w_lost w) -> step w w' ->
  inv (w_st w') (w_live w') (w_lost w').
Proof.
  intros Hinv Hs. destruct Hs as [w0 e n st' p Hn Hsz He Ha|w0 e b L HL|w0 m Hm]; cbn [w_st w_live w_lost].
  - apply (slab_alloc_inv _ _ _ e n); [done|done|done| |done]. now destruct w0.
  - now apply slab_free_inv with (L := w_live w0).
  - now apply write_inv.
Qed.

(** A class nothing was ever taken from. *)
Definition untouched (p : slabclass_t) : bool :=
  bool_decide (slots p = [] /\ end_page_ptr p = 0 /\ slab_list p = [] /\
               0 <= sl_total p /\ 0 <= list_size p).

Lemma untouched_sums tab :
  forallb untouched tab = true ->
  total_slabs tab = 0 /\ used_classes tab = 0 /\ all_cells tab [] [] = [].
Proof.
  unfold total_slabs, used_classes, all_cells. rewrite app_nil_r.
  induction tab as [|p tab IH]; [done|]. cbn [forallb]. intros [Hp Ht]%andb_true_iff.
  destruct (IH Ht) as (E1 & E2 & E3). apply bool_decide_eq_true in Hp as (Es & Ee & Ep & _ & _).
  cbn [fmap list_fmap] in *. unfold sumZ in *. cbn [foldr concat].
  rewrite E1, E2, E3. unfold slabs, free_cells, free_chunks, end_chunks. now rewrite Es, Ee, Ep.
Qed.

Lemma untouched_inv tab pl limit m :
  table_ok tab pl -> limit_ok limit -> forallb untouched tab = true ->
  inv (Slab tab limit 0 pl m) [] [].
Proof.
  intros Ht Hlim Hun. destruct (untouched_sums _ Hun) as (E1 & E2 & E3).
  split; cbn [slabclass mem_limit mem_malloced power_largest]; rewrite ?E1, ?E2, ?E3; try done.
  - intros id Hid. rewrite forallb_forall in Hun.
    specialize (Hun _ (proj1 (list_elem_of_In _ _)
      (list_elem_of_lookup_2 _ _ _ (class_at_lookup _ _ _ Ht Hid)))).
    apply bool_decide_eq_true in Hun as (Es & Ee & Ep & Ht1 & Ht2).
    assert (Hf : free_chunks (class_at tab id) = [])
      by (unfold free_chunks, end_chunks; rewrite Es, Ee; done).
    split; [now left|now rewrite Hf| | |]; unfold slabs, sl_curr, count_class;
      rewrite ?Hf, ?Es, ?Ep; cbn; lia.
  - destruct Hlim. unfold POWER_BLOCK. lia.
Qed.

Lemma production_inv limit st : limit_ok limit -> production limit = Some st -> inv st [] [].
Proof.
  intros Hlim. rewrite production_eq. intros E. apply (inj Some) in E as <-.
  apply untouched_inv; [|done|vm_compute; reflexivity].
  apply table_okb_sound. vm_compute. reflexivity.
Qed.

Lemma reachable_inv limit w :
  limit_ok limit -> reachable limit w -> inv (w_st w) (w_live w) (w_lost w).
Proof.
  intros Hlim (st & Hst & Hr).
  refine (rtc_ind_r (fun w => inv (w_st w) (w_live w) (w_lost w)) _ _ _ w Hr).
  - now apply (production_inv limit).
  - intros w1 w2 _ Hs Hi. now apply (step_inv w1).
Qed.

(** ** Memory effects of the calls *)

(** [_slab_alloc] writes nothing but the header of the block it returns. *)
Lemma slab_alloc_frame st e n st' ptr x :
  _slab_alloc st e n = Some (st', ptr) -> ptr <> 0 -> x < ptr - 8 \/ ptr <= x ->
  mem st' x = mem st x.
Proof.
  unfold _slab_alloc, sizeof_slabhead_t. destruct (0 <? power_largest st); [|done].
  set (id := slab_clsid _ _ _). generalize (u64 (n + 8)) as sz. intros sz.
  assert (Htk : forall st1, mem st1 = mem st -> Some (take_chunk st1 id sz) = Some (st', ptr) ->
    ptr <> 0 -> x < ptr - 8 \/ ptr <= x -> mem st' x = mem st x).
  { intros st1 Hm. unfold take_chunk, sizeof_slabhead_t. destruct (slots _) as [|h sl].
    - destruct (negb (end_page_ptr _ =? 0)); intros [= <- <-] Hne Hx; [|done].
      cbn [set_mem mem set_class]. rewrite head_store_frame, Hm by lia. done.
    - intros [= <- <-] Hne Hx. cbn [set_mem mem set_class]. rewrite head_store_frame, Hm by lia. done. }
  destruct (id <? POWER_SMALLEST); [now intros [= <- <-]|].
  destruct (power_largest st <? id).
  { destruct (negb (env_malloc e =? 0)); intros [= <- <-] Hne Hx; [|done].
    cbn [set_mem mem]. apply head_store_frame. lia. }
  destruct (negb (end_page_ptr (class_at (slabclass st) id) =? 0) || negb (sl_curr (class_at (slabclass st) id) =? 0));
    [now apply Htk|].
  unfold do_slabs_newslab. destruct (_ && _ && _); [now intros [= <- <-]|].
  destruct (grow_slab_list e _); [|now intros [= <- <-]].
  destruct (env_valloc e =? 0); [now intros [= <- <-]|]. now apply Htk.
Qed.

Lemma slab_free_mem st e ptr : mem (_slab_free st e ptr) = mem st.
Proof.
  unfold _slab_free. destruct (ptr =? 0); [done|]. destruct (head_is_malloc _ _); [done|].
  destruct (_ <? POWER_SMALLEST); [done|]. destruct (_ =? _); [|done]. now destruct (env_realloc e).
Qed.

(** The first steps of a [_slab_realloc] that succeeds on a live block. *)
Lemma slab_realloc_unfold st L X e e' b n st' p :
  inv st L X -> b ∈ L -> 0 < n -> n + sizeof_slabhead_t < 2 ^ 32 ->
  env_ok (World st L X) e (n + sizeof_slabhead_t) ->
  _slab_realloc st e e' (b_head b + sizeof_slabhead_t) n = Some (st', p) -> p <> 0 ->
  exists st1, _slab_alloc st e n = Some (st1, p) /\ inv st1 (new_block st p n :: L) X /\
    b <> new_block st p n /\
    st' = _slab_free (set_mem st1 (mem_copy (mem st1) p (b_head b + 8) (Z.min n (b_size b)))) e'
            (b_head b + 8).
Proof.
  intros Hinv HbL Hn Hsz He. unfold _slab_realloc.
  pose proof (proj1 (Forall_forall _ _) (i_blocks _ _ _ Hinv) b HbL) as Hb. pose proof (bo_head _ _ Hb).
  unfold sizeof_slabhead_t in *. rewrite !(proj2 (Z.eqb_neq _ 0)) by lia.
  destruct (_slab_alloc st e n) as [[st1 q]|] eqn:Ha; [|done].
  destruct (Z.eqb_spec q 0) as [|Hq]; [now intros [= <- <-]|]. intros [= Est <-] _. exists st1.
  assert (Hn0 : 0 <= n) by lia.
  pose proof (slab_alloc_inv _ _ _ _ _ _ _ Hinv Hn0 Hsz He Ha) as Hinv1.
  rewrite (proj2 (Z.eqb_neq q 0)) in Hinv1 by done.
  pose proof (live_nodup _ _ _ Hinv1) as [Hnew _]%NoDup_cons.
  split; [done|]. split; [done|]. split; [intros Heq; apply Hnew; now rewrite <- Heq|]. rewrite <- Est.
  replace (b_head b + 8 - 8) with (b_head b) by lia.
  assert (Hb1 : block_ok st1 b)
    by (apply (proj1 (Forall_forall _ _) (i_blocks _ _ _ Hinv1)); now right).
  rewrite (bo_size _ _ Hb1). unfold Z.min.
  destruct (Z.ltb_spec n (b_size b)), (Z.compare_spec n (b_size b)); try lia; try done.
  now subst.
Qed.

(** ** A small run: one allocation of 100 bytes out of the first page *)

Definition ex_env : env := Env true 4096 0.
Definition ex_st0 : slab_t := Slab production_tab (2 ^ 32) 0 92 (fun _ => 0).
Definition ex_alloc : option (slab_t * Z) := _slab_alloc ex_st0 ex_env 100.
Definition ex_world : world :=
  World (default ex_st0 (fst <$> ex_alloc)) [Block 4096 11 108] [].

(** Only the pointer a call returns is computed. *)
Lemma result_split {A} (d : A) (o : option (A * Z)) p :
  snd <$> o = Some p -> o = Some (default d (fst <$> o), p).
Proof. destruct o as [[a q]|]; [|done]. now intros [= ->]. Qed.

Lemma ex_env_ok : env_ok (World ex_st0 [] []) ex_env 108.
Proof.
  split; intros H; [|done]. split; [done|]. cbn [w_st w_live w_lost].
  replace (all_cells (slabclass ex_st0) [] []) with (@nil cell) by (vm_compute; reflexivity).
  constructor.
Qed.

Lemma ex_reachable : reachable (2 ^ 32) ex_world.
Proof.
  exists ex_st0. split; [apply production_eq|]. apply rtc_once.
  assert (E : _slab_alloc ex_st0 ex_env 100 = Some (w_st ex_world, 4104))
    by (apply result_split; vm_compute; reflexivity).
  pose proof (step_alloc (World ex_st0 [] []) ex_env 100 _ _ ltac:(lia) ltac:(done) ex_env_ok E) as Hs.
  assert (Eb : new_block ex_st0 4104 100 = Block 4096 11 108) by (vm_compute; reflexivity).
  cbn [w_st w_live w_lost] in Hs. rewrite Eb in Hs. exact Hs.
Qed.

Lemma ex_limit : limit_ok (2 ^ 32).
Proof. done. Qed.

Lemma ex_inv : inv (w_st ex_world) [Block 4096 11 108] [].
Proof. exact (reachable_inv (2 ^ 32) ex_world ex_limit ex_reachable). Qed.

(** ** Properties *)

(** Isolation. However a client allocates, frees what it holds and writes
    inside its blocks, and whatever the C library answers, no two blocks in use
    overlap, every block holds the bytes asked for behind a header that says
    so, and a block of a class lies inside one of the class's 4 MB pages. *)
Theorem slab_isolation limit w i b :
  limit_ok limit -> reachable limit w -> w_live w !! i = Some b ->
  (forall j b', w_live w !! j = Some b' -> j <> i ->
     b_head b + b_size b <= b_head b' \/ b_head b' + b_size b' <= b_head b) /\
  head_size (mem (w_st w)) (b_head b) = b_size b /\
  head_is_malloc (mem (w_st w)) (b_head b) = (b_class b =? 0) /\
  (b_class b <> 0 ->
     exists base, base ∈ slab_list (class_at (slabclass (w_st w)) (b_class b)) /\
       base <= b_head b /\ b_head b + b_size b <= base + POWER_BLOCK).
Proof.
  intros Hlim Hr Hi. pose proof (reachable_inv _ _ Hlim Hr) as Hinv.
  pose proof (i_blocks _ _ _ Hinv) as Hok. pose proof (i_table _ _ _ Hinv) as Ht.
  pose proof (Forall_lookup_1 _ _ _ _ Hok Hi) as Hb. pose proof (block_cell_size _ _ Ht Hb) as [_ Hc].
  split; [|split; [apply Hb|split; [apply Hb|]]].
  - intros j b' Hj Hne. pose proof (Forall_lookup_1 _ _ _ _ Hok Hj) as Hb'.
    assert (b <> b') by (intros <-; apply Hne; eapply NoDup_lookup; [apply (live_nodup _ _ _ Hinv)|exact Hj|exact Hi]).
    pose proof (live_disjoint _ _ _ _ _ Hinv (list_elem_of_lookup_2 _ _ _ Hi) (list_elem_of_lookup_2 _ _ _ Hj) H) as Hd.
    pose proof (block_cell_size _ _ Ht Hb') as [_ Hc'].
    unfold disj, block_cell in *. cbn [fst snd] in *. lia.
  - intros Hne. destruct (bo_class _ _ Hb) as [|(_ & _ & base & Hin & Hbase & Hend)]; [done|].
    exists base. split; [done|]. unfold block_cell in Hc. cbn [snd] in Hc.
    rewrite (proj2 (Z.eqb_neq _ _)) in Hc by done. lia.
Qed.

Lemma slab_isolation_witness :
  head_size (mem (w_st ex_world)) 4096 = 108 /\
  exists base, base ∈ slab_list (class_at (slabclass (w_st ex_world)) 11) /\
    base <= 4096 /\ 4096 + 108 <= base + POWER_BLOCK.
Proof.
  destruct (slab_isolation (2 ^ 32) ex_world 0 (Block 4096 11 108) ex_limit ex_reachable eq_refl)
    as (_ & Hs & _ & Hp).
  split; [exact Hs|]. apply Hp. discriminate.
Defined.

(** Conservation and accounting. In every reachable state each chunk of
    each page of a class is exactly one of free, in use or dropped (by a
    [_slab_free] whose free list could not grow), the free list fits its array,
    and [mem_malloced] is the size of all pages, which exceeds the limit by at
    most one page for each class that has one. *)
Theorem slab_conservation limit w :
  limit_ok limit -> reachable limit w ->
  (forall id, 1 <= id <= power_largest (w_st w) ->
     let p := class_at (slabclass (w_st w)) id in
     Z.of_nat (length (free_chunks p)) + count_class id (w_live w) + count_class id (w_lost w)
       = slabs p * perslab p /\ sl_curr p <= sl_total p /\ slabs p <= list_size p) /\
  mem_malloced (w_st w) = POWER_BLOCK * total_slabs (slabclass (w_st w)) /\
  mem_malloced (w_st w) <= mem_limit (w_st w) + POWER_BLOCK * used_classes (slabclass (w_st w)).
Proof.
  intros Hlim Hr. pose proof (reachable_inv _ _ Hlim Hr) as Hinv. split; [|split; [apply Hinv|]].
  - intros id Hid. destruct (i_class _ _ _ Hinv id Hid) as [_ _ Hc Hs Hl]. done.
  - rewrite (i_malloced _ _ _ Hinv). apply Hinv.
Qed.

Lemma slab_conservation_witness :
  mem_malloced (w_st ex_world) = POWER_BLOCK * total_slabs (slabclass (w_st ex_world)) /\
  mem_malloced (w_st ex_world) <= 2 ^ 32 + POWER_BLOCK.
Proof.
  destruct (slab_conservation (2 ^ 32) ex_world ex_limit ex_reachable) as (_ & H1 & _).
  split; [exact H1|]. vm_compute. discriminate.
Defined.

(** A freed chunk is the first to be used again: after [_slab_free] of a
    block that was not dropped, the next [_slab_alloc] of a size of the same
    class returns the same address without asking the system for memory. *)
Theorem slab_free_then_alloc st L X e e' b n :
  inv st L X -> b ∈ L -> b_class b <> 0 -> dropped st e b = false ->
  0 <= n -> n + sizeof_slabhead_t < 2 ^ 32 ->
  slab_clsid (slabclass st) (power_largest st) (n + sizeof_slabhead_t) = b_class b ->
  exists st', _slab_alloc (_slab_free st e (b_head b + sizeof_slabhead_t)) e' n
              = Some (st', b_head b + sizeof_slabhead_t).
Proof.
  intros Hinv HbL Hc0 Hdrop Hn Hsz Hcls. pose proof (i_table _ _ _ Hinv) as Ht.
  pose proof (proj1 (Forall_forall _ _) (i_blocks _ _ _ Hinv) b HbL) as Hb. pose proof (bo_head _ _ Hb).
  destruct (bo_class _ _ Hb) as [|(Hid & Hbc & _)]; [done|].
  pose proof (in_range_id _ _ _ _ Hinv Hid) as Hlen. pose proof (table_pl _ _ Ht) as Hpl.
  unfold POWER_LARGEST in Hpl.
  assert (Hpush : exists total, _slab_free st e (b_head b + sizeof_slabhead_t) =
    set_class st (b_class b) (Slabclass (size (class_at (slabclass st) (b_class b)))
      (perslab (class_at (slabclass st) (b_class b))) (b_head b :: slots (class_at (slabclass st) (b_class b)))
      total (end_page_ptr (class_at (slabclass st) (b_class b))) (end_page_free (class_at (slabclass st) (b_class b)))
      (slab_list (class_at (slabclass st) (b_class b))) (list_size (class_at (slabclass st) (b_class b))))).
  { unfold _slab_free, sizeof_slabhead_t, POWER_SMALLEST. rewrite (proj2 (Z.eqb_neq _ 0)) by lia.
    replace (b_head b + 8 - 8) with (b_head b) by lia. rewrite (bo_malloc _ _ Hb), (bo_size _ _ Hb).
    rewrite (proj2 (Z.eqb_neq (b_class b) 0)) by done. rewrite <- Hbc.
    rewrite u8_small by (unfold in_range; lia). rewrite (proj2 (Z.ltb_ge _ 1)) by lia.
    unfold dropped in Hdrop. rewrite (proj2 (Z.eqb_neq (b_class b) 0)) in Hdrop by done. cbn [negb andb] in Hdrop.
    destruct (_ =? _); [|now eexists]. destruct (env_realloc e); [now eexists|done]. }
  destruct Hpush as [total ->]. set (p := class_at (slabclass st) (b_class b)).
  set (q := Slabclass _ _ (b_head b :: slots p) _ _ _ _ _).
  assert (Htab : tab_le (slabclass st) (slabclass (set_class st (b_class b) q)))
    by (apply set_class_le; [lia|done|now split]).
  unfold _slab_alloc, sizeof_slabhead_t, POWER_SMALLEST in *.
  change (power_largest (set_class st (b_class b) q)) with (power_largest st).
  rewrite (proj2 (Z.ltb_lt 0 _)) by lia. rewrite u64_small by (unfold in_range; lia).
  rewrite (clsid_same_sizes _ _ _ _ (tab_le_sizes _ _ Htab)), Hcls.
  rewrite !(proj2 (Z.ltb_ge _ _)) by lia.
  rewrite class_at_set, decide_True by (done || lia).
  unfold sl_curr at 1, q at 2; cbn [slots length].
  rewrite (proj2 (Z.eqb_neq (Z.of_nat (S _)) 0)) by lia. cbn [negb]. rewrite orb_true_r.
  unfold take_chunk. rewrite class_at_set, decide_True by (done || lia).
  eexists. unfold q at 2; cbn [slots]. reflexivity.
Qed.

Lemma slab_free_then_alloc_witness :
  exists st', _slab_alloc (_slab_free (w_st ex_world) ex_env 4104) ex_env 100 = Some (st', 4104).
Proof.
  apply (slab_free_then_alloc (w_st ex_world) [Block 4096 11 108] [] ex_env ex_env (Block 4096 11 108) 100);
    [exact ex_inv|apply list_elem_of_here|discriminate|vm_compute; reflexivity|lia|reflexivity
    |vm_compute; reflexivity].
Defined.

(** [_slab_realloc] of a block in use to [n] bytes keeps the first
    [min(old, n)] bytes at the new address. *)
Theorem slab_realloc_contents st L X e e' b n st' p i :
  inv st L X -> b ∈ L -> 0 < n -> n + sizeof_slabhead_t < 2 ^ 32 ->
  env_ok (World st L X) e (n + sizeof_slabhead_t) ->
  _slab_realloc st e e' (b_head b + sizeof_slabhead_t) n = Some (st', p) -> p <> 0 ->
  0 <= i < Z.min (b_size b - sizeof_slabhead_t) n ->
  mem st' (p + i) = mem st (b_head b + sizeof_slabhead_t + i).
Proof.
  intros Hinv HbL Hn Hsz He Hre Hp Hi.
  destruct (slab_realloc_unfold _ _ _ _ _ _ _ _ _ Hinv HbL Hn Hsz He Hre Hp)
    as (st1 & Ha & Hinv1 & Hne & ->).
  unfold sizeof_slabhead_t in *. rewrite slab_free_mem. cbn [set_mem mem]. unfold mem_copy.
  rewrite (proj2 (Z.leb_le _ _)), (proj2 (Z.ltb_lt _ _)) by lia. cbn [andb].
  replace (b_head b + 8 + (p + i - p)) with (b_head b + 8 + i) by lia.
  apply (slab_alloc_frame _ _ _ _ _ _ Ha Hp).
  pose proof (live_disjoint _ _ _ _ _ Hinv1 (list_elem_of_further _ _ _ HbL) (list_elem_of_here _ _) Hne) as Hd.
  pose proof (i_blocks _ _ _ Hinv1) as Hok. pose proof (i_table _ _ _ Hinv1) as Ht1.
  apply Forall_cons in Hok as [Hok0 Hok]. pose proof (proj1 (Forall_forall _ _) Hok b HbL) as Hb.
  pose proof (block_cell_size _ _ Ht1 Hb) as [_ Hc]. pose proof (block_cell_size _ _ Ht1 Hok0) as [Hc0 _].
  unfold disj, block_cell, new_block, sizeof_slabhead_t in *. cbn [fst snd b_head b_class b_size] in *. lia.
Qed.

(** The C library has nothing to give. *)
Definition ex_env0 : env := Env true 0 0.
(** The state after [_slab_realloc] of the block of [ex_world] to 110 bytes. *)
Definition ex_realloc : slab_t :=
  default ex_st0 (fst <$> _slab_realloc (w_st ex_world) ex_env0 ex_env0 4104 110).

Lemma ex_env0_ok w n : env_ok w ex_env0 n.
Proof. split; intros H; destruct (H eq_refl). Qed.

Lemma slab_realloc_contents_witness :
  _slab_realloc (w_st ex_world) ex_env0 ex_env0 4104 110 = Some (ex_realloc, 4224) /\
  mem ex_realloc (4224 + 99) = mem (w_st ex_world) 4203.
Proof.
  assert (E : _slab_realloc (w_st ex_world) ex_env0 ex_env0 4104 110 = Some (ex_realloc, 4224))
    by (apply result_split; vm_compute; reflexivity).
  split; [exact E|].
  apply (slab_realloc_contents (w_st ex_world) [Block 4096 11 108] [] ex_env0 ex_env0
           (Block 4096 11 108) 110 ex_realloc 4224 99);
    [exact ex_inv|apply list_elem_of_here|lia|reflexivity|apply ex_env0_ok|exact E|discriminate
    |unfold sizeof_slabhead_t; cbn [b_size]; lia].
Defined.

(** The header's [size] counts the header itself, so [_slab_realloc] to a
    size of at least [old + 8] copies eight bytes too many: the last eight come
    from behind the old block, the neighbouring chunk's header when the block
    fills its chunk. *)
Theorem slab_realloc_overread st L X e e' b n st' p i :
  inv st L X -> b ∈ L -> 0 < n -> n + sizeof_slabhead_t < 2 ^ 32 ->
  env_ok (World st L X) e (n + sizeof_slabhead_t) ->
  _slab_realloc st e e' (b_head b + sizeof_slabhead_t) n = Some (st', p) -> p <> 0 ->
  b_size b <= n -> b_size b - sizeof_slabhead_t <= i < b_size b ->
  exists st1, _slab_alloc st e n = Some (st1, p) /\
    mem st' (p + i) = mem st1 (b_head b + sizeof_slabhead_t + i) /\
    b_head b + b_size b <= b_head b + sizeof_slabhead_t + i.
Proof.
  intros Hinv HbL Hn Hsz He Hre Hp Hbn Hi.
  destruct (slab_realloc_unfold _ _ _ _ _ _ _ _ _ Hinv HbL Hn Hsz He Hre Hp)
    as (st1 & Ha & _ & _ & ->).
  pose proof (bo_range _ _ (proj1 (Forall_forall _ _) (i_blocks _ _ _ Hinv) b HbL)).
  exists st1. split; [done|]. unfold sizeof_slabhead_t in *. split; [|lia].
  rewrite slab_free_mem. cbn [set_mem mem]. unfold mem_copy.
  rewrite (proj2 (Z.leb_le _ _)), (proj2 (Z.ltb_lt _ _)) by lia. cbn [andb]. f_equal. lia.
Qed.

Lemma slab_realloc_overread_witness :
  exists st1, _slab_alloc (w_st ex_world) ex_env0 110 = Some (st1, 4224) /\
    mem ex_realloc (4224 + 107) = mem st1 (4104 + 107) /\ 4096 + 108 <= 4104 + 107.
Proof.
  apply (slab_realloc_overread (w_st ex_world) [Block 4096 11 108] [] ex_env0 ex_env0
           (Block 4096 11 108) 110 ex_realloc 4224 107);
    [exact ex_inv|apply list_elem_of_here|lia|reflexivity|apply ex_env0_ok
    |apply result_split; vm_compute; reflexivity|discriminate|cbn [b_size]; lia
    |unfold sizeof_slabhead_t; cbn [b_size]; lia].
Defined.

(** The header's size is added modulo 2^64. A request of 2^64 - 7 bytes or
    more asks for less than 8 bytes in all: it gets a chunk of the smallest
    class instead of NULL. *)
Theorem slab_alloc_huge_request st L X e n :
  inv st L X -> 2 ^ 64 - sizeof_slabhead_t < n < 2 ^ 64 ->
  slots (class_at (slabclass st) 1) <> [] ->
  exists st' head, _slab_alloc st e n = Some (st', head + sizeof_slabhead_t) /\
    head ∈ free_chunks (class_at (slabclass st) 1) /\
    head_size (mem st') head = n + sizeof_slabhead_t - 2 ^ 64.
Proof.
  intros Hinv Hn Hs. pose proof (i_table _ _ _ Hinv) as Ht. pose proof (table_pl _ _ Ht).
  unfold _slab_alloc, sizeof_slabhead_t, POWER_SMALLEST in *.
  assert (Hu : u64 (n + 8) = n + 8 - 2 ^ 64) by word. rewrite Hu.
  rewrite (proj2 (Z.ltb_lt 0 _)) by lia.
  pose proof (table_zero _ _ Ht) as H0. pose proof (table_tiny _ _ Ht) as H1. unfold TINY_SIZE in H1.
  assert (Hid : slab_clsid (slabclass st) (power_largest st) (n + 8 - 2 ^ 64) = 1).
  { apply (fits_unique (slabclass st) (power_largest st) (n + 8 - 2 ^ 64)); [done|apply slab_clsid_fits; [done|lia]|].
    left. change (1 - 1) with 0. lia. }
  rewrite Hid. rewrite !(proj2 (Z.ltb_ge _ _)) by lia. unfold sl_curr.
  destruct (slots (class_at (slabclass st) 1)) as [|h sl] eqn:Es; [done|].
  cbn [length]. rewrite (proj2 (Z.eqb_neq (Z.of_nat (S _)) 0)) by lia. cbn [negb]. rewrite orb_true_r.
  unfold take_chunk. rewrite Es. eexists _, h. split; [reflexivity|]. split.
  - unfold free_chunks. rewrite Es. apply list_elem_of_here.
  - cbn [set_mem mem]. rewrite head_size_store. apply u32_small. unfold in_range. lia.
Qed.

(** One chunk of class 1 was allocated and freed. *)
Definition ex_class1 : slab_t :=
  _slab_free (default ex_st0 (fst <$> _slab_alloc ex_st0 ex_env 4)) ex_env 4104.

Lemma ex_class1_inv : inv ex_class1 [] [].
Proof.
  assert (E : _slab_alloc ex_st0 ex_env 4 = Some (default ex_st0 (fst <$> _slab_alloc ex_st0 ex_env 4), 4104))
    by (apply result_split; vm_compute; reflexivity).
  pose proof (slab_alloc_inv ex_st0 [] [] ex_env 4 _ _ (production_inv _ _ ex_limit (production_eq _))
    ltac:(done) ltac:(done) ltac:(split; intros H; [apply ex_env_ok; exact H|done]) E) as Hi.
  assert (Eb : new_block ex_st0 4104 4 = Block 4096 1 12) by (vm_compute; reflexivity).
  rewrite Eb in Hi. exact (slab_free_inv _ _ _ ex_env (Block 4096 1 12) [] Hi (reflexivity _)).
Qed.

Lemma slab_alloc_huge_request_witness :
  exists st' head, _slab_alloc ex_class1 ex_env0 (2 ^ 64 - 1) = Some (st', head + 8) /\
    head ∈ free_chunks (class_at (slabclass ex_class1) 1) /\ head_size (mem st') head = 7.
Proof.
  apply (slab_alloc_huge_request ex_class1 [] [] ex_env0 (2 ^ 64 - 1));
    [exact ex_class1_inv|unfold sizeof_slabhead_t; lia|vm_compute; discriminate].
Defined.

End Slab.
