(* ===== verification/SlabThreads.v ===== *)
(** The allocator of [src/src/slab.c] under threads: [_slab_alloc], [_slab_free]
    and [_slab_realloc] cut at the spin lock of a class and at every access to
    [mem_malloced], which no lock protects. What a thread does to the class whose
    lock it holds is one step ([SlabRaces] shows that no other thread holds it);
    [slab_clsid] reads sizes only, which never change. Each call, run alone, is
    the function of [Slab]. *)

From Stdlib Require Import ZArith Lia.
From stdpp Require Import base numbers list gmap.
From S2P Require Import Prelude Slab.

Module SlabThreads.
Import Slab.

(** ** Where a thread stands in a call *)

(** [id] is the class, [sz] the size with its header, [v] a pointer to return. *)
Inductive pc :=
  | Alloc (n : Z)
  | AllocLock (id sz : Z)
  | AllocLook (id sz : Z)
  | AllocTest (id sz : Z)
  | AllocPage (id sz : Z)
  | AllocRead (id sz : Z)
  | AllocCount (id sz count : Z)
  | AllocTake (id sz : Z)
  | AllocUnlock (id v : Z)
  | Free (ptr : Z)
  | FreeLock (id head : Z)
  | FreePush (id head : Z)
  | FreeUnlock (id : Z)
  | Ret (v : Z).

Definition set_malloced (st : slab_t) (m : Z) : slab_t :=
  Slab (slabclass st) (mem_limit st) m (power_largest st) (mem st).

(** [_slab_alloc] before the lock. [None]: the assertion fails. *)
Definition alloc_enter (e : env) (st : slab_t) (n : Z) : option (slab_t * pc) :=
  if 0 <? power_largest st then
    let sz := u64 (n + sizeof_slabhead_t) in
    let id := slab_clsid (slabclass st) (power_largest st) sz in
    if id <? POWER_SMALLEST then Some (st, Ret 0)
    else if power_largest st <? id then
      let head := env_malloc e in
      if negb (head =? 0)
      then Some (set_mem st (head_store (mem st) head true sz), Ret (head + sizeof_slabhead_t))
      else Some (st, Ret 0)
    else Some (st, AllocLock id sz)
  else None.

(** The first test of [do_slabs_newslab], on the value [count] of [mem_malloced]. *)
Definition over_limit (st : slab_t) (count id : Z) : bool :=
  negb (mem_limit st =? 0) && (mem_limit st <? u64 (count + POWER_BLOCK)) &&
  (0 <? slabs (class_at (slabclass st) id)).

(** The rest of [do_slabs_newslab], up to the counter. *)
Definition new_page (e : env) (st : slab_t) (id : Z) : slab_t * bool :=
  match grow_slab_list e (class_at (slabclass st) id) with
  | None => (st, false)
  | Some p =>
      let ptr := env_valloc e in
      if ptr =? 0 then (set_class st id p, false)
      else (set_class st id (Slabclass (size p) (perslab p) (slots p) (sl_total p) ptr (perslab p)
                               (slab_list p ++ [ptr]) (list_size p)), true)
  end.

(** [_slab_free] before the lock, and under it. *)
Definition free_enter (st : slab_t) (ptr : Z) : pc :=
  if ptr =? 0 then Ret 0
  else
    let head := ptr - sizeof_slabhead_t in
    let sz := head_size (mem st) head in
    if head_is_malloc (mem st) head then Ret 0
    else
      let id := u8 (slab_clsid (slabclass st) (power_largest st) sz) in
      if id <? POWER_SMALLEST then Ret 0 else FreeLock id head.
Definition push_slot (e : env) (st : slab_t) (id head : Z) : slab_t :=
  let p := class_at (slabclass st) id in
  let push total := set_class st id (Slabclass (size p) (perslab p) (head :: slots p) total
                      (end_page_ptr p) (end_page_free p) (slab_list p) (list_size p)) in
  if sl_curr p =? sl_total p then
    if env_realloc e
    then push (if negb (sl_total p =? 0) then u32 (sl_total p * 2) else 1024)
    else st
  else push (sl_total p).

(** One step of a call; [lk] are the classes whose lock is taken. [None]: the
    thread spins, its assertion failed, or the call is over. *)
Definition tstep (e : env) (st : slab_t) (lk : gset Z) (p : pc) : option (slab_t * gset Z * pc) :=
  match p with
  | Alloc n => match alloc_enter e st n with Some (st, p) => Some (st, lk, p) | None => None end
  | AllocLock id sz => if decide (id ∈ lk) then None else Some (st, {[id]} ∪ lk, AllocLook id sz)
  | AllocLook id sz =>
      let p := class_at (slabclass st) id in
      Some (st, lk, if negb (end_page_ptr p =? 0) || negb (sl_curr p =? 0) then AllocTake id sz else AllocTest id sz)
  | AllocTest id sz =>
      Some (st, lk, if over_limit st (mem_malloced st) id then AllocUnlock id 0 else AllocPage id sz)
  | AllocPage id sz =>
      let '(st, ok) := new_page e st id in
      Some (st, lk, if ok then AllocRead id sz else AllocUnlock id 0)
  | AllocRead id sz => Some (st, lk, AllocCount id sz (mem_malloced st))
  | AllocCount id sz count => Some (set_malloced st (u64 (count + POWER_BLOCK)), lk, AllocTake id sz)
  | AllocTake id sz => let '(st, v) := take_chunk st id sz in Some (st, lk, AllocUnlock id v)
  | AllocUnlock id v => Some (st, lk ∖ {[id]}, Ret v)
  | Free ptr => Some (st, lk, free_enter st ptr)
  | FreeLock id head => if decide (id ∈ lk) then None else Some (st, {[id]} ∪ lk, FreePush id head)
  | FreePush id head => Some (push_slot e st id head, lk, FreeUnlock id)
  | FreeUnlock id => Some (st, lk ∖ {[id]}, Ret 0)
  | Ret _ => None
  end.

(** [_slab_realloc] around its two calls: what is left to do when one returns. *)
Inductive kont := Plain | Copy (ptr n : Z) | Keep (v : Z).
Definition realloc_enter (ptr n : Z) : pc * kont :=
  if n =? 0 then (Ret 0, Plain) else if ptr =? 0 then (Alloc n, Plain) else (Alloc n, Copy ptr n).
Definition resume (st : slab_t) (k : kont) (v : Z) : option (slab_t * pc * kont) :=
  match k with
  | Plain => None
  | Copy ptr n =>
      if v =? 0 then Some (st, Ret 0, Plain)
      else
        let head := ptr - sizeof_slabhead_t in
        let new_size := if n <? head_size (mem st) head then n else head_size (mem st) head in
        Some (set_mem st (mem_copy (mem st) v (head + sizeof_slabhead_t) new_size),
              Free (head + sizeof_slabhead_t), Keep v)
  | Keep v => Some (st, Ret v, Plain)
  end.

(** ** A thread that runs alone *)

Fixpoint alone (fuel : nat) (e : env) (st : slab_t) (lk : gset Z) (p : pc) : option (slab_t * gset Z * Z) :=
  match p, fuel with
  | Ret v, _ => Some (st, lk, v)
  | _, O => None
  | _, S fuel => match tstep e st lk p with Some (st, lk, p) => alone fuel e st lk p | None => None end
  end.

(** The longest way is through a new page. *)
Definition CALL_STEPS : nat := 9.

Lemma lock_unlock (lk : gset Z) id : id ∉ lk -> ({[id]} ∪ lk) ∖ {[id]} = lk.
Proof. set_solver. Qed.

Lemma alone_move fuel e st lk p : (forall v, p <> Ret v) ->
  alone (S fuel) e st lk p = match tstep e st lk p with Some (st, lk, p) => alone fuel e st lk p | None => None end.
Proof. by destruct p as [| | | | | | | | | | | | |v]; try done; intros Hp; destruct (Hp v). Qed.
Lemma alone_ret fuel e st lk v : alone fuel e st lk (Ret v) = Some (st, lk, v).
Proof. by destruct fuel. Qed.
#[local] Opaque alone.
Ltac turn := rewrite alone_move by done; cbn [tstep].

Lemma alone_fail fuel e st lk id v : id ∉ lk ->
  alone (S fuel) e st ({[id]} ∪ lk) (AllocUnlock id v) = Some (st, lk, v).
Proof. intros Hid. turn. by rewrite alone_ret, lock_unlock. Qed.
Lemma alone_take fuel e st lk id sz : id ∉ lk ->
  alone (S (S fuel)) e st ({[id]} ∪ lk) (AllocTake id sz) = Some ((take_chunk st id sz).1, lk, (take_chunk st id sz).2).
Proof. intros Hid. turn. destruct (take_chunk st id sz) as [st' v]. by apply alone_fail. Qed.

Lemma alloc_alone e st n :
  alone CALL_STEPS e st ∅ (Alloc n) = match _slab_alloc st e n with Some (st, v) => Some (st, ∅, v) | None => None end.
Proof.
  unfold CALL_STEPS. turn. unfold alloc_enter, _slab_alloc. destruct (0 <? power_largest st); [|done].
  set (sz := u64 _). set (id := slab_clsid _ _ _).
  destruct (id <? POWER_SMALLEST); [apply alone_ret|]. destruct (power_largest st <? id).
  { destruct (negb (env_malloc e =? 0)); apply alone_ret. }
  assert (Hid : id ∉ (∅ : gset Z)) by set_solver. turn. rewrite decide_False by done.
  turn. destruct (negb (end_page_ptr _ =? 0) || negb (sl_curr _ =? 0)).
  { rewrite alone_take by done. by destruct (take_chunk st id sz). }
  turn. unfold do_slabs_newslab. change (negb (mem_limit st =? 0) && _ && _) with (over_limit st (mem_malloced st) id).
  destruct (over_limit st (mem_malloced st) id); [by rewrite alone_fail|].
  turn. unfold new_page. destruct (grow_slab_list e _) as [p|]; [|by rewrite alone_fail].
  destruct (env_valloc e =? 0); [by rewrite alone_fail|].
  turn. turn. rewrite alone_take by done. unfold set_malloced. cbn [set_class slabclass mem_limit mem_malloced power_largest mem].
  by destruct (take_chunk _ id sz).
Qed.

Lemma free_alone e st ptr : alone CALL_STEPS e st ∅ (Free ptr) = Some (_slab_free st e ptr, ∅, 0).
Proof.
  unfold CALL_STEPS. turn. unfold free_enter, _slab_free. destruct (ptr =? 0); [apply alone_ret|].
  destruct (head_is_malloc (mem st) _); [apply alone_ret|]. set (id := u8 _). destruct (id <? POWER_SMALLEST); [apply alone_ret|].
  assert (Hid : id ∉ (∅ : gset Z)) by set_solver. turn. rewrite decide_False by done.
  turn. turn. by rewrite alone_ret, lock_unlock.
Qed.

(** [_slab_realloc]: two calls at most, with [e] and [e'] for what the system
    answers in each. *)
Definition realloc_run (e e' : env) (st : slab_t) (ptr n : Z) : option (slab_t * Z) :=
  let '(p, k) := realloc_enter ptr n in
  match alone CALL_STEPS e st ∅ p with
  | None => None
  | Some (st, lk, v) =>
      match resume st k v with
      | None => Some (st, v)
      | Some (st, p, k) =>
          match alone CALL_STEPS e' st lk p with
          | None => None
          | Some (st, lk, v) => match resume st k v with Some (st, Ret v, _) => Some (st, v) | _ => Some (st, v) end
          end
      end
  end.

(** The calls cut into steps are the calls of the allocator, when they run alone. *)
Theorem slab_calls_alone e e' st ptr n :
  alone CALL_STEPS e st ∅ (Alloc n) = match _slab_alloc st e n with Some (st, v) => Some (st, ∅, v) | None => None end /\
  alone CALL_STEPS e st ∅ (Free ptr) = Some (_slab_free st e ptr, ∅, 0) /\
  realloc_run e e' st ptr n = _slab_realloc st e e' ptr n.
Proof.
  split; [apply alloc_alone|]. split; [apply free_alone|]. unfold realloc_run, realloc_enter, _slab_realloc.
  destruct (n =? 0); [done|]. destruct (ptr =? 0).
  - rewrite alloc_alone. by destruct (_slab_alloc st e n) as [[st' v]|].
  - rewrite alloc_alone. destruct (_slab_alloc st e n) as [[st' v]|]; [|done]. cbn [resume].
    destruct (v =? 0); [done|]. by rewrite free_alone.
Qed.

End SlabThreads.
