(* ===== verification/SlabRaces.v ===== *)
(** Any number of threads in the allocator of [src/src/slab.c]: the spin locks of
    the classes keep every block to itself, but the counter [mem_malloced], which
    all classes share, loses pages. *)

From Stdlib Require Import ZArith Lia.
From stdpp Require Import base numbers list gmap relations.
From S2P Require Import Prelude Slab SlabThreads.

Module SlabRaces.
Import Slab SlabThreads.

(** ** Threads *)

(** A thread in a call: the block it was given and has not returned yet, and the
    block it was called to free and has not given back yet. *)
Record thread := Thread { at_ : pc; then_ : kont; got : option block; owed : option block }.

(** Blocks of the clients, and blocks that [_slab_free] dropped. *)
Record config := Config {
  alloc : slab_t;
  locked : gset Z;
  threads : list (option thread);
  live : list block;
  lost : list block
}.

Definition thread_blocks (o : option thread) : list block :=
  match o with Some t => option_list (got t) ++ option_list (owed t) | None => [] end.
Definition in_calls (ts : list (option thread)) : list block := concat (thread_blocks <$> ts).

(** What a step does to the blocks. *)
Definition moved (e : env) (st : slab_t) (t : thread) (p' : pc) : thread * list block :=
  match at_ t, p' with
  | Alloc n, Ret v =>
      (Thread p' (then_ t) (if v =? 0 then got t else Some (Block (v - sizeof_slabhead_t) 0 (n + sizeof_slabhead_t))) (owed t), [])
  | AllocTake id sz, AllocUnlock _ v =>
      (Thread p' (then_ t) (if v =? 0 then got t else Some (Block (v - sizeof_slabhead_t) id sz)) (owed t), [])
  | Free _, Ret _ => (Thread p' (then_ t) (got t) None, [])
  | FreePush _ _, _ =>
      (Thread p' (then_ t) (got t) None,
       match owed t with Some b => if dropped st e b then [b] else [] | None => [] end)
  | _, _ => (Thread p' (then_ t) (got t) (owed t), [])
  end.

(** What the system gives a thread overlaps nothing else, and 16 GB at most. *)
Definition PAGES : Z := 2 ^ 34 / POWER_BLOCK.
Definition env_fits (c : config) (t : thread) (e : env) : Prop :=
  let w := World (alloc c) (live c ++ in_calls (threads c)) (lost c) in
  (env_valloc e <> 0 -> fresh w (env_valloc e) POWER_BLOCK /\ total_slabs (slabclass (alloc c)) < PAGES) /\
  (env_malloc e <> 0 -> forall n, at_ t = Alloc n -> fresh w (env_malloc e) (n + sizeof_slabhead_t)).

(** The sizes that headers can hold. *)
Definition size_ok (n : Z) : Prop := 0 <= n /\ n + sizeof_slabhead_t < 2 ^ 32.

Inductive step : config -> config -> Prop :=
  | step_alloc st lk ts L X i n :
      ts !! i = Some None -> size_ok n ->
      step (Config st lk ts L X) (Config st lk (<[i := Some (Thread (Alloc n) Plain None None)]> ts) L X)
  | step_free st lk ts L X i b L' :
      ts !! i = Some None -> L ≡ₚ b :: L' ->
      step (Config st lk ts L X)
        (Config st lk (<[i := Some (Thread (Free (b_head b + sizeof_slabhead_t)) Plain None (Some b))]> ts) L' X)
  | step_realloc st lk ts L X i b L' n p k :
      ts !! i = Some None -> L ≡ₚ b :: L' -> size_ok n -> realloc_enter (b_head b + sizeof_slabhead_t) n = (p, k) ->
      step (Config st lk ts L X) (Config st lk (<[i := Some (Thread p k None (Some b))]> ts) L' X)
  | step_move st lk ts L X i t e st' lk' p' t' X' :
      ts !! i = Some (Some t) -> env_fits (Config st lk ts L X) t e ->
      tstep e st lk (at_ t) = Some (st', lk', p') -> moved e st t p' = (t', X') ->
      step (Config st lk ts L X) (Config st' lk' (<[i := Some t']> ts) L (X' ++ X))
  | step_resume st lk ts L X i t v st' p' k' :
      ts !! i = Some (Some t) -> at_ t = Ret v -> resume st (then_ t) v = Some (st', p', k') ->
      step (Config st lk ts L X) (Config st' lk (<[i := Some (Thread p' k' (got t) (owed t))]> ts) L X)
  | step_return st lk ts L X i t v :
      ts !! i = Some (Some t) -> at_ t = Ret v -> then_ t = Plain ->
      step (Config st lk ts L X) (Config st lk (<[i := None]> ts) (thread_blocks (Some t) ++ L) X)
  | step_write st lk ts L X m :
      (forall x, (forall b, b ∈ L -> ~ b_head b + sizeof_slabhead_t <= x < b_head b + b_size b) -> m x = mem st x) ->
      step (Config st lk ts L X) (Config (set_mem st m) lk ts L X).

Definition reachable (limit : Z) (k : nat) (c : config) : Prop :=
  exists st, production limit = Some st /\ rtc step (Config st ∅ (replicate k None) [] []) c.

(** ** The allocator with an exact counter *)

(** The counter plays no part in what the classes hold: with the counter right
    and the limit at what the system gives, the invariant of [Slab] holds. *)
Definition exact (st : slab_t) : slab_t :=
  Slab (slabclass st) (2 ^ 34) (POWER_BLOCK * total_slabs (slabclass st)) (power_largest st) (mem st).

Lemma exact_malloced st m : exact (set_malloced st m) = exact st.
Proof. done. Qed.
Lemma exact_mem st m : exact (set_mem st m) = set_mem (exact st) m.
Proof. done. Qed.

Lemma inv_perm st L L' X : L ≡ₚ L' -> inv st L X -> inv st L' X.
Proof.
  intros HL Hinv. apply (relabel_inv st L X); try done.
  - intros id _. by rewrite (count_class_perm _ _ _ HL).
  - rewrite <- HL. apply Hinv.
  - apply Hinv.
  - rewrite <- (all_cells_perm _ _ _ _ _ HL (reflexivity X)). apply Hinv.
Qed.

(** [set_class] keeps the pages of every class, or adds one to [id]. *)
Lemma exact_set_class st id p :
  table_ok (slabclass st) (power_largest st) -> 1 <= id <= power_largest st ->
  slab_list p = slab_list (class_at (slabclass st) id) -> exact (set_class st id p) = set_class (exact st) id p.
Proof.
  intros Ht Hid Hp. unfold exact, set_class. cbn [slabclass mem_limit mem_malloced power_largest mem]. do 2 f_equal.
  exact (proj1 (sums_same_pages st (power_largest st) id p Ht Hid Hp)).
Qed.

Lemma exact_take_chunk st id sz : table_ok (slabclass st) (power_largest st) -> 1 <= id <= power_largest st ->
  take_chunk (exact st) id sz = (exact (take_chunk st id sz).1, (take_chunk st id sz).2).
Proof.
  intros Ht Hid. unfold take_chunk. change (slabclass (exact st)) with (slabclass st).
  destruct (slots (class_at (slabclass st) id)) as [|h sl] eqn:Hsl.
  - destruct (negb (end_page_ptr _ =? 0)); [|done]. cbn [fst snd]. by rewrite exact_mem, exact_set_class.
  - cbn [fst snd]. by rewrite exact_mem, exact_set_class.
Qed.

Lemma exact_push e st id head : table_ok (slabclass st) (power_largest st) -> 1 <= id <= power_largest st ->
  push_slot e (exact st) id head = exact (push_slot e st id head).
Proof.
  intros Ht Hid. unfold push_slot. change (slabclass (exact st)) with (slabclass st).
  destruct (sl_curr _ =? sl_total _); [destruct (env_realloc e)|]; try done; by rewrite exact_set_class.
Qed.

(** ** Pages *)

Definition bare (p : slabclass_t) : Prop := slots p = [] /\ end_page_ptr p = 0.
Definition stocked (p : slabclass_t) : Prop := slots p <> [] \/ end_page_ptr p <> 0.

Lemma new_page_exact e st L X id :
  inv (exact st) L X -> 1 <= id <= power_largest st -> env_valloc e <> 0 -> total_slabs (slabclass st) < PAGES ->
  (exact (new_page e st id).1, (new_page e st id).2) = do_slabs_newslab (exact st) e id.
Proof.
  intros Hinv Hid Hv Htot. unfold new_page, do_slabs_newslab. change (slabclass (exact st)) with (slabclass st).
  assert (Hg : negb (mem_limit (exact st) =? 0) && (mem_limit (exact st) <? u64 (mem_malloced (exact st) + POWER_BLOCK)) &&
    (0 <? slabs (class_at (slabclass st) id)) = false).
  { pose proof (pages_bound _ _ _ id Hinv Hid) as [H0 H1]. cbn [exact mem_limit mem_malloced slabclass] in *.
    change PAGES with 4096 in Htot. unfold POWER_BLOCK in *. rewrite u64_small by (unfold in_range; lia).
    apply andb_false_iff. left. apply andb_false_iff. right. apply Z.ltb_ge. lia. }
  rewrite Hg. destruct (grow_slab_list e (class_at (slabclass st) id)) as [p|] eqn:Eg; [|done].
  destruct (grow_slab_list_spec (exact st) L X id e p Hinv Hid Eg) as (_ & n & ->).
  rewrite (proj2 (Z.eqb_neq _ _)) by done. cbn [fst snd].
  set (q := Slabclass _ _ _ _ _ _ _ _).
  destruct (paged_sums (exact st) L X id q (env_valloc e) Hinv Hid eq_refl Hg) as [E _]. f_equal.
  unfold exact at 1. cbn [set_class slabclass mem_limit power_largest mem exact] in *. f_equal. symmetry. exact E.
Qed.

Lemma new_page_inv e st L X id st' ok :
  inv (exact st) L X -> 1 <= id <= power_largest st -> bare (class_at (slabclass st) id) ->
  (env_valloc e <> 0 -> fresh (World (exact st) L X) (env_valloc e) POWER_BLOCK /\ total_slabs (slabclass st) < PAGES) ->
  new_page e st id = (st', ok) ->
  inv (exact st') L X /\ extends st st' /\ (ok = true -> stocked (class_at (slabclass st') id)).
Proof.
  intros Hinv Hid [Hs He] Hv E. destruct (decide (env_valloc e = 0)) as [Hz|Hz].
  - unfold new_page in E. destruct (grow_slab_list e (class_at (slabclass st) id)) as [p|] eqn:Eg.
    2: { injection E as <- <-. done. }
    destruct (grow_slab_list_spec (exact st) L X id e p Hinv Hid Eg) as (Hr & n & Ep). rewrite Hz in E. cbn in E.
    injection E as <- <-. rewrite exact_set_class; [|apply (i_table _ _ _ Hinv)|done|by rewrite Ep].
    split; [rewrite Ep in *; by apply resized_list_inv|]. split; [|done]. split; [|done|done].
    apply set_class_le; [lia|exact (in_range_id _ _ _ _ Hinv Hid)|]. rewrite Ep. by split.
  - destruct (Hv Hz) as [Hf Ht]. pose proof (new_page_exact e st L X id Hinv Hid Hz Ht) as Ex. rewrite E in Ex. symmetry in Ex.
    destruct (do_slabs_newslab_inv (exact st) L X id e (exact st') ok Hinv Hid Hs He ltac:(done) Ex) as (Hi & [H1 H2 H3] & Hend).
    split; [done|]. split; [by split|]. intros Hok. right. by apply Hend.
Qed.

Lemma new_page_other e st id id' : 0 <= id -> 0 <= id' -> id' <> id -> (Z.to_nat id < length (slabclass st))%nat ->
  class_at (slabclass (new_page e st id).1) id' = class_at (slabclass st) id'.
Proof.
  intros H0 H1 Hne Hl. unfold new_page. destruct (grow_slab_list e _); [|done].
  destruct (env_valloc e =? 0); cbn [fst]; rewrite class_at_set, decide_False by (done || lia); done.
Qed.
Lemma take_chunk_other st id sz id' : 0 <= id -> 0 <= id' -> id' <> id -> (Z.to_nat id < length (slabclass st))%nat ->
  class_at (slabclass (take_chunk st id sz).1) id' = class_at (slabclass st) id'.
Proof.
  intros H0 H1 Hne Hl. unfold take_chunk. destruct (slots _).
  - destruct (negb _); [|done]. cbn [fst set_mem]. change (slabclass (set_mem ?s _)) with (slabclass s).
    by rewrite class_at_set, decide_False by (done || lia).
  - cbn [fst]. change (slabclass (set_mem ?s _)) with (slabclass s). by rewrite class_at_set, decide_False by (done || lia).
Qed.
Lemma push_slot_other e st id head id' : 0 <= id -> 0 <= id' -> id' <> id -> (Z.to_nat id < length (slabclass st))%nat ->
  class_at (slabclass (push_slot e st id head)) id' = class_at (slabclass st) id'.
Proof.
  intros H0 H1 Hne Hl. unfold push_slot. destruct (_ =? _); [destruct (env_realloc e)|]; try done;
    by rewrite class_at_set, decide_False by (done || lia).
Qed.

Lemma take_chunk_le st id sz : 0 <= id -> (Z.to_nat id < length (slabclass st))%nat ->
  tab_le (slabclass st) (slabclass (take_chunk st id sz).1) /\ power_largest (take_chunk st id sz).1 = power_largest st.
Proof.
  intros H0 Hl. unfold take_chunk. destruct (slots _).
  - destruct (negb _); [|done]. split; [|done]. by apply set_class_le.
  - split; [|done]. by apply set_class_le.
Qed.
Lemma push_slot_le e st id head : 0 <= id -> (Z.to_nat id < length (slabclass st))%nat ->
  tab_le (slabclass st) (slabclass (push_slot e st id head)) /\ power_largest (push_slot e st id head) = power_largest st.
Proof.
  intros H0 Hl. unfold push_slot. destruct (_ =? _); [destruct (env_realloc e)|]; try done; split; try done; by apply set_class_le.
Qed.

(** A block in use finds its class again, and [_slab_free] is its two parts. *)
Lemma free_enter_block st L X b : inv (exact st) L X -> b ∈ L ->
  free_enter st (b_head b + sizeof_slabhead_t) = if b_class b =? 0 then Ret 0 else FreeLock (b_class b) (b_head b).
Proof.
  intros Hinv Hb. pose proof (proj1 (Forall_forall _ _) (i_blocks _ _ _ Hinv) b Hb) as [Hh Hm Hs _ Hc].
  cbn [exact mem slabclass power_largest] in Hm, Hs, Hc. unfold free_enter, sizeof_slabhead_t.
  rewrite (proj2 (Z.eqb_neq _ 0)) by lia. replace (b_head b + 8 - 8) with (b_head b) by lia. rewrite Hm, Hs.
  destruct (Z.eqb_spec (b_class b) 0) as [|Hne]; [done|]. destruct Hc as [|(Hid & Hcls & _)]; [done|].
  pose proof (table_pl _ _ (i_table _ _ _ Hinv)) as Hpl. cbn in Hpl. unfold POWER_LARGEST, POWER_SMALLEST in *.
  rewrite <- Hcls, u8_small by (unfold in_range; lia). by rewrite (proj2 (Z.ltb_ge _ 1)) by lia.
Qed.
Lemma slab_free_split e st ptr :
  _slab_free st e ptr = match free_enter st ptr with FreeLock id head => push_slot e st id head | _ => st end.
Proof.
  unfold _slab_free, free_enter. destruct (ptr =? 0); [done|]. destruct (head_is_malloc _ _); [done|].
  by destruct (_ <? POWER_SMALLEST).
Qed.

Lemma push_slot_inv e st L X b L' : inv (exact st) L X -> L ≡ₚ b :: L' -> b_class b <> 0 ->
  inv (exact (push_slot e st (b_class b) (b_head b))) L' ((if dropped st e b then [b] else []) ++ X).
Proof.
  intros Hinv HL Hne. assert (Hb : b ∈ L) by (rewrite HL; apply list_elem_of_here).
  pose proof (proj1 (Forall_forall _ _) (i_blocks _ _ _ Hinv) b Hb) as Hbok.
  destruct (bo_class _ _ Hbok) as [|(Hid & _)]; [done|].
  pose proof (slab_free_inv (exact st) L X e b L' Hinv HL) as Hi.
  rewrite slab_free_split in Hi. change (free_enter (exact st)) with (free_enter st) in Hi.
  rewrite (free_enter_block st L X b Hinv Hb), (proj2 (Z.eqb_neq _ _)) in Hi by done.
  rewrite exact_push in Hi; [|apply (i_table _ _ _ Hinv)|done].
  change (dropped (exact st) e b) with (dropped st e b) in Hi. by destruct (dropped st e b).
Qed.

(** ** What a thread relies on *)

Definition holds (p : pc) : option Z :=
  match p with
  | AllocLook id _ | AllocTest id _ | AllocPage id _ | AllocRead id _ | AllocCount id _ _ | AllocTake id _
  | AllocUnlock id _ | FreePush id _ | FreeUnlock id => Some id
  | _ => None
  end.

Definition for_size (st : slab_t) (id sz : Z) : Prop :=
  1 <= id <= power_largest st /\ id = slab_clsid (slabclass st) (power_largest st) sz /\ 8 <= sz < 2 ^ 32.
(** [v] is the pointer to the block the thread got. *)
Definition given (t : thread) (v : Z) : Prop :=
  match got t with Some b => v = b_head b + sizeof_slabhead_t /\ v <> 0 | None => v = 0 end.
Definition owes (t : thread) (ptr : Z) : Prop := exists b, owed t = Some b /\ ptr = b_head b + sizeof_slabhead_t.

(** What is left of the call after [_slab_alloc] for [sz] bytes, and after [_slab_free]. *)
Definition after_alloc (t : thread) (sz : Z) : Prop :=
  match then_ t with Plain => True | Copy ptr n => sz = n + sizeof_slabhead_t /\ owes t ptr | Keep _ => False end.
Definition after_free (t : thread) : Prop :=
  match then_ t with Plain => got t = None | Keep v => given t v | Copy _ _ => False end.

Definition pc_ok (st : slab_t) (t : thread) : Prop :=
  let p id := class_at (slabclass st) id in
  match at_ t with
  | Alloc n => size_ok n /\ got t = None /\ after_alloc t (n + sizeof_slabhead_t)
  | AllocLock id sz | AllocLook id sz => for_size st id sz /\ got t = None /\ after_alloc t sz
  | AllocTest id sz | AllocPage id sz => for_size st id sz /\ bare (p id) /\ got t = None /\ after_alloc t sz
  | AllocRead id sz | AllocCount id sz _ | AllocTake id sz =>
      for_size st id sz /\ stocked (p id) /\ got t = None /\ after_alloc t sz
  | AllocUnlock id v => 1 <= id <= power_largest st /\ given t v /\
      exists sz, after_alloc t sz /\ forall b, got t = Some b -> b_size b = sz
  | Ret v => (given t v /\ exists sz, after_alloc t sz /\ forall b, got t = Some b -> b_size b = sz) \/
      (owed t = None /\ after_free t /\ v = 0)
  | Free ptr => owes t ptr /\ after_free t
  | FreeLock id head | FreePush id head =>
      1 <= id <= power_largest st /\ (exists b, owed t = Some b /\ head = b_head b /\ id = b_class b) /\ after_free t
  | FreeUnlock id => 1 <= id <= power_largest st /\ owed t = None /\ after_free t
  end.

Lemma for_size_le st st' id sz :
  tab_le (slabclass st) (slabclass st') -> power_largest st' = power_largest st -> for_size st id sz -> for_size st' id sz.
Proof.
  intros Ht Hpl (H1 & H2 & H3). split; [by rewrite Hpl|]. split; [|done].
  by rewrite Hpl, (clsid_same_sizes _ _ _ _ (tab_le_sizes _ _ Ht)).
Qed.

(** Steps of others leave it as it is. *)
Lemma pc_ok_other st st' t :
  tab_le (slabclass st) (slabclass st') -> power_largest st' = power_largest st ->
  (forall id, 1 <= id -> holds (at_ t) = Some id -> class_at (slabclass st') id = class_at (slabclass st) id) ->
  pc_ok st t -> pc_ok st' t.
Proof.
  intros Ht Hpl Hcls. unfold pc_ok. destruct (at_ t); cbn [holds] in Hcls; rewrite ?Hpl; try done.
  1,2: intros (H1 & H2); split; [by apply (for_size_le st)|done].
  all: intros (H1 & H2 & H3); split; [by apply (for_size_le st)|]; rewrite Hcls; try done; apply H1.
Qed.

Definition lock_step (lk lk' : gset Z) (h h' : option Z) : Prop :=
  (lk' = lk /\ h' = h) \/
  (exists id, h = None /\ h' = Some id /\ (id ∉ lk) /\ lk' = {[id]} ∪ lk) \/
  (exists id, h = Some id /\ h' = None /\ lk' = lk ∖ {[id]}).

(** What one step of a call does to the rest. *)
Record effect (st st' : slab_t) (lk lk' : gset Z) (p p' : pc) : Prop := {
  ef_tab : tab_le (slabclass st) (slabclass st');
  ef_pl : power_largest st' = power_largest st;
  ef_other : forall id, 1 <= id -> holds p <> Some id -> class_at (slabclass st') id = class_at (slabclass st) id;
  ef_lock : lock_step lk lk' (holds p) (holds p')
}.
Lemma effect_same st lk p p' : holds p' = holds p -> effect st st lk lk p p'.
Proof. split; try done. by left. Qed.

(** ** One step of a call *)

Definition blocks (t : thread) : list block := thread_blocks (Some t).

Definition env_for (st : slab_t) (L X : list block) (p : pc) (e : env) : Prop :=
  (env_valloc e <> 0 -> fresh (World (exact st) L X) (env_valloc e) POWER_BLOCK /\ total_slabs (slabclass st) < PAGES) /\
  (env_malloc e <> 0 -> forall n, p = Alloc n -> fresh (World (exact st) L X) (env_malloc e) (n + sizeof_slabhead_t)).

Definition move_ok (e : env) (st : slab_t) (lk : gset Z) (t : thread) (R X : list block) (st' : slab_t) (lk' : gset Z) (p' : pc) : Prop :=
  let '(t', X') := moved e st t p' in
  inv (exact st') (blocks t' ++ R) (X' ++ X) /\ pc_ok st' t' /\ effect st st' lk lk' (at_ t) p'.

Lemma move_enter e st lk k g o R X st' lk' p' n : let t := Thread (Alloc n) k g o in
  inv (exact st) (blocks t ++ R) X -> pc_ok st t -> env_for st (blocks t ++ R) X (Alloc n) e ->
  tstep e st lk (Alloc n) = Some (st', lk', p') -> move_ok e st lk t R X st' lk' p'.
Proof.
  intros t Hinv Hok [_ Hm] Hst. destruct Hok as ([H0 H1] & Hg & Ha). cbn in Hg. subst g.
  cbn [tstep] in Hst. unfold alloc_enter in Hst. destruct (0 <? power_largest st); [|done].
  unfold sizeof_slabhead_t in *. rewrite u64_small in Hst by (unfold in_range; lia).
  pose proof (i_table _ _ _ Hinv) as Ht. cbn in Ht. pose proof (table_pl _ _ Ht) as Hpl. unfold POWER_SMALLEST in Hst.
  set (id := slab_clsid (slabclass st) (power_largest st) (n + 8)) in *.
  destruct (Z.ltb_spec id 1) as [Hlt|Hge].
  { injection Hst as <- <- <-. cbn. split; [exact Hinv|]. split; [|by apply effect_same]. left. split; [done|]. by exists (n + 8). }
  destruct (Z.ltb_spec (power_largest st) id) as [Hgt|Hle].
  - destruct (Z.eqb_spec (env_malloc e) 0) as [|Hne]; cbn [negb] in Hst; injection Hst as <- <- <-.
    { cbn. split; [exact Hinv|]. split; [|by apply effect_same]. left. split; [done|]. by exists (n + 8). }
    pose proof (Hm Hne n eq_refl) as Hf. pose proof Hf as [Hpos _]. unfold move_ok, moved. cbn [at_ then_ got owed t].
    unfold sizeof_slabhead_t. rewrite (proj2 (Z.eqb_neq _ _)) by lia. replace (env_malloc e + 8 - 8) with (env_malloc e) by lia.
    split; [|split].
    + rewrite exact_mem. apply (malloc_inv (exact st) (option_list o ++ R)); [exact Hinv|exact Hf|lia].
    + left. split; [split; [done|unfold sizeof_slabhead_t; cbn; lia]|]. exists (n + 8). split; [exact Ha|]. by intros b [= <-].
    + split; try done. by left.
  - injection Hst as <- <- <-. cbn. split; [exact Hinv|]. split; [|by apply effect_same].
    split; [|done]. split; [done|]. split; [done|lia].
Qed.

Lemma move_page e st lk k g o R X st' lk' p' id sz : let t := Thread (AllocPage id sz) k g o in
  inv (exact st) (blocks t ++ R) X -> pc_ok st t -> env_for st (blocks t ++ R) X (AllocPage id sz) e ->
  tstep e st lk (AllocPage id sz) = Some (st', lk', p') -> move_ok e st lk t R X st' lk' p'.
Proof.
  intros t Hinv (Hsz & Hbare & Hg & Ha) [Hv _] Hst. cbn in Hg, Hbare. subst g. cbn [tstep] in Hst.
  destruct (new_page e st id) as [st1 ok] eqn:En. injection Hst as <- <- <-. pose proof Hsz as (Hid & _).
  destruct (new_page_inv e st _ X id st1 ok Hinv Hid Hbare Hv En) as (Hi & [Htab Hpl _] & Hst).
  pose proof (in_range_id _ _ _ _ Hinv Hid) as Hlen. cbn in Hlen.
  assert (Hef : forall p', holds p' = Some id -> effect st st1 lk lk (AllocPage id sz) p').
  { intros p' Hh. split; [done|done| |by left]. intros id' H1 Hne. replace st1 with (new_page e st id).1 by (by rewrite En).
    apply new_page_other; [lia|lia| |done]. intros ->. by apply Hne. }
  destruct ok; cbn.
  - split; [exact Hi|]. split; [|by apply Hef]. split; [by apply (for_size_le st)|]. split; [by apply Hst|done].
  - split; [exact Hi|]. split; [|by apply Hef]. split; [by rewrite Hpl|]. split; [done|]. by exists sz.
Qed.

Lemma move_take e st lk k g o R X st' lk' p' id sz : let t := Thread (AllocTake id sz) k g o in
  inv (exact st) (blocks t ++ R) X -> pc_ok st t ->
  tstep e st lk (AllocTake id sz) = Some (st', lk', p') -> move_ok e st lk t R X st' lk' p'.
Proof.
  intros t Hinv (Hsz & Hstock & Hg & Ha) Hst. cbn in Hg, Hstock. subst g. cbn [tstep] in Hst.
  destruct (take_chunk st id sz) as [st1 v] eqn:En. injection Hst as <- <- <-. pose proof Hsz as (Hid & Hcls & Hr).
  pose proof (in_range_id _ _ _ _ Hinv Hid) as Hlen. cbn in Hlen.
  pose proof (exact_take_chunk st id sz (i_table _ _ _ Hinv) Hid) as Ex. rewrite En in Ex. cbn [fst snd] in Ex.
  destruct (take_chunk_inv (exact st) _ X id sz (exact st1) v Hinv Hid Hcls Hr Hstock Ex) as [Hv Hi].
  destruct (take_chunk_le st id sz ltac:(lia) Hlen) as [Htab Hpl]. rewrite En in Htab, Hpl. cbn [fst] in Htab, Hpl.
  unfold move_ok, moved. cbn [at_ then_ got owed t]. rewrite (proj2 (Z.eqb_neq v 0)) by done.
  split; [exact Hi|]. split.
  - split; [by rewrite Hpl|]. split; [split; [cbn; lia|done]|]. exists sz. split; [exact Ha|]. by intros b [= <-].
  - split; [done|done| |by left]. intros id' H1 Hne. replace st1 with (take_chunk st id sz).1 by (by rewrite En).
    apply take_chunk_other; [lia|lia| |done]. intros ->. by apply Hne.
Qed.

Lemma move_free e st lk k g o R X st' lk' p' ptr : let t := Thread (Free ptr) k g o in
  inv (exact st) (blocks t ++ R) X -> pc_ok st t ->
  tstep e st lk (Free ptr) = Some (st', lk', p') -> move_ok e st lk t R X st' lk' p'.
Proof.
  intros t Hinv ((b & Ho & ->) & Haf) Hst. cbn in Ho. subst o. cbn [tstep] in Hst. injection Hst as <- <- <-.
  assert (Hb : b ∈ blocks t ++ R) by (apply elem_of_app; left; apply elem_of_app; right; apply list_elem_of_here).
  rewrite (free_enter_block st _ X b Hinv Hb). destruct (Z.eqb_spec (b_class b) 0) as [Hz|Hz]; cbn.
  - split; [|split; [by right|by apply effect_same]].
    pose proof (slab_free_inv (exact st) _ X (Env true 0 0) b (option_list g ++ R) Hinv) as Hi.
    rewrite slab_free_split in Hi. change (free_enter (exact st)) with (free_enter st) in Hi.
    rewrite (free_enter_block st _ X b Hinv Hb), Hz in Hi. unfold dropped in Hi. rewrite Hz in Hi. cbn in Hi.
    unfold blocks, thread_blocks. cbn [got owed option_list]. rewrite app_nil_r. apply Hi.
    unfold blocks, thread_blocks, t. cbn [got owed option_list]. solve_Permutation.
  - split; [exact Hinv|]. split; [|by apply effect_same].
    pose proof (proj1 (Forall_forall _ _) (i_blocks _ _ _ Hinv) b Hb) as Hbok.
    destruct (bo_class _ _ Hbok) as [|(Hid & _)]; [done|]. split; [exact Hid|]. split; [by exists b|exact Haf].
Qed.

Lemma move_push e st lk k g o R X st' lk' p' id head : let t := Thread (FreePush id head) k g o in
  inv (exact st) (blocks t ++ R) X -> pc_ok st t ->
  tstep e st lk (FreePush id head) = Some (st', lk', p') -> move_ok e st lk t R X st' lk' p'.
Proof.
  intros t Hinv (Hid & (b & Ho & -> & ->) & Haf) Hst. cbn in Ho. subst o. cbn [tstep] in Hst. injection Hst as <- <- <-.
  pose proof (in_range_id _ _ _ _ Hinv Hid) as Hlen. cbn in Hlen.
  destruct (push_slot_le e st (b_class b) (b_head b) ltac:(lia) Hlen) as [Htab Hpl].
  unfold move_ok, moved. cbn [at_ then_ got owed t]. split; [|split].
  - apply (push_slot_inv e st (blocks t ++ R)); [done| |lia].
    unfold blocks, thread_blocks, t. cbn [got owed option_list]. rewrite app_nil_r. solve_Permutation.
  - split; [by rewrite Hpl|]. by split.
  - split; [done|done| |by left]. intros id' H1 Hne. apply push_slot_other; [lia|lia| |done]. intros ->. by apply Hne.
Qed.

Lemma lock_taken (lk : gset Z) id : id ∉ lk -> lock_step lk ({[id]} ∪ lk) None (Some id).
Proof. intros H. right. left. by exists id. Qed.
Lemma lock_given (lk : gset Z) id : lock_step lk (lk ∖ {[id]}) (Some id) None.
Proof. right. right. by exists id. Qed.

Lemma move_spec e st lk t R X st' lk' p' :
  inv (exact st) (blocks t ++ R) X -> pc_ok st t -> env_for st (blocks t ++ R) X (at_ t) e ->
  tstep e st lk (at_ t) = Some (st', lk', p') -> move_ok e st lk t R X st' lk' p'.
Proof.
  intros Hinv Hok He Hst. destruct t as [p k g o]. cbn [at_] in Hst, He.
  destruct p as [n|id sz|id sz|id sz|id sz|id sz|id sz m|id sz|id v|ptr|id head|id head|id|v].
  1: by apply (move_enter e st lk k g o R X st' lk' p' n).
  4: by apply (move_page e st lk k g o R X st' lk' p' id sz).
  6: by apply (move_take e st lk k g o R X st' lk' p' id sz).
  7: by apply (move_free e st lk k g o R X st' lk' p' ptr).
  8: by apply (move_push e st lk k g o R X st' lk' p' id head).
  all: cbn [tstep] in Hst; unfold move_ok.
  - case_decide; [done|]. injection Hst as <- <- <-. split; [exact Hinv|]. split; [exact Hok|]. split; try done. by apply lock_taken.
  - injection Hst as <- <- <-. destruct Hok as (Hsz & Hg & Ha).
    destruct (negb (end_page_ptr _ =? 0) || negb (sl_curr _ =? 0)) eqn:E; (split; [exact Hinv|split; [|by apply effect_same]]);
      (split; [done|split; [|done]]); unfold sl_curr in E.
    + apply orb_true_iff in E as [E|E]; apply negb_true_iff, Z.eqb_neq in E; [by right|left]. intros En. by rewrite En in E.
    + apply orb_false_iff in E as [E1 E2]. apply negb_false_iff, Z.eqb_eq in E1, E2. split; [|done]. by destruct (slots _).
  - injection Hst as <- <- <-. destruct Hok as (Hsz & Hb & Hg & Ha).
    destruct (over_limit _ _ _); (split; [exact Hinv|split; [|by apply effect_same]]); [|done].
    split; [apply Hsz|]. unfold given. cbn in *. rewrite Hg. split; [done|]. by exists sz.
  - injection Hst as <- <- <-. split; [exact Hinv|]. split; [exact Hok|by apply effect_same].
  - injection Hst as <- <- <-. split; [exact Hinv|]. split; [exact Hok|]. split; try done. by left.
  - injection Hst as <- <- <-. destruct Hok as (Hid & Hv & Ha). split; [exact Hinv|]. split; [by left|]. split; try done. apply lock_given.
  - case_decide; [done|]. injection Hst as <- <- <-. split; [exact Hinv|]. split; [exact Hok|]. split; try done. by apply lock_taken.
  - injection Hst as <- <- <-. destruct Hok as (Hid & Ho & Haf). split; [exact Hinv|]. split; [by right|]. split; try done. apply lock_given.
  - done.
Qed.

(** ** All threads *)

Definition oholds (o : option thread) : option Z := match o with Some t => holds (at_ t) | None => None end.

Record cinv (c : config) : Prop := {
  cv_inv : inv (exact (alloc c)) (live c ++ in_calls (threads c)) (lost c);
  cv_pc : forall i t, threads c !! i = Some (Some t) -> pc_ok (alloc c) t;
  cv_locked : forall id, id ∈ locked c <-> exists i o, threads c !! i = Some o /\ oholds o = Some id;
  cv_excl : forall i j o u id, threads c !! i = Some o -> threads c !! j = Some u ->
    oholds o = Some id -> oholds u = Some id -> i = j
}.

Lemma in_calls_insert ts i o o' : ts !! i = Some o ->
  in_calls (<[i := o']> ts) ≡ₚ thread_blocks o' ++ in_calls (delete i ts).
Proof. intros Hi. apply (concat_insert thread_blocks _ _ o), Hi. Qed.
Lemma in_calls_split ts i o : ts !! i = Some o -> in_calls ts ≡ₚ thread_blocks o ++ in_calls (delete i ts).
Proof. intros Hi. rewrite <- (list_insert_id ts i o Hi) at 1. by apply in_calls_insert with o. Qed.

Lemma inserted {A} (l : list A) i x j y : <[i := x]> l !! j = Some y -> (j = i /\ y = x) \/ (j <> i /\ l !! j = Some y).
Proof. intros [(-> & <- & _)|[Hne H]]%list_lookup_insert_Some; [by left|right; by split]. Qed.

(** One thread changes, by a step that touches at most the class it holds. *)
Lemma cinv_thread st st' lk lk' ts L L' X X' i o o' :
  cinv (Config st lk ts L X) -> ts !! i = Some o ->
  inv (exact st') (L' ++ in_calls (<[i := o']> ts)) X' ->
  (forall t, o' = Some t -> pc_ok st' t) ->
  tab_le (slabclass st) (slabclass st') -> power_largest st' = power_largest st ->
  (forall id, 1 <= id -> oholds o <> Some id -> class_at (slabclass st') id = class_at (slabclass st) id) ->
  lock_step lk lk' (oholds o) (oholds o') ->
  cinv (Config st' lk' (<[i := o']> ts) L' X').
Proof.
  intros [_ Hpc Hlk Hex] Hi Hinv Hok Htab Hpl Hcls Hlock. cbn [alloc locked threads live lost] in *.
  assert (Hle : (i < length ts)%nat) by (by eapply lookup_lt_Some).
  split; cbn [alloc locked threads live lost]; [done| | |].
  - intros j t [[-> E]|[Hne Hj]]%inserted; [by apply Hok|].
    apply (pc_ok_other st); try done; [|by apply (Hpc j)].
    intros id H1 Hh. apply Hcls; [done|]. intros Ho. apply Hne. by apply (Hex j i (Some t) o id).
  - intros id. destruct Hlock as [(-> & Eh)|[(a & Eo & Eo' & Ha & ->)|(a & Eo & Eo' & ->)]].
    + rewrite Hlk. split; intros (j & u & Hj & Hu).
      * destruct (decide (j = i)) as [->|Hne]; [|exists j, u; by rewrite list_lookup_insert_ne].
        exists i, o'. rewrite list_lookup_insert_eq by done. split; [done|congruence].
      * apply inserted in Hj as [[-> ->]|[Hne Hj]]; [exists i, o; split; [done|congruence]|by exists j, u].
    + rewrite elem_of_union, elem_of_singleton, Hlk. split.
      * intros [->|(j & u & Hj & Hu)]; [exists i, o'; by rewrite list_lookup_insert_eq|].
        exists j, u. rewrite list_lookup_insert_ne; [done|]. intros <-. congruence.
      * intros (j & u & [[-> ->]|[Hne Hj]]%inserted & Hu); [left; congruence|right; by exists j, u].
    + rewrite elem_of_difference, elem_of_singleton, Hlk. split.
      * intros [(j & u & Hj & Hu) Hne]. exists j, u. rewrite list_lookup_insert_ne; [done|]. intros <-. congruence.
      * intros (j & u & [[-> ->]|[Hne Hj]]%inserted & Hu); [congruence|]. split; [by exists j, u|].
        intros ->. apply Hne. by apply (Hex j i u o a).
  - assert (Hnew : forall id j u, j <> i -> ts !! j = Some u -> oholds o' = Some id -> oholds u = Some id -> False).
    { intros id j u Hne Hj Ho' Hu. destruct Hlock as [(_ & Eh)|[(a & Eo & Eo' & Ha & _)|(a & Eo & Eo' & _)]].
      - apply Hne. apply (Hex j i u o id); try done. congruence.
      - apply Ha. rewrite Hlk. exists j, u. split; [done|congruence].
      - congruence. }
    intros j l u u' id [[-> ->]|[Hnj Hj]]%inserted [[-> ->]|[Hnl Hl]]%inserted Hu Hu'; try done.
    + by destruct (Hnew id l u').
    + by destruct (Hnew id j u).
    + by apply (Hex j l u u' id).
Qed.

(** A step outside of the locks that leaves the classes alone. *)
Lemma cinv_outside st st' lk ts L L' X i o o' :
  cinv (Config st lk ts L X) -> ts !! i = Some o -> oholds o = None -> oholds o' = None ->
  slabclass st' = slabclass st -> power_largest st' = power_largest st ->
  inv (exact st') (L' ++ in_calls (<[i := o']> ts)) X -> (forall t, o' = Some t -> pc_ok st' t) ->
  cinv (Config st' lk (<[i := o']> ts) L' X).
Proof.
  intros Hc Hi Ho Ho' Ht Hpl Hinv Hok.
  apply (cinv_thread st st' lk lk ts L L' X X i o o' Hc Hi Hinv Hok); try done.
  - by rewrite Ht.
  - intros id _ _. by rewrite Ht.
  - left. split; [done|congruence].
Qed.
Lemma cinv_blocks st ts L L' X lk i o o' : cinv (Config st lk ts L X) -> ts !! i = Some o ->
  thread_blocks o ++ L ≡ₚ thread_blocks o' ++ L' -> inv (exact st) (L' ++ in_calls (<[i := o']> ts)) X.
Proof.
  intros Hc Hi HL. apply (inv_perm _ (L ++ in_calls ts)); [|apply Hc].
  rewrite (in_calls_split ts i o Hi), (in_calls_insert ts i o o' Hi), !(Permutation_app_comm L), !(Permutation_app_comm L').
  rewrite <- !app_assoc, (Permutation_app_comm _ L), (Permutation_app_comm _ L'), !app_assoc. by rewrite HL.
Qed.

Lemma env_fits_for st lk ts L X t i e :
  ts !! i = Some (Some t) -> env_fits (Config st lk ts L X) t e ->
  env_for st (blocks t ++ L ++ in_calls (delete i ts)) X (at_ t) e.
Proof.
  intros Hi [Hv Hm]. cbn [alloc live threads lost] in Hv, Hm.
  assert (HL : L ++ in_calls ts ≡ₚ blocks t ++ L ++ in_calls (delete i ts)).
  { rewrite (in_calls_split ts i _ Hi). unfold blocks. solve_Permutation. }
  assert (Hf : forall a n, fresh (World st (L ++ in_calls ts) X) a n ->
    fresh (World (exact st) (blocks t ++ L ++ in_calls (delete i ts)) X) a n).
  { intros a n [H0 H1]. split; [done|]. cbn [w_st w_live w_lost exact slabclass] in *.
    by rewrite <- (all_cells_perm _ _ _ _ _ HL (reflexivity X)). }
  split; [intros Hz; destruct (Hv Hz); split; [by apply Hf|done]|]. intros Hz n En. by apply Hf, Hm.
Qed.

Lemma moved_at e st t p' : at_ (moved e st t p').1 = p'.
Proof. unfold moved. by destruct (at_ t), p'. Qed.

Lemma cinv_move st lk ts L X i t e st' lk' p' t' X' :
  cinv (Config st lk ts L X) -> ts !! i = Some (Some t) -> env_fits (Config st lk ts L X) t e ->
  tstep e st lk (at_ t) = Some (st', lk', p') -> moved e st t p' = (t', X') ->
  cinv (Config st' lk' (<[i := Some t']> ts) L (X' ++ X)).
Proof.
  intros Hc Hi He Hst Hm. pose proof (moved_at e st t p') as Hat. rewrite Hm in Hat. cbn [fst] in Hat.
  assert (Hinv : inv (exact st) (blocks t ++ L ++ in_calls (delete i ts)) X).
  { apply (inv_perm _ (L ++ in_calls ts)); [|apply Hc]. rewrite (in_calls_split ts i _ Hi). unfold blocks. solve_Permutation. }
  pose proof (move_spec e st lk t _ X st' lk' p' Hinv (cv_pc _ Hc i t Hi) (env_fits_for _ _ _ _ _ _ _ _ Hi He) Hst) as Hmv.
  unfold move_ok in Hmv. rewrite Hm in Hmv. destruct Hmv as (Hinv' & Hok & [Htab Hpl Hcls Hlock]).
  apply (cinv_thread st st' lk lk' ts L L X (X' ++ X) i (Some t) (Some t') Hc Hi); try done.
  - apply (inv_perm _ (blocks t' ++ L ++ in_calls (delete i ts))); [|done].
    rewrite (in_calls_insert ts i _ _ Hi). unfold blocks. solve_Permutation.
  - by intros ? [= <-].
  - cbn [oholds]. by rewrite Hat.
Qed.

(** [memcpy] in [_slab_realloc] stays inside of the new block. *)
Lemma copy_inv st L X b v s n c : inv (exact st) L X -> b ∈ L -> v = b_head b + sizeof_slabhead_t -> c <= n ->
  b_size b = n + sizeof_slabhead_t -> inv (exact (set_mem st (mem_copy (mem st) v s c))) L X.
Proof.
  intros Hinv Hb -> Hc Hs. rewrite exact_mem. apply write_inv; [done|]. intros x Hx. specialize (Hx b Hb). unfold mem_copy.
  cbn [exact mem]. destruct (Z.leb_spec (b_head b + sizeof_slabhead_t) x), (Z.ltb_spec x (b_head b + sizeof_slabhead_t + c)); try done.
  exfalso. apply Hx. lia.
Qed.

Lemma cinv_resume st lk ts L X i t v st' p' k' :
  cinv (Config st lk ts L X) -> ts !! i = Some (Some t) -> at_ t = Ret v -> resume st (then_ t) v = Some (st', p', k') ->
  cinv (Config st' lk (<[i := Some (Thread p' k' (got t) (owed t))]> ts) L X).
Proof.
  intros Hc Hi Hat Hr. pose proof (cv_pc _ Hc i t Hi) as Hok. unfold pc_ok in Hok. rewrite Hat in Hok.
  assert (Hst : inv (exact st') (L ++ in_calls (<[i := Some (Thread p' k' (got t) (owed t))]> ts)) X /\
    pc_ok st' (Thread p' k' (got t) (owed t)) /\ slabclass st' = slabclass st /\ power_largest st' = power_largest st /\ holds p' = None).
  { assert (Hsame : inv (exact st) (L ++ in_calls (<[i := Some (Thread p' k' (got t) (owed t))]> ts)) X)
      by (by apply (cinv_blocks _ _ L _ _ lk i (Some t) _ Hc Hi)).
    destruct (then_ t) as [|ptr n|w] eqn:Hk; cbn [resume] in Hr; [done| |].
    - destruct Hok as [(Hv & sz & Ha & Hsz)|(_ & Ha & _)]; [|unfold after_free in Ha; by rewrite Hk in Ha].
      unfold after_alloc in Ha. rewrite Hk in Ha. destruct Ha as [-> (b & Ho & ->)]. destruct (Z.eqb_spec v 0) as [->|Hne].
      + injection Hr as <- <- <-. split; [done|]. split; [|done]. left. split; [done|]. exists (n + sizeof_slabhead_t). by split.
      + injection Hr as <- <- <-. unfold given in Hv. destruct (got t) as [b'|] eqn:Hg; [|done]. destruct Hv as [Hv _].
        split; [|split; [|done]].
        * apply (copy_inv st _ X b' v _ n); [exact Hsame| |done| |by apply Hsz].
          { rewrite (in_calls_insert ts i _ _ Hi). apply elem_of_app. right. apply elem_of_app. left. apply list_elem_of_here. }
          destruct (Z.ltb_spec n (head_size (mem st) (b_head b + sizeof_slabhead_t - sizeof_slabhead_t))); lia.
        * split; [exists b; split; [done|lia]|]. by split.
    - injection Hr as <- <- <-. split; [done|]. split; [|done]. left.
      destruct Hok as [(_ & sz & Ha & _)|(Ho & Ha & _)]; [unfold after_alloc in Ha; by rewrite Hk in Ha|].
      unfold after_free in Ha. rewrite Hk in Ha. split; [done|]. cbn [got].
      exists (match got t with Some b => b_size b | None => 0 end). split; [done|]. by intros b ->. }
  destruct Hst as (Hinv & Hok' & Ht & Hpl & Hh).
  apply (cinv_outside st st' lk ts L L X i (Some t) _ Hc Hi); try done; [cbn; by rewrite Hat|by intros ? [= <-]].
Qed.

Lemma step_cinv c c' : cinv c -> step c c' -> cinv c'.
Proof.
  intros Hc Hs. destruct Hs as [st lk ts L X i n Hi Hn|st lk ts L X i b L' Hi HL|st lk ts L X i b L' n p k Hi HL Hn Hp
    |st lk ts L X i t e st' lk' p' t' X' Hi He Hst Hm|st lk ts L X i t v st' p' k' Hi Hat Hr|st lk ts L X i t v Hi Hat Hk|st lk ts L X m Hm].
  - apply (cinv_outside st st lk ts L L X i None _ Hc Hi); try done; [by apply (cinv_blocks st ts L L X lk i None)|].
    intros t [= <-]. by split.
  - apply (cinv_outside st st lk ts L L' X i None _ Hc Hi); try done; [by apply (cinv_blocks st ts L L' X lk i None)|].
    intros t [= <-]. split; [by exists b|done].
  - assert (Hok : pc_ok st (Thread p k None (Some b)) /\ holds p = None).
    { unfold realloc_enter in Hp. destruct (n =? 0); [|destruct (_ =? 0)]; injection Hp as <- <-; (split; [|done]).
      - left. split; [done|]. by exists 0.
      - by split.
      - split; [done|]. split; [done|]. split; [done|]. by exists b. }
    apply (cinv_outside st st lk ts L L' X i None _ Hc Hi); try done; [apply Hok|by apply (cinv_blocks st ts L L' X lk i None)|].
    intros t [= <-]. apply Hok.
  - by apply (cinv_move st lk ts L X i t e st' lk' p').
  - by apply (cinv_resume st lk ts L X i t v).
  - apply (cinv_outside st st lk ts L _ X i (Some t) None Hc Hi); try done; [cbn; by rewrite Hat|].
    by apply (cinv_blocks st ts L _ X lk i (Some t) None Hc Hi).
  - destruct Hc as [Hinv Hpc Hlk Hex]. cbn [alloc locked threads live lost] in *. split; cbn [alloc locked threads live lost]; try done.
    rewrite exact_mem. apply write_inv; [done|]. intros x Hx. cbn [exact mem]. apply Hm. intros b Hb. apply Hx. apply elem_of_app. by left.
Qed.

Lemma start_cinv limit st k : production limit = Some st -> cinv (Config st ∅ (replicate k None) [] []).
Proof.
  intros Hp. assert (E : in_calls (replicate k None) = []) by (induction k as [|k IH]; [done|exact IH]).
  split; cbn [alloc locked threads live lost app].
  - rewrite E. rewrite production_eq in Hp. apply (inj Some) in Hp as <-. unfold exact. cbn [slabclass power_largest mem].
    replace (total_slabs production_tab) with 0 by (vm_compute; reflexivity).
    apply untouched_inv; [|done|vm_compute; reflexivity]. apply table_okb_sound. vm_compute. reflexivity.
  - intros i t [? _]%lookup_replicate. done.
  - intros id. split; [intros []%elem_of_empty|]. by intros (i & o & [-> _]%lookup_replicate & ?).
  - by intros i j o u id [-> _]%lookup_replicate.
Qed.
Lemma reachable_cinv limit k c : reachable limit k c -> cinv c.
Proof.
  intros (st & Hp & Hr). refine (rtc_ind_r cinv _ _ _ c Hr); [by apply (start_cinv limit)|].
  intros c1 c2 _ Hs Hi. by apply (step_cinv c1).
Qed.

End SlabRaces.
