(* ===== verification/SlabRacesProps.v ===== *)
(** Any number of threads in the allocator of [src/src/slab.c]: what the counter
    [mem_malloced] knows, that every call returns, and the properties. *)

From Stdlib Require Import ZArith Lia.
From stdpp Require Import base numbers list gmap relations.
From S2P Require Import Prelude Slab SlabThreads SlabRaces.

Module SlabRacesProps.
Import Slab SlabThreads SlabRaces.

(** ** The counter *)

Definition counting (o : option thread) : bool :=
  match o with Some t => match at_ t with AllocRead _ _ | AllocCount _ _ _ => true | _ => false end | None => false end.
(** Pages that are in the classes, less those that a thread has yet to count. *)
Definition pages_counted (st : slab_t) (ts : list (option thread)) : Z :=
  total_slabs (slabclass st) - sumZ ((fun o => Z.b2z (counting o)) <$> ts).

Record counted (c : config) : Prop := {
  ct_count : 0 <= mem_malloced (alloc c) <= POWER_BLOCK * pages_counted (alloc c) (threads c);
  ct_read : forall i t id sz m, threads c !! i = Some (Some t) -> at_ t = AllocCount id sz m ->
    0 <= m <= POWER_BLOCK * pages_counted (alloc c) (threads c)
}.

Lemma pages_counted_insert st st' ts i o o' : ts !! i = Some o ->
  pages_counted st' (<[i := o']> ts) = pages_counted st ts +
    (total_slabs (slabclass st') - total_slabs (slabclass st)) + Z.b2z (counting o) - Z.b2z (counting o').
Proof. intros Hi. unfold pages_counted. rewrite (sumZ_insert _ _ _ _ _ Hi). lia. Qed.

Lemma counted_thread st st' lk lk' ts L L' X X' i o o' :
  counted (Config st lk ts L X) -> ts !! i = Some o ->
  pages_counted st ts <= pages_counted st' (<[i := o']> ts) ->
  0 <= mem_malloced st' <= POWER_BLOCK * pages_counted st' (<[i := o']> ts) ->
  (forall t id sz m, o' = Some t -> at_ t = AllocCount id sz m -> 0 <= m <= POWER_BLOCK * pages_counted st' (<[i := o']> ts)) ->
  counted (Config st' lk' (<[i := o']> ts) L' X').
Proof.
  intros [_ Hr] Hi Hle Hm Hnew. cbn [alloc threads] in *. split; cbn [alloc threads]; [done|].
  intros j t id sz m [[-> E]|[Hne Hj]]%inserted Hat; [by apply (Hnew t id sz m)|].
  specialize (Hr j t id sz m Hj Hat). unfold POWER_BLOCK in *. lia.
Qed.

(** Steps that have nothing to do with pages. *)
Lemma counted_other st st' lk lk' ts L L' X X' i o o' :
  counted (Config st lk ts L X) -> ts !! i = Some o -> counting o = false -> counting o' = false ->
  total_slabs (slabclass st') = total_slabs (slabclass st) -> mem_malloced st' = mem_malloced st ->
  counted (Config st' lk' (<[i := o']> ts) L' X').
Proof.
  intros Hc Hi Ho Ho' Ht Hm. pose proof (pages_counted_insert st st' ts i o o' Hi) as E. rewrite Ho, Ho' in E. cbn [Z.b2z] in E.
  pose proof (ct_count _ Hc) as Hct. cbn [alloc threads] in Hct. apply (counted_thread st st' lk lk' ts L L' X X' i o o' Hc Hi); [lia|..].
  - rewrite Hm. unfold POWER_BLOCK in *. lia.
  - intros t id sz m -> Hat. cbn in Ho'. by rewrite Hat in Ho'.
Qed.

Lemma take_chunk_pages st id sz : table_ok (slabclass st) (power_largest st) -> 1 <= id <= power_largest st ->
  total_slabs (slabclass (take_chunk st id sz).1) = total_slabs (slabclass st) /\ mem_malloced (take_chunk st id sz).1 = mem_malloced st.
Proof.
  intros Ht Hid. unfold take_chunk. destruct (slots _).
  - destruct (negb _); [|done]. split; [|done]. by apply (sums_same_pages st (power_largest st) id).
  - split; [|done]. by apply (sums_same_pages st (power_largest st) id).
Qed.
Lemma push_slot_pages e st id head : table_ok (slabclass st) (power_largest st) -> 1 <= id <= power_largest st ->
  total_slabs (slabclass (push_slot e st id head)) = total_slabs (slabclass st) /\ mem_malloced (push_slot e st id head) = mem_malloced st.
Proof.
  intros Ht Hid. unfold push_slot. destruct (_ =? _); [destruct (env_realloc e)|]; try done;
    (split; [|done]); by apply (sums_same_pages st (power_largest st) id).
Qed.
Lemma new_page_pages e st L X id : inv (exact st) L X -> 1 <= id <= power_largest st ->
  total_slabs (slabclass (new_page e st id).1) = total_slabs (slabclass st) + Z.b2z (new_page e st id).2 /\
  mem_malloced (new_page e st id).1 = mem_malloced st.
Proof.
  intros Hinv Hid. pose proof (i_table _ _ _ Hinv) as Ht. cbn in Ht. unfold new_page.
  destruct (grow_slab_list e (class_at (slabclass st) id)) as [p|] eqn:Eg; [|cbn; lia].
  destruct (grow_slab_list_spec (exact st) L X id e p Hinv Hid Eg) as (_ & n & ->).
  destruct (env_valloc e =? 0); cbn [fst snd Z.b2z]; (split; [|done]).
  - rewrite Z.add_0_r. by apply (sums_same_pages st (power_largest st) id).
  - by apply (sums_new_page st (power_largest st) id _ (env_valloc e)).
Qed.

(** What one step of a call does to the pages and to the counter. *)
Lemma tstep_pages e st L X lk t st' lk' p' :
  inv (exact st) L X -> pc_ok st t -> tstep e st lk (at_ t) = Some (st', lk', p') ->
  total_slabs (slabclass st') = total_slabs (slabclass st) + match at_ t, p' with AllocPage _ _, AllocRead _ _ => 1 | _, _ => 0 end /\
  mem_malloced st' = match at_ t with AllocCount _ _ m => u64 (m + POWER_BLOCK) | _ => mem_malloced st end.
Proof.
  intros Hinv Hok Hst. pose proof (i_table _ _ _ Hinv) as Ht. cbn in Ht. unfold pc_ok in Hok.
  destruct (at_ t) as [n|id sz|id sz|id sz|id sz|id sz|id sz m|id sz|id v|ptr|id head|id head|id|v]; cbn [tstep] in Hst.
  - unfold alloc_enter in Hst. destruct (0 <? power_largest st); [|done]. destruct (_ <? POWER_SMALLEST); [injection Hst as <- <- <-; lia|].
    destruct (power_largest st <? _); [destruct (negb _)|]; injection Hst as <- <- <-; cbn [set_mem slabclass mem_malloced]; lia.
  - case_decide; [done|]. injection Hst as <- <- <-. lia.
  - injection Hst as <- <- <-. lia.
  - injection Hst as <- <- <-. lia.
  - destruct (new_page e st id) as [st1 ok] eqn:E. injection Hst as <- <- <-.
    pose proof (new_page_pages e st L X id Hinv (proj1 (proj1 Hok))) as [E1 E2]. rewrite E in E1, E2. cbn [fst snd] in E1, E2.
    split; [|done]. by destruct ok.
  - injection Hst as <- <- <-. lia.
  - injection Hst as <- <- <-. split; [cbn [set_malloced slabclass]; lia|done].
  - destruct (take_chunk st id sz) as [st1 v] eqn:E. injection Hst as <- <- <-.
    pose proof (take_chunk_pages st id sz Ht (proj1 (proj1 Hok))) as [E1 E2]. rewrite E in E1, E2. cbn [fst] in E1, E2. lia.
  - injection Hst as <- <- <-. lia.
  - injection Hst as <- <- <-. lia.
  - case_decide; [done|]. injection Hst as <- <- <-. lia.
  - injection Hst as <- <- <-. pose proof (push_slot_pages e st id head Ht (proj1 Hok)). lia.
  - injection Hst as <- <- <-. lia.
  - done.
Qed.

Lemma tstep_counting e st lk p st' lk' p' t t' : tstep e st lk p = Some (st', lk', p') -> at_ t = p -> at_ t' = p' ->
  Z.b2z (counting (Some t')) - Z.b2z (counting (Some t)) =
    match p, p' with AllocPage _ _, AllocRead _ _ => 1 | AllocCount _ _ _, _ => -1 | _, _ => 0 end.
Proof.
  intros Hst Ht Ht'. cbn [counting]. rewrite Ht, Ht'.
  destruct p; cbn [tstep] in Hst; repeat case_decide; try done; try (injection Hst as <- <- <-; try done).
  - unfold alloc_enter in Hst. destruct (0 <? power_largest st); [|done].
    repeat match type of Hst with context [if ?b then _ else _] => destruct b end; by injection Hst as <- <- <-.
  - by destruct (negb _ || negb _).
  - by destruct (over_limit _ _ _).
  - destruct (new_page e st id) as [? []]; by injection Hst as <- <- <-.
  - destruct (take_chunk st id sz); by injection Hst as <- <- <-.
  - unfold free_enter. repeat match goal with |- context [if ?b then _ else _] => destruct b end; done.
Qed.

Lemma counted_move st lk ts L X i t e st' lk' p' t' X' :
  cinv (Config st lk ts L X) -> counted (Config st lk ts L X) -> ts !! i = Some (Some t) ->
  tstep e st lk (at_ t) = Some (st', lk', p') -> moved e st t p' = (t', X') ->
  counted (Config st' lk' (<[i := Some t']> ts) L (X' ++ X)).
Proof.
  intros Hc Hct Hi Hst Hm. pose proof (moved_at e st t p') as Hat. rewrite Hm in Hat. cbn [fst] in Hat.
  pose proof (tstep_pages e st _ X lk t st' lk' p' (cv_inv _ Hc) (cv_pc _ Hc i t Hi) Hst) as [E1 E2].
  pose proof (tstep_counting e st lk _ st' lk' p' t t' Hst eq_refl Hat) as E3.
  pose proof (pages_counted_insert st st' ts i (Some t) (Some t') Hi) as E4. rewrite E1 in E4.
  pose proof (ct_count _ Hct) as Hcount. pose proof (ct_read _ Hct i t) as Hread. cbn [alloc threads] in Hcount, Hread.
  assert (Hsum : 0 <= sumZ ((fun o => Z.b2z (counting o)) <$> ts)).
  { pose proof (sumZ_fmap_bound (fun o => Z.b2z (counting o)) 0 1 ts ltac:(intros o; cbn beta; destruct (counting o); cbn; lia)). lia. }
  pose proof (pages_bound _ _ _ 1 (cv_inv _ Hc)
    ltac:(pose proof (table_pl _ _ (i_table _ _ _ (cv_inv _ Hc))); lia)) as [_ Htot]. cbn [exact alloc slabclass] in Htot.
  apply (counted_thread st st' lk lk' ts L L X _ i (Some t) (Some t') Hct Hi).
  - destruct (at_ t), p'; lia.
  - rewrite E2. destruct (at_ t) as [n|id sz|id sz|id sz|id sz|id sz|id sz m|id sz|id v|ptr|id head|id head|id|v]; try (destruct p'; unfold POWER_BLOCK in *; lia).
    specialize (Hread id sz m Hi eq_refl). unfold pages_counted, POWER_BLOCK in *. rewrite u64_small by (unfold in_range; lia). lia.
  - intros u id sz m [= <-] Hu. rewrite Hu in Hat. subst p'.
    destruct (at_ t) as [n|id1 sz1|id1 sz1|id1 sz1|id1 sz1|id1 sz1|id1 sz1 m1|id1 sz1|id1 v|ptr|id1 head|id1 head|id1|v] eqn:Ea; cbn [tstep] in Hst.
    all: try (exfalso; clear - E3 Ea Hu; cbn [counting] in E3; rewrite ?Ea, ?Hu in E3; cbn in E3; lia).
    all: try discriminate Hst.
    injection Hst as <- <- <- <- <-. lia.
Qed.

Lemma step_counted c c' : cinv c -> counted c -> step c c' -> counted c'.
Proof.
  intros Hc Hct Hs. destruct Hs as [st lk ts L X i n Hi Hn|st lk ts L X i b L' Hi HL|st lk ts L X i b L' n p k Hi HL Hn Hp
    |st lk ts L X i t e st' lk' p' t' X' Hi He Hst Hm|st lk ts L X i t v st' p' k' Hi Hat Hr|st lk ts L X i t v Hi Hat Hk|st lk ts L X m Hm].
  - by apply (counted_other st st lk lk ts L L X X i None _ Hct Hi).
  - by apply (counted_other st st lk lk ts L L' X X i None _ Hct Hi).
  - apply (counted_other st st lk lk ts L L' X X i None _ Hct Hi); try done.
    unfold realloc_enter in Hp. destruct (n =? 0); [|destruct (_ =? 0)]; by injection Hp as <- <-.
  - by apply (counted_move st lk ts L X i t e st' lk' p').
  - assert (E : slabclass st' = slabclass st /\ mem_malloced st' = mem_malloced st /\ counting (Some (Thread p' k' (got t) (owed t))) = false).
    { destruct (then_ t); cbn [resume] in Hr; [done| |by injection Hr as <- <- <-].
      destruct (v =? 0); by injection Hr as <- <- <-. }
    destruct E as (E1 & E2 & E3). apply (counted_other st st' lk lk ts L L X X i (Some t) _ Hct Hi); try done; [cbn; by rewrite Hat|by rewrite E1].
  - apply (counted_other st st lk lk ts L _ X X i (Some t) None Hct Hi); try done. cbn. by rewrite Hat.
  - by destruct Hct.
Qed.

Lemma reachable_counted limit k c : reachable limit k c -> counted c.
Proof.
  intros (st & Hp & Hr). refine (proj2 (rtc_ind_r (fun c => cinv c /\ counted c) _ _ _ c Hr)).
  - split; [by apply (start_cinv limit)|]. rewrite production_eq in Hp. apply (inj Some) in Hp as <-.
    assert (E : sumZ ((fun o => Z.b2z (counting o)) <$> replicate k None) = 0) by (clear; induction k as [|k IH]; [done|exact IH]).
    split; cbn [alloc threads].
    + unfold pages_counted. rewrite E. cbn [slabclass mem_malloced].
      replace (total_slabs production_tab) with 0 by (vm_compute; reflexivity). done.
    + by intros i t id sz m [? _]%lookup_replicate.
  - intros c1 c2 _ Hs [Hi Hct]. split; [by apply (step_cinv c1)|by apply (step_counted c1)].
Qed.

(** ** Every call returns *)

Definition rank (p : pc) : Z :=
  match p with
  | Alloc _ => 9 | AllocLock _ _ => 8 | AllocLook _ _ => 7 | AllocTest _ _ => 6 | AllocPage _ _ => 5 | AllocRead _ _ => 4
  | AllocCount _ _ _ => 3 | AllocTake _ _ => 2 | AllocUnlock _ _ => 1
  | Free _ => 4 | FreeLock _ _ => 3 | FreePush _ _ => 2 | FreeUnlock _ => 1 | Ret _ => 0
  end.
Definition krank (k : kont) : Z := match k with Plain => 0 | Keep _ => 1 | Copy _ _ => 6 end.
(** Steps that the calls under way still take, at most. *)
Definition weight (o : option thread) : Z := match o with Some t => 1 + rank (at_ t) + krank (then_ t) | None => 0 end.
Definition work (ts : list (option thread)) : Z := sumZ (weight <$> ts).

Lemma weight_nonneg o : 0 <= weight o.
Proof. destruct o as [[[] [] ? ?]|]; cbn; lia. Qed.
Lemma work_nonneg ts : 0 <= work ts.
Proof. induction ts as [|o ts IH]; [done|]. change (0 <= weight o + work ts). pose proof (weight_nonneg o). lia. Qed.

Lemma tstep_rank e st lk p st' lk' p' : tstep e st lk p = Some (st', lk', p') -> rank p' < rank p.
Proof.
  destruct p; cbn [tstep]; intros Hst; repeat case_decide; try done; try (injection Hst as <- <- <-; cbn; lia).
  - unfold alloc_enter in Hst. destruct (0 <? power_largest st); [|done].
    repeat match type of Hst with context [if ?b then _ else _] => destruct b end; injection Hst as <- <- <-; cbn; lia.
  - injection Hst as <- <- <-. by destruct (negb _ || negb _).
  - injection Hst as <- <- <-. by destruct (over_limit _ _ _).
  - destruct (new_page e st id) as [? []]; by injection Hst as <- <- <-.
  - destruct (take_chunk st id sz); by injection Hst as <- <- <-.
  - injection Hst as <- <- <-. unfold free_enter. repeat match goal with |- context [if ?b then _ else _] => destruct b end; cbn; lia.
Qed.
Lemma resume_rank st k v st' p' k' : resume st k v = Some (st', p', k') -> rank p' + krank k' < krank k.
Proof. destruct k; cbn [resume]; [done| |by intros [= <- <- <-]]. destruct (v =? 0); intros [= <- <- <-]; cbn; lia. Qed.
Lemma moved_then e st t p' : then_ (moved e st t p').1 = then_ t.
Proof. unfold moved. by destruct (at_ t), p'. Qed.

(** Without memory a call goes on too. *)
Definition no_memory : env := Env false 0 0.

Lemma move_thread c i t st' lk' p' :
  threads c !! i = Some (Some t) -> tstep no_memory (alloc c) (locked c) (at_ t) = Some (st', lk', p') ->
  exists c', step c c' /\ work (threads c') < work (threads c).
Proof.
  intros Hi Hst. destruct c as [st lk ts L X]. cbn [alloc locked threads] in *.
  destruct (moved no_memory st t p') as [t' X'] eqn:Em. eexists. split; [eapply (step_move st lk ts L X i t no_memory); try done|].
  cbn [threads]. unfold work. rewrite (sumZ_insert _ _ _ _ _ Hi). pose proof (tstep_rank _ _ _ _ _ _ _ Hst) as Hr.
  pose proof (moved_at no_memory st t p') as E1. pose proof (moved_then no_memory st t p') as E2. rewrite Em in E1, E2.
  cbn [fst] in E1, E2. cbn [weight]. rewrite E1, E2. lia.
Qed.

(** A thread that has a lock never waits. *)
Lemma holder_moves st lk p id : holds p = Some id -> is_Some (tstep no_memory st lk p).
Proof.
  destruct p; intros Hh; try discriminate Hh; cbn [tstep]; try (by eexists).
  - destruct (new_page no_memory st id0) as [? []]; by eexists.
  - destruct (take_chunk st id0 sz); by eexists.
Qed.

Lemma someone_moves c i t : cinv c -> threads c !! i = Some (Some t) ->
  exists c', step c c' /\ work (threads c') < work (threads c).
Proof.
  intros Hc Hi. destruct (decide (Exists (fun o => is_Some (oholds o)) (threads c))) as [Hex|Hno].
  - apply Exists_exists in Hex as (o & Hin & id & Ho). apply list_elem_of_lookup in Hin as [j Hj].
    destruct o as [u|]; [|done]. destruct (holder_moves (alloc c) (locked c) (at_ u) id Ho) as [[[st' lk'] p'] Hst].
    by apply (move_thread c j u st' lk' p').
  - assert (Hfree : forall id, id ∉ locked c).
    { intros id (j & o & Hj & Ho)%(cv_locked _ Hc). apply Hno, Exists_exists. exists o. split; [by eapply list_elem_of_lookup_2|by exists id]. }
    destruct (tstep no_memory (alloc c) (locked c) (at_ t)) as [[[st' lk'] p']|] eqn:Hst; [by apply (move_thread c i t st' lk' p')|].
    destruct (at_ t) as [n|id sz|id sz|id sz|id sz|id sz|id sz m|id sz|id v|ptr|id head|id head|id|v] eqn:Hat; cbn [tstep] in Hst; try discriminate Hst.
    + exfalso. pose proof (table_pl _ _ (i_table _ _ _ (cv_inv _ Hc))) as Hpl. cbn in Hpl. unfold alloc_enter in Hst.
      rewrite (proj2 (Z.ltb_lt _ _)) in Hst by lia.
      repeat match type of Hst with context [if ?b then _ else _] => destruct b end; discriminate Hst.
    + rewrite decide_False in Hst by apply Hfree. done.
    + by destruct (new_page no_memory (alloc c) id) as [? []].
    + by destruct (take_chunk (alloc c) id sz).
    + rewrite decide_False in Hst by apply Hfree. done.
    + destruct c as [st lk ts L X]. cbn [alloc threads] in *. destruct (resume st (then_ t) v) as [[[st' p'] k']|] eqn:Hr.
      * eexists. split; [by eapply step_resume|]. cbn [threads]. unfold work. rewrite (sumZ_insert _ _ _ _ _ Hi). cbn [weight at_ then_].
        pose proof (resume_rank _ _ _ _ _ _ Hr). rewrite Hat. cbn [rank]. lia.
      * eexists. split; [eapply step_return; try done|].
        { destruct (then_ t); cbn [resume] in Hr; [done|by destruct (v =? 0)|done]. }
        cbn [threads]. unfold work. rewrite (sumZ_insert _ _ _ _ _ Hi). cbn [weight]. rewrite Hat. cbn [rank].
        destruct (then_ t); cbn [krank]; lia.
Qed.

Lemma all_calls_return c : cinv c -> exists c', rtc step c c' /\ Forall (eq None) (threads c').
Proof.
  remember (Z.to_nat (work (threads c))) as m eqn:Em. revert c Em. induction m as [m IH] using lt_wf_ind. intros c Em Hc.
  destruct (decide (Exists (fun o => o <> None) (threads c))) as [Hex|Hno].
  - apply Exists_exists in Hex as ([t|] & Hin & Hne); [|done]. apply list_elem_of_lookup in Hin as [i Hi].
    destruct (someone_moves c i t Hc Hi) as (c1 & Hs & Hlt). pose proof (work_nonneg (threads c1)).
    destruct (IH (Z.to_nat (work (threads c1))) ltac:(lia) c1 eq_refl (step_cinv _ _ Hc Hs)) as (c' & Hr & Hf).
    exists c'. split; [by eapply rtc_l|done].
  - exists c. split; [done|]. apply Forall_forall. intros o Hin. destruct o as [t|]; [|done].
    destruct Hno. apply Exists_exists. by exists (Some t).
Qed.

(** ** Properties *)

(** C22: threads do not disturb each other's memory. However any number of
    threads interleave in [_slab_alloc], [_slab_free] and [_slab_realloc], and
    whatever they write into their own blocks, no two blocks overlap, those in
    the middle of a call included; each has its size in its header and lies in
    a page of its class; a call returns the block its thread got, or NULL; no
    two threads are in the same class at once; and [mem_malloced] never counts
    memory that was not taken. The sizes asked for are below 2^32, and all pages
    together at most 16 GB. *)
Theorem slab_threads_isolation limit k c : reachable limit k c ->
  let bs := live c ++ in_calls (threads c) in
  (forall i j b b', bs !! i = Some b -> bs !! j = Some b' -> i <> j ->
     b_head b + b_size b <= b_head b' \/ b_head b' + b_size b' <= b_head b) /\
  (forall b, b ∈ bs -> head_size (mem (alloc c)) (b_head b) = b_size b /\
     (b_class b <> 0 -> exists base, base ∈ slab_list (class_at (slabclass (alloc c)) (b_class b)) /\
        base <= b_head b /\ b_head b + b_size b <= base + POWER_BLOCK)) /\
  (forall i t v, threads c !! i = Some (Some t) -> at_ t = Ret v -> then_ t = Plain -> given t v) /\
  (forall i j t u id, threads c !! i = Some (Some t) -> threads c !! j = Some (Some u) ->
     holds (at_ t) = Some id -> holds (at_ u) = Some id -> i = j) /\
  0 <= mem_malloced (alloc c) <= POWER_BLOCK * total_slabs (slabclass (alloc c)).
Proof.
  intros Hr bs. pose proof (reachable_cinv _ _ _ Hr) as Hc. pose proof (cv_inv _ Hc) as Hinv. fold bs in Hinv.
  pose proof (i_table _ _ _ Hinv) as Ht.
  assert (Hcell : forall b, b ∈ bs -> b_size b <= (block_cell (slabclass (alloc c)) b).2).
  { intros b Hb. apply (block_cell_size (exact (alloc c)) b Ht), (proj1 (Forall_forall _ _) (i_blocks _ _ _ Hinv) b Hb). }
  split; [|split; [|split; [|split]]].
  - intros i j b b' Hi Hj Hne.
    assert (b <> b') by (intros <-; apply Hne; eapply NoDup_lookup; [apply (live_nodup _ _ _ Hinv)|exact Hi|exact Hj]).
    pose proof (list_elem_of_lookup_2 _ _ _ Hi) as Hb. pose proof (list_elem_of_lookup_2 _ _ _ Hj) as Hb'.
    pose proof (live_disjoint _ _ _ _ _ Hinv Hb Hb' H) as Hd. pose proof (Hcell b Hb). pose proof (Hcell b' Hb').
    unfold disj, block_cell in *. cbn [fst snd exact slabclass] in *. lia.
  - intros b Hb. pose proof (proj1 (Forall_forall _ _) (i_blocks _ _ _ Hinv) b Hb) as Hbok. split; [apply Hbok|]. intros Hne.
    destruct (bo_class _ _ Hbok) as [|(_ & _ & base & Hin & Hbase & Hend)]; [done|]. exists base. split; [done|].
    specialize (Hcell b Hb). unfold block_cell in Hcell. cbn [snd exact slabclass] in *.
    rewrite (proj2 (Z.eqb_neq _ _)) in Hcell by done. lia.
  - intros i t v Hi Hat Hk. pose proof (cv_pc _ Hc i t Hi) as Hok. unfold pc_ok in Hok. rewrite Hat in Hok.
    destruct Hok as [[Hv _]|(_ & Ha & ->)]; [done|]. unfold after_free in Ha. rewrite Hk in Ha. unfold given. by rewrite Ha.
  - intros i j t u id Hi Hj Ht' Hu. by apply (cv_excl _ Hc i j (Some t) (Some u) id).
  - pose proof (ct_count _ (reachable_counted _ _ _ Hr)) as Hct. unfold pages_counted in Hct.
    pose proof (sumZ_fmap_bound (fun o => Z.b2z (counting o)) 0 1 (threads c)
      ltac:(intros o; cbn beta; destruct (counting o); cbn; lia)). unfold POWER_BLOCK in *. lia.
Qed.

(** Threads that spin on a class get on: from every configuration, all calls
    under way can return. *)
Theorem slab_threads_return limit k c : reachable limit k c ->
  exists c', rtc step c c' /\ Forall (eq None) (threads c').
Proof. intros Hr. apply all_calls_return. by apply (reachable_cinv limit k). Qed.

(** ** Two threads, two classes *)

(** A schedule: thread [i] calls [_slab_alloc], or goes on. *)
Inductive turn := Call (i : nat) (n : Z) | Go (i : nat) (a : Z).
Definition page_env (a : Z) : env := Env true a 0.

#[export] Instance disj_dec a b : Decision (disj a b).
Proof. unfold disj. apply _. Defined.
Definition page_ok (c : config) (a : Z) : bool :=
  (a =? 0) || (0 <? a) && bool_decide (Forall (disj (a, POWER_BLOCK))
    (all_cells (slabclass (alloc c)) (live c ++ in_calls (threads c)) (lost c))) &&
    (total_slabs (slabclass (alloc c)) <? PAGES).

Definition exec1 (x : turn) (c : config) : option config :=
  match x with
  | Call i n =>
      match threads c !! i with
      | Some None => if (0 <=? n) && (n + sizeof_slabhead_t <? 2 ^ 32)
          then Some (Config (alloc c) (locked c) (<[i := Some (Thread (Alloc n) Plain None None)]> (threads c)) (live c) (lost c))
          else None
      | _ => None
      end
  | Go i a =>
      match threads c !! i with
      | Some (Some t) =>
          if page_ok c a then
            match tstep (page_env a) (alloc c) (locked c) (at_ t) with
            | Some (st', lk', p') =>
                let '(t', X') := moved (page_env a) (alloc c) t p' in
                Some (Config st' lk' (<[i := Some t']> (threads c)) (live c) (X' ++ lost c))
            | None =>
                match at_ t, then_ t with
                | Ret _, Plain => Some (Config (alloc c) (locked c) (<[i := None]> (threads c)) (thread_blocks (Some t) ++ live c) (lost c))
                | _, _ => None
                end
            end
          else None
      | _ => None
      end
  end.
Fixpoint exec (xs : list turn) (c : config) : option config :=
  match xs with [] => Some c | x :: xs => match exec1 x c with Some c => exec xs c | None => None end end.

Lemma page_ok_fits c t a : page_ok c a = true -> env_fits c t (page_env a).
Proof.
  unfold page_ok. intros Hp. split; cbn [page_env env_valloc env_malloc]; [|done]. intros Hne.
  apply orb_true_iff in Hp as [Hp%Z.eqb_eq|Hp]; [done|]. apply andb_true_iff in Hp as [Hp Ht%Z.ltb_lt].
  apply andb_true_iff in Hp as [Ha%Z.ltb_lt Hp%bool_decide_eq_true]. by split.
Qed.
Lemma exec1_step x c c' : exec1 x c = Some c' -> step c c'.
Proof.
  destruct c as [st lk ts L X]. destruct x as [i n|i a]; unfold exec1; cbn [alloc locked threads live lost].
  - destruct (ts !! i) as [[t|]|] eqn:Hi; try done. destruct (_ && _) eqn:Hn; [|done]. intros [= <-].
    apply andb_true_iff in Hn as [H0%Z.leb_le H1%Z.ltb_lt]. by apply step_alloc.
  - destruct (ts !! i) as [[t|]|] eqn:Hi; try done. destruct (page_ok _ a) eqn:Hp; [|done].
    pose proof (page_ok_fits _ t a Hp) as He. destruct (tstep _ _ _ _) as [[[st' lk'] p']|] eqn:Hst.
    + destruct (moved _ _ _ _) as [t' X'] eqn:Hm. intros [= <-]. by eapply step_move.
    + destruct (at_ t) eqn:Hat; try done. destruct (then_ t) eqn:Hk; try done. intros [= <-]. by eapply step_return.
Qed.
Lemma exec_steps xs c c' : exec xs c = Some c' -> rtc step c c'.
Proof.
  revert c; induction xs as [|x xs IH]; cbn [exec]; intros c Hx; [by injection Hx as ->|].
  destruct (exec1 x c) as [c1|] eqn:E; [|done]. eapply rtc_l; [by eapply exec1_step|by apply IH].
Qed.

Definition ex_start : config := Config ex_st0 ∅ (replicate 2 None) [] [].
(** Both threads reach the counter, read it, and then write it. *)
Definition ex_race : list turn :=
  [Call 0 4000000; Go 0 0; Go 0 0; Go 0 0; Go 0 0; Go 0 8192; Call 1 1000000; Go 1 0; Go 1 0; Go 1 0; Go 1 0;
   Go 1 8388608; Go 0 0; Go 1 0; Go 0 0; Go 1 0; Go 0 0; Go 1 0; Go 0 0; Go 1 0; Go 0 0; Go 1 0].

Lemma ex_exec_reachable xs c : exec xs ex_start = Some c -> reachable (2 ^ 32) 2 c.
Proof. intros Hx. exists ex_st0. split; [apply production_eq|]. apply exec_steps in Hx. exact Hx. Qed.

Definition resting (c : config) : bool := forallb (fun o => match o with None => true | Some _ => false end) (threads c).

Lemma resting_none c : resting c = true -> Forall (eq None) (threads c).
Proof. unfold resting. induction (threads c) as [|[t|] ts IH]; [done|done|]. intros H. constructor; [done|by apply IH]. Qed.

Lemma ex_race_ends :
  (fun c => (mem_malloced (alloc c), total_slabs (slabclass (alloc c)), resting c, live c)) <$> exec ex_race ex_start =
  Some (POWER_BLOCK, 2, true, [Block 8388608 86 1000008; Block 8192 92 4000008]).
Proof. vm_compute. reflexivity. Qed.

Lemma ex_race_reached : exists c, reachable (2 ^ 32) 2 c /\ Forall (eq None) (threads c) /\
  mem_malloced (alloc c) = POWER_BLOCK /\ total_slabs (slabclass (alloc c)) = 2 /\
  live c = [Block 8388608 86 1000008; Block 8192 92 4000008].
Proof.
  pose proof ex_race_ends as E. destruct (exec ex_race ex_start) as [c|] eqn:Ex; [|done]. cbn [fmap option_fmap option_map] in E.
  apply (inj Some) in E. exists c. split; [by apply (ex_exec_reachable ex_race)|].
  apply pair_equal_spec in E as [[[E1 E2]%pair_equal_spec E3]%pair_equal_spec E4]. split; [by apply resting_none|].
  split; [exact E1|]. split; [exact E2|exact E4].
Qed.

(** Two threads about to count a page each. *)
Definition at_pc (t : thread) (p : pc) : option thread := Some (Thread p (then_ t) (got t) (owed t)).

Lemma no_memory_fits c t : env_fits c t no_memory.
Proof. by split. Qed.
Lemma count_read st lk ts L X i t id sz : ts !! i = Some (Some t) -> at_ t = AllocRead id sz ->
  step (Config st lk ts L X) (Config st lk (<[i := at_pc t (AllocCount id sz (mem_malloced st))]> ts) L X).
Proof.
  intros Hi Ha. eapply (step_move st lk ts L X i t no_memory st lk _ _ []); [done|apply no_memory_fits|by rewrite Ha|].
  unfold moved. by rewrite Ha.
Qed.
Lemma count_write st lk ts L X i t id sz m : ts !! i = Some (Some t) -> at_ t = AllocCount id sz m ->
  step (Config st lk ts L X) (Config (set_malloced st (u64 (m + POWER_BLOCK))) lk (<[i := at_pc t (AllocTake id sz)]> ts) L X).
Proof.
  intros Hi Ha. eapply (step_move st lk ts L X i t no_memory _ lk _ _ []); [done|apply no_memory_fits|by rewrite Ha|].
  unfold moved. by rewrite Ha.
Qed.

(** Their pages are in the classes and not in the counter. *)
Lemma two_uncounted c i j t u id sz id' sz' : cinv c -> counted c -> i <> j ->
  threads c !! i = Some (Some t) -> at_ t = AllocRead id sz -> threads c !! j = Some (Some u) -> at_ u = AllocRead id' sz' ->
  0 <= mem_malloced (alloc c) /\ mem_malloced (alloc c) + 2 * POWER_BLOCK <= POWER_BLOCK * total_slabs (slabclass (alloc c)) <= 2 ^ 35.
Proof.
  intros Hc Hct Hne Hi Ht Hj Hu. pose proof (ct_count _ Hct) as Hcount. unfold pages_counted in Hcount.
  set (f := fun o => Z.b2z (counting o)) in *.
  pose proof (sumZ_insert f (threads c) i (Some t) None Hi) as E1.
  pose proof (sumZ_insert f (<[i := None]> (threads c)) j (Some u) None ltac:(by rewrite list_lookup_insert_ne)) as E2.
  pose proof (sumZ_fmap_bound f 0 1 (<[j := None]> (<[i := None]> (threads c)))
    ltac:(intros o; unfold f; destruct (counting o); cbn; lia)) as Hb.
  assert (Ef : f (Some t) = 1 /\ f (Some u) = 1 /\ f None = 0) by (unfold f, counting; rewrite Ht, Hu; done).
  pose proof (pages_bound _ _ _ 1 (cv_inv _ Hc) ltac:(pose proof (table_pl _ _ (i_table _ _ _ (cv_inv _ Hc))); lia)) as [_ Htot].
  cbn [exact slabclass] in Htot. unfold POWER_BLOCK in *. lia.
Qed.

(** C34: the counter loses pages. [mem_malloced] is read and written without a
    lock. In every state that any threads can reach, when two threads have
    taken a page each, for two classes, and neither has counted it, both can
    read the counter before either writes it. The result differs from the one
    in which they count one after the other by one page in the counter and in
    nothing else: the two pages are in their classes, the counter has one of
    them. And when the limit lies between, every class that has a page is given
    another one, which it is refused when the counter is right. *)
Theorem slab_counter_lost limit k c i j t u id sz id' sz' :
  reachable limit k c -> i <> j ->
  threads c !! i = Some (Some t) -> at_ t = AllocRead id sz -> threads c !! j = Some (Some u) -> at_ u = AllocRead id' sz' ->
  let m := mem_malloced (alloc c) in
  let counted_as x := Config (set_malloced (alloc c) x) (locked c)
    (<[j := at_pc u (AllocTake id' sz')]> (<[i := at_pc t (AllocTake id sz)]> (threads c))) (live c) (lost c) in
  id <> id' /\ m + 2 * POWER_BLOCK <= POWER_BLOCK * total_slabs (slabclass (alloc c)) /\
  rtc step c (counted_as (m + 2 * POWER_BLOCK)) /\ rtc step c (counted_as (m + POWER_BLOCK)) /\
  (mem_limit (alloc c) <> 0 -> m + 2 * POWER_BLOCK <= mem_limit (alloc c) < m + 3 * POWER_BLOCK ->
   forall x, 0 < slabs (class_at (slabclass (alloc c)) x) ->
     over_limit (alloc (counted_as (m + 2 * POWER_BLOCK))) (m + 2 * POWER_BLOCK) x = true /\
     over_limit (alloc (counted_as (m + POWER_BLOCK))) (m + POWER_BLOCK) x = false).
Proof.
  intros Hr Hne Hi Ht Hj Hu m counted_as.
  pose proof (two_uncounted c i j t u id sz id' sz' (reachable_cinv _ _ _ Hr) (reachable_counted _ _ _ Hr) Hne Hi Ht Hj Hu) as [Hm Hb].
  fold m in Hm, Hb. split.
  { intros <-. apply Hne, (cv_excl _ (reachable_cinv _ _ _ Hr) i j (Some t) (Some u) id); try done; cbn; [by rewrite Ht|by rewrite Hu]. }
  split; [lia|]. unfold counted_as. destruct c as [st lk ts L X]. cbn [alloc locked threads live lost] in *.
  assert (Ew : forall x, 0 <= x <= m + 2 * POWER_BLOCK -> u64 (x + POWER_BLOCK) = x + POWER_BLOCK)
    by (intros x Hx; apply u64_small; unfold in_range, POWER_BLOCK in *; lia).
  split; [|split].
  - eapply rtc_l; [by eapply (count_read _ _ _ _ _ i)|].
    eapply rtc_l; [eapply (count_write _ _ _ _ _ i); [apply list_lookup_insert_eq; by eapply lookup_lt_Some|reflexivity]|].
    eapply rtc_l; [eapply (count_read _ _ _ _ _ j); [rewrite !list_lookup_insert_ne by done; exact Hj|exact Hu]|].
    eapply rtc_l; [eapply (count_write _ _ _ _ _ j); [apply list_lookup_insert_eq; rewrite !length_insert; by eapply lookup_lt_Some|reflexivity]|].
    cbn [set_malloced mem_malloced]. fold m. rewrite !Ew by (unfold POWER_BLOCK in *; lia).
    rewrite !list_insert_insert_eq. replace (m + POWER_BLOCK + POWER_BLOCK) with (m + 2 * POWER_BLOCK) by lia. apply rtc_refl.
  - eapply rtc_l; [by eapply (count_read _ _ _ _ _ i)|].
    eapply rtc_l; [eapply (count_read _ _ _ _ _ j); [rewrite list_lookup_insert_ne by done; exact Hj|exact Hu]|].
    eapply rtc_l; [eapply (count_write _ _ _ _ _ i); [rewrite list_lookup_insert_ne by done; apply list_lookup_insert_eq; by eapply lookup_lt_Some|reflexivity]|].
    eapply rtc_l; [eapply (count_write _ _ _ _ _ j); [rewrite list_lookup_insert_ne by done; apply list_lookup_insert_eq; rewrite !length_insert; by eapply lookup_lt_Some|reflexivity]|].
    cbn [set_malloced mem_malloced]. fold m. rewrite !Ew by (unfold POWER_BLOCK in *; lia).
    rewrite (list_insert_insert_ne _ i j) by done. rewrite !list_insert_insert_eq. apply rtc_refl.
  - intros Hl0 Hl x Hx. unfold over_limit. cbn [set_malloced mem_limit slabclass]. rewrite (proj2 (Z.ltb_lt _ _) Hx), (proj2 (Z.eqb_neq _ _) Hl0).
    cbn [negb andb]. rewrite !Ew by (unfold POWER_BLOCK in *; lia). rewrite (proj2 (Z.ltb_lt _ _)), (proj2 (Z.ltb_ge _ _)) by lia. done.
Qed.

(** In the middle of the race: the first thread has read the counter and its page
    is taken. *)
Lemma ex_middle : exists c, reachable (2 ^ 32) 2 c /\ threads c <> [None; None].
Proof.
  destruct (exec (take 15 ex_race) ex_start) as [c|] eqn:Ex.
  - exists c. split; [by apply (ex_exec_reachable (take 15 ex_race))|].
    assert (E : resting <$> exec (take 15 ex_race) ex_start = Some false) by (vm_compute; reflexivity).
    rewrite Ex in E. cbn in E. apply (inj Some) in E. intros Et. unfold resting in E. by rewrite Et in E.
  - exfalso. assert (E : is_Some (exec (take 15 ex_race) ex_start)) by (vm_compute; eexists; reflexivity). rewrite Ex in E. by destruct E.
Qed.

(** The state before either thread reads the counter, with a limit of two pages. *)
Definition ex_small : config := Config (Slab production_tab (2 * POWER_BLOCK) 0 92 (fun _ => 0)) ∅ (replicate 2 None) [] [].
Definition ex_thread (id sz : Z) : thread := Thread (AllocRead id sz) Plain None None.

Lemma ex_uncounted : exists c, reachable (2 * POWER_BLOCK) 2 c /\ mem_malloced (alloc c) = 0 /\
  threads c = [Some (ex_thread 92 4000008); Some (ex_thread 86 1000008)] /\ mem_limit (alloc c) = 2 * POWER_BLOCK /\
  slabs (class_at (slabclass (alloc c)) 92) = 1.
Proof.
  destruct (exec (take 12 ex_race) ex_small) as [c|] eqn:Ex.
  - exists c. split; [exists (alloc ex_small); split; [apply production_eq|]; apply exec_steps in Ex; exact Ex|].
    assert (E : (fun c => (mem_malloced (alloc c), threads c, mem_limit (alloc c), slabs (class_at (slabclass (alloc c)) 92))) <$>
      exec (take 12 ex_race) ex_small = Some (0, [Some (ex_thread 92 4000008); Some (ex_thread 86 1000008)], 2 * POWER_BLOCK, 1))
      by (vm_compute; reflexivity).
    rewrite Ex in E. cbn [fmap option_fmap option_map] in E. apply (inj Some) in E.
    apply pair_equal_spec in E as [[[E1 E2]%pair_equal_spec E3]%pair_equal_spec E4].
    split; [exact E1|]. split; [exact E2|]. split; [exact E3|exact E4].
  - exfalso. assert (E : is_Some (exec (take 12 ex_race) ex_small)) by (vm_compute; eexists; reflexivity). rewrite Ex in E. by destruct E.
Qed.

(** Two pages are taken, one is counted, and the class gets a third against the
    limit of two. *)
Lemma slab_counter_lost_witness : exists c c', reachable (2 * POWER_BLOCK) 2 c /\ rtc step c c' /\
  mem_malloced (alloc c') = POWER_BLOCK /\ 2 * POWER_BLOCK <= POWER_BLOCK * total_slabs (slabclass (alloc c')) /\
  over_limit (alloc c') (mem_malloced (alloc c')) 92 = false.
Proof.
  destruct ex_uncounted as (c & Hr & Hm & Ht & Hl & Hs).
  destruct (slab_counter_lost (2 * POWER_BLOCK) 2 c 0 1 (ex_thread 92 4000008) (ex_thread 86 1000008) 92 4000008 86 1000008 Hr
    ltac:(lia) ltac:(rewrite Ht; reflexivity) ltac:(reflexivity) ltac:(rewrite Ht; reflexivity) ltac:(reflexivity)) as (_ & Hp & _ & Hrun & Hlim).
  rewrite Hm in *. exists c. eexists. split; [exact Hr|]. split; [exact Hrun|]. cbn [alloc set_malloced mem_malloced slabclass].
  split; [lia|]. split; [lia|]. apply Hlim; rewrite ?Hl, ?Hs; unfold POWER_BLOCK; lia.
Defined.

Lemma slab_threads_isolation_witness : exists c, reachable (2 ^ 32) 2 c /\
  live c = [Block 8388608 86 1000008; Block 8192 92 4000008] /\
  head_size (mem (alloc c)) 8192 = 4000008 /\ 8192 + 4000008 <= 8388608.
Proof.
  destruct ex_race_reached as (c & Hr & Hn & _ & _ & El). exists c. split; [exact Hr|]. split; [exact El|].
  destruct (slab_threads_isolation (2 ^ 32) 2 c Hr) as (_ & Hb & _). split; [|done].
  apply (Hb (Block 8192 92 4000008)). rewrite El. apply elem_of_app. left. apply list_elem_of_further, list_elem_of_here.
Defined.

Lemma slab_threads_return_witness : exists c c', reachable (2 ^ 32) 2 c /\ threads c <> [None; None] /\
  rtc step c c' /\ Forall (eq None) (threads c').
Proof.
  destruct ex_middle as (c & Hr & Hne). destruct (slab_threads_return (2 ^ 32) 2 c Hr) as (c' & H1 & H2).
  exists c, c'. split; [exact Hr|]. split; [exact Hne|]. split; [exact H1|exact H2].
Defined.

End SlabRacesProps.
