(* ===== verification/IndexTypes.v ===== *)
(** The index records of [src/include/storage.h] and the journal items of
    [src/include/indexlog.h], with their memory layout on x86-64. *)

From Stdlib Require Import ZArith Lia.
From stdpp Require Import base numbers list.
From S2P Require Import Prelude.

Module IndexTypes.

Definition RET_SUCCESS : Z := 0.
Definition RET_FAILED : Z := -1.
Definition KEY_LEN : nat := 16.

(** [index_key_t]: 16 bytes. *)
Definition index_key_t : Type := list Z.

Record index_value_t := IndexValue {
  crc32 : Z;
  block_id : Z;
  data_size : Z;
  offset : Z
}.
#[export] Instance index_value_eq_dec : EqDecision index_value_t.
Proof. solve_decision. Defined.

(** [sizeof(struct index_value_t)]. *)
Definition sizeof_index_value : nat := 24.

(** [enum op_type_t]. *)
Inductive op_type_t := index_unknown_op | index_append | index_modify | index_del.
#[export] Instance op_type_eq_dec : EqDecision op_type_t.
Proof. solve_decision. Defined.
Definition op_code (t : op_type_t) : Z :=
  match t with index_unknown_op => 0 | index_append => 1 | index_modify => 2 | index_del => 3 end.

(** [struct index_log_item_s]; the type is the 32-bit value the enum is stored
    as, since a fetched item may hold any. *)
Record index_log_item_s := IndexLogItem {
  type : Z;
  index_key : index_key_t;
  index_value : index_value_t
}.
#[export] Instance index_log_item_eq_dec : EqDecision index_log_item_s.
Proof. solve_decision. Defined.

(** The bytes [memcpy] moves. *)
Definition value_bytes (v : index_value_t) : list Z :=
  le_split 4 (crc32 v) ++ le_split 4 (block_id v) ++ le_split 8 (data_size v) ++
  le_split 8 (u64 (offset v)).
Definition value_of_bytes (b : list Z) : index_value_t :=
  IndexValue (le_combine (take 4 b)) (le_combine (take 4 (drop 4 b)))
             (le_combine (take 8 (drop 8 b))) (i64 (le_combine (take 8 (drop 16 b)))).

Definition value_ok (v : index_value_t) : Prop :=
  is_u32 (crc32 v) /\ is_u32 (block_id v) /\ is_u64 (data_size v) /\ - 2 ^ 63 <= offset v < 2 ^ 63.
Definition key_ok (k : index_key_t) : Prop := length k = KEY_LEN /\ bytes_ok k.

Lemma value_bytes_length v : length (value_bytes v) = sizeof_index_value.
Proof. unfold value_bytes. now rewrite !length_app, !le_split_length. Qed.

Lemma value_bytes_ok v : bytes_ok (value_bytes v).
Proof. unfold value_bytes. rewrite !bytes_ok_app. auto with word. Qed.

(** Taking a field off the front of an encoding. *)
Lemma take_le_split n z l : take n (le_split n z ++ l) = le_split n z.
Proof. rewrite take_app_le by (rewrite le_split_length; lia). apply take_ge. rewrite le_split_length. lia. Qed.
Lemma drop_le_split n z l : drop n (le_split n z ++ l) = l.
Proof. rewrite drop_app_ge by (rewrite le_split_length; lia). rewrite le_split_length, Nat.sub_diag. done. Qed.

Lemma i64_u64 x : - 2 ^ 63 <= x < 2 ^ 63 -> i64 (u64 x) = x.
Proof. word. Qed.

Lemma le_field n z : 0 <= z < 2 ^ (8 * Z.of_nat n) -> le_combine (le_split n z) = z.
Proof. intros H. rewrite le_combine_split. now apply Z.mod_small. Qed.

Lemma value_roundtrip v rest : value_ok v -> value_of_bytes (value_bytes v ++ rest) = v.
Proof.
  intros (Hc & Hb & Hd & Ho).
  change (IndexValue (le_combine (le_split 4 (crc32 v))) (le_combine (le_split 4 (block_id v)))
            (le_combine (le_split 8 (data_size v))) (i64 (le_combine (le_split 8 (u64 (offset v))))) = v).
  rewrite !le_field by (exact Hc || exact Hb || exact Hd || apply u64_range).
  rewrite i64_u64 by done. now destruct v.
Qed.

End IndexTypes.
