(* ===== verification/IndexLog.v ===== *)
(** The index journal of [src/src/indexlog.c]: a double-buffered, append-only
    log of fixed-size items with one header per flushed buffer, its sequential
    reader, and the dump loop of [src/tools/replay_journal.c].

    The journal file is a byte list with a read position; what [write] answers
    is an argument of the operations that write. [None] as an operation's
    result is a crash: a failed assertion or a null pointer. *)

From Stdlib Require Import ZArith Lia String.
From stdpp Require Import base numbers list.
From S2P Require Import Prelude Crc32 Slab IndexTypes.

Module IndexLog.
Import IndexTypes.
Local Open Scope list_scope.

Definition LOG_BUF_HEADER_SIZE : Z := 4 * 2.
Definition LOG_BUF_SIZE : Z := 1024 * 8 - LOG_BUF_HEADER_SIZE.
Definition MAGIC_HEADER : Z := 0x1d810900.
Definition INDEX_LOG_ITEM_SIZE : Z := 4 + 16 + 24.

Definition htonl (x : Z) : Z := le_combine (rev (le_split 4 x)).
Definition magic_bytes : list Z := le_split 4 (htonl MAGIC_HEADER).

(** [struct buf_s]. *)
Record buf_s := Buf { crc32sum : Z; count : Z; buf_ptr : list Z }.
Definition zero_buf : buf_s := Buf 0 0 (replicate (Z.to_nat LOG_BUF_SIZE) 0).
(** Its packed layout. *)
Definition buf_bytes (b : buf_s) : list Z := le_split 4 (crc32sum b) ++ le_split 4 (count b) ++ buf_ptr b.

(** An open file: contents and read position. *)
Record file_t := File { f_data : list Z; f_pos : nat }.
(** [read]: up to [n] bytes; [write] on an [O_APPEND] descriptor that answered [w]. *)
Definition file_read (f : file_t) (n : nat) : list Z * file_t :=
  let b := take n (drop (f_pos f) (f_data f)) in (b, File (f_data f) (f_pos f + length b)).
Definition file_write (f : file_t) (d : list Z) (w : Z) : file_t :=
  File (f_data f ++ take (Z.to_nat w) d) (f_pos f).

(** The buffer a pointer of [struct index_logger_s] points to. *)
Inductive bufid := Buffer1 | Buffer2.
#[export] Instance bufid_eq_dec : EqDecision bufid.
Proof. solve_decision. Defined.

Record index_logger_s := IndexLogger {
  fd : file_t;
  sync : bool;
  working_buffer : option bufid;
  storing_buffer : option bufid;
  curr_working_buf : Z;
  buffer1 : buf_s;
  buffer2 : buf_s;
  fetch_pos : Z;
  fetch_records_amount : Z;
  fetch_id : Z
}.

Definition get_buf (il : index_logger_s) (p : bufid) : buf_s :=
  match p with Buffer1 => buffer1 il | Buffer2 => buffer2 il end.
Definition set_buf (il : index_logger_s) (p : bufid) (b : buf_s) : index_logger_s :=
  IndexLogger (fd il) (sync il) (working_buffer il) (storing_buffer il) (curr_working_buf il)
    (match p with Buffer1 => b | Buffer2 => buffer1 il end)
    (match p with Buffer1 => buffer2 il | Buffer2 => b end)
    (fetch_pos il) (fetch_records_amount il) (fetch_id il).
Definition set_fd (il : index_logger_s) (f : file_t) : index_logger_s :=
  IndexLogger f (sync il) (working_buffer il) (storing_buffer il) (curr_working_buf il)
    (buffer1 il) (buffer2 il) (fetch_pos il) (fetch_records_amount il) (fetch_id il).
Definition set_fetch (il : index_logger_s) (pos amount id : Z) : index_logger_s :=
  IndexLogger (fd il) (sync il) (working_buffer il) (storing_buffer il) (curr_working_buf il)
    (buffer1 il) (buffer2 il) pos amount id.

(** ** Creating and opening *)

(** The answers of [slab_calloc], [stat] (ENOENT), [mkdir], [open] and [write]. *)
Record create_env := CreateEnv {
  ce_calloc : bool; ce_no_dir : bool; ce_mkdir : bool; ce_open : bool; ce_nwrite : Z
}.

(** The file is opened with [O_TRUNC]: what it held before does not matter.
    Without memory the mutex of a null pointer is initialised. *)
Definition index_logger_create (e : create_env) (sync : bool) : option (option index_logger_s) :=
  if ce_calloc e then
    if ce_no_dir e && negb (ce_mkdir e) then Some None
    else if ce_open e then
      let f := file_write (File [] 0) magic_bytes (ce_nwrite e) in
      if ce_nwrite e =? 4
      then Some (Some (IndexLogger f sync (Some Buffer1) (Some Buffer2) 1 zero_buf zero_buf 0 (-1) (-1)))
      else None
    else Some None
  else None.

Definition index_logger_open (calloc : bool) (file : option (list Z)) : option (option index_logger_s) :=
  if calloc then
    match file with
    | None => Some None
    | Some d => Some (Some (IndexLogger (File d 0) false None None 0 zero_buf zero_buf 0 (-1) (-1)))
    end
  else None.

(** ** Appending *)

Definition switch_buffer (il : index_logger_s) : option index_logger_s :=
  if (curr_working_buf il =? 1) || (curr_working_buf il =? 2) then
    let '(w, s, c) := if curr_working_buf il =? 1 then (Buffer2, Buffer1, 2) else (Buffer1, Buffer2, 1) in
    let il := IndexLogger (fd il) (sync il) (Some w) (Some s) c (buffer1 il) (buffer2 il)
                (fetch_pos il) (fetch_records_amount il) (fetch_id il) in
    Some (set_buf il w (Buf 0 0 (buf_ptr (get_buf il w))))
  else None.

Definition sync_index_log (il : index_logger_s) (w : Z) : option (index_logger_s * Z) :=
  match storing_buffer il with
  | None => None
  | Some s =>
      let b := get_buf il s in
      let crc := Crc32.crc32_calc (take (Z.to_nat (count b * INDEX_LOG_ITEM_SIZE)) (buf_ptr b)) in
      let b := Buf crc (count b) (buf_ptr b) in
      let len := count b * INDEX_LOG_ITEM_SIZE + LOG_BUF_HEADER_SIZE in
      let il := set_buf il s b in
      let il := set_fd il (file_write (fd il) (take (Z.to_nat len) (buf_bytes b)) w) in
      Some (il, if w =? len then RET_SUCCESS else RET_FAILED)
  end.

(** The three [memcpy]s of an item. *)
Definition item_bytes (ili : index_log_item_s) : list Z :=
  le_split 4 (type ili) ++ index_key ili ++ value_bytes (index_value ili).

(** The second half of [index_logger_append]: store the item in the working
    buffer. *)
Definition put_item (il : index_logger_s) (ili : index_log_item_s) : option index_logger_s :=
  match working_buffer il with
  | None => None
  | Some p =>
      let b := get_buf il p in
      Some (set_buf il p (Buf (crc32sum b) (u32 (count b + 1))
        (splice (buf_ptr b) (Z.to_nat (count b * INDEX_LOG_ITEM_SIZE)) (item_bytes ili))))
  end.

(** [w]: what [write] answers when the buffer is full. *)
Definition index_logger_append (il : index_logger_s) (ili : index_log_item_s) (w : Z)
  : option (index_logger_s * Z) :=
  match working_buffer il with
  | None => None
  | Some p =>
      if LOG_BUF_SIZE <? u32 (count (get_buf il p) + 1) * INDEX_LOG_ITEM_SIZE then
        match switch_buffer il with
        | None => None
        | Some il =>
            match sync_index_log il w with
            | None => None
            | Some (il, r) =>
                if negb (r =? RET_SUCCESS) then Some (il, RET_FAILED)
                else option_map (fun il => (il, RET_SUCCESS)) (put_item il ili)
            end
        end
      else option_map (fun il => (il, RET_SUCCESS)) (put_item il ili)
  end.

Definition index_logger_flush (il : index_logger_s) (w : Z) : option (index_logger_s * Z) :=
  match working_buffer il with
  | None => None
  | Some p =>
      if count (get_buf il p) =? 0 then Some (il, RET_SUCCESS)
      else
        match switch_buffer il with
        | None => None
        | Some il =>
            match sync_index_log il w with
            | None => None
            | Some (il, r) => Some (il, if negb (r =? RET_SUCCESS) then RET_FAILED else RET_SUCCESS)
            end
        end
  end.

(** The file that is left; a failing flush is only logged. *)
Definition index_logger_close (il : index_logger_s) (w : Z) : option (file_t * Z) :=
  let c := curr_working_buf il in
  if (c =? 1) || (c =? 2) || (c =? 0) then
    if negb (c =? 0) then
      match index_logger_flush il w with
      | None => None
      | Some (il, _) => Some (fd il, RET_SUCCESS)
      end
    else Some (fd il, RET_SUCCESS)
  else None.

(** ** Reading *)

(** The answers of the three [slab_alloc]s of one fetch. *)
Definition allocs : Type := bool * bool * bool.

(** One item, field by field; every short read discards the item. *)
Definition fetch_item (il : index_logger_s) (a : allocs) : index_logger_s * option index_log_item_s :=
  let '(a1, a2, a3) := a in
  if a1 && a2 && a3 then
    let '(t, f) := file_read (fd il) 4 in
    let il := set_fd il f in
    if negb (Z.of_nat (length t) =? 4) then (il, None) else
    let '(k, f) := file_read (fd il) 16 in
    let il := set_fd il f in
    if negb (Z.of_nat (length k) =? 16) then (il, None) else
    let '(v, f) := file_read (fd il) 24 in
    let il := set_fd il f in
    if negb (Z.of_nat (length v) =? 24) then (il, None) else
    let id := fetch_id il + 1 in
    let il := set_fetch il (fetch_pos il) (fetch_records_amount il)
                (if id =? fetch_records_amount il then -1 else id) in
    (il, Some (IndexLogItem (le_combine t) k (value_of_bytes v)))
  else (il, None).

(** The block header, when the previous block is used up. *)
Definition fetch_block (il : index_logger_s) (a : allocs) : index_logger_s * option index_log_item_s :=
  if fetch_id il =? -1 then
    let '(c, f) := file_read (fd il) 4 in
    let il := set_fd il f in
    if negb (Z.of_nat (length c) =? 4) then (il, None) else
    let '(n, f) := file_read (fd il) 4 in
    let il := set_fd il f in
    if negb (Z.of_nat (length n) =? 4) then (il, None) else
    fetch_item (set_fetch il (fetch_pos il) (le_combine n) 0) a
  else fetch_item il a.

Definition index_logger_fetch (il : index_logger_s) (a : allocs) : index_logger_s * option index_log_item_s :=
  let '(il, r) :=
    if fetch_pos il =? 0 then
      let '(m, f) := file_read (fd il) 4 in
      let il := set_fd il f in
      if negb (Z.of_nat (length m) =? 4) || negb (le_combine m =? htonl MAGIC_HEADER) then (il, None)
      else fetch_block il a
    else fetch_block il a in
  (set_fetch il (Z.of_nat (f_pos (fd il))) (fetch_records_amount il) (fetch_id il), r).

(** [while ((ili = index_logger_fetch(il)) != NULL)]; every fetch that returns
    an item consumes 44 bytes, so the file's length is enough fuel. *)
Fixpoint fetch_all (fuel : nat) (il : index_logger_s) : list index_log_item_s :=
  match fuel with
  | O => []
  | S fuel =>
      match index_logger_fetch il (true, true, true) with
      | (il, Some ili) => ili :: fetch_all fuel il
      | (_, None) => []
      end
  end.

(** The names of [replay_journal.c]; [None] is a read outside the array. *)
Definition indexlog_op_type_mappings : list string :=
  ["index_unknown_op"; "index_append"; "index_modify"; "index_del"]%string.

(** The lines [print_indexlog] prints: number, type name, item. *)
Definition print_indexlog (calloc : bool) (file : option (list Z))
  : option (list (nat * option string * index_log_item_s)) :=
  match index_logger_open calloc file with
  | Some (Some il) =>
      Some (imap (fun i ili => (S i, indexlog_op_type_mappings !! Z.to_nat (type ili), ili))
                 (fetch_all (S (length (f_data (fd il)))) il))
  | _ => None
  end.

(** How [main] of [replay_journal.c] ends: lines printed, [die] with a text, a
    crash, or without a word. *)
Inductive replay :=
  | Printed (lines : list (nat * option string * index_log_item_s)) | Died (text : string) | Crashed | Quiet.
(** [main]: its arguments behind the program's name, what [access] says, and the
    file when it opens. *)
Definition replay_main (args : list string) (readable calloc : bool) (file : option (list Z)) : replay :=
  match args with
  | [_] => Died "not available now"
  | [opt; path] =>
      if String.eqb opt "-d" then
        if readable then
          match index_logger_open calloc file with
          | None => Crashed
          | Some None => Died ("Cannot open " ++ path)
          | Some (Some _) => Printed (default [] (print_indexlog calloc file))
          end
        else Died (path ++ " is not readable")
      else Quiet
  | _ => Died "arg error"
  end.

(** [index_logger_free_item] on the item's three blocks, with the allocator's
    state and what the system gives it. *)
Definition index_logger_free_item (st : Slab.slab_t) (e : Slab.env) (ili index_key index_value : Z) : Slab.slab_t * Z :=
  let st := Slab._slab_free st e index_value in
  let st := Slab._slab_free st e index_key in
  (Slab._slab_free st e ili, RET_SUCCESS).

(** ** Reading back a journal *)

Definition item_ok (ili : index_log_item_s) : Prop :=
  is_u32 (type ili) /\ key_ok (index_key ili) /\ value_ok (index_value ili).

Definition enc_items (its : list index_log_item_s) : list Z := concat (item_bytes <$> its).
(** A block on disk, with whatever checksum its header holds. *)
Definition enc_block (c : Z) (its : list index_log_item_s) : list Z :=
  le_split 4 c ++ le_split 4 (Z.of_nat (length its)) ++ enc_items its.
Definition enc_blocks (bs : list (Z * list index_log_item_s)) : list Z :=
  concat ((fun b => enc_block b.1 b.2) <$> bs).
Definition block_fits (b : Z * list index_log_item_s) : Prop :=
  b.2 <> [] /\ Z.of_nat (length b.2) < 2 ^ 32 /\ Forall item_ok b.2.

Lemma item_bytes_length ili : item_ok ili -> length (item_bytes ili) = 44%nat.
Proof.
  intros (_ & [Hk _] & _). unfold item_bytes. rewrite !length_app, le_split_length, value_bytes_length, Hk. done.
Qed.

Lemma enc_items_length its : Forall item_ok its -> length (enc_items its) = (44 * length its)%nat.
Proof.
  induction 1 as [|it its Hi _ IH]; [done|]. unfold enc_items in *. cbn [fmap list_fmap concat length].
  rewrite length_app, IH, item_bytes_length by done. lia.
Qed.

Lemma file_read_app d p a rest n :
  drop p d = a ++ rest -> length a = n ->
  file_read (File d p) n = (a, File d (p + n)) /\ drop (p + n) d = rest.
Proof.
  intros H <-. unfold file_read; cbn [f_data f_pos]. rewrite H, take_app_le, take_ge by lia. split; [done|].
  rewrite <- drop_drop, H. apply drop_app_length.
Qed.

(** One [read] of a field that is there: [Hd] says what is left, [Hl] how long
    the field is. *)
Ltac read_field Hd Hl :=
  let E := fresh "E" in
  destruct (file_read_app _ _ _ _ _ Hd Hl) as [E Hd']; clear Hd; rename Hd' into Hd;
  rewrite E; clear E;
  cbn [set_fd set_fetch fd fetch_id fetch_pos fetch_records_amount];
  rewrite Hl; cbn [Z.of_nat Z.eqb Pos.of_succ_nat Pos.succ Pos.eqb negb].

(** A reader in the middle of a journal: [cur] are the items left in the
    current block, [bs] the blocks after it. *)
Record reading (il : index_logger_s) (cur : list index_log_item_s)
  (bs : list (Z * list index_log_item_s)) : Prop := {
  rd_data : drop (f_pos (fd il)) (f_data (fd il)) = enc_items cur ++ enc_blocks bs;
  rd_cur : Forall item_ok cur;
  rd_blocks : Forall block_fits bs;
  rd_id : if decide (cur = []) then fetch_id il = -1
          else 0 <= fetch_id il /\ fetch_records_amount il = fetch_id il + Z.of_nat (length cur)
}.

Lemma reading_set_pos il pos cur bs :
  reading il cur bs -> reading (set_fetch il pos (fetch_records_amount il) (fetch_id il)) cur bs.
Proof. intros []. now split. Qed.

Lemma fetch_item_reading il it cur bs :
  reading il (it :: cur) bs ->
  exists il', fetch_item il (true, true, true) = (il', Some it) /\ reading il' cur bs /\
    f_data (fd il') = f_data (fd il) /\ (f_pos (fd il) < f_pos (fd il'))%nat.
Proof.
  destruct il as [[d p] sy w sb c b1 b2 fp am id].
  intros [Hd Hc Hb Hid]. cbn [fd f_pos f_data fetch_id fetch_records_amount] in *.
  apply Forall_cons in Hc as [Hit Hc]. pose proof Hit as (Ht & [Hk _] & Hv).
  change KEY_LEN with 16%nat in Hk.
  rewrite decide_False in Hid by done. destruct Hid as [Hid0 Hid]. cbn [length] in Hid.
  unfold enc_items in Hd. cbn [fmap list_fmap concat] in Hd. fold (enc_items cur) in Hd.
  unfold item_bytes in Hd. rewrite <- !app_assoc in Hd.
  unfold fetch_item. cbn [andb fd]. pose proof (le_split_length 4 (type it)) as Hl4.
  pose proof (value_bytes_length (index_value it)) as Hl24. change sizeof_index_value with 24%nat in Hl24.
  read_field Hd Hl4. read_field Hd Hk. read_field Hd Hl24.
  eexists. split; [|split; [|split]].
  - f_equal. f_equal. rewrite le_field by exact Ht.
    pose proof (value_roundtrip (index_value it) [] Hv) as E. rewrite app_nil_r in E. rewrite E. now destruct it.
  - split; cbn [set_fd set_fetch fd f_pos f_data fetch_id fetch_records_amount]; [exact Hd|done|done|].
    destruct (decide (cur = [])) as [->|Hne]; cbn [length] in *.
    + now rewrite (proj2 (Z.eqb_eq _ _)) by lia.
    + destruct cur; [done|]. cbn [length] in *. rewrite (proj2 (Z.eqb_neq _ _)) by lia. lia.
  - done.
  - cbn [set_fd set_fetch fd f_pos]. lia.
Qed.

Lemma fetch_block_reading il it cur bs :
  reading il (it :: cur) bs \/ (exists c, reading il [] ((c, it :: cur) :: bs)) ->
  exists il', fetch_block il (true, true, true) = (il', Some it) /\ reading il' cur bs /\
    f_data (fd il') = f_data (fd il) /\ (f_pos (fd il) < f_pos (fd il'))%nat.
Proof.
  unfold fetch_block. intros [H|[c H]].
  - pose proof (rd_id _ _ _ H) as Hid. rewrite decide_False in Hid by done.
    rewrite (proj2 (Z.eqb_neq _ _)) by lia. now apply fetch_item_reading.
  - destruct il as [[d p] sy w sb cw b1 b2 fp am id].
    destruct H as [Hd _ Hb Hid]. rewrite decide_True in Hid by done.
    cbn [fd f_pos f_data fetch_id fetch_records_amount] in *. rewrite Hid. cbn [Z.eqb Pos.eqb].
    apply Forall_cons in Hb as [(_ & Hlen & Hok) Hb]. cbn [snd] in Hlen, Hok.
    cbn [enc_items fmap list_fmap concat app] in Hd. unfold enc_blocks in Hd.
    cbn [fmap list_fmap concat fst snd] in Hd. fold (enc_blocks bs) in Hd.
    unfold enc_block in Hd. rewrite <- !app_assoc in Hd.
    pose proof (le_split_length 4 c) as Hl. read_field Hd Hl.
    pose proof (le_split_length 4 (Z.of_nat (length (it :: cur)))) as Hl'. read_field Hd Hl'.
    rewrite le_field by lia. match goal with |- context [fetch_item ?i _] => set (il1 := i) end.
    destruct (fetch_item_reading il1 it cur bs) as (il' & Hf & Hr & Hdat & Hpos).
    { split; cbn [il1 fd f_pos f_data fetch_id fetch_records_amount]; try done. }
    exists il'. split; [exact Hf|]. split; [exact Hr|]. split; [exact Hdat|].
    unfold il1 in Hpos; cbn [set_fd set_fetch fd f_pos] in Hpos |- *. lia.
Qed.

Lemma fetch_block_end il : reading il [] [] -> (fetch_block il (true, true, true)).2 = None.
Proof.
  intros [Hd _ _ Hid]. rewrite decide_True in Hid by done. unfold fetch_block. rewrite Hid. cbn [Z.eqb Pos.eqb].
  unfold file_read. cbn [enc_items enc_blocks fmap list_fmap concat app] in Hd. now rewrite Hd.
Qed.

(** Every item left is returned, in order, and then NULL. *)
Lemma fetch_all_reading fuel il cur bs :
  reading il cur bs -> fetch_pos il <> 0 ->
  (length cur + length (concat (snd <$> bs)) < fuel)%nat ->
  fetch_all fuel il = cur ++ concat (snd <$> bs).
Proof.
  revert il cur bs; induction fuel as [|fuel IH]; intros il cur bs Hr Hp Hf; [lia|].
  cbn [fetch_all]. unfold index_logger_fetch. rewrite (proj2 (Z.eqb_neq _ _)) by done.
  assert (Hstep : forall it cur' bs',
    reading il (it :: cur') bs' \/ (exists c, reading il [] ((c, it :: cur') :: bs')) ->
    (length cur' + length (concat (snd <$> bs')) < fuel)%nat ->
    (let (il0, o) := let '(il0, r) := fetch_block il (true, true, true) in
       (set_fetch il0 (Z.of_nat (f_pos (fd il0))) (fetch_records_amount il0) (fetch_id il0), r) in
     match o with Some ili => ili :: fetch_all fuel il0 | None => [] end)
    = it :: cur' ++ concat (snd <$> bs')).
  { intros it cur' bs' H Hl. destruct (fetch_block_reading _ _ _ _ H) as (il' & E & Hr' & _ & Hpos).
    rewrite E. f_equal. apply IH; [now apply reading_set_pos| |done].
    cbn [set_fetch fetch_pos]. lia. }
  destruct cur as [|it cur].
  - destruct bs as [|[c [|it cur']] bs'].
    + pose proof (fetch_block_end _ Hr) as He. destruct (fetch_block il _) as [il' [|]]; [done|done].
    + destruct Hr as [_ _ Hb _]. apply Forall_cons in Hb as [[Hne _] _]. done.
    + cbn [fmap list_fmap concat snd app]. apply Hstep; [right; now exists c|].
      cbn [fmap list_fmap concat snd length] in Hf. rewrite length_app in Hf. cbn [length] in Hf. lia.
  - cbn [app]. apply Hstep; [now left|]. cbn [length] in Hf. lia.
Qed.

(** ** Writing a journal *)

(** What a journal means: the blocks on disk and the items still in memory. *)
Record journal := Journal { flushed : list (list index_log_item_s); pending : list index_log_item_s }.
Definition journal_items (J : journal) : list index_log_item_s := concat (flushed J) ++ pending J.

(** A block as [sync_index_log] writes it: with the checksum of its items. *)
Definition summed (its : list index_log_item_s) : Z * list index_log_item_s :=
  (Crc32.crc32_calc (enc_items its), its).
Definition BLOCK_ITEMS : nat := 186.

(** The specification of the two operations. *)
Definition journal_append (J : journal) (it : index_log_item_s) : journal :=
  if decide (length (pending J) = BLOCK_ITEMS) then Journal (flushed J ++ [pending J]) [it]
  else Journal (flushed J) (pending J ++ [it]).
Definition journal_flush (J : journal) : journal :=
  if decide (pending J = []) then J else Journal (flushed J ++ [pending J]) [].

Definition other (p : bufid) : bufid := match p with Buffer1 => Buffer2 | Buffer2 => Buffer1 end.

(** A logger in append mode holds the journal [J]: the pending items are at
    the front of the working buffer, the file holds the summed blocks. *)
Record logging (il : index_logger_s) (p : bufid) (J : journal) : Prop := {
  lg_working : working_buffer il = Some p;
  lg_storing : storing_buffer il = Some (other p);
  lg_curr : curr_working_buf il = match p with Buffer1 => 1 | Buffer2 => 2 end;
  lg_size : forall q, length (buf_ptr (get_buf il q)) = Z.to_nat LOG_BUF_SIZE;
  lg_count : count (get_buf il p) = Z.of_nat (length (pending J));
  lg_pending : take (44 * length (pending J)) (buf_ptr (get_buf il p)) = enc_items (pending J);
  lg_max : (length (pending J) <= BLOCK_ITEMS)%nat;
  lg_file : f_data (fd il) = magic_bytes ++ enc_blocks (summed <$> flushed J);
  lg_blocks : Forall (fun b => b <> [] /\ (length b <= BLOCK_ITEMS)%nat /\ Forall item_ok b) (flushed J);
  lg_items : Forall item_ok (pending J)
}.

(** [write] answered with the whole block. *)
Definition full_write (il : index_logger_s) : Z :=
  match working_buffer il with
  | Some p => count (get_buf il p) * INDEX_LOG_ITEM_SIZE + LOG_BUF_HEADER_SIZE
  | None => 0
  end.

Lemma get_set_buf il p q b : get_buf (set_buf il p b) q = if decide (p = q) then b else get_buf il q.
Proof. destruct p, q; reflexivity. Qed.

(** Switching and syncing a non-empty working buffer, for any answer [w]. *)
Lemma switch_sync il p J w :
  logging il p J ->
  let its := pending J in
  let block := enc_block (summed its).1 its in
  exists il1 il2,
    switch_buffer il = Some il1 /\
    sync_index_log il1 w = Some (il2, if w =? full_write il then RET_SUCCESS else RET_FAILED) /\
    working_buffer il2 = Some (other p) /\ storing_buffer il2 = Some p /\
    curr_working_buf il2 = match other p with Buffer1 => 1 | Buffer2 => 2 end /\
    (forall q, length (buf_ptr (get_buf il2 q)) = Z.to_nat LOG_BUF_SIZE) /\
    count (get_buf il2 (other p)) = 0 /\
    f_data (fd il2) = f_data (fd il) ++ take (Z.to_nat w) block /\
    Z.of_nat (length block) = full_write il.
Proof.
  intros [Hw Hs Hc Hsz Hcnt Hpend Hmax Hfile _ Hok] its block. fold its in Hcnt, Hpend, Hmax, Hok.
  pose proof (enc_items_length _ Hok) as Hlen. unfold BLOCK_ITEMS in Hmax.
  assert (Hblock : Z.of_nat (length block) = full_write il).
  { unfold block, enc_block, full_write. rewrite Hw, Hcnt, !length_app, !le_split_length, Hlen.
    unfold INDEX_LOG_ITEM_SIZE, LOG_BUF_HEADER_SIZE. lia. }
  assert (Hbytes : take (Z.to_nat (count (get_buf il p) * INDEX_LOG_ITEM_SIZE)) (buf_ptr (get_buf il p)) = enc_items its).
  { rewrite Hcnt, <- Hpend. f_equal. unfold INDEX_LOG_ITEM_SIZE. lia. }
  assert (Htake : take (Z.to_nat (full_write il))
     (buf_bytes (Buf (summed its).1 (count (get_buf il p)) (buf_ptr (get_buf il p)))) = block).
  { unfold buf_bytes, block, enc_block; cbn [crc32sum count buf_ptr]. rewrite Hcnt.
    rewrite <- Hblock. unfold block, enc_block. rewrite !length_app, !le_split_length, Hlen, Nat2Z.id.
    rewrite take_app, le_split_length, take_ge by (rewrite le_split_length; lia). f_equal.
    rewrite take_app, le_split_length, take_ge by (rewrite le_split_length; lia). f_equal.
    rewrite <- Hpend. f_equal. lia. }
  unfold full_write in *. rewrite Hw in *.
  unfold switch_buffer. rewrite Hc.
  destruct p; cbn [Z.eqb Pos.eqb orb other]; eexists _, _; (split; [reflexivity|]);
    unfold sync_index_log; cbn [storing_buffer set_buf get_buf buffer1 buffer2 count buf_ptr set_fd fd crc32sum] in *;
    rewrite Hbytes; (split; [reflexivity|]); cbn [working_buffer storing_buffer curr_working_buf set_fd set_buf fd f_data file_write];
    change (summed its).1 with (Crc32.crc32_calc (enc_items its)) in Htake; rewrite Htake; repeat split; try done; intros []; cbn [get_buf set_fd set_buf buffer1 buffer2 buf_ptr count];
    try (exact (Hsz Buffer1)); try (exact (Hsz Buffer2)).
Qed.

Lemma enc_items_app a b : enc_items (a ++ b) = enc_items a ++ enc_items b.
Proof. unfold enc_items. now rewrite fmap_app, concat_app. Qed.

Lemma enc_blocks_snoc bs b : enc_blocks (bs ++ [b]) = enc_blocks bs ++ enc_block b.1 b.2.
Proof. unfold enc_blocks. rewrite fmap_app, concat_app. cbn. now rewrite app_nil_r. Qed.

(** Storing an item behind the pending ones. *)
Lemma put_item_logging il p J it :
  logging il p J -> item_ok it -> (length (pending J) < BLOCK_ITEMS)%nat ->
  exists il', put_item il it = Some il' /\ logging il' p (Journal (flushed J) (pending J ++ [it])).
Proof.
  intros [Hw Hs Hc Hsz Hcnt Hpend Hmax Hfile Hbl Hok] Hit Hroom. unfold BLOCK_ITEMS in *.
  pose proof (item_bytes_length _ Hit) as Hlen. pose proof (enc_items_length _ Hok) as Hlens.
  unfold put_item. rewrite Hw. eexists. split; [reflexivity|].
  assert (Hpos : Z.to_nat (count (get_buf il p) * INDEX_LOG_ITEM_SIZE) = (44 * length (pending J))%nat)
    by (rewrite Hcnt; unfold INDEX_LOG_ITEM_SIZE; lia).
  assert (Hfits : (44 * length (pending J) + length (item_bytes it) <= length (buf_ptr (get_buf il p)))%nat).
  { rewrite Hsz, Hlen. unfold LOG_BUF_SIZE, LOG_BUF_HEADER_SIZE. lia. }
  rewrite Hpos.
  split; cbn [flushed pending].
  - now destruct p.
  - now destruct p.
  - now destruct p.
  - intros q. rewrite get_set_buf. destruct (decide (p = q)) as [<-|]; [|done].
    cbn [buf_ptr]. now rewrite splice_length.
  - rewrite get_set_buf, decide_True by done. cbn [count]. rewrite Hcnt, length_app. cbn [length].
    rewrite u32_small by (unfold in_range; lia). lia.
  - rewrite get_set_buf, decide_True by done. cbn [buf_ptr]. rewrite length_app, enc_items_app. cbn [length].
    replace (44 * (length (pending J) + 1))%nat with (44 * length (pending J) + 44)%nat by lia.
    rewrite <- take_take_drop, (splice_take _ _ _ (44 * length (pending J))) by lia. rewrite Hpend.
    pose proof (splice_read _ _ _ Hfits) as R. rewrite Hlen in R. rewrite R.
    unfold enc_items at 3. cbn [fmap list_fmap concat].
    now rewrite app_nil_r.
  - rewrite length_app. cbn [length]. unfold BLOCK_ITEMS. lia.
  - destruct p; exact Hfile.
  - done.
  - apply Forall_app. auto.
Qed.

(** After a successful switch and sync the journal's pending items are a block. *)
Lemma switched_logging il p J il2 :
  logging il p J -> pending J <> [] ->
  working_buffer il2 = Some (other p) -> storing_buffer il2 = Some p ->
  curr_working_buf il2 = match other p with Buffer1 => 1 | Buffer2 => 2 end ->
  (forall q, length (buf_ptr (get_buf il2 q)) = Z.to_nat LOG_BUF_SIZE) ->
  count (get_buf il2 (other p)) = 0 ->
  f_data (fd il2) = f_data (fd il) ++ enc_block (summed (pending J)).1 (pending J) ->
  logging il2 (other p) (Journal (flushed J ++ [pending J]) []).
Proof.
  intros [Hw Hs Hc Hsz Hcnt Hpend Hmax Hfile Hbl Hok] Hne Hw2 Hs2 Hc2 Hsz2 Hcnt2 Hf2.
  split; cbn [flushed pending length]; try done.
  - rewrite Hs2. now destruct p.
  - unfold BLOCK_ITEMS. lia.
  - rewrite Hf2, Hfile, fmap_app. cbn [fmap list_fmap]. rewrite enc_blocks_snoc, app_assoc. done.
  - apply Forall_app. split; [done|]. now apply Forall_singleton.
Qed.

Lemma append_logging il p J it :
  logging il p J -> item_ok it ->
  exists il' p', index_logger_append il it (full_write il) = Some (il', RET_SUCCESS) /\
    logging il' p' (journal_append J it).
Proof.
  intros Hl Hit. pose proof Hl as [Hw _ _ _ Hcnt _ Hmax _ _ _]. unfold BLOCK_ITEMS in Hmax.
  unfold index_logger_append. rewrite Hw, Hcnt. unfold journal_append.
  rewrite u32_small by (unfold in_range; lia).
  unfold LOG_BUF_SIZE, LOG_BUF_HEADER_SIZE, INDEX_LOG_ITEM_SIZE, BLOCK_ITEMS in *.
  destruct (decide (length (pending J) = 186%nat)) as [Hfull|Hroom].
  - rewrite (proj2 (Z.ltb_lt _ _)) by lia.
    destruct (switch_sync il p J (full_write il) Hl)
      as (il1 & il2 & Esw & Esy & Hw2 & Hs2 & Hc2 & Hsz2 & Hcnt2 & Hf2 & Hlen).
    rewrite Esw, Esy, Z.eqb_refl. cbn [Z.eqb negb RET_SUCCESS].
    assert (Hl2 : logging il2 (other p) (Journal (flushed J ++ [pending J]) [])).
    { apply (switched_logging il); try done; [intros E; rewrite E in Hfull; done|].
      rewrite Hf2, <- Hlen, Nat2Z.id, take_ge by done. done. }
    destruct (put_item_logging _ _ _ it Hl2 Hit) as (il3 & Ep & Hl3); [cbn; unfold BLOCK_ITEMS; lia|].
    rewrite Ep. exists il3, (other p). split; [done|exact Hl3].
  - rewrite (proj2 (Z.ltb_ge _ _)) by lia.
    destruct (put_item_logging _ _ _ it Hl Hit) as (il3 & Ep & Hl3); [unfold BLOCK_ITEMS; lia|].
    rewrite Ep. exists il3, p. split; [done|exact Hl3].
Qed.

Lemma flush_logging il p J :
  logging il p J ->
  exists il' p', index_logger_flush il (full_write il) = Some (il', RET_SUCCESS) /\
    logging il' p' (journal_flush J).
Proof.
  intros Hl. pose proof Hl as [Hw _ _ _ Hcnt _ Hmax _ _ _].
  unfold index_logger_flush. rewrite Hw, Hcnt. unfold journal_flush.
  destruct (decide (pending J = [])) as [E|Hne].
  - rewrite E. cbn. exists il, p. split; [done|exact Hl].
  - rewrite (proj2 (Z.eqb_neq _ _)) by (destruct (pending J); [done|cbn [length]; lia]).
    destruct (switch_sync il p J (full_write il) Hl)
      as (il1 & il2 & Esw & Esy & Hw2 & Hs2 & Hc2 & Hsz2 & Hcnt2 & Hf2 & Hlen).
    rewrite Esw, Esy, Z.eqb_refl. cbn [Z.eqb negb RET_SUCCESS]. exists il2, (other p). split; [done|].
    apply (switched_logging il); try done. rewrite Hf2, <- Hlen, Nat2Z.id, take_ge by done. done.
Qed.

(** ** Whole runs *)

Inductive log_op := Append (it : index_log_item_s) | Flush.

(** A run in which every [write] is complete and every call succeeds. *)
Fixpoint run_log (il : index_logger_s) (ops : list log_op) : option index_logger_s :=
  match ops with
  | [] => Some il
  | op :: ops =>
      match (match op with
             | Append it => index_logger_append il it (full_write il)
             | Flush => index_logger_flush il (full_write il)
             end) with
      | Some (il, 0) => run_log il ops
      | _ => None
      end
  end.
Definition run_spec (J : journal) (ops : list log_op) : journal :=
  fold_left (fun J op => match op with Append it => journal_append J it | Flush => journal_flush J end) ops J.
Definition appended (ops : list log_op) : list index_log_item_s :=
  concat ((fun op => match op with Append it => [it] | Flush => [] end) <$> ops).
Definition op_ok (op : log_op) : Prop := match op with Append it => item_ok it | Flush => True end.

Lemma journal_append_items J it : journal_items (journal_append J it) = journal_items J ++ [it].
Proof.
  unfold journal_items, journal_append. destruct (decide _); cbn [flushed pending]; [|now rewrite app_assoc].
  rewrite concat_app. cbn. now rewrite app_nil_r.
Qed.

Lemma journal_flush_items J : journal_items (journal_flush J) = journal_items J.
Proof.
  unfold journal_items, journal_flush. destruct (decide _); cbn [flushed pending]; [done|].
  rewrite concat_app. cbn. now rewrite !app_nil_r.
Qed.

Lemma run_spec_items J ops : journal_items (run_spec J ops) = journal_items J ++ appended ops.
Proof.
  revert J; induction ops as [|op ops IH]; intros J; [unfold appended; cbn; now rewrite app_nil_r|].
  unfold run_spec in *. cbn [fold_left]. rewrite IH. unfold appended. cbn [fmap list_fmap concat].
  destruct op; rewrite ?journal_append_items, ?journal_flush_items, <- ?app_assoc; done.
Qed.

Lemma run_log_logging il p J ops :
  logging il p J -> Forall op_ok ops ->
  exists il' p', run_log il ops = Some il' /\ logging il' p' (run_spec J ops).
Proof.
  intros Hl Hok. revert il p J Hl; induction Hok as [|op ops Hop _ IH]; intros il p J Hl.
  - exists il, p. done.
  - cbn [run_log]. destruct op as [it|].
    + destruct (append_logging _ _ _ _ Hl Hop) as (il' & p' & E & Hl'). rewrite E. now apply (IH _ p').
    + destruct (flush_logging _ _ _ Hl) as (il' & p' & E & Hl'). rewrite E. now apply (IH _ p').
Qed.

(** A freshly created logger. *)
Definition create_ok : create_env := CreateEnv true false true true 4.
Definition fresh_logger (sync : bool) : index_logger_s :=
  IndexLogger (File magic_bytes 0) sync (Some Buffer1) (Some Buffer2) 1 zero_buf zero_buf 0 (-1) (-1).

Lemma create_fresh sync : index_logger_create create_ok sync = Some (Some (fresh_logger sync)).
Proof. reflexivity. Qed.

Lemma fresh_logging sync : logging (fresh_logger sync) Buffer1 (Journal [] []).
Proof.
  split; cbn [flushed pending length working_buffer storing_buffer curr_working_buf fresh_logger
              get_buf buffer1 buffer2 count fd f_data]; try done.
  - intros []; cbn [get_buf fresh_logger buffer1 buffer2 buf_ptr zero_buf]; apply length_replicate.
  - unfold BLOCK_ITEMS. lia.
Qed.

(** A reader just opened on a journal file, after the magic number. *)
Lemma fetch_all_open fuel d bs :
  drop 4 d = enc_blocks bs -> Forall block_fits bs -> (4 <= length d)%nat ->
  (length (concat (snd <$> bs)) < fuel)%nat ->
  fetch_all fuel (IndexLogger (File d 4) false None None 0 zero_buf zero_buf 4 (-1) (-1))
  = concat (snd <$> bs).
Proof.
  intros Hd Hbs Hlen Hf. apply (fetch_all_reading fuel _ [] bs); [|done|done].
  split; cbn [fd f_pos f_data fetch_id]; try done.
Qed.

(** Skipping the magic number on the first fetch. *)
Lemma fetch_all_magic fuel d m :
  length m = 4%nat -> le_combine m = htonl MAGIC_HEADER ->
  fetch_all fuel (IndexLogger (File (m ++ d) 0) false None None 0 zero_buf zero_buf 0 (-1) (-1)) =
  fetch_all fuel (IndexLogger (File (m ++ d) 4) false None None 0 zero_buf zero_buf 4 (-1) (-1)).
Proof.
  intros Hm Hmagic. destruct fuel as [|fuel]; [done|]. cbn [fetch_all]. unfold index_logger_fetch.
  cbn [fetch_pos Z.eqb].
  destruct (file_read_app (m ++ d) 0 m d 4 eq_refl Hm) as [E _]. cbn [fd]. rewrite E, Hm, Hmagic.
  cbn [Z.of_nat Z.eqb Pos.of_succ_nat Pos.succ Pos.eqb negb orb]. rewrite Z.eqb_refl. cbn [negb].
  unfold fetch_block. cbn [set_fd fetch_id fd sync working_buffer storing_buffer curr_working_buf buffer1
    buffer2 fetch_pos fetch_records_amount Z.eqb Pos.eqb f_data Nat.add].
  destruct (file_read (File (m ++ d) 4) 4) as [c f1]. destruct (negb (Z.of_nat (length c) =? 4)); [done|].
  destruct (file_read f1 4) as [n f2]. cbn [set_fd fd]. destruct (negb (Z.of_nat (length n) =? 4)); [done|].
  unfold fetch_item. cbn [andb set_fetch set_fd fd fetch_id fetch_pos fetch_records_amount sync working_buffer
    storing_buffer curr_working_buf buffer1 buffer2].
  destruct (file_read f2 4) as [t f3]. destruct (negb (Z.of_nat (length t) =? 4)); [done|].
  cbn [set_fd fd]. destruct (file_read f3 16) as [k f4]. destruct (negb (Z.of_nat (length k) =? 16)); [done|].
  cbn [set_fd fd]. destruct (file_read f4 24) as [v f5]. destruct (negb (Z.of_nat (length v) =? 24)); [done|].
  reflexivity.
Qed.

Lemma logging_blocks_fit il p J :
  logging il p J -> Forall block_fits (summed <$> flushed J).
Proof.
  intros [_ _ _ _ _ _ _ _ Hb _]. apply Forall_fmap. eapply Forall_impl; [exact Hb|].
  intros b (Hne & Hlen & Hok). unfold BLOCK_ITEMS in Hlen. split; cbn [summed snd]; [done|]. split; [lia|done].
Qed.

Lemma enc_block_length c its : Forall item_ok its -> length (enc_block c its) = (8 + 44 * length its)%nat.
Proof. intros H. unfold enc_block. rewrite !length_app, !le_split_length, enc_items_length by done. lia. Qed.

Lemma enc_blocks_fuel bs :
  Forall block_fits bs -> (length (concat (snd <$> bs)) <= length (enc_blocks bs))%nat.
Proof.
  induction 1 as [|b bs (_ & _ & Hok) _ IH]; [done|]. unfold enc_blocks in *.
  cbn [fmap list_fmap concat]. rewrite !length_app, enc_block_length by done. lia.
Qed.

(** ** Properties *)

(** C23: the journal round trip. Whatever operations a logger saw, once it is
    closed the file can be opened and [index_logger_fetch] returns exactly the
    items appended, in order, and then NULL; every block on disk carries the
    checksum of its items and at most 186 of them. Every write is complete
    ([journal_write_failure] has the others). *)
Theorem journal_roundtrip sync ops :
  Forall op_ok ops ->
  exists il f r blocks,
    index_logger_create create_ok sync = Some (Some (fresh_logger sync)) /\
    run_log (fresh_logger sync) ops = Some il /\
    index_logger_close il (full_write il) = Some (f, RET_SUCCESS) /\
    f_data f = magic_bytes ++ enc_blocks (summed <$> blocks) /\
    Forall (fun b => b <> [] /\ (length b <= BLOCK_ITEMS)%nat) blocks /\
    index_logger_open true (Some (f_data f)) = Some (Some r) /\
    fetch_all (S (length (f_data f))) r = appended ops.
Proof.
  intros Hok. destruct (run_log_logging _ _ _ _ (fresh_logging sync) Hok) as (il & p & Erun & Hl).
  destruct (flush_logging _ _ _ Hl) as (il' & p' & Efl & Hl').
  set (J := journal_flush (run_spec (Journal [] []) ops)) in *.
  assert (Hpend : pending J = []).
  { unfold J, journal_flush. destruct (decide _) as [E|]; [exact E|done]. }
  assert (Hitems : concat (flushed J) = appended ops).
  { pose proof (journal_flush_items (run_spec (Journal [] []) ops)) as E. fold J in E.
    rewrite run_spec_items in E. unfold journal_items in E. rewrite Hpend, app_nil_r in E. exact E. }
  pose proof (logging_blocks_fit _ _ _ Hl') as Hfit. pose proof (lg_file _ _ _ Hl') as Hfile.
  exists il, (fd il'), (IndexLogger (File (f_data (fd il')) 0) false None None 0 zero_buf zero_buf 0 (-1) (-1)), (flushed J).
  split; [done|]. split; [done|]. split.
  { unfold index_logger_close. rewrite (lg_curr _ _ _ Hl). destruct p; cbn [Z.eqb Pos.eqb orb negb]; now rewrite Efl. }
  split; [exact Hfile|]. split.
  { eapply Forall_impl; [apply (lg_blocks _ _ _ Hl')|]. intros b (? & ? & _). done. }
  split; [reflexivity|]. rewrite Hfile, fetch_all_magic by reflexivity.
  assert (Hsnd : forall bs, snd <$> (summed <$> bs) = bs) by (intros bs; rewrite <- list_fmap_compose; apply list_fmap_id).
  rewrite (fetch_all_open _ _ (summed <$> flushed J)); [now rewrite Hsnd|done|done| |].
  - rewrite length_app. change (length magic_bytes) with 4%nat. lia.
  - rewrite length_app. pose proof (enc_blocks_fuel _ Hfit). lia.
Qed.

(** A sample item. *)
Definition ex_item : index_log_item_s :=
  IndexLogItem 1 (replicate 16 7) (IndexValue 3 0 5 800024).

Lemma ex_item_ok : item_ok ex_item.
Proof. repeat split; try (vm_compute; congruence). apply Forall_replicate. done. Qed.

Lemma journal_roundtrip_witness :
  exists il f r blocks,
    index_logger_create create_ok true = Some (Some (fresh_logger true)) /\
    run_log (fresh_logger true) [Append ex_item; Flush; Append ex_item] = Some il /\
    index_logger_close il (full_write il) = Some (f, RET_SUCCESS) /\
    f_data f = magic_bytes ++ enc_blocks (summed <$> blocks) /\
    Forall (fun b => b <> [] /\ (length b <= BLOCK_ITEMS)%nat) blocks /\
    index_logger_open true (Some (f_data f)) = Some (Some r) /\
    fetch_all (S (length (f_data f))) r = [ex_item; ex_item].
Proof.
  apply (journal_roundtrip true [Append ex_item; Flush; Append ex_item]).
  repeat constructor; try apply ex_item_ok.
Defined.

(** C35: a failed or short [write] loses the whole buffer. When the working
    buffer holds items and [write] answers anything but their full length, both
    [index_logger_flush] and an [index_logger_append] that must flush report
    RET_FAILED, leave at most a truncated block on disk, and start again with an
    empty buffer: the pending items, and the item being appended, are gone. *)
Theorem journal_write_failure il p J it w :
  logging il p J -> pending J <> [] -> w <> full_write il ->
  (exists il', index_logger_flush il w = Some (il', RET_FAILED) /\
     working_buffer il' = Some (other p) /\ count (get_buf il' (other p)) = 0 /\
     f_data (fd il') = f_data (fd il) ++ take (Z.to_nat w) (enc_block (summed (pending J)).1 (pending J))) /\
  (length (pending J) = BLOCK_ITEMS ->
   exists il', index_logger_append il it w = Some (il', RET_FAILED) /\
     working_buffer il' = Some (other p) /\ count (get_buf il' (other p)) = 0 /\
     f_data (fd il') = f_data (fd il) ++ take (Z.to_nat w) (enc_block (summed (pending J)).1 (pending J))).
Proof.
  intros Hl Hne Hwr. pose proof Hl as [Hw _ _ _ Hcnt _ Hmax _ _ _]. unfold BLOCK_ITEMS in *.
  destruct (switch_sync il p J w Hl)
    as (il1 & il2 & Esw & Esy & Hw2 & _ & _ & _ & Hcnt2 & Hf2 & _).
  rewrite (proj2 (Z.eqb_neq _ _)) in Esy by done.
  split; [|intros Hfull]; exists il2.
  - unfold index_logger_flush. rewrite Hw, Hcnt.
    rewrite (proj2 (Z.eqb_neq _ _)) by (destruct (pending J); [done|cbn [length]; lia]).
    rewrite Esw, Esy. done.
  - unfold index_logger_append. rewrite Hw, Hcnt, Hfull. rewrite u32_small by (unfold in_range; lia).
    unfold LOG_BUF_SIZE, LOG_BUF_HEADER_SIZE, INDEX_LOG_ITEM_SIZE in *.
    rewrite (proj2 (Z.ltb_lt _ _)) by lia. rewrite Esw, Esy. done.
Qed.

(** A logger that has one item pending. *)
Definition ex_pending : index_logger_s :=
  match index_logger_append (fresh_logger true) ex_item (full_write (fresh_logger true)) with
  | Some (il, _) => il
  | None => fresh_logger true
  end.

Lemma ex_pending_logging : logging ex_pending Buffer1 (Journal [] [ex_item]).
Proof.
  destruct (put_item_logging _ _ _ ex_item (fresh_logging true) ex_item_ok) as (il & E & Hl);
    [cbn; unfold BLOCK_ITEMS; lia|].
  replace ex_pending with il; [exact Hl|]. unfold ex_pending.
  assert (Ea : index_logger_append (fresh_logger true) ex_item (full_write (fresh_logger true))
    = option_map (fun il => (il, RET_SUCCESS)) (put_item (fresh_logger true) ex_item)) by reflexivity.
  now rewrite Ea, E.
Qed.

Lemma journal_write_failure_witness :
  exists il', index_logger_flush ex_pending (-1) = Some (il', RET_FAILED) /\
    working_buffer il' = Some Buffer2 /\ count (get_buf il' Buffer2) = 0 /\
    f_data (fd il') = f_data (fd ex_pending) ++ [].
Proof.
  apply (journal_write_failure ex_pending Buffer1 (Journal [] [ex_item]) ex_item (-1) ex_pending_logging);
    vm_compute; discriminate.
Defined.

(** The reader never looks at the checksums. Any file that starts with the
    magic number and goes on with well-formed blocks is read to the end and its
    items are returned, whatever the blocks' checksum fields hold. *)
Theorem fetch_ignores_checksum (bs : list (Z * list index_log_item_s)) :
  Forall block_fits bs ->
  exists r, index_logger_open true (Some (magic_bytes ++ enc_blocks bs)) = Some (Some r) /\
    fetch_all (S (length (magic_bytes ++ enc_blocks bs))) r = concat (snd <$> bs).
Proof.
  intros Hfit. eexists. split; [reflexivity|]. rewrite fetch_all_magic by reflexivity.
  apply fetch_all_open; [done|done| |].
  - rewrite length_app. change (length magic_bytes) with 4%nat. lia.
  - rewrite length_app. pose proof (enc_blocks_fuel _ Hfit). lia.
Qed.

Lemma ex_block_fits c : block_fits (c, [ex_item]).
Proof. split; [done|]. split; [reflexivity|]. apply Forall_singleton, ex_item_ok. Qed.

(** The checksum field 0 is wrong for this block. *)
Lemma fetch_ignores_checksum_witness :
  (summed [ex_item]).1 <> 0 /\
  exists r, index_logger_open true (Some (magic_bytes ++ enc_blocks [(0, [ex_item])])) = Some (Some r) /\
    fetch_all (S (length (magic_bytes ++ enc_blocks [(0, [ex_item])]))) r = [ex_item].
Proof.
  split; [vm_compute; discriminate|].
  apply (fetch_ignores_checksum [(0, [ex_item])]). apply Forall_singleton, ex_block_fits.
Defined.

(** The magic number is checked on the first fetch only, and that check
    consumes it. On a file with a wrong magic number the first fetch returns
    NULL, and the fetches after it return the items as if the file were good. *)
Theorem fetch_bad_magic (m : list Z) (bs : list (Z * list index_log_item_s)) fuel :
  length m = 4%nat -> le_combine m <> htonl MAGIC_HEADER -> Forall block_fits bs ->
  (length (concat (snd <$> bs)) < fuel)%nat ->
  exists r r', index_logger_open true (Some (m ++ enc_blocks bs)) = Some (Some r) /\
    index_logger_fetch r (true, true, true) = (r', None) /\
    fetch_all fuel r' = concat (snd <$> bs).
Proof.
  intros Hm Hmagic Hfit Hf. eexists _, _. split; [reflexivity|]. split.
  - unfold index_logger_fetch. cbn [fetch_pos Z.eqb fd].
    destruct (file_read_app (m ++ enc_blocks bs) 0 m (enc_blocks bs) 4 eq_refl Hm) as [E _].
    rewrite E, Hm. rewrite (proj2 (Z.eqb_neq (le_combine m) _)) by done.
    cbn [Z.of_nat Z.eqb Pos.of_succ_nat Pos.succ Pos.eqb negb orb]. reflexivity.
  - cbn [set_fd set_fetch fd f_pos fetch_id fetch_records_amount sync working_buffer storing_buffer
         curr_working_buf buffer1 buffer2 Nat.add].
    apply (fetch_all_open fuel (m ++ enc_blocks bs) bs); [|done|rewrite length_app; lia|done].
    rewrite <- Hm. apply drop_app_length.
Qed.

Lemma fetch_bad_magic_witness :
  exists r r', index_logger_open true (Some ([1; 2; 3; 4] ++ enc_blocks [(0, [ex_item])])) = Some (Some r) /\
    index_logger_fetch r (true, true, true) = (r', None) /\ fetch_all 2 r' = [ex_item].
Proof.
  apply (fetch_bad_magic [1; 2; 3; 4] [(0, [ex_item])] 2);
    [reflexivity|vm_compute; discriminate|apply Forall_singleton, ex_block_fits|cbn; lia].
Defined.

End IndexLog.
