(* ===== verification/Bdb.v ===== *)
(** The Berkeley DB wrapper of [src/src/bdblib.c]. Berkeley DB itself is not
    part of the repository: a database handle is an abstract type with the
    operations the wrapper calls ([BerkeleyDB]), and what the wrapper's clients
    rely on is the class of its documented laws ([BerkeleyDBLaws]), with a
    finite map as an instance. *)

From Stdlib Require Import ZArith Lia.
From stdpp Require Import base numbers list gmap.
From S2P Require Import Prelude.

(** ** The library's interface *)

(** Every operation returns the handle and the library's code (0 for success).
    [db_get] copies at most [ulen] bytes into the caller's memory. *)
Class BerkeleyDB (DB : Type) := {
  DB_NOTFOUND : Z;
  db_put : DB -> list Z -> list Z -> DB * Z;
  db_get : DB -> list Z -> Z -> DB * (Z * list Z);
  db_del : DB -> list Z -> DB * Z;
  db_sync : DB -> DB;
  db_close : DB -> Z;
  env_close : DB -> Z
}.

(** The documented behaviour of a database that reports no I/O error. *)
Class BerkeleyDBLaws (DB : Type) `{BerkeleyDB DB} := {
  contents : DB -> gmap (list Z) (list Z);
  healthy : DB -> Prop;
  notfound_nonzero : DB_NOTFOUND <> 0 /\ DB_NOTFOUND <> -1;
  put_law d k v : healthy d ->
    exists d', db_put d k v = (d', 0) /\ healthy d' /\ contents d' = <[k := v]> (contents d);
  get_law d k n v : healthy d -> contents d !! k = Some v -> Z.of_nat (length v) <= n ->
    exists d', db_get d k n = (d', (0, v)) /\ healthy d' /\ contents d' = contents d;
  get_missing_law d k n : healthy d -> contents d !! k = None ->
    exists d' b, db_get d k n = (d', (DB_NOTFOUND, b)) /\ healthy d' /\ contents d' = contents d;
  del_law d k v : healthy d -> contents d !! k = Some v ->
    exists d', db_del d k = (d', 0) /\ healthy d' /\ contents d' = delete k (contents d);
  sync_law d : healthy d -> healthy (db_sync d) /\ contents (db_sync d) = contents d;
  close_law d : healthy d -> db_close d = 0 /\ env_close d = 0
}.

Module Bdb.
Section Wrapper.
Context {DB : Type} `{BerkeleyDB DB}.

(** [struct bdb_t]; the environment handle only serves opening and closing. *)
Record bdb_t := BdbT { dbp : DB; error_no : Z }.

Definition insert_record (b : bdb_t) (key value : list Z) : bdb_t * Z :=
  let '(d, ret) := db_put (dbp b) key value in
  (BdbT d (if ret =? 0 then 0 else ret), ret).

(** The [data] field of the caller's DBT after a call. *)
Inductive dbt_data := Untouched | Null | Value (bytes : list Z).

(** [given]: whether [*dbt_ptr] is the caller's DBT; [a_dbt], [a_val]: whether
    the two [slab_alloc]s succeed. The last component is [*dbt_ptr]: [None] is
    NULL. A found record is followed by the zero bytes of the buffer. *)
Definition find_record (b : bdb_t) (given a_dbt a_val : bool) (key : list Z) (value_len : Z)
  : bdb_t * Z * option dbt_data :=
  if negb given && negb a_dbt then (BdbT (dbp b) (-1), -1, None)
  else if negb a_val then
    (BdbT (dbp b) (-1), -1, if given then Some Untouched else None)
  else
    let '(d, (ret, bytes)) := db_get (dbp b) key value_len in
    if ret =? 0 then
      (BdbT d (error_no b), 0,
       Some (Value (bytes ++ replicate (Z.to_nat value_len - length bytes) 0)))
    else
      (BdbT d (if ret =? DB_NOTFOUND then error_no b else ret), ret,
       if given then Some Null else None).

Definition del_record (b : bdb_t) (key : list Z) : bdb_t * Z :=
  let '(d, ret) := db_del (dbp b) key in (BdbT d (error_no b), ret).

(** The calls of [open_transaction_bdb] and their codes, in order. *)
Record open_env := OpenEnv {
  oe_calloc : bool;
  oe_env_create : Z; oe_set_cache_max : Z; oe_set_cachesize : Z; oe_log_set_config : Z;
  oe_set_lg_bsize : Z; oe_env_open : Z; oe_db_create : Z; oe_set_pagesize : Z; oe_db_open : Z;
  oe_db : DB
}.

(** The first nonzero code, else 0. *)
Fixpoint first_error (l : list Z) : Z :=
  match l with [] => 0 | c :: l => if c =? 0 then first_error l else c end.

(** [inl tt]: the process exits. [inr None]: NULL. *)
Definition open_transaction_bdb (e : open_env) (cache_size : Z) : unit + option bdb_t :=
  if negb (oe_calloc e) then inr None
  else
    let ret := first_error
      (oe_env_create e ::
       (if cache_size =? 0 then [] else [oe_set_cache_max e; oe_set_cachesize e]) ++
       [oe_log_set_config e; oe_set_lg_bsize e; oe_env_open e; oe_db_create e;
        oe_set_pagesize e; oe_db_open e]) in
    if ret =? 0 then inr (Some (BdbT (oe_db e) 0)) else inl tt.

Definition close_bdb (b : bdb_t) : Z :=
  if negb (db_close (dbp b) =? 0) then db_close (dbp b)
  else if negb (env_close (dbp b) =? 0) then env_close (dbp b)
  else 0.

Definition sync_bdb (b : bdb_t) : bdb_t * Z := (BdbT (db_sync (dbp b)) (error_no b), 0).

End Wrapper.
Arguments bdb_t : clear implicits.
Arguments open_env : clear implicits.
End Bdb.

(** ** Finite maps are such a database *)

Module MapDB.

(** The code of the library's [db.h]. *)
Definition notfound : Z := -30988.

#[export] Instance map_db : BerkeleyDB (gmap (list Z) (list Z)) := {
  DB_NOTFOUND := notfound;
  db_put d k v := (<[k := v]> d, 0);
  db_get d k n := (d, match d !! k with
                      | Some v => if Z.of_nat (length v) <=? n then (0, v) else (-30999, [])
                      | None => (notfound, [])
                      end);
  db_del d k := (delete k d, match d !! k with Some _ => 0 | None => notfound end);
  db_sync d := d;
  db_close _ := 0;
  env_close _ := 0
}.

#[export] Program Instance map_db_laws : BerkeleyDBLaws (gmap (list Z) (list Z)) := {
  contents d := d;
  healthy _ := True
}.
Next Obligation. done. Qed.
Next Obligation. intros d k v _. eauto. Qed.
Next Obligation.
  intros d k n v _ Hk Hn. cbn. rewrite Hk, (proj2 (Z.leb_le _ _)) by done. eauto.
Qed.
Next Obligation. intros d k n _ Hk. cbn. rewrite Hk. eauto. Qed.
Next Obligation. intros d k v _ Hk. cbn. rewrite Hk. eauto. Qed.
Next Obligation. done. Qed.
Next Obligation. done. Qed.

End MapDB.
