(* ===== verification/Storage.v ===== *)
(** The block storage of [src/src/storage.c]: data files of fixed-size blocks
    with a header and a stack of free slots, a Berkeley DB index from fixed
    16-byte keys to block positions, a journal of index changes, and the locks
    around them.

    The state holds the file-scope variables, one bucket, the data files on
    disk and two queues that say how the environment answers: [io] for every
    [pread]/[pwrite]/[write] ([None] or nothing left: complete) and [allocs]
    for every allocation (nothing left: success). The operations run one at a
    time, but take and release the locks as the code does, so that a lock that
    is not released blocks whoever needs it next. *)

From Stdlib Require Import ZArith Lia.
From stdpp Require Import base numbers list gmap.
From S2P Require Import Prelude CString Crc32 MHash BobHash RWLock IndexTypes IndexLog Bdb.

Module Storage.
Import IndexTypes.

Definition MAX_BLOCK_CNT : Z := 20.
Definition MAX_FREE_SLOTS : Z := 100 * 1000.
Definition BEGINNING_SIZE : Z := 128.
Definition LARGEST_SIZE : Z := 1024 * 1024 * 4.
(** Offsets inside [block_file_t] from [block_size] on: three 8-byte fields and
    the slots. *)
Definition SLOTS_SECTION_POS : Z := 24.
Definition DATA_SECTION_POS : Z := 24 + 8 * MAX_FREE_SLOTS.

(** ** Files *)

Record file := MkFile { flen : Z; fbytes : Z -> Z }.
Definition empty_file : file := MkFile 0 (fun _ => 0).

(** [n] bytes [g 0, g 1, ...] written at [off]. *)
Definition file_put (f : file) (off n : Z) (g : Z -> Z) : file :=
  MkFile (if 0 <? n then Z.max (flen f) (off + n) else flen f)
         (fun x => if (off <=? x) && (x <? off + n) then g (x - off) else fbytes f x).
Definition file_get (f : file) (off n : Z) : list Z := (fun i => fbytes f (off + i)) <$> seqZ 0 n.
Definition byte_at (d : list Z) (i : Z) : Z := nth (Z.to_nat i) d 0.

(** ** State *)

(** [fh->fd]: zeroed, closed (-1), or open on the data file of that block size. *)
Inductive fd_t := FdZero | FdClosed | FdOpen (name : Z).

Record block_file_t := BlockFile {
  fd : fd_t;
  lock : RWLock.rwlock_t;
  block_size : Z;
  block_cnt : Z;
  free_slots_cnt : Z;
  free_slots_offset : Z -> Z
}.
Definition zero_block_file : block_file_t := BlockFile FdZero RWLock.rwlock_zero 0 0 0 (fun _ => 0).

(** The three header fields, then the slots, as bytes. *)
Definition header_fields (fh : block_file_t) : list Z :=
  le_split 8 (block_size fh) ++ le_split 8 (block_cnt fh) ++ le_split 8 (free_slots_cnt fh).
Definition slot_bytes (off : Z) : list Z := le_split 8 (u64 off).
Definition header_byte (fh : block_file_t) (x : Z) : Z :=
  if x <? SLOTS_SECTION_POS then byte_at (header_fields fh) x
  else byte_at (slot_bytes (free_slots_offset fh ((x - SLOTS_SECTION_POS) / 8))) ((x - SLOTS_SECTION_POS) mod 8).
(** The same read back from memory a file was read into. *)
Definition load_header (fh : block_file_t) (g : Z -> Z) : block_file_t :=
  let word p := le_combine (g <$> seqZ p 8) in
  BlockFile (fd fh) (lock fh) (word 0) (word 8) (word 16)
            (fun i => i64 (word (SLOTS_SECTION_POS + 8 * i))).

Section Code.
Context {DB : Type} `{BerkeleyDB DB}.

Record state := State {
  inited_global_vars : bool;
  block_size_array : list Z;
  block_filehandler_array : list block_file_t;
  block_type_count : Z;
  disk : gmap Z file;
  indexdb : option (Bdb.bdb_t DB);
  index_logger : option IndexLog.index_logger_s;
  index_lock : option RWLock.rwlock_t;
  journal : option (list Z);
  io : list (option Z);
  allocs : list bool
}.

(** ** The monad: an operation returns, aborts the process, blocks forever on a
    lock, or does something undefined. *)

Inductive outcome (A : Type) := Ret (a : A) (s : state) | Abort | Blocked | Undefined.
Arguments Ret {A}. Arguments Abort {A}. Arguments Blocked {A}. Arguments Undefined {A}.
Definition M (A : Type) : Type := state -> outcome A.

Definition ret {A} (a : A) : M A := fun s => Ret a s.
Definition bind {A B} (m : M A) (k : A -> M B) : M B := fun s =>
  match m s with Ret a s => k a s | Abort => Abort | Blocked => Blocked | Undefined => Undefined end.
Definition get : M state := fun s => Ret s s.
Definition put (s : state) : M unit := fun _ => Ret tt s.
Definition abort {A} : M A := fun _ => Abort.
Definition undefined {A} : M A := fun _ => Undefined.
Definition assert (b : bool) : M unit := if b then ret tt else abort.

#[local] Notation "'let*' x := m 'in' k" := (bind m (fun x => k))
  (at level 10, x name, m at level 100, k at level 200).
#[local] Notation "m ;; k" := (bind m (fun _ => k)) (at level 100, k at level 200, right associativity).

(** Updating one part of the state. *)
Definition set_handlers (hs : list block_file_t) : M unit := fun s =>
  Ret tt (State (inited_global_vars s) (block_size_array s) hs (block_type_count s) (disk s)
                (indexdb s) (index_logger s) (index_lock s) (journal s) (io s) (allocs s)).
Definition set_disk (d : gmap Z file) : M unit := fun s =>
  Ret tt (State (inited_global_vars s) (block_size_array s) (block_filehandler_array s)
                (block_type_count s) d (indexdb s) (index_logger s) (index_lock s) (journal s) (io s) (allocs s)).
Definition set_indexdb (b : option (Bdb.bdb_t DB)) : M unit := fun s =>
  Ret tt (State (inited_global_vars s) (block_size_array s) (block_filehandler_array s)
                (block_type_count s) (disk s) b (index_logger s) (index_lock s) (journal s) (io s) (allocs s)).
Definition set_logger (l : option IndexLog.index_logger_s) : M unit := fun s =>
  Ret tt (State (inited_global_vars s) (block_size_array s) (block_filehandler_array s)
                (block_type_count s) (disk s) (indexdb s) l (index_lock s) (journal s) (io s) (allocs s)).
Definition set_index_lock (l : option RWLock.rwlock_t) : M unit := fun s =>
  Ret tt (State (inited_global_vars s) (block_size_array s) (block_filehandler_array s)
                (block_type_count s) (disk s) (indexdb s) (index_logger s) l (journal s) (io s) (allocs s)).
Definition set_journal (j : option (list Z)) : M unit := fun s =>
  Ret tt (State (inited_global_vars s) (block_size_array s) (block_filehandler_array s)
                (block_type_count s) (disk s) (indexdb s) (index_logger s) (index_lock s) j (io s) (allocs s)).
Definition set_globals (i : bool) (sizes : list Z) (hs : list block_file_t) (n : Z) : M unit := fun s =>
  Ret tt (State i sizes hs n (disk s) (indexdb s) (index_logger s) (index_lock s) (journal s) (io s) (allocs s)).

(** The environment's next answer. *)
Definition next_io : M (option Z) := fun s =>
  match io s with
  | [] => Ret None s
  | a :: r => Ret a (State (inited_global_vars s) (block_size_array s) (block_filehandler_array s)
                (block_type_count s) (disk s) (indexdb s) (index_logger s) (index_lock s) (journal s) r (allocs s))
  end.
Definition next_alloc : M bool := fun s =>
  match allocs s with
  | [] => Ret true s
  | a :: r => Ret a (State (inited_global_vars s) (block_size_array s) (block_filehandler_array s)
                (block_type_count s) (disk s) (indexdb s) (index_logger s) (index_lock s) (journal s) (io s) r)
  end.

(** [&block_filehandler_array[id]] used as an object, and [block_size_array[id]]:
    undefined outside the arrays. *)
Definition handler (id : Z) : M block_file_t := fun s =>
  if id <? 0 then Undefined
  else match block_filehandler_array s !! Z.to_nat id with Some fh => Ret fh s | None => Undefined end.
Definition set_handler (id : Z) (fh : block_file_t) : M unit :=
  let* s := get in set_handlers (<[Z.to_nat id := fh]> (block_filehandler_array s)).
Definition size_at (id : Z) : M Z := fun s =>
  if id <? 0 then Undefined
  else match block_size_array s !! Z.to_nat id with Some n => Ret n s | None => Undefined end.

(** ** Locks *)

Definition with_lock (o : option RWLock.rwlock_t) (k : RWLock.rwlock_t -> M unit) : M unit :=
  match o with None => fun _ => Blocked | Some l => k l end.
Definition set_file_lock (id : Z) (l : RWLock.rwlock_t) : M unit :=
  let* fh := handler id in
  set_handler id (BlockFile (fd fh) l (block_size fh) (block_cnt fh) (free_slots_cnt fh) (free_slots_offset fh)).
Definition EX_LOCK (id : Z) : M unit := let* fh := handler id in with_lock (RWLock.rwlock_wrlock (lock fh)) (set_file_lock id).
Definition EX_UNLOCK (id : Z) : M unit := let* fh := handler id in set_file_lock id (RWLock.rwlock_unwrlock (lock fh)).1.
Definition SH_LOCK (id : Z) : M unit := let* fh := handler id in with_lock (RWLock.rwlock_rdlock (lock fh)) (set_file_lock id).
Definition SH_UNLOCK (id : Z) : M unit := let* fh := handler id in set_file_lock id (RWLock.rwlock_unrdlock (lock fh)).1.
(** The index lock is a pointer; the lock functions assert that it is not NULL. *)
Definition index_lock_ptr : M RWLock.rwlock_t := fun s =>
  match index_lock s with None => Abort | Some l => Ret l s end.
Definition set_index (l : RWLock.rwlock_t) : M unit := set_index_lock (Some l).
Definition EX_LOCK_IDX : M unit := let* l := index_lock_ptr in with_lock (RWLock.rwlock_wrlock l) set_index.
Definition EX_UNLOCK_IDX : M unit := let* l := index_lock_ptr in set_index (RWLock.rwlock_unwrlock l).1.
Definition SH_LOCK_IDX : M unit := let* l := index_lock_ptr in with_lock (RWLock.rwlock_rdlock l) set_index.
Definition SH_UNLOCK_IDX : M unit := let* l := index_lock_ptr in set_index (RWLock.rwlock_unrdlock l).1.

(** ** System calls on data files *)

Definition file_of (f : fd_t) : M (option (Z * file)) :=
  let* s := get in
  ret (match f with
       | FdOpen name => option_map (pair name) (disk s !! name)
       | _ => None
       end).

(** The number of bytes transferred, or -1; [pread] also gives the bytes. *)
Definition pread (f : fd_t) (n off : Z) : M (Z * (Z -> Z)) :=
  let* o := file_of f in
  let* a := next_io in
  ret (match o with
       | None => (-1, fun _ => 0)
       | Some (_, fl) =>
           if off <? 0 then (-1, fun _ => 0)
           else (match a with None => Z.max 0 (Z.min n (flen fl - off)) | Some r => r end,
                 fun i => fbytes fl (off + i))
       end).
Definition pwrite (f : fd_t) (n : Z) (g : Z -> Z) (off : Z) : M Z :=
  let* o := file_of f in
  let* a := next_io in
  match o with
  | None => ret (-1)
  | Some (name, fl) =>
      if off <? 0 then ret (-1)
      else
        let w := match a with None => n | Some r => r end in
        let* s := get in
        set_disk (<[name := file_put fl off (Z.max 0 w) g]> (disk s)) ;;
        ret w
  end.

(** ** Reading and writing data files *)

(** The code returned, and what [pread] did. *)
Definition read_data_file (id n off : Z) : M (Z * (Z * (Z -> Z))) :=
  let* s := get in
  assert (id <? block_type_count s) ;;
  let* fh := handler id in
  let* r := pread (fd fh) n off in
  if negb (r.1 =? n) then size_at id ;; ret (-1, r) else ret (0, r).

(** [fdatasync] has no effect on what later reads return. *)
Definition sync_data_file (id n : Z) (g : Z -> Z) (off : Z) (sync_flag : bool) : M Z :=
  let* s := get in
  assert (id <? block_type_count s) ;;
  let* fh := handler id in
  let* w := pwrite (fd fh) n g off in
  if negb (w =? n) then size_at id ;; ret (-1) else ret 0.

Definition sync_data_file_header (id : Z) (sync_flag : bool) : M Z :=
  let* fh := handler id in
  sync_data_file id SLOTS_SECTION_POS (byte_at (header_fields fh)) 0 sync_flag ;;
  ret 0.

(** [open(filename, O_RDWR)] of an existing file, answered by [opened]. The
    header is read straight into the handler: a short read changes a part of it. *)
Definition load_data_file (name : Z) (id : Z) (opened : bool) : M Z :=
  if negb opened then ret (-1)
  else
    let* fh := handler id in
    set_handler id (BlockFile (FdOpen name) (lock fh) (block_size fh) (block_cnt fh)
                      (free_slots_cnt fh) (free_slots_offset fh)) ;;
    let* r := read_data_file id DATA_SECTION_POS 0 in
    let* fh := handler id in
    set_handler id (load_header fh (fun x => if x <? r.2.1 then r.2.2 x else header_byte fh x)) ;;
    ret r.1.

(** [open] with [O_CREAT]; the descriptor's offset is 0. *)
Definition create_data_file (name : Z) (id : Z) (opened : bool) : M Z :=
  if negb opened then ret (-1)
  else
    let* s := get in
    set_disk (<[name := default empty_file (disk s !! name)]> (disk s)) ;;
    let* fh := handler id in
    let* sz := size_at id in
    let fh := BlockFile (FdOpen name) RWLock.rwlock_zero sz 0 0 (free_slots_offset fh) in
    set_handler id fh ;;
    let* w := pwrite (FdOpen name) DATA_SECTION_POS (header_byte fh) 0 in
    if negb (w =? DATA_SECTION_POS) then ret (-1) else ret 0.

(** ** Sizes *)

(** The index of the size in the array, below the count; -1 when there is none. *)
Fixpoint find_size (sizes : list Z) (n : nat) (i sz : Z) : Z :=
  match sizes, n with
  | x :: sizes, S n => if sz =? x then i else find_size sizes n (i + 1) sz
  | _, _ => -1
  end.
Definition find_block_file (sz : Z) : M Z :=
  let* s := get in ret (find_size (block_size_array s) (Z.to_nat (block_type_count s)) 0 sz).

(** [size >= (int)data_size] with [size] doubled each turn. *)
Fixpoint calc_loop (n : nat) (size data_size : Z) : Z :=
  match n with
  | O => -1
  | S n => if i32 data_size <=? size then size else calc_loop n (i32 (size * 2)) data_size
  end.
Definition calc_block_size (data_size : Z) : Z :=
  calc_loop (Z.to_nat MAX_BLOCK_CNT) BEGINNING_SIZE data_size.

(** ** Index and journal *)

Definition db_insert (key value : list Z) : M Z :=
  let* s := get in
  match indexdb s with
  | None => abort
  | Some b => let '(b, r) := Bdb.insert_record b key value in set_indexdb (Some b) ;; ret r
  end.
Definition db_delete (key : list Z) : M Z :=
  let* s := get in
  match indexdb s with
  | None => abort
  | Some b => let '(b, r) := Bdb.del_record b key in set_indexdb (Some b) ;; ret r
  end.
(** [find_record] with the caller's own DBT on the stack. *)
Definition db_find (key : list Z) (value_len : Z) : M (Z * Bdb.dbt_data) :=
  let* a := next_alloc in
  let* s := get in
  match indexdb s with
  | None => abort
  | Some b =>
      let '(b, r, d) := Bdb.find_record b true true a key value_len in
      set_indexdb (Some b) ;; ret (r, default Bdb.Untouched d)
  end.

(** [index_logger_append(bsp->index_logger, &ili)], its result ignored. One
    [io] answer is used per call, for the [write] of a full buffer. *)
Definition log_append (ili : index_log_item_s) : M unit :=
  let* s := get in
  match index_logger s with
  | None => abort
  | Some il =>
      let* a := next_io in
      match IndexLog.index_logger_append il ili (default (IndexLog.full_write il) a) with
      | None => abort
      | Some (il, _) => set_logger (Some il)
      end
  end.
Definition log_flush : M Z :=
  let* s := get in
  match index_logger s with
  | None => abort
  | Some il =>
      let* a := next_io in
      match IndexLog.index_logger_flush il (default (IndexLog.full_write il) a) with
      | None => abort
      | Some (il, r) => set_logger (Some il) ;; ret r
      end
  end.

(** The first 16 bytes of a key, zero-padded. *)
Definition fixed_key (key : list Z) : list Z := take 16 (take 16 key ++ replicate 16 0).

(** [calc_hash_key]; [pc0] and [pb0] are what [bobhash64] leaves uninitialised. *)
Definition calc_hash_key (src : list Z) (pc0 pb0 : Z) : option index_key_t :=
  match MHash.MurmurHash64A src (Z.of_nat (length src)) with
  | None => None
  | Some mh =>
      Some (le_split 8 (BobHash.bobhash64 (byte_at src) 0 (Z.of_nat (length src)) pc0 pb0) ++ le_split 8 mh)
  end.

(** ** Blocks *)

Definition sizeof_off_t : Z := 8.

(** The data are written even when the journal or the index then fails; the
    codes of [sync_data_file], [index_logger_append] and [insert_record] are
    ignored. *)
Definition append_block (id : Z) (key data : list Z) : M Z :=
  let data_size := Z.of_nat (length data) in
  let* s := get in
  if block_type_count s <=? id then ret (-1)
  else
    let* fh := handler id in
    assert (match fd fh with FdOpen _ => true | _ => false end) ;;
    let* size := size_at id in
    assert (data_size <=? size) ;;
    let crc32_value := Crc32.crc32_calc data in
    let index_key := take 16 (take 16 key ++ replicate 16 0) in
    EX_LOCK id ;;
    let* fh := handler id in
    let* offset :=
      if negb (free_slots_cnt fh =? 0) then
        let n := free_slots_cnt fh - 1 in
        let offset := free_slots_offset fh n in
        set_handler id (BlockFile (fd fh) (lock fh) (block_size fh) (u64 (block_cnt fh + 1)) n
          (fun i => if i =? n then 0 else free_slots_offset fh i)) ;;
        sync_data_file_header id false ;;
        sync_data_file id data_size (byte_at data) offset false ;;
        ret offset
      else
        set_handler id (BlockFile (fd fh) (lock fh) (block_size fh) (u64 (block_cnt fh + 1))
          (free_slots_cnt fh) (free_slots_offset fh)) ;;
        sync_data_file_header id false ;;
        let* fh := handler id in
        let offset := i64 (DATA_SECTION_POS + block_size fh * (block_cnt fh - 1)) in
        sync_data_file id data_size (byte_at data) offset false ;;
        ret offset in
    EX_UNLOCK id ;;
    let iv := IndexValue crc32_value (u32 id) data_size offset in
    log_append (IndexLogItem (op_code index_append) index_key iv) ;;
    db_insert index_key (value_bytes iv) ;;
    ret 0.

Definition modify_block (iv : index_value_t) (key data : list Z) : M Z :=
  let data_size := Z.of_nat (length data) in
  let id := block_id iv in
  let* s := get in
  if block_type_count s <=? id then ret (-1)
  else
    let* fh := handler id in
    assert (match fd fh with FdOpen _ => true | _ => false end) ;;
    let* size := size_at id in
    assert (data_size <=? size) ;;
    let crc32_value := Crc32.crc32_calc data in
    EX_LOCK id ;;
    let* retno := sync_data_file id data_size (byte_at data) (offset iv) false in
    assert (retno =? 0) ;;
    EX_UNLOCK id ;;
    let iv := IndexValue crc32_value (block_id iv) data_size (offset iv) in
    let index_key := take 16 (take 16 key ++ replicate 16 0) in
    log_append (IndexLogItem (op_code index_modify) index_key iv) ;;
    let* retno := db_insert (take 16 key) (value_bytes iv) in
    if negb (retno =? 0) then ret (-1) else ret 0.

(** The full slot array leaks the slot; the header is synced after the lock is
    released. *)
Definition do_delete_block (iv : index_value_t) (key : list Z) : M Z :=
  let id := block_id iv in
  let index_key := take 16 (key ++ replicate 16 0) in
  log_append (IndexLogItem (op_code index_del) index_key iv) ;;
  let* r := db_delete key in
  if negb (r =? 0) then ret (-1)
  else
    EX_LOCK id ;;
    let* fh := handler id in
    if MAX_FREE_SLOTS <=? free_slots_cnt fh then EX_UNLOCK id ;; size_at id ;; ret 0
    else
      let slot_pos := free_slots_cnt fh in
      set_handler id (BlockFile (fd fh) (lock fh) (block_size fh) (u64 (block_cnt fh - 1)) (slot_pos + 1)
        (fun i => if i =? slot_pos then offset iv else free_slots_offset fh i)) ;;
      EX_UNLOCK id ;;
      sync_data_file_header id false ;;
      let* fh := handler id in
      sync_data_file id sizeof_off_t (byte_at (slot_bytes (free_slots_offset fh slot_pos)))
        (SLOTS_SECTION_POS + sizeof_off_t * slot_pos) false ;;
      ret 0.

(** Freeing the DBT's data: an untouched field of a local variable is garbage. *)
Definition free_dbt (d : Bdb.dbt_data) : M unit :=
  match d with Bdb.Untouched => undefined | _ => ret tt end.

Definition update_block (key data : list Z) : M Z :=
  let data_size := Z.of_nat (length data) in
  let fixed_key_buffer := fixed_key key in
  EX_LOCK_IDX ;;
  let* f := db_find fixed_key_buffer (Z.of_nat sizeof_index_value) in
  let '(retno, dbt) := f in
  let* r :=
    if retno =? 0 then
      match dbt with
      | Bdb.Value bytes =>
          let iv := value_of_bytes bytes in
          let* size := size_at (block_id iv) in
          if data_size <=? size then
            let* retno := modify_block iv fixed_key_buffer data in
            ret (if negb (retno =? 0) then -1 else 0)
          else
            let* retno := do_delete_block iv fixed_key_buffer in
            if negb (retno =? 0) then ret (-2)
            else
              let* new_block_id := find_block_file (u64 (calc_block_size data_size)) in
              let* retno := append_block (u64 new_block_id) fixed_key_buffer data in
              ret (if negb (retno =? 0) then -3 else 0)
      | _ => undefined
      end
    else if retno =? DB_NOTFOUND then
      let* new_block_id := find_block_file (u64 (calc_block_size data_size)) in
      if new_block_id <? 0 then ret 0
      else
        let* retno := append_block new_block_id fixed_key_buffer data in
        ret (if negb (retno =? 0) then -4 else 0)
    else ret (-1) in
  EX_UNLOCK_IDX ;;
  free_dbt dbt ;;
  ret r.

(** The code, [*value_ptr] and [*value_len]. When the buffer for the value
    cannot be allocated the function leaves with the index lock held. *)
Definition find_block (key : list Z) : M (Z * option (list Z) * Z) :=
  let fixed_key_buffer := fixed_key key in
  SH_LOCK_IDX ;;
  let* f := db_find fixed_key_buffer (Z.of_nat sizeof_index_value) in
  let '(retno, dbt) := f in
  if retno =? 0 then
    match dbt with
    | Bdb.Value bytes =>
        let iv := value_of_bytes bytes in
        let id := block_id iv in
        let* a := next_alloc in
        if negb a then ret (-1, None, data_size iv)
        else
          SH_LOCK id ;;
          SH_UNLOCK_IDX ;;
          let* fh := handler id in
          let* r := pread (fd fh) (data_size iv) (offset iv) in
          SH_UNLOCK id ;;
          let value := r.2 <$> seqZ 0 (Z.max 0 r.1) in
          ret (if negb (r.1 =? i64 (data_size iv)) then -1 else 0, Some value, data_size iv)
    | _ => undefined
    end
  else SH_UNLOCK_IDX ;; ret (retno, None, 0).

Definition delete_block (key : list Z) : M Z :=
  let fixed_key_buffer := fixed_key key in
  EX_LOCK_IDX ;;
  let* f := db_find fixed_key_buffer (Z.of_nat sizeof_index_value) in
  let '(retno, dbt) := f in
  if retno =? 0 then
    match dbt with
    | Bdb.Value bytes =>
        let iv := value_of_bytes bytes in
        let* retno := do_delete_block iv fixed_key_buffer in
        EX_UNLOCK_IDX ;;
        free_dbt dbt ;;
        ret (if negb (retno =? 0) then -1 else 0)
    | _ => undefined
    end
  else if retno =? DB_NOTFOUND then EX_UNLOCK_IDX ;; free_dbt dbt ;; ret DB_NOTFOUND
  else EX_UNLOCK_IDX ;; free_dbt dbt ;; ret (-1).

(** ** Opening *)

(** The size table: [i] is the next entry; at most [MAX_BLOCK_CNT] + 1 turns. *)
Fixpoint init_loop (fuel : nat) (i curr_size largest_size : Z) (sizes : list Z) (count : Z)
  : Z * list Z * Z :=
  match fuel with
  | O => (0, sizes, count)
  | S fuel =>
      if curr_size <=? largest_size then
        if MAX_BLOCK_CNT <=? i then (-1, sizes, count)
        else init_loop fuel (i + 1) (u64 (Z.shiftl curr_size 1)) largest_size
               (<[Z.to_nat i := curr_size]> sizes) (i + 1)
      else (0, sizes, count)
  end.
Definition init_storage (largest_size : Z) : M Z :=
  let largest_size := if largest_size <? BEGINNING_SIZE then LARGEST_SIZE else largest_size in
  let '(r, sizes, count) :=
    init_loop (S (Z.to_nat MAX_BLOCK_CNT)) 0 BEGINNING_SIZE largest_size
              (replicate (Z.to_nat MAX_BLOCK_CNT) 0) 0 in
  let* s := get in
  set_globals (inited_global_vars s) sizes (replicate (Z.to_nat MAX_BLOCK_CNT) zero_block_file) count ;;
  ret r.

(** How the system answers while a storage is opened; data files are named by
    their block size. *)
Record open_env := OpenEnv {
  oe_stat : Z;                        (* 0, or the error; 2 is ENOENT *)
  oe_mkdir : bool;
  oe_access : Z -> bool;
  oe_open : Z -> bool;
  oe_bdb : Bdb.open_env DB;
  oe_rwlock : bool;
  oe_journal : IndexLog.create_env
}.
Definition ENOENT : Z := 2.
Definition BDB_CACHE_SIZE : Z := 1024 * 1024 * 1024.

(** [ret] stays 0 when the journal cannot be created. *)
Definition open_index_file (e : open_env) : M Z :=
  match Bdb.open_transaction_bdb (oe_bdb e) BDB_CACHE_SIZE with
  | inl _ => abort
  | inr None => ret (-1)
  | inr (Some bdbp) =>
      if negb (Bdb.error_no bdbp =? 0) then ret (-1)
      else
        set_indexdb (Some bdbp) ;;
        set_index_lock (RWLock.rwlock_new (oe_rwlock e)) ;;
        match IndexLog.index_logger_create (oe_journal e) true with
        | None => abort
        | Some l => set_logger l ;; ret 0
        end
  end.

Fixpoint open_data_loop (e : open_env) (n : nat) (i : Z) : M Z :=
  match n with
  | O => ret 0
  | S n =>
      let* name := size_at i in
      let* r := if oe_access e name then load_data_file name i (oe_open e name)
                else create_data_file name i (oe_open e name) in
      if negb (r =? 0) then ret (-1) else open_data_loop e n (i + 1)
  end.
Definition open_data_files (e : open_env) : M Z :=
  let* s := get in open_data_loop e (Z.to_nat (block_type_count s)) 0.

Definition open_storage (e : open_env) (largest_size : Z) : M Z :=
  let* a := next_alloc in
  if negb a then ret (-4)
  else
    set_indexdb None ;; set_logger None ;; set_index_lock None ;;
    if (oe_stat e =? ENOENT) && negb (oe_mkdir e) then ret (-5)
    else if negb (oe_stat e =? 0) && negb (oe_stat e =? ENOENT) then ret (-5)
    else
      let* s := get in
      let* r :=
        if inited_global_vars s then ret 0
        else
          set_globals true (block_size_array s) (block_filehandler_array s) (block_type_count s) ;;
          let* r := init_storage largest_size in
          if negb (r =? 0) then ret (-1)
          else
            let* r := open_data_files e in
            ret (if negb (r =? 0) then -2 else 0) in
      if negb (r =? 0) then ret r
      else
        let* r := open_index_file e in
        ret (if negb (r =? 0) then -3 else 0).

(** ** Closing and syncing *)

(** The loop over the data files; [None] for the early error return. *)
Fixpoint close_loop (n : nat) (i : Z) : M (option Z) :=
  match n with
  | O => ret (Some 0)
  | S n =>
      let* fh := handler i in
      match fd fh with
      | FdOpen _ =>
          sync_data_file_header i true ;;
          let* fh := handler i in
          set_handler i (BlockFile FdClosed (lock fh) (block_size fh) (block_cnt fh)
                           (free_slots_cnt fh) (free_slots_offset fh)) ;;
          let* r := close_loop n (i + 1) in
          ret (option_map (Z.add 1) r)
      | _ => ret None
      end
  end.

Definition close_storage : M Z :=
  let* s := get in
  let* files :=
    if inited_global_vars s then
      let* c := close_loop (Z.to_nat (block_type_count s)) 0 in
      match c with
      | None => ret false
      | Some closed_file_cnt =>
          let* s := get in
          set_globals false (block_size_array s) (block_filehandler_array s)
                      (block_type_count s - closed_file_cnt) ;;
          ret true
      end
    else ret true in
  if negb files then ret (-1)
  else
    let* s := get in
    let* closed :=
      match indexdb s with
      | None => ret true
      | Some b => if negb (Bdb.close_bdb b =? 0) then ret false else set_indexdb None ;; ret true
      end in
    if negb closed then ret (-1)
    else
      let* s := get in
      match index_logger s with
      | None => ret 0
      | Some il =>
          let* a := next_io in
          match IndexLog.index_logger_close il (default (IndexLog.full_write il) a) with
          | None => abort
          | Some (f, r) =>
              set_journal (Some (IndexLog.f_data f)) ;;
              if negb (r =? 0) then ret (-1) else set_logger None ;; ret 0
          end
      end.

Definition index_word : list Z := [105; 110; 100; 101; 120].
Definition all_word : list Z := [97; 108; 108].

Definition flush_index : M unit :=
  let* s := get in
  match indexdb s with
  | None => abort
  | Some b => set_indexdb (Some (Bdb.sync_bdb b).1) ;; log_flush ;; ret tt
  end.
Fixpoint sync_headers (n : nat) (i : Z) : M unit :=
  match n with O => ret tt | S n => sync_data_file_header i true ;; sync_headers n (i + 1) end.

Definition sync_storage (object : list Z) : M Z :=
  if CString.is_word index_word object then flush_index ;; ret 0
  else if CString.is_word all_word object then
    flush_index ;;
    let* s := get in
    sync_headers (Z.to_nat (block_type_count s)) 0 ;; ret 0
  else abort.

End Code.
Arguments state : clear implicits.
Arguments outcome : clear implicits.
Arguments M : clear implicits.
Arguments Ret {DB A}.
Arguments Abort {DB A}.
Arguments Blocked {DB A}.
Arguments Undefined {DB A}.
End Storage.
