(* ===== verification/StorageRefine.v ===== *)
(** What the storage of [Storage] promises: it is a map from 16-byte keys to
    data. The invariant that ties the in-memory headers, the data files, the
    index and the journal together, and the theorems that [update_block],
    [find_block] and [delete_block] implement insertion, lookup and deletion
    while the environment reports no error. *)

From Stdlib Require Import ZArith Lia.
From stdpp Require Import base numbers list gmap.
From S2P Require Import Prelude CString Crc32 RWLock IndexTypes IndexLog Bdb Storage.

Module StorageRefine.
Import IndexTypes Storage.

(** ** Arithmetic of the block sizes *)

(** The size of block type [i]. *)
Definition type_size (i : Z) : Z := BEGINNING_SIZE * 2 ^ i.

Lemma type_size_pos i : 0 <= i -> 128 <= type_size i.
Proof. intros. unfold type_size, BEGINNING_SIZE. pose proof (Z.pow_pos_nonneg 2 i). lia. Qed.

Lemma type_size_mono i j : 0 <= i <= j -> type_size i <= type_size j.
Proof. intros. unfold type_size, BEGINNING_SIZE. pose proof (Z.pow_le_mono_r 2 i j). lia. Qed.

Lemma type_size_bound i : 0 <= i < MAX_BLOCK_CNT -> type_size i <= 2 ^ 26.
Proof.
  unfold MAX_BLOCK_CNT. intros. pose proof (type_size_mono i 19 ltac:(lia)) as Hm.
  change (type_size 19) with (2 ^ 26) in Hm. exact Hm.
Qed.

Lemma type_size_inj i j : 0 <= i -> 0 <= j -> type_size i = type_size j -> i = j.
Proof.
  unfold type_size, BEGINNING_SIZE. intros Hi Hj He. apply (Z.pow_inj_r 2); lia.
Qed.

(** The position of slot [q] in the file of block type [i]. *)
Definition slot_pos (sz q : Z) : Z := DATA_SECTION_POS + sz * q.

(** ** The invariant *)

(** One handler and its file: the lock is free, the header on disk is the one in
    memory, the free slots are distinct positions below the high-water mark
    [block_cnt + free_slots_cnt]. *)
Record file_inv (sz : Z) (fh : block_file_t) (f : file) : Prop := {
  fi_fd : fd fh = FdOpen sz;
  fi_lock : lock fh = RWLock.rwlock_zero;
  fi_size : block_size fh = sz;
  fi_cnt : 0 <= block_cnt fh;
  fi_free : 0 <= free_slots_cnt fh <= MAX_FREE_SLOTS;
  fi_high : block_cnt fh + free_slots_cnt fh <= 2 ^ 32;
  fi_slots : forall j, 0 <= j < free_slots_cnt fh ->
    exists q, free_slots_offset fh j = slot_pos sz q /\ 0 <= q < block_cnt fh + free_slots_cnt fh;
  fi_inj : forall j j', 0 <= j < free_slots_cnt fh -> 0 <= j' < free_slots_cnt fh ->
    free_slots_offset fh j = free_slots_offset fh j' -> j = j';
  fi_header : forall x, 0 <= x < SLOTS_SECTION_POS -> fbytes f x = byte_at (header_fields fh) x;
  fi_disk_slots : forall j b, 0 <= j < free_slots_cnt fh -> 0 <= b < 8 ->
    fbytes f (SLOTS_SECTION_POS + 8 * j + b) = byte_at (slot_bytes (free_slots_offset fh j)) b;
  fi_len : DATA_SECTION_POS <= flen f
}.

(** An index entry and the data it stands for. *)
Record entry_inv (sz : Z) (fh : block_file_t) (f : file) (iv : index_value_t) (d : list Z) : Prop := {
  ei_crc : crc32 iv = Crc32.crc32_calc d;
  ei_size : data_size iv = Z.of_nat (length d);
  ei_fits : data_size iv <= sz;
  ei_slot : exists q, offset iv = slot_pos sz q /\ 0 <= q < block_cnt fh + free_slots_cnt fh;
  ei_used : forall j, 0 <= j < free_slots_cnt fh -> free_slots_offset fh j <> offset iv;
  ei_data : file_get f (offset iv) (data_size iv) = d;
  ei_len : 0 < data_size iv -> offset iv + data_size iv <= flen f
}.

(** ** Bytes of a file *)

Lemma file_put_out f off n g x : x < off \/ off + n <= x -> fbytes (file_put f off n g) x = fbytes f x.
Proof.
  intros Hx. cbn. destruct (Z.leb_spec off x), (Z.ltb_spec x (off + n)); try done. lia.
Qed.

Lemma file_put_in f off n g x : off <= x < off + n -> fbytes (file_put f off n g) x = g (x - off).
Proof. intros Hx. cbn. now rewrite (proj2 (Z.leb_le _ _)), (proj2 (Z.ltb_lt _ _)) by lia. Qed.

Lemma file_put_len f off n g : flen f <= flen (file_put f off n g) /\ (0 <= off -> 0 <= n -> 0 <= flen f -> off + n <= Z.max (flen (file_put f off n g)) off).
Proof. cbn. destruct (Z.ltb_spec 0 n); lia. Qed.

Lemma file_get_ext f f' off n :
  (forall x, off <= x < off + n -> fbytes f' x = fbytes f x) -> file_get f' off n = file_get f off n.
Proof.
  intros Hx. unfold file_get. apply list_fmap_ext. intros i x Hi.
  apply list_elem_of_lookup_2, elem_of_seqZ in Hi. apply Hx. lia.
Qed.

Lemma file_get_put f off d :
  file_get (file_put f off (Z.of_nat (length d)) (byte_at d)) off (Z.of_nat (length d)) = d.
Proof.
  apply list_eq. intros i. unfold file_get. rewrite list_lookup_fmap.
  destruct (decide (i < length d)%nat) as [Hi|Hi].
  - rewrite lookup_seqZ_lt by lia. cbn [option_map fmap option_fmap].
    rewrite file_put_in by lia. unfold byte_at. replace (Z.to_nat (off + (0 + Z.of_nat i) - off)) with i by lia.
    destruct (lookup_lt_is_Some_2 d i Hi) as [x Hx]. rewrite Hx. cbn. f_equal.
    rewrite nth_lookup, Hx. done.
  - rewrite lookup_seqZ_ge by lia. cbn. symmetry. apply lookup_ge_None_2. lia.
Qed.

(** Positions of different slots are a block apart, and behind the header. *)
Lemma slot_pos_apart sz q q' : 0 < sz -> slot_pos sz q <> slot_pos sz q' ->
  slot_pos sz q + sz <= slot_pos sz q' \/ slot_pos sz q' + sz <= slot_pos sz q.
Proof. unfold slot_pos. intros Hsz Hne. destruct (Z.lt_trichotomy q q') as [|[->|]]; [nia|done|nia]. Qed.

Lemma slot_pos_ge sz q : 0 <= sz -> 0 <= q -> DATA_SECTION_POS <= slot_pos sz q.
Proof. unfold slot_pos. nia. Qed.

Lemma slot_pos_inj sz q q' : 0 < sz -> slot_pos sz q = slot_pos sz q' -> q = q'.
Proof. unfold slot_pos. nia. Qed.

Section Refinement.
Context {DB : Type} `{BerkeleyDBLaws DB}.

(** A running storage with a quiet environment; [jr] is the index lock and the
    last closed journal. *)
Definition St (sizes : list Z) (hs : list block_file_t) (n : Z) (dk : gmap Z file)
  (b : Bdb.bdb_t DB) (il : IndexLog.index_logger_s) (jr : RWLock.rwlock_t * option (list Z)) : state DB :=
  State true sizes hs n dk (Some b) (Some il) (Some jr.1) jr.2 [] [].

(** The decoded index [idx] and the meaning [m] of the storage. *)
Record storage_inv (sizes : list Z) (hs : list block_file_t) (n : Z) (dk : gmap Z file)
  (b : Bdb.bdb_t DB) (il : IndexLog.index_logger_s)
  (idx : gmap (list Z) index_value_t) (m : gmap (list Z) (list Z)) : Prop := {
  si_count : 1 <= n <= MAX_BLOCK_CNT;
  si_sizes : length sizes = Z.to_nat MAX_BLOCK_CNT /\
    forall i, 0 <= i < n -> sizes !! Z.to_nat i = Some (type_size i);
  si_files : length hs = Z.to_nat MAX_BLOCK_CNT /\
    forall i, 0 <= i < n -> exists fh f, hs !! Z.to_nat i = Some fh /\
      dk !! type_size i = Some f /\ file_inv (type_size i) fh f;
  si_db : healthy (Bdb.dbp b) /\ contents (Bdb.dbp b) = value_bytes <$> idx;
  si_logger : exists p J, IndexLog.logging il p J;
  si_entries : forall k iv, idx !! k = Some iv -> value_ok iv /\ 0 <= block_id iv < n /\
    exists d fh f, m !! k = Some d /\ hs !! Z.to_nat (block_id iv) = Some fh /\
      dk !! type_size (block_id iv) = Some f /\ entry_inv (type_size (block_id iv)) fh f iv d;
  si_dom : forall k, is_Some (m !! k) -> is_Some (idx !! k);
  si_apart : forall k k' iv iv', idx !! k = Some iv -> idx !! k' = Some iv' ->
    block_id iv = block_id iv' -> offset iv = offset iv' -> k = k'
}.

(** Storage [s] means [m]. *)
Definition represents (s : state DB) (m : gmap (list Z) (list Z)) : Prop :=
  exists sizes hs n dk b il j idx, s = St sizes hs n dk b il (RWLock.rwlock_zero, j) /\
    storage_inv sizes hs n dk b il idx m.

(** ** Running the primitives on a quiet storage *)

Lemma bind_ret {A B} (m : M DB A) (k : A -> M DB B) s a s' : m s = Ret a s' -> bind m k s = k a s'.
Proof. intros E. unfold bind. now rewrite E. Qed.

Lemma handler_run sizes hs n dk b il jr id fh :
  0 <= id -> hs !! Z.to_nat id = Some fh ->
  handler id (St sizes hs n dk b il jr) = Ret fh (St sizes hs n dk b il jr).
Proof. intros H0' Hl. unfold handler. rewrite (proj2 (Z.ltb_ge _ _)) by done. cbn. now rewrite Hl. Qed.

Lemma size_run sizes hs n dk b il jr id sz :
  0 <= id -> sizes !! Z.to_nat id = Some sz ->
  size_at id (St sizes hs n dk b il jr) = Ret sz (St sizes hs n dk b il jr).
Proof. intros H0' Hl. unfold size_at. rewrite (proj2 (Z.ltb_ge _ _)) by done. cbn. now rewrite Hl. Qed.

Lemma set_handler_run sizes hs n dk b il jr id fh :
  set_handler id fh (St sizes hs n dk b il jr) = Ret tt (St sizes (<[Z.to_nat id := fh]> hs) n dk b il jr).
Proof. reflexivity. Qed.

Lemma assert_run (c : bool) (s : state DB) : c = true -> assert c s = Ret tt s.
Proof. now intros ->. Qed.

(** A handler with another lock. *)
Definition relock (fh : block_file_t) (l : RWLock.rwlock_t) : block_file_t :=
  BlockFile (fd fh) l (block_size fh) (block_cnt fh) (free_slots_cnt fh) (free_slots_offset fh).
Definition written : RWLock.rwlock_t := RWLock.Rwlock 0 1 0.
Definition read1 : RWLock.rwlock_t := RWLock.Rwlock 0 0 1.

Lemma relock_same fh l : lock fh = l -> relock fh l = fh.
Proof. intros <-. now destruct fh. Qed.

Lemma set_file_lock_run sizes hs n dk b il jr id fh l :
  0 <= id -> hs !! Z.to_nat id = Some fh ->
  set_file_lock id l (St sizes hs n dk b il jr) =
  Ret tt (St sizes (<[Z.to_nat id := relock fh l]> hs) n dk b il jr).
Proof. intros H0' Hl. unfold set_file_lock. erewrite bind_ret by (apply handler_run; eassumption). reflexivity. Qed.

Lemma ex_lock_run sizes hs n dk b il jr id fh :
  0 <= id -> hs !! Z.to_nat id = Some fh -> lock fh = RWLock.rwlock_zero ->
  EX_LOCK id (St sizes hs n dk b il jr) =
  Ret tt (St sizes (<[Z.to_nat id := relock fh written]> hs) n dk b il jr).
Proof.
  intros H0' Hl Hlock. unfold EX_LOCK. erewrite bind_ret by (apply handler_run; eassumption).
  rewrite Hlock. change (RWLock.rwlock_wrlock RWLock.rwlock_zero) with (Some written). cbn [with_lock].
  now apply set_file_lock_run.
Qed.

Lemma ex_unlock_run sizes hs n dk b il jr id fh :
  0 <= id -> hs !! Z.to_nat id = Some fh -> lock fh = written ->
  EX_UNLOCK id (St sizes hs n dk b il jr) =
  Ret tt (St sizes (<[Z.to_nat id := relock fh RWLock.rwlock_zero]> hs) n dk b il jr).
Proof.
  intros H0' Hl Hlock. unfold EX_UNLOCK. erewrite bind_ret by (apply handler_run; eassumption).
  rewrite Hlock. change ((RWLock.rwlock_unwrlock written).1) with RWLock.rwlock_zero.
  now apply set_file_lock_run.
Qed.

Lemma sh_lock_run sizes hs n dk b il jr id fh :
  0 <= id -> hs !! Z.to_nat id = Some fh -> lock fh = RWLock.rwlock_zero ->
  SH_LOCK id (St sizes hs n dk b il jr) =
  Ret tt (St sizes (<[Z.to_nat id := relock fh read1]> hs) n dk b il jr).
Proof.
  intros H0' Hl Hlock. unfold SH_LOCK. erewrite bind_ret by (apply handler_run; eassumption).
  rewrite Hlock. change (RWLock.rwlock_rdlock RWLock.rwlock_zero) with (Some read1). cbn [with_lock].
  now apply set_file_lock_run.
Qed.

Lemma sh_unlock_run sizes hs n dk b il jr id fh :
  0 <= id -> hs !! Z.to_nat id = Some fh -> lock fh = read1 ->
  SH_UNLOCK id (St sizes hs n dk b il jr) =
  Ret tt (St sizes (<[Z.to_nat id := relock fh RWLock.rwlock_zero]> hs) n dk b il jr).
Proof.
  intros H0' Hl Hlock. unfold SH_UNLOCK. erewrite bind_ret by (apply handler_run; eassumption).
  rewrite Hlock. change ((RWLock.rwlock_unrdlock read1).1) with RWLock.rwlock_zero.
  now apply set_file_lock_run.
Qed.

Lemma pwrite_run sizes hs n dk b il jr name f len g off :
  dk !! name = Some f -> 0 <= off -> 0 <= len ->
  pwrite (FdOpen name) len g off (St sizes hs n dk b il jr) =
  Ret len (St sizes hs n (<[name := file_put f off len g]> dk) b il jr).
Proof.
  intros Hf Hoff Hlen. unfold pwrite, file_of, bind, get, ret, next_io. cbn [disk St io].
  rewrite Hf. cbn [option_map]. rewrite (proj2 (Z.ltb_ge _ _)) by done.
  now rewrite Z.max_r by done.
Qed.

Lemma pread_run sizes hs n dk b il jr name f len off :
  dk !! name = Some f -> 0 <= off -> 0 <= len -> (0 < len -> off + len <= flen f) ->
  pread (FdOpen name) len off (St sizes hs n dk b il jr) =
  Ret (len, fun i => fbytes f (off + i)) (St sizes hs n dk b il jr).
Proof.
  intros Hf Hoff Hlen Hend. unfold pread, file_of, bind, get, ret, next_io. cbn [disk St io].
  rewrite Hf. cbn [option_map]. rewrite (proj2 (Z.ltb_ge _ _)) by done. do 2 f_equal. lia.
Qed.

Lemma sync_data_run sizes hs n dk b il jr id fh name f len g off fl :
  0 <= id < n -> hs !! Z.to_nat id = Some fh -> fd fh = FdOpen name -> dk !! name = Some f ->
  0 <= off -> 0 <= len ->
  sync_data_file id len g off fl (St sizes hs n dk b il jr) =
  Ret 0 (St sizes hs n (<[name := file_put f off len g]> dk) b il jr).
Proof.
  intros Hid Hl Hfd Hf Hoff Hlen. unfold sync_data_file. erewrite bind_ret by reflexivity.
  erewrite bind_ret by (apply assert_run; cbn; apply Z.ltb_lt; lia).
  erewrite bind_ret by (apply handler_run; [lia|exact Hl]). rewrite Hfd.
  erewrite bind_ret by (apply pwrite_run; eassumption). now rewrite Z.eqb_refl.
Qed.

(** The file after its header was synced from [fh]. *)
Definition put_header (fh : block_file_t) (f : file) : file :=
  file_put f 0 SLOTS_SECTION_POS (byte_at (header_fields fh)).

Lemma sync_header_run sizes hs n dk b il jr id fh name f fl :
  0 <= id < n -> hs !! Z.to_nat id = Some fh -> fd fh = FdOpen name -> dk !! name = Some f ->
  sync_data_file_header id fl (St sizes hs n dk b il jr) =
  Ret 0 (St sizes hs n (<[name := put_header fh f]> dk) b il jr).
Proof.
  intros Hid Hl Hfd Hf. unfold sync_data_file_header.
  erewrite bind_ret by (apply handler_run; [lia|exact Hl]).
  erewrite bind_ret by (eapply sync_data_run; try done; unfold SLOTS_SECTION_POS; lia). reflexivity.
Qed.

(** The journal takes the item, whatever its buffers. *)
Lemma log_append_run sizes hs n dk b il jr p J it :
  IndexLog.logging il p J -> IndexLog.item_ok it ->
  exists il' p' J', log_append it (St sizes hs n dk b il jr) = Ret tt (St sizes hs n dk b il' jr) /\
    IndexLog.logging il' p' J'.
Proof.
  intros Hl Hit. destruct (IndexLog.append_logging _ _ _ _ Hl Hit) as (il' & p' & E & Hl').
  exists il', p', (IndexLog.journal_append J it). split; [|done].
  unfold log_append, bind, get, next_io. cbn [St index_logger io default]. now rewrite E.
Qed.

Lemma db_insert_run sizes hs n dk b il jr idx k iv :
  healthy (Bdb.dbp b) -> contents (Bdb.dbp b) = value_bytes <$> idx ->
  exists b', db_insert k (value_bytes iv) (St sizes hs n dk b il jr) = Ret 0 (St sizes hs n dk b' il jr) /\
    healthy (Bdb.dbp b') /\ contents (Bdb.dbp b') = value_bytes <$> <[k := iv]> idx.
Proof.
  intros Hh Hc. destruct (put_law (Bdb.dbp b) k (value_bytes iv) Hh) as (d' & E & Hh' & Hc').
  exists (Bdb.BdbT d' 0). split; [|split; [done|]].
  - unfold db_insert, bind, get, set_indexdb. cbn [St indexdb]. unfold Bdb.insert_record. now rewrite E.
  - cbn [Bdb.dbp]. now rewrite Hc', Hc, fmap_insert.
Qed.

Lemma db_delete_run sizes hs n dk b il jr idx k iv :
  healthy (Bdb.dbp b) -> contents (Bdb.dbp b) = value_bytes <$> idx -> idx !! k = Some iv ->
  exists b', db_delete k (St sizes hs n dk b il jr) = Ret 0 (St sizes hs n dk b' il jr) /\
    healthy (Bdb.dbp b') /\ contents (Bdb.dbp b') = value_bytes <$> delete k idx.
Proof.
  intros Hh Hc Hk. destruct (del_law (Bdb.dbp b) k (value_bytes iv) Hh) as (d' & E & Hh' & Hc').
  { rewrite Hc, lookup_fmap, Hk. done. }
  exists (Bdb.BdbT d' (Bdb.error_no b)). split; [|split; [done|]].
  - unfold db_delete, bind, get, set_indexdb. cbn [St indexdb]. unfold Bdb.del_record. now rewrite E.
  - cbn [Bdb.dbp]. now rewrite Hc', Hc, fmap_delete.
Qed.

Lemma db_find_hit sizes hs n dk b il jr idx k iv :
  healthy (Bdb.dbp b) -> contents (Bdb.dbp b) = value_bytes <$> idx -> idx !! k = Some iv ->
  exists b', db_find k (Z.of_nat sizeof_index_value) (St sizes hs n dk b il jr) =
      Ret (0, Bdb.Value (value_bytes iv ++ [])) (St sizes hs n dk b' il jr) /\
    healthy (Bdb.dbp b') /\ contents (Bdb.dbp b') = value_bytes <$> idx.
Proof.
  intros Hh Hc Hk.
  destruct (get_law (Bdb.dbp b) k (Z.of_nat sizeof_index_value) (value_bytes iv) Hh) as (d' & E & Hh' & Hc').
  { rewrite Hc, lookup_fmap, Hk. done. }
  { rewrite value_bytes_length. lia. }
  exists (Bdb.BdbT d' (Bdb.error_no b)). split; [|split; [done|now rewrite <- Hc]].
  unfold db_find, bind, next_alloc, get, set_indexdb. cbn [St allocs indexdb].
  unfold Bdb.find_record. cbn [negb andb]. rewrite E. cbn [Z.eqb default].
  now rewrite Nat2Z.id, value_bytes_length, Nat.sub_diag.
Qed.

Lemma db_find_miss sizes hs n dk b il jr idx k :
  healthy (Bdb.dbp b) -> contents (Bdb.dbp b) = value_bytes <$> idx -> idx !! k = None ->
  exists b', db_find k (Z.of_nat sizeof_index_value) (St sizes hs n dk b il jr) =
      Ret (DB_NOTFOUND, Bdb.Null) (St sizes hs n dk b' il jr) /\
    healthy (Bdb.dbp b') /\ contents (Bdb.dbp b') = value_bytes <$> idx.
Proof.
  intros Hh Hc Hk. destruct notfound_nonzero as [Hnf _].
  destruct (get_missing_law (Bdb.dbp b) k (Z.of_nat sizeof_index_value) Hh) as (d' & bs & E & Hh' & Hc').
  { rewrite Hc, lookup_fmap, Hk. done. }
  exists (Bdb.BdbT d' (Bdb.error_no b)). split; [|split; [done|now rewrite <- Hc]].
  unfold db_find, bind, next_alloc, get, set_indexdb. cbn [St allocs indexdb].
  unfold Bdb.find_record. cbn [negb andb]. rewrite E. rewrite (proj2 (Z.eqb_neq _ _)) by done.
  now rewrite Z.eqb_refl.
Qed.

(** ** append_block, modify_block and do_delete_block *)

(** The handler after a slot was taken, and the slot's position. *)
Definition claim (fh : block_file_t) : block_file_t * Z :=
  if negb (free_slots_cnt fh =? 0) then
    let k := free_slots_cnt fh - 1 in
    (BlockFile (fd fh) (lock fh) (block_size fh) (u64 (block_cnt fh + 1)) k
       (fun i => if i =? k then 0 else free_slots_offset fh i), free_slots_offset fh k)
  else
    (BlockFile (fd fh) (lock fh) (block_size fh) (u64 (block_cnt fh + 1)) (free_slots_cnt fh)
       (free_slots_offset fh),
     i64 (DATA_SECTION_POS + block_size fh * (u64 (block_cnt fh + 1) - 1))).
Definition store_at (fh : block_file_t) (f : file) (off : Z) (data : list Z) : file :=
  file_put (put_header fh f) off (Z.of_nat (length data)) (byte_at data).

Lemma fixed_key_id k : length k = KEY_LEN -> take 16 (take 16 k ++ replicate 16 0) = k.
Proof. unfold KEY_LEN. intros E. rewrite take_app_le by (rewrite length_take; lia). rewrite take_take, Nat.min_id. apply take_ge. lia. Qed.

Lemma fixed_key_ok k : bytes_ok k -> key_ok (fixed_key k).
Proof.
  intros Hk. unfold fixed_key. split.
  - rewrite length_take, length_app, length_take, length_replicate. unfold KEY_LEN. lia.
  - apply Forall_take, Forall_app. split; [now apply Forall_take|]. apply Forall_replicate. done.
Qed.

Lemma fixed_key_idem k : key_ok k -> fixed_key k = k.
Proof. intros [Hk _]. now apply fixed_key_id. Qed.

Lemma insert_insert_same {A} (l : list A) i x y : <[i := x]> (<[i := y]> l) = <[i := x]> l.
Proof. apply list_insert_insert_eq. Qed.

Lemma append_block_run sizes hs n dk b il jr idx id key data fh f :
  0 <= id < n -> n <= MAX_BLOCK_CNT -> length hs = Z.to_nat MAX_BLOCK_CNT ->
  sizes !! Z.to_nat id = Some (type_size id) ->
  hs !! Z.to_nat id = Some fh -> dk !! type_size id = Some f -> file_inv (type_size id) fh f ->
  healthy (Bdb.dbp b) -> contents (Bdb.dbp b) = value_bytes <$> idx ->
  (exists p J, IndexLog.logging il p J) -> key_ok key ->
  Z.of_nat (length data) <= type_size id -> 0 <= (claim fh).2 ->
  let iv := IndexValue (Crc32.crc32_calc data) (u32 id) (Z.of_nat (length data)) (claim fh).2 in
  value_ok iv ->
  exists b' il', append_block id key data (St sizes hs n dk b il jr) =
      Ret 0 (St sizes (<[Z.to_nat id := (claim fh).1]> hs) n
               (<[type_size id := store_at (claim fh).1 f (claim fh).2 data]> dk) b' il' jr) /\
    healthy (Bdb.dbp b') /\ contents (Bdb.dbp b') = value_bytes <$> <[key := iv]> idx /\
    (exists p J, IndexLog.logging il' p J).
Proof.
  intros Hid Hn Hlen Hsz Hl Hf Hfi Hh Hc (p & J & Hlg) Hkey Hfit Hoff iv Hiv.
  assert (Hlt : (Z.to_nat id < length hs)%nat) by (unfold MAX_BLOCK_CNT in *; lia).
  destruct (log_append_run sizes (<[Z.to_nat id := (claim fh).1]> hs) n
    (<[type_size id := store_at (claim fh).1 f (claim fh).2 data]> dk) b il jr p J
    (IndexLogItem (op_code index_append) key iv) Hlg) as (il' & p' & J' & Elog & Hlg').
  { split; [done|]. split; [done|exact Hiv]. }
  destruct (db_insert_run sizes (<[Z.to_nat id := (claim fh).1]> hs) n
    (<[type_size id := store_at (claim fh).1 f (claim fh).2 data]> dk) b il' jr idx key iv Hh Hc)
    as (b' & Edb & Hh' & Hc').
  exists b', il'. split; [|eauto 6].
  unfold append_block. erewrite bind_ret by reflexivity. cbn [St block_type_count].
  rewrite (proj2 (Z.leb_gt _ _)) by lia.
  erewrite bind_ret by (apply handler_run; [lia|eassumption]). rewrite (fi_fd _ _ _ Hfi).
  erewrite bind_ret by now apply assert_run.
  erewrite bind_ret by (apply size_run; [lia|eassumption]).
  erewrite bind_ret by (apply assert_run, Z.leb_le; lia).
  erewrite bind_ret by (eapply ex_lock_run; [lia|eassumption|apply Hfi]).
  erewrite bind_ret by (apply handler_run; [lia|now apply list_lookup_insert_eq]).
  cbn [relock free_slots_cnt block_cnt block_size fd free_slots_offset lock].
  match goal with |- bind ?m _ _ = _ => assert (Em : m (St sizes (<[Z.to_nat id := relock fh written]> hs) n dk b il jr)
    = Ret (claim fh).2 (St sizes (<[Z.to_nat id := relock (claim fh).1 written]> hs) n
        (<[type_size id := store_at (claim fh).1 f (claim fh).2 data]> dk) b il jr)) end.
  { unfold claim in *. destruct (negb (free_slots_cnt fh =? 0)); cbn [fst snd] in *;
      (erewrite bind_ret by apply set_handler_run); rewrite insert_insert_same;
      (erewrite bind_ret by (eapply sync_header_run; [lia|now apply list_lookup_insert_eq|apply Hfi|eassumption]));
      [|erewrite bind_ret by (apply handler_run; [lia|now apply list_lookup_insert_eq]); cbn [block_size block_cnt]];
      (erewrite bind_ret by (eapply sync_data_run; [lia|now apply list_lookup_insert_eq|apply Hfi|apply lookup_insert_eq|lia|lia]));
      now rewrite insert_insert_eq. }
  erewrite bind_ret by exact Em.
  erewrite bind_ret by (eapply ex_unlock_run; [lia|now apply list_lookup_insert_eq|done]).
  rewrite insert_insert_same.
  replace (relock (relock (claim fh).1 written) RWLock.rwlock_zero) with (claim fh).1
    by (pose proof (fi_lock _ _ _ Hfi) as Hlk; unfold claim; destruct (negb _); unfold relock; cbn; now rewrite Hlk).
  rewrite fixed_key_id by apply Hkey.
  erewrite bind_ret by exact Elog. erewrite bind_ret by exact Edb. reflexivity.
Qed.

Lemma insert_relock_id (hs : list block_file_t) id fh :
  hs !! Z.to_nat id = Some fh -> lock fh = RWLock.rwlock_zero ->
  <[Z.to_nat id := relock (relock fh written) RWLock.rwlock_zero]> hs = hs.
Proof.
  intros Hl Hlock. apply list_insert_id. rewrite Hl. f_equal. destruct fh; cbn in *. now subst.
Qed.

Lemma modify_block_run sizes hs n dk b il jr idx key data iv fh f :
  0 <= block_id iv < n -> n <= MAX_BLOCK_CNT -> length hs = Z.to_nat MAX_BLOCK_CNT ->
  sizes !! Z.to_nat (block_id iv) = Some (type_size (block_id iv)) ->
  hs !! Z.to_nat (block_id iv) = Some fh -> dk !! type_size (block_id iv) = Some f ->
  file_inv (type_size (block_id iv)) fh f ->
  healthy (Bdb.dbp b) -> contents (Bdb.dbp b) = value_bytes <$> idx ->
  (exists p J, IndexLog.logging il p J) -> key_ok key ->
  Z.of_nat (length data) <= type_size (block_id iv) -> 0 <= offset iv ->
  let iv' := IndexValue (Crc32.crc32_calc data) (block_id iv) (Z.of_nat (length data)) (offset iv) in
  value_ok iv' ->
  exists b' il', modify_block iv key data (St sizes hs n dk b il jr) =
      Ret 0 (St sizes hs n (<[type_size (block_id iv) :=
               file_put f (offset iv) (Z.of_nat (length data)) (byte_at data)]> dk) b' il' jr) /\
    healthy (Bdb.dbp b') /\ contents (Bdb.dbp b') = value_bytes <$> <[key := iv']> idx /\
    (exists p J, IndexLog.logging il' p J).
Proof.
  intros Hid Hn Hlen Hsz Hl Hf Hfi Hh Hc (p & J & Hlg) Hkey Hfit Hoff iv' Hiv.
  set (dk' := <[type_size (block_id iv) := file_put f (offset iv) (Z.of_nat (length data)) (byte_at data)]> dk).
  assert (Hlt : (Z.to_nat (block_id iv) < length hs)%nat) by (unfold MAX_BLOCK_CNT in *; lia).
  destruct (log_append_run sizes hs n dk' b il jr p J
    (IndexLogItem (op_code index_modify) key iv') Hlg) as (il' & p' & J' & Elog & Hlg').
  { split; [done|]. split; [done|exact Hiv]. }
  destruct (db_insert_run sizes hs n dk' b il' jr idx key iv' Hh Hc) as (b' & Edb & Hh' & Hc').
  exists b', il'. split; [|eauto 6].
  unfold modify_block. erewrite bind_ret by reflexivity. cbn [St block_type_count].
  rewrite (proj2 (Z.leb_gt _ _)) by lia.
  erewrite bind_ret by (apply handler_run; [lia|eassumption]). rewrite (fi_fd _ _ _ Hfi).
  erewrite bind_ret by now apply assert_run.
  erewrite bind_ret by (apply size_run; [lia|eassumption]).
  erewrite bind_ret by (apply assert_run, Z.leb_le; lia).
  erewrite bind_ret by (eapply ex_lock_run; [lia|eassumption|apply Hfi]).
  erewrite bind_ret by (eapply sync_data_run; [lia|now apply list_lookup_insert_eq|apply Hfi|eassumption|lia|lia]).
  erewrite bind_ret by now apply assert_run.
  erewrite bind_ret by (eapply ex_unlock_run; [lia|now apply list_lookup_insert_eq|done]).
  rewrite insert_insert_same, (insert_relock_id _ _ _ Hl (fi_lock _ _ _ Hfi)).
  rewrite fixed_key_id by apply Hkey. replace (take 16 key) with key
    by (symmetry; apply take_ge; rewrite (proj1 Hkey); unfold KEY_LEN; lia).
  erewrite bind_ret by exact Elog. erewrite bind_ret by exact Edb. reflexivity.
Qed.

(** The handler and the file after a slot was released. *)
Definition release (fh : block_file_t) (off : Z) : block_file_t :=
  BlockFile (fd fh) (lock fh) (block_size fh) (u64 (block_cnt fh - 1)) (free_slots_cnt fh + 1)
    (fun i => if i =? free_slots_cnt fh then off else free_slots_offset fh i).
Definition release_file (fh : block_file_t) (f : file) (off : Z) : file :=
  file_put (put_header (release fh off) f) (SLOTS_SECTION_POS + sizeof_off_t * free_slots_cnt fh)
    sizeof_off_t (byte_at (slot_bytes off)).

Lemma do_delete_block_run sizes hs n dk b il jr idx key iv fh f :
  0 <= block_id iv < n -> n <= MAX_BLOCK_CNT -> length hs = Z.to_nat MAX_BLOCK_CNT ->
  sizes !! Z.to_nat (block_id iv) = Some (type_size (block_id iv)) ->
  hs !! Z.to_nat (block_id iv) = Some fh -> dk !! type_size (block_id iv) = Some f ->
  file_inv (type_size (block_id iv)) fh f ->
  healthy (Bdb.dbp b) -> contents (Bdb.dbp b) = value_bytes <$> idx ->
  (exists p J, IndexLog.logging il p J) -> key_ok key -> value_ok iv -> idx !! key = Some iv ->
  exists b' il' hs' dk', do_delete_block iv key (St sizes hs n dk b il jr) =
      Ret 0 (St sizes hs' n dk' b' il' jr) /\
    healthy (Bdb.dbp b') /\ contents (Bdb.dbp b') = value_bytes <$> delete key idx /\
    (exists p J, IndexLog.logging il' p J) /\
    ((MAX_FREE_SLOTS <= free_slots_cnt fh /\ hs' = hs /\ dk' = dk) \/
     (free_slots_cnt fh < MAX_FREE_SLOTS /\
      hs' = <[Z.to_nat (block_id iv) := release fh (offset iv)]> hs /\
      dk' = <[type_size (block_id iv) := release_file fh f (offset iv)]> dk)).
Proof.
  intros Hid Hn Hlen Hsz Hl Hf Hfi Hh Hc (p & J & Hlg) Hkey Hiv Hidx.
  assert (Hlt : (Z.to_nat (block_id iv) < length hs)%nat) by (unfold MAX_BLOCK_CNT in *; lia).
  destruct (log_append_run sizes hs n dk b il jr p J
    (IndexLogItem (op_code index_del) key iv) Hlg) as (il' & p' & J' & Elog & Hlg').
  { split; [done|]. split; [done|exact Hiv]. }
  destruct (db_delete_run sizes hs n dk b il' jr idx key iv Hh Hc Hidx) as (b' & Edb & Hh' & Hc').
  pose proof (fi_free _ _ _ Hfi) as Hfree.
  assert (Ekey : take 16 (key ++ replicate 16 0) = key).
  { rewrite take_app_le by (rewrite (proj1 Hkey); unfold KEY_LEN; lia). apply take_ge. rewrite (proj1 Hkey). unfold KEY_LEN. lia. }
  unfold do_delete_block. rewrite Ekey.
  erewrite bind_ret by exact Elog. erewrite bind_ret by exact Edb. cbn [Z.eqb negb].
  erewrite bind_ret by (eapply ex_lock_run; [lia|eassumption|apply Hfi]).
  erewrite bind_ret by (apply handler_run; [lia|now apply list_lookup_insert_eq]).
  cbn [relock free_slots_cnt block_cnt block_size fd free_slots_offset lock].
  destruct (Z.leb_spec MAX_FREE_SLOTS (free_slots_cnt fh)) as [Hfull|Hroom].
  - exists b', il', hs, dk. split; [|eauto 10].
    erewrite bind_ret by (eapply ex_unlock_run; [lia|now apply list_lookup_insert_eq|done]).
    rewrite insert_insert_same, (insert_relock_id _ _ _ Hl (fi_lock _ _ _ Hfi)).
    erewrite bind_ret by (apply size_run; [lia|eassumption]). reflexivity.
  - exists b', il', (<[Z.to_nat (block_id iv) := release fh (offset iv)]> hs),
      (<[type_size (block_id iv) := release_file fh f (offset iv)]> dk). split; [|eauto 10].
    erewrite bind_ret by apply set_handler_run. rewrite insert_insert_same.
    erewrite bind_ret by (eapply ex_unlock_run; [lia|now apply list_lookup_insert_eq|done]).
    rewrite insert_insert_same.
    replace (relock _ RWLock.rwlock_zero) with (release fh (offset iv))
      by (unfold release, relock; cbn; now rewrite (fi_lock _ _ _ Hfi)).
    erewrite bind_ret by (eapply sync_header_run; [lia|now apply list_lookup_insert_eq|apply Hfi|eassumption]).
    erewrite bind_ret by (apply handler_run; [lia|now apply list_lookup_insert_eq]).
    cbn [release free_slots_offset]. rewrite Z.eqb_refl.
    erewrite bind_ret by (eapply sync_data_run;
      [lia|now apply list_lookup_insert_eq|apply Hfi|apply lookup_insert_eq
      |unfold SLOTS_SECTION_POS, sizeof_off_t; lia|unfold sizeof_off_t; lia]).
    now rewrite insert_insert_eq.
Qed.

End Refinement.

(** ** One file: taking and releasing slots *)

Section OneFile.
Variables (sz : Z) (fh : block_file_t) (f : file).
Hypothesis Hsz : 128 <= sz <= 2 ^ 26.
Hypothesis Hfi : file_inv sz fh f.

Lemma header_fields_length g : length (header_fields g) = 24%nat.
Proof. unfold header_fields. now rewrite !length_app, !le_split_length. Qed.

(** What [claim] yields: a slot below the new high-water mark, no longer free. *)
Lemma claim_slot :
  block_cnt fh + free_slots_cnt fh < 2 ^ 32 ->
  let '(fh', off) := claim fh in
  (exists q, off = slot_pos sz q /\ 0 <= q < block_cnt fh' + free_slots_cnt fh') /\
  (forall j, 0 <= j < free_slots_cnt fh' -> free_slots_offset fh' j = free_slots_offset fh j /\
     free_slots_offset fh' j <> off) /\
  0 <= free_slots_cnt fh' <= free_slots_cnt fh /\ 0 <= block_cnt fh' /\
  block_cnt fh + free_slots_cnt fh <= block_cnt fh' + free_slots_cnt fh' <= 2 ^ 32 /\
  block_cnt fh' + free_slots_cnt fh' <= block_cnt fh + free_slots_cnt fh + 1 /\
  fd fh' = fd fh /\ lock fh' = lock fh /\ block_size fh' = block_size fh.
Proof.
  intros Hhigh. destruct Hfi as [Hfd Hlk Hbs Hcnt Hfree Hhi Hslots Hinj _ _ _].
  unfold claim. unfold MAX_FREE_SLOTS in Hfree. rewrite u64_small by (unfold in_range; lia).
  destruct (Z.eqb_spec (free_slots_cnt fh) 0) as [E|E]; cbn [negb free_slots_cnt block_cnt free_slots_offset fd lock block_size].
  - split.
    + exists (block_cnt fh). rewrite Hbs. unfold slot_pos. split; [|lia].
      rewrite i64_small; [lia|]. unfold DATA_SECTION_POS, MAX_FREE_SLOTS. nia.
    + repeat split; try lia.
  - split.
    + destruct (Hslots (free_slots_cnt fh - 1)) as (q & Hq & Hq'); [lia|]. exists q. split; [done|lia].
    + split; [|repeat split; try lia]. intros j Hj. rewrite (proj2 (Z.eqb_neq _ _)) by lia. split; [done|].
      intros Heq. apply Hinj in Heq; lia.
Qed.

Lemma claim_fresh iv d :
  block_cnt fh + free_slots_cnt fh < 2 ^ 32 -> entry_inv sz fh f iv d -> offset iv <> (claim fh).2.
Proof.
  intros Hhigh [_ _ _ (q & Hq & Hq') Hused _ _]. unfold claim.
  destruct Hfi as [_ _ Hbs Hcnt Hfree _ _ _ _ _ _]. unfold MAX_FREE_SLOTS in Hfree.
  destruct (Z.eqb_spec (free_slots_cnt fh) 0) as [E|E]; cbn [negb snd].
  - rewrite u64_small by (unfold in_range; lia). rewrite Hbs.
    rewrite i64_small by (unfold DATA_SECTION_POS, MAX_FREE_SLOTS; nia).
    rewrite Hq. unfold slot_pos. nia.
  - intros Heq. apply (Hused (free_slots_cnt fh - 1)); [lia|done].
Qed.

(** Storing data in a slot keeps the file well-formed. *)
Lemma store_file_inv fh' off q data :
  fd fh' = fd fh -> lock fh' = lock fh -> block_size fh' = block_size fh ->
  0 <= block_cnt fh' -> 0 <= free_slots_cnt fh' <= free_slots_cnt fh ->
  block_cnt fh + free_slots_cnt fh <= block_cnt fh' + free_slots_cnt fh' <= 2 ^ 32 ->
  (forall j, 0 <= j < free_slots_cnt fh' -> free_slots_offset fh' j = free_slots_offset fh j) ->
  off = slot_pos sz q -> 0 <= q ->
  file_inv sz fh' (store_at fh' f off data).
Proof.
  destruct Hfi as [Hfd Hlk Hbs Hcnt Hfree Hhi Hslots Hinj Hhd Hds Hlen].
  intros E1 E2 E3 Hc' Hf' Hh' Hsl -> Hq. pose proof (slot_pos_ge sz q ltac:(lia) Hq) as Hge.
  unfold DATA_SECTION_POS, MAX_FREE_SLOTS in Hge.
  split; try congruence; try lia.
  - intros j Hj. rewrite Hsl by done. destruct (Hslots j) as (q' & ? & ?); [lia|]. exists q'. split; [done|lia].
  - intros j j' Hj Hj'. rewrite !Hsl by done. apply Hinj; lia.
  - intros x Hx. unfold store_at, put_header, SLOTS_SECTION_POS in *.
    rewrite file_put_out, file_put_in by lia. now rewrite Z.sub_0_r.
  - intros j b' Hj Hb. unfold store_at, put_header, SLOTS_SECTION_POS in *. unfold MAX_FREE_SLOTS in *.
    rewrite !file_put_out by lia. rewrite Hsl by done. apply Hds; lia.
  - unfold store_at. eapply Z.le_trans; [|apply file_put_len].
    unfold put_header. eapply Z.le_trans; [|apply file_put_len]. done.
Qed.

(** ... and every other entry readable. *)
Lemma store_entry fh' off q data iv d :
  0 <= free_slots_cnt fh' <= free_slots_cnt fh ->
  block_cnt fh + free_slots_cnt fh <= block_cnt fh' + free_slots_cnt fh' ->
  (forall j, 0 <= j < free_slots_cnt fh' -> free_slots_offset fh' j = free_slots_offset fh j) ->
  off = slot_pos sz q -> 0 <= q -> Z.of_nat (length data) <= sz ->
  entry_inv sz fh f iv d -> offset iv <> off -> entry_inv sz fh' (store_at fh' f off data) iv d.
Proof.
  intros Hf' Hh' Hsl -> Hq Hlen [Hc Hs Hfit (q' & Hq' & Hq'') Hu Hd Hl] Hne.
  pose proof (slot_pos_ge sz q' ltac:(lia) ltac:(lia)) as Hge'.
  rewrite Hq' in Hne. pose proof (slot_pos_apart sz q' q ltac:(lia) Hne) as Hap.
  split; try done.
  - exists q'. split; [done|lia].
  - intros j Hj. rewrite Hsl by done. apply Hu. lia.
  - etransitivity; [|exact Hd]. apply file_get_ext. intros x Hx. unfold store_at, put_header.
    unfold DATA_SECTION_POS, MAX_FREE_SLOTS, SLOTS_SECTION_POS in *.
    rewrite !file_put_out by lia. done.
  - unfold store_at, put_header.
    pose proof (proj1 (file_put_len (file_put f 0 SLOTS_SECTION_POS (byte_at (header_fields fh')))
      (slot_pos sz q) (Z.of_nat (length data)) (byte_at data))).
    pose proof (proj1 (file_put_len f 0 SLOTS_SECTION_POS (byte_at (header_fields fh')))). lia.
Qed.

(** The entry that was stored. *)
Lemma stored_entry fh' off q data c id :
  c = Crc32.crc32_calc data -> Z.of_nat (length data) <= sz ->
  off = slot_pos sz q -> 0 <= q < block_cnt fh' + free_slots_cnt fh' ->
  (forall j, 0 <= j < free_slots_cnt fh' -> free_slots_offset fh' j <> off) ->
  entry_inv sz fh' (store_at fh' f off data) (IndexValue c id (Z.of_nat (length data)) off) data.
Proof.
  intros -> Hlen Hoff Hq Hu. pose proof (slot_pos_ge sz q ltac:(lia) ltac:(lia)) as Hge.
  split; cbn [crc32 data_size offset]; try done.
  - now exists q.
  - apply file_get_put.
  - intros Hpos. unfold store_at, file_put at 1; cbn [flen]. rewrite (proj2 (Z.ltb_lt _ _)) by done. lia.
Qed.

(** A slot in use and the free slots are distinct slots below the high-water
    mark, so at least one block is counted. *)
Lemma used_slot_counted iv d : entry_inv sz fh f iv d -> 1 <= block_cnt fh.
Proof.
  intros [_ _ _ (q & Hq & Hq') Hu _ _]. destruct Hfi as [_ _ _ Hcnt Hfree _ Hslots Hinj _ _ _].
  set (slot j := (free_slots_offset fh j - DATA_SECTION_POS) / sz).
  assert (Hslot : forall j q', free_slots_offset fh j = slot_pos sz q' -> slot j = q').
  { intros j q' E. unfold slot. rewrite E. unfold slot_pos.
    replace (DATA_SECTION_POS + sz * q' - DATA_SECTION_POS) with (q' * sz) by lia. apply Z.div_mul. lia. }
  set (l := q :: (slot <$> seqZ 0 (free_slots_cnt fh))).
  assert (Hnd : NoDup l).
  { constructor.
    - intros Hin. apply list_elem_of_fmap in Hin as (j & Ej & Hj). apply elem_of_seqZ in Hj.
      destruct (Hslots j ltac:(lia)) as (q' & E & _). apply (Hu j ltac:(lia)).
      rewrite (Hslot j q' E) in Ej. subst q'. now rewrite E.
    - apply NoDup_fmap_2_strong; [|apply NoDup_seqZ]. intros j j' Hj Hj' E.
      apply elem_of_seqZ in Hj, Hj'. apply Hinj; [lia|lia|].
      destruct (Hslots j ltac:(lia)) as (a & Ea & _), (Hslots j' ltac:(lia)) as (a' & Ea' & _).
      rewrite (Hslot j a Ea), (Hslot j' a' Ea') in E. subst a'. congruence. }
  assert (Hsub : l ⊆ seqZ 0 (block_cnt fh + free_slots_cnt fh)).
  { intros x Hx. apply elem_of_seqZ. apply elem_of_cons in Hx as [->|Hx]; [lia|].
    apply list_elem_of_fmap in Hx as (j & -> & Hj). apply elem_of_seqZ in Hj.
    destruct (Hslots j ltac:(lia)) as (a & Ea & Hab). rewrite (Hslot j a Ea). lia. }
  pose proof (submseteq_length _ _ (NoDup_submseteq _ _ Hnd Hsub)) as Hle.
  unfold l in Hle. cbn [length] in Hle. rewrite length_fmap, !length_seqZ in Hle. lia.
Qed.

(** Releasing a used slot. *)
Lemma release_file_inv iv d :
  entry_inv sz fh f iv d -> free_slots_cnt fh < MAX_FREE_SLOTS ->
  file_inv sz (release fh (offset iv)) (release_file fh f (offset iv)).
Proof.
  intros He Hroom. pose proof (used_slot_counted _ _ He) as Hone.
  destruct He as [_ _ _ (q & Hq & Hq') Hu _ _].
  destruct Hfi as [Hfd Hlk Hbs Hcnt Hfree Hhi Hslots Hinj Hhd Hds Hlen]. unfold MAX_FREE_SLOTS in *.
  assert (Ecnt : u64 (block_cnt fh - 1) = block_cnt fh - 1) by (apply u64_small; unfold in_range; lia).
  split; cbn [release fd lock block_size block_cnt free_slots_cnt free_slots_offset]; rewrite ?Ecnt; try done;
    unfold MAX_FREE_SLOTS; try lia.
  - intros j Hj. destruct (Z.eqb_spec j (free_slots_cnt fh)); [exists q; split; [done|lia]|].
    destruct (Hslots j ltac:(lia)) as (a & ? & ?). exists a. split; [done|lia].
  - intros j j' Hj Hj'. destruct (Z.eqb_spec j (free_slots_cnt fh)), (Z.eqb_spec j' (free_slots_cnt fh)); intros E.
    + lia.
    + exfalso. apply (Hu j'); [lia|done].
    + exfalso. apply (Hu j); [lia|done].
    + apply Hinj; [lia|lia|done].
  - intros x Hx. unfold release_file, put_header, SLOTS_SECTION_POS, sizeof_off_t in *.
    rewrite file_put_out, file_put_in by lia. now rewrite Z.sub_0_r.
  - intros j b' Hj Hb. unfold release_file, put_header, SLOTS_SECTION_POS, sizeof_off_t in *.
    destruct (Z.eqb_spec j (free_slots_cnt fh)) as [->|].
    + rewrite file_put_in by lia. f_equal. lia.
    + rewrite !file_put_out by lia. apply Hds; lia.
  - unfold release_file. eapply Z.le_trans; [|apply file_put_len].
    unfold put_header. eapply Z.le_trans; [|apply file_put_len]. done.
Qed.

Lemma release_entry iv d iv' d' :
  entry_inv sz fh f iv d -> entry_inv sz fh f iv' d' -> offset iv <> offset iv' ->
  free_slots_cnt fh < MAX_FREE_SLOTS ->
  entry_inv sz (release fh (offset iv)) (release_file fh f (offset iv)) iv' d'.
Proof.
  intros He [Hc Hs Hfit (q' & Hq' & Hq'') Hu Hd Hl] Hne Hroom.
  pose proof (used_slot_counted _ _ He) as Hone. destruct Hfi as [_ _ _ Hcnt Hfree Hhi _ _ _ _ _].
  unfold MAX_FREE_SLOTS in *. pose proof (slot_pos_ge sz q' ltac:(lia) ltac:(lia)) as Hge.
  unfold DATA_SECTION_POS, MAX_FREE_SLOTS in Hge.
  split; try done; cbn [release block_cnt free_slots_cnt free_slots_offset].
  - exists q'. rewrite u64_small by (unfold in_range; lia). split; [done|lia].
  - intros j Hj. destruct (Z.eqb_spec j (free_slots_cnt fh)); [done|apply Hu; lia].
  - etransitivity; [|exact Hd]. apply file_get_ext. intros x Hx.
    unfold release_file, put_header, SLOTS_SECTION_POS, sizeof_off_t in *. now rewrite !file_put_out by lia.
  - intros Hpos. specialize (Hl Hpos).
    pose proof (proj1 (file_put_len (put_header (release fh (offset iv)) f)
      (SLOTS_SECTION_POS + sizeof_off_t * free_slots_cnt fh) sizeof_off_t (byte_at (slot_bytes (offset iv))))).
    pose proof (proj1 (file_put_len f 0 SLOTS_SECTION_POS (byte_at (header_fields (release fh (offset iv)))))).
    unfold release_file, put_header in *. lia.
Qed.

(** Overwriting an entry's data in place. *)
Lemma rewrite_file_inv iv d data :
  entry_inv sz fh f iv d ->
  file_inv sz fh (file_put f (offset iv) (Z.of_nat (length data)) (byte_at data)).
Proof.
  intros [_ _ _ (q & Hq & Hq') _ _ _].
  destruct Hfi as [Hfd Hlk Hbs Hcnt Hfree Hhi Hslots Hinj Hhd Hds Hlen].
  pose proof (slot_pos_ge sz q ltac:(lia) ltac:(lia)) as Hge.
  unfold DATA_SECTION_POS, MAX_FREE_SLOTS, SLOTS_SECTION_POS in *. split; try done.
  - intros x Hx. rewrite file_put_out by (unfold SLOTS_SECTION_POS in *; lia). auto.
  - intros j b' Hj Hb. rewrite file_put_out by (unfold SLOTS_SECTION_POS in *; lia). auto.
  - eapply Z.le_trans; [|apply file_put_len]. done.
Qed.

Lemma rewrite_entry iv d data iv' d' :
  entry_inv sz fh f iv d -> entry_inv sz fh f iv' d' -> offset iv <> offset iv' ->
  Z.of_nat (length data) <= sz ->
  entry_inv sz fh (file_put f (offset iv) (Z.of_nat (length data)) (byte_at data)) iv' d'.
Proof.
  intros [_ _ _ (q & Hq & Hq') _ _ _] [Hc Hs Hfit (q2 & Hq2 & Hq2') Hu Hd Hl] Hne Hlen.
  rewrite Hq, Hq2 in Hne. pose proof (slot_pos_apart sz q q2 ltac:(lia) Hne) as Hap.
  split; try done.
  - now exists q2.
  - etransitivity; [|exact Hd]. apply file_get_ext. intros x Hx. rewrite file_put_out by lia. done.
  - intros Hpos. specialize (Hl Hpos).
    pose proof (proj1 (file_put_len f (offset iv) (Z.of_nat (length data)) (byte_at data))). lia.
Qed.

Lemma rewritten_entry iv d data :
  entry_inv sz fh f iv d -> Z.of_nat (length data) <= sz ->
  entry_inv sz fh (file_put f (offset iv) (Z.of_nat (length data)) (byte_at data))
    (IndexValue (Crc32.crc32_calc data) (block_id iv) (Z.of_nat (length data)) (offset iv)) data.
Proof.
  intros [_ _ _ (q & Hq & Hq') Hu _ _] Hlen. pose proof (slot_pos_ge sz q ltac:(lia) ltac:(lia)) as Hge.
  split; cbn [crc32 data_size offset]; try done.
  - now exists q.
  - apply file_get_put.
  - intros Hpos. unfold file_put; cbn [flen]. rewrite (proj2 (Z.ltb_lt _ _)) by done. lia.
Qed.

End OneFile.

(** ** The operations preserve the invariant *)

Section Preserve.
Context {DB : Type} `{BerkeleyDBLaws DB}.

(** Replacing one handler and its file. *)
Lemma rebuild sizes hs n dk (b b' : Bdb.bdb_t DB) il il' idx idx' m m' id fh' f' :
  storage_inv sizes hs n dk b il idx m -> 0 <= id < n ->
  file_inv (type_size id) fh' f' ->
  healthy (Bdb.dbp b') -> contents (Bdb.dbp b') = value_bytes <$> idx' ->
  (exists p J, IndexLog.logging il' p J) ->
  (forall k iv, idx' !! k = Some iv -> value_ok iv /\ 0 <= block_id iv < n /\
     exists d, m' !! k = Some d /\
       (if decide (block_id iv = id) then entry_inv (type_size id) fh' f' iv d
        else idx !! k = Some iv /\ m !! k = Some d)) ->
  (forall k, is_Some (m' !! k) -> is_Some (idx' !! k)) ->
  (forall k k' iv iv', idx' !! k = Some iv -> idx' !! k' = Some iv' ->
     block_id iv = block_id iv' -> offset iv = offset iv' -> k = k') ->
  storage_inv sizes (<[Z.to_nat id := fh']> hs) n (<[type_size id := f']> dk) b' il' idx' m'.
Proof.
  intros [Hn Hsz [Hlen Hfs] _ _ Hent _ _] Hid Hfi Hh Hc Hlg He Hdom Hap.
  assert (Hlook : forall i, 0 <= i < n -> i <> id ->
    (<[Z.to_nat id := fh']> hs) !! Z.to_nat i = hs !! Z.to_nat i /\
    (<[type_size id := f']> dk) !! type_size i = dk !! type_size i).
  { intros i Hi Hne. split; [apply list_lookup_insert_ne; lia|].
    apply lookup_insert_ne. intros E. apply type_size_inj in E; lia. }
  assert (Hhere : (<[Z.to_nat id := fh']> hs) !! Z.to_nat id = Some fh' /\
    (<[type_size id := f']> dk) !! type_size id = Some f').
  { split; [|apply lookup_insert_eq]. apply list_lookup_insert_eq. unfold MAX_BLOCK_CNT in *. lia. }
  split; try done.
  - split; [now rewrite length_insert|]. intros i Hi. destruct (decide (i = id)) as [->|Hne].
    + exists fh', f'. destruct Hhere. done.
    + destruct (Hlook i Hi Hne) as [-> ->]. auto.
  - intros k iv Hk. destruct (He k iv Hk) as (Hv & Hb & d & Hd & Hx). split; [done|]. split; [done|].
    destruct (decide (block_id iv = id)) as [E|Hne].
    + exists d, fh', f'. rewrite E. destruct Hhere. done.
    + destruct Hx as [Hk' Hd']. destruct (Hlook _ Hb Hne) as [E1 E2].
      destruct (Hent k iv Hk') as (_ & _ & d2 & fh2 & f2 & Hd2 & Hh2 & Hf2 & Hei).
      exists d2, fh2, f2. rewrite E1, E2. rewrite Hd' in Hd2. injection Hd2 as <-. done.
Qed.

(** No file has more than [c] slots in use or free. *)
Definition marks (hs : list block_file_t) (n c : Z) : Prop :=
  forall i fh, 0 <= i < n -> hs !! Z.to_nat i = Some fh -> block_cnt fh + free_slots_cnt fh <= c.

(** Handlers keep their high-water marks. *)
Definition same_high (hs hs' : list block_file_t) : Prop :=
  forall i fh', hs' !! i = Some fh' -> exists fh, hs !! i = Some fh /\
    block_cnt fh' + free_slots_cnt fh' = block_cnt fh + free_slots_cnt fh.

Lemma value_ok_intro id data off :
  0 <= id < MAX_BLOCK_CNT -> bytes_ok data -> Z.of_nat (length data) <= type_size id ->
  0 <= off < 2 ^ 63 ->
  value_ok (IndexValue (Crc32.crc32_calc data) id (Z.of_nat (length data)) off).
Proof.
  intros Hid Hdata Hlen Hoff. pose proof (type_size_bound id Hid) as Hb. unfold MAX_BLOCK_CNT in Hid.
  split; [now apply Crc32.crc32_calc_range|]. unfold in_range; cbn [block_id data_size offset]. lia.
Qed.

Lemma slot_range id q : 0 <= id < MAX_BLOCK_CNT -> 0 <= q < 2 ^ 32 ->
  0 <= slot_pos (type_size id) q < 2 ^ 63.
Proof.
  intros Hid Hq. pose proof (type_size_bound id Hid) as Hb. pose proof (type_size_pos id ltac:(lia)).
  unfold slot_pos, DATA_SECTION_POS, MAX_FREE_SLOTS. nia.
Qed.

(** No two keys of the index name the same place. *)
Definition apart (idx : gmap (list Z) index_value_t) : Prop := forall k k' iv iv', idx !! k = Some iv -> idx !! k' = Some iv' ->
  block_id iv = block_id iv' -> offset iv = offset iv' -> k = k'.

Lemma apart_insert idx key iv : apart idx ->
  (forall k iv', idx !! k = Some iv' -> block_id iv' = block_id iv -> offset iv' <> offset iv) -> apart (<[key := iv]> idx).
Proof.
  intros Hap Hnew k k' iv1 iv2 Hk Hk' Eb Eo.
  destruct (decide (k = key)) as [->|Hne], (decide (k' = key)) as [->|Hne']; try done;
    rewrite ?lookup_insert_eq, ?lookup_insert_ne in Hk by done;
    rewrite ?lookup_insert_eq, ?lookup_insert_ne in Hk' by done.
  - injection Hk as <-. exfalso. now apply (Hnew k' iv2).
  - injection Hk' as <-. exfalso. now apply (Hnew k iv1).
  - now apply (Hap k k' iv1 iv2).
Qed.

Lemma apart_delete idx key : apart idx -> apart (delete key idx).
Proof. intros Hap k k' iv1 iv2 [_ Hk1]%lookup_delete_Some [_ Hk2]%lookup_delete_Some. now apply Hap. Qed.

Lemma append_block_inv sizes hs n dk b il jr idx m id key data fh :
  storage_inv sizes hs n dk b il idx m -> 0 <= id < n -> hs !! Z.to_nat id = Some fh ->
  block_cnt fh + free_slots_cnt fh < 2 ^ 32 ->
  idx !! key = None -> key_ok key -> bytes_ok data -> Z.of_nat (length data) <= type_size id ->
  exists hs' dk' b' il' iv, append_block id key data (St sizes hs n dk b il jr) =
      Ret 0 (St sizes hs' n dk' b' il' jr) /\
    storage_inv sizes hs' n dk' b' il' (<[key := iv]> idx) (<[key := data]> m) /\
    (forall c, marks hs n c -> marks hs' n (c + 1)).
Proof.
  intros Hinv Hid Hl Hroom Hnone Hkey Hdata Hfit. pose proof Hinv as [Hn Hsz [Hlen Hfs] [Hh Hc] Hlg Hent Hdom Hap].
  destruct (Hfs id Hid) as (fh0 & f & Hl0 & Hf & Hfi). rewrite Hl in Hl0. injection Hl0 as <-.
  pose proof (type_size_bound id ltac:(lia)) as Hb1. pose proof (type_size_pos id ltac:(lia)) as Hb2.
  pose proof (claim_slot _ _ _ (conj Hb2 Hb1) Hfi Hroom) as Hclaim.
  pose proof (fun iv d => claim_fresh _ _ _ (conj Hb2 Hb1) Hfi iv d Hroom) as Hfresh.
  destruct (claim fh) as [fh' off] eqn:Ecl. cbn [snd] in Hfresh.
  destruct Hclaim as ((q & Hoff & Hq) & Hslots & Hfree & Hcnt & Hhigh & Hone & E1 & E2 & E3).
  pose proof (slot_range id q ltac:(lia) ltac:(lia)) as Hrange. rewrite <- Hoff in Hrange.
  pose proof (value_ok_intro id data off ltac:(lia) Hdata Hfit Hrange) as Hv.
  assert (Eid : u32 id = id) by (apply u32_small; unfold in_range, MAX_BLOCK_CNT in *; lia).
  destruct (append_block_run sizes hs n dk b il jr idx id key data fh f) as (b' & il' & Erun & Hh' & Hc' & Hlg');
    try done; try (rewrite Ecl; cbn [snd]; lia); [lia|now apply Hsz|rewrite Ecl, Eid; exact Hv|].
  rewrite Ecl, Eid in *. cbn [fst snd] in *.
  exists (<[Z.to_nat id := fh']> hs), (<[type_size id := store_at fh' f off data]> dk), b', il',
    (IndexValue (Crc32.crc32_calc data) id (Z.of_nat (length data)) off).
  split; [exact Erun|]. split.
  2: { intros c Hm i g Hi [(Ei & <- & _)|(_ & Hg)]%list_lookup_insert_Some.
       - specialize (Hm i fh Hi). rewrite <- Ei in Hm. specialize (Hm Hl). lia.
       - specialize (Hm i g Hi Hg). lia. }
  assert (Hsl : forall j, 0 <= j < free_slots_cnt fh' -> free_slots_offset fh' j = free_slots_offset fh j)
    by (intros j Hj; now destruct (Hslots j Hj)).
  assert (Hnew : forall k iv, idx !! k = Some iv -> block_id iv = id -> offset iv <> off).
  { intros k iv Hk E. destruct (Hent k iv Hk) as (_ & _ & d & fh2 & f2 & _ & Hh2 & Hf2 & Hei).
    rewrite E in *. rewrite Hl in Hh2. rewrite Hf in Hf2. injection Hh2 as <-. injection Hf2 as <-.
    now apply (Hfresh iv d). }
  apply (rebuild sizes hs n dk b b' il il' idx _ m _ id fh' _ Hinv Hid); try done.
  - apply (store_file_inv _ _ _ (conj Hb2 Hb1) Hfi fh' off q); try done; lia.
  - intros k iv Hk. destruct (decide (k = key)) as [->|Hne].
    + rewrite lookup_insert_eq in Hk. injection Hk as <-. split; [exact Hv|]. split; [exact Hid|].
      exists data. rewrite lookup_insert_eq. split; [done|]. cbn [block_id]. rewrite decide_True by done.
      apply (stored_entry _ _ (conj Hb2 Hb1) fh' off q); try done. intros j Hj. now destruct (Hslots j Hj).
    + rewrite lookup_insert_ne in Hk by done.
      destruct (Hent k iv Hk) as (Hv' & Hb' & d & fh2 & f2 & Hd & Hh2 & Hf2 & Hei).
      split; [done|]. split; [done|]. exists d. rewrite lookup_insert_ne by done. split; [done|].
      destruct (decide (block_id iv = id)) as [E|]; [|done].
      rewrite E in *. rewrite Hl in Hh2. rewrite Hf in Hf2. injection Hh2 as <-. injection Hf2 as <-.
      apply (store_entry _ fh f (conj Hb2 Hb1) fh' off q); try done; try lia. now apply (Hnew k).
  - intros k. destruct (decide (k = key)) as [->|Hne]; [rewrite !lookup_insert_eq; eauto|].
    rewrite !lookup_insert_ne by done. apply Hdom.
  - apply apart_insert; [exact Hap|]. intros k iv Hk Eb. now apply (Hnew k).
Qed.

Lemma modify_block_inv sizes hs n dk b il jr idx m key data iv :
  storage_inv sizes hs n dk b il idx m -> idx !! key = Some iv -> key_ok key -> bytes_ok data ->
  Z.of_nat (length data) <= type_size (block_id iv) ->
  exists dk' b' il' iv', modify_block iv key data (St sizes hs n dk b il jr) =
      Ret 0 (St sizes hs n dk' b' il' jr) /\
    storage_inv sizes hs n dk' b' il' (<[key := iv']> idx) (<[key := data]> m).
Proof.
  intros Hinv Hk Hkey Hdata Hfit. pose proof Hinv as [Hn Hsz [Hlen Hfs] [Hh Hc] Hlg Hent Hdom Hap].
  destruct (Hent key iv Hk) as (Hv & Hid & d & fh & f & Hd & Hl & Hf & Hei).
  destruct (Hfs _ Hid) as (fh0 & f0 & Hl0 & Hf0 & Hfi). rewrite Hl in Hl0. rewrite Hf in Hf0.
  injection Hl0 as <-. injection Hf0 as <-.
  pose proof (type_size_bound (block_id iv) ltac:(lia)) as Hb1. pose proof (type_size_pos (block_id iv) ltac:(lia)) as Hb2.
  assert (Hoff : 0 <= offset iv < 2 ^ 63).
  { destruct (ei_slot _ _ _ _ _ Hei) as (q & -> & Hq). pose proof (fi_high _ _ _ Hfi). apply slot_range; lia. }
  pose proof (value_ok_intro (block_id iv) data (offset iv) ltac:(lia) Hdata Hfit Hoff) as Hv'.
  destruct (modify_block_run sizes hs n dk b il jr idx key data iv fh f) as (b' & il' & Erun & Hh' & Hc' & Hlg');
    try done; [lia|now apply Hsz|lia|].
  set (iv' := IndexValue (Crc32.crc32_calc data) (block_id iv) (Z.of_nat (length data)) (offset iv)) in *.
  set (f' := file_put f (offset iv) (Z.of_nat (length data)) (byte_at data)) in *.
  eexists _, b', il', iv'. split; [exact Erun|].
  replace hs with (<[Z.to_nat (block_id iv) := fh]> hs) at 1 by now apply list_insert_id.
  apply (rebuild sizes hs n dk b b' il il' idx _ m _ (block_id iv) fh f' Hinv Hid); try done.
  - now apply (rewrite_file_inv _ fh f (conj Hb2 Hb1) Hfi iv d).
  - intros k iv2 Hk2. destruct (decide (k = key)) as [->|Hne].
    + rewrite lookup_insert_eq in Hk2. injection Hk2 as <-. split; [done|]. split; [done|].
      exists data. rewrite lookup_insert_eq. split; [done|]. unfold iv' at 1; cbn [block_id]. rewrite decide_True by done.
      now apply (rewritten_entry _ fh f (conj Hb2 Hb1) iv d).
    + rewrite lookup_insert_ne in Hk2 by done.
      destruct (Hent k iv2 Hk2) as (Hv2 & Hb & d2 & fh2 & f2 & Hd2 & Hh2 & Hf2 & Hei2).
      split; [done|]. split; [done|]. exists d2. rewrite lookup_insert_ne by done. split; [done|].
      destruct (decide (block_id iv2 = block_id iv)) as [E|]; [|done].
      rewrite E in *. rewrite Hl in Hh2. rewrite Hf in Hf2. injection Hh2 as <-. injection Hf2 as <-.
      apply (rewrite_entry _ fh f (conj Hb2 Hb1) iv d); try done.
      intros Eo. apply Hne. symmetry. now apply (Hap key k iv iv2).
  - intros k. destruct (decide (k = key)) as [->|Hne]; [rewrite !lookup_insert_eq; eauto|].
    rewrite !lookup_insert_ne by done. apply Hdom.
  - intros k k' iv1 iv2 Hk1 Hk2 Eb Eo.
    destruct (decide (k = key)) as [->|Hne], (decide (k' = key)) as [->|Hne']; try done;
      rewrite ?lookup_insert_eq, ?lookup_insert_ne in Hk1 by done;
      rewrite ?lookup_insert_eq, ?lookup_insert_ne in Hk2 by done.
    + injection Hk1 as <-. now apply (Hap key k' iv iv2).
    + injection Hk2 as <-. now apply (Hap k key iv1 iv).
    + now apply (Hap k k' iv1 iv2).
Qed.

Lemma do_delete_block_inv sizes hs n dk b il jr idx m key iv :
  storage_inv sizes hs n dk b il idx m -> idx !! key = Some iv -> key_ok key ->
  exists hs' dk' b' il', do_delete_block iv key (St sizes hs n dk b il jr) =
      Ret 0 (St sizes hs' n dk' b' il' jr) /\
    storage_inv sizes hs' n dk' b' il' (delete key idx) (delete key m) /\ same_high hs hs'.
Proof.
  intros Hinv Hk Hkey. pose proof Hinv as [Hn Hsz [Hlen Hfs] [Hh Hc] Hlg Hent Hdom Hap].
  destruct (Hent key iv Hk) as (Hv & Hid & d & fh & f & Hd & Hl & Hf & Hei).
  destruct (Hfs _ Hid) as (fh0 & f0 & Hl0 & Hf0 & Hfi). rewrite Hl in Hl0. rewrite Hf in Hf0.
  injection Hl0 as <-. injection Hf0 as <-.
  pose proof (type_size_bound (block_id iv) ltac:(lia)) as Hb1. pose proof (type_size_pos (block_id iv) ltac:(lia)) as Hb2.
  destruct (do_delete_block_run sizes hs n dk b il jr idx key iv fh f)
    as (b' & il' & hs' & dk' & Erun & Hh' & Hc' & Hlg' & Hcase); try done; [lia|now apply Hsz|].
  exists hs', dk', b', il'. split; [exact Erun|].
  assert (Hdom' : forall k, is_Some (delete key m !! k) -> is_Some (delete key idx !! k)).
  { intros k. destruct (decide (k = key)) as [->|Hne]; [rewrite lookup_delete_eq; now intros []|].
    rewrite !lookup_delete_ne by done. apply Hdom. }
  pose proof (apart_delete idx key Hap) as Hap'.
  assert (Hent' : forall fh' f', (forall iv2 d2, entry_inv (type_size (block_id iv)) fh f iv2 d2 ->
       offset iv <> offset iv2 -> entry_inv (type_size (block_id iv)) fh' f' iv2 d2) ->
    forall k iv2, delete key idx !! k = Some iv2 -> value_ok iv2 /\ 0 <= block_id iv2 < n /\
     exists d2, delete key m !! k = Some d2 /\
       (if decide (block_id iv2 = block_id iv) then entry_inv (type_size (block_id iv)) fh' f' iv2 d2
        else idx !! k = Some iv2 /\ m !! k = Some d2)).
  { intros fh' f' Hframe k iv2 [Hne Hk2]%lookup_delete_Some.
    destruct (Hent k iv2 Hk2) as (Hv2 & Hb & d2 & fh2 & f2 & Hd2 & Hh2 & Hf2 & Hei2).
    split; [done|]. split; [done|]. exists d2. rewrite lookup_delete_ne by done. split; [done|].
    destruct (decide (block_id iv2 = block_id iv)) as [E|]; [|done].
    rewrite E in *. rewrite Hl in Hh2. rewrite Hf in Hf2. injection Hh2 as <-. injection Hf2 as <-.
    apply Hframe; [done|]. intros Eo. apply Hne. now apply (Hap key k iv iv2). }
  destruct Hcase as [(Hfull & -> & ->)|(Hroom & -> & ->)].
  - split; [|intros i fh' Hi; now exists fh'].
    replace hs with (<[Z.to_nat (block_id iv) := fh]> hs) by now apply list_insert_id.
    replace dk with (<[type_size (block_id iv) := f]> dk) by now apply insert_id.
    apply (rebuild sizes hs n dk b b' il il' idx _ m _ (block_id iv) fh f Hinv Hid); try done.
    now apply Hent'.
  - split.
    + apply (rebuild sizes hs n dk b b' il il' idx _ m _ (block_id iv) _ _ Hinv Hid); try done.
      * now apply (release_file_inv _ fh f (conj Hb2 Hb1) Hfi iv d).
      * apply Hent'. intros iv2 d2 He2 Hne. now apply (release_entry _ fh f (conj Hb2 Hb1) Hfi iv d).
    + pose proof (used_slot_counted _ fh f (conj Hb2 Hb1) Hfi iv d Hei) as Hone.
      pose proof (fi_high _ _ _ Hfi). pose proof (fi_free _ _ _ Hfi).
      intros i fh' Hi. apply list_lookup_insert_Some in Hi as [(<- & <- & _)|(_ & Hi)]; [|now exists fh'].
      exists fh. split; [done|]. cbn [release block_cnt free_slots_cnt].
      rewrite u64_small by (unfold in_range; lia). lia.
Qed.

(** The size class of an insertion: the smallest that fits, when one exists. *)
Lemma calc_loop_spec len k j n :
  0 <= j -> Z.of_nat k = MAX_BLOCK_CNT - j -> n <= MAX_BLOCK_CNT -> j <= n - 1 ->
  0 <= len <= type_size (n - 1) -> (0 < j -> type_size (j - 1) < len) ->
  exists i, j <= i < n /\ calc_loop k (type_size j) len = type_size i /\ len <= type_size i /\
    (0 < i -> type_size (i - 1) < len).
Proof.
  revert j; induction k as [|k IH]; intros j Hj Hk Hn Hjn Hlen Hmin; unfold MAX_BLOCK_CNT in *; [lia|].
  cbn [calc_loop]. pose proof (type_size_bound (n - 1) ltac:(unfold MAX_BLOCK_CNT; lia)) as Hb.
  pose proof (type_size_bound j ltac:(unfold MAX_BLOCK_CNT; lia)) as Hbj. pose proof (type_size_pos j Hj).
  rewrite i32_small by lia. destruct (Z.leb_spec len (type_size j)) as [Hle|Hgt]; [exists j; split; [lia|done]|].
  assert (Hnext : type_size j * 2 = type_size (j + 1)).
  { unfold type_size. rewrite Z.pow_add_r by lia. lia. }
  rewrite i32_small by lia. rewrite Hnext.
  assert (j <> n - 1) by (intros ->; lia).
  destruct (IH (j + 1)) as (i & Hi & E & Hfit & Hmin'); try lia.
  - intros _. replace (j + 1 - 1) with j by lia. done.
  - exists i. split; [lia|done].
Qed.

Lemma calc_block_size_spec len n :
  1 <= n <= MAX_BLOCK_CNT -> 0 <= len <= type_size (n - 1) ->
  exists i, 0 <= i < n /\ calc_block_size len = type_size i /\ len <= type_size i /\
    (0 < i -> type_size (i - 1) < len).
Proof.
  intros Hn Hlen. unfold calc_block_size. change BEGINNING_SIZE with (type_size 0).
  destruct (calc_loop_spec len (Z.to_nat MAX_BLOCK_CNT) 0 n) as (i & Hi & H1 & H2 & H3); try lia.
  exists i. split; [lia|done].
Qed.

Lemma find_size_spec sizes cnt start i :
  (forall j, 0 <= j < Z.of_nat cnt -> sizes !! Z.to_nat j = Some (type_size (start + j))) ->
  0 <= start -> 0 <= i < Z.of_nat cnt ->
  find_size sizes cnt start (type_size (start + i)) = start + i.
Proof.
  revert sizes start i; induction cnt as [|cnt IH]; intros sizes start i Hs H0' Hi; [lia|].
  pose proof (Hs 0 ltac:(lia)) as H1. destruct sizes as [|x sizes]; [done|]. cbn in H1. injection H1 as ->.
  rewrite Z.add_0_r. cbn [find_size].
  destruct (Z.eqb_spec (type_size (start + i)) (type_size start)) as [E|E].
  - apply type_size_inj in E; lia.
  - assert (i <> 0) by (intros ->; now rewrite Z.add_0_r in E).
    replace (start + i) with (start + 1 + (i - 1)) by lia. apply IH; [|lia|lia].
    intros j Hj. specialize (Hs (j + 1) ltac:(lia)). replace (Z.to_nat (j + 1)) with (S (Z.to_nat j)) in Hs by lia.
    replace (start + (j + 1)) with (start + 1 + j) in Hs by lia. exact Hs.
Qed.

Lemma find_block_file_run sizes hs n dk b il jr idx m i :
  storage_inv sizes hs n dk b il idx m -> 0 <= i < n ->
  find_block_file (u64 (type_size i)) (St sizes hs n dk b il jr) = Ret i (St sizes hs n dk b il jr).
Proof.
  intros [Hn [_ Hsz] _ _ _ _ _ _] Hi. unfold find_block_file. erewrite bind_ret by reflexivity.
  cbn [St block_size_array block_type_count]. unfold ret. f_equal.
  pose proof (type_size_bound i ltac:(lia)). pose proof (type_size_pos i ltac:(lia)).
  rewrite u64_small by (unfold in_range; lia).
  apply (find_size_spec sizes (Z.to_nat n) 0 i); [|lia|lia]. intros j Hj. apply Hsz. lia.
Qed.

(** ** The three operations *)

Lemma ex_lock_idx_run sizes hs n dk b il (j : option (list Z)) :
  @EX_LOCK_IDX DB (St sizes hs n dk b il (RWLock.rwlock_zero, j)) = Ret tt (St sizes hs n dk b il (written, j)).
Proof. reflexivity. Qed.
Lemma ex_unlock_idx_run sizes hs n dk b il (j : option (list Z)) :
  @EX_UNLOCK_IDX DB (St sizes hs n dk b il (written, j)) = Ret tt (St sizes hs n dk b il (RWLock.rwlock_zero, j)).
Proof. reflexivity. Qed.
Lemma sh_lock_idx_run sizes hs n dk b il (j : option (list Z)) :
  @SH_LOCK_IDX DB (St sizes hs n dk b il (RWLock.rwlock_zero, j)) = Ret tt (St sizes hs n dk b il (read1, j)).
Proof. reflexivity. Qed.
Lemma sh_unlock_idx_run sizes hs n dk b il (j : option (list Z)) :
  @SH_UNLOCK_IDX DB (St sizes hs n dk b il (read1, j)) = Ret tt (St sizes hs n dk b il (RWLock.rwlock_zero, j)).
Proof. reflexivity. Qed.

Lemma storage_inv_db sizes hs n dk b b' il idx m :
  storage_inv sizes hs n dk b il idx m -> healthy (Bdb.dbp b') ->
  contents (Bdb.dbp b') = value_bytes <$> idx -> storage_inv sizes hs n dk b' il idx m.
Proof. intros [] Hh Hc. now split. Qed.

Lemma idx_none sizes hs n dk b il idx m k :
  storage_inv sizes hs n dk b il idx m -> idx !! k = None <-> m !! k = None.
Proof.
  intros [_ _ _ _ _ Hent Hdom _]. split; intros Hk.
  - destruct (m !! k) eqn:E; [|done]. destruct (Hdom k) as [? E']; [now rewrite E|congruence].
  - destruct (idx !! k) eqn:E; [|done]. destruct (Hent _ _ E) as (_ & _ & d & _ & _ & E' & _). congruence.
Qed.

(** Room for [c] more blocks in every file. *)
Definition room (s : state DB) (c : Z) : Prop :=
  marks (block_filehandler_array s) (block_type_count s) (2 ^ 32 - c).

Lemma same_high_marks (hs hs' : list block_file_t) n c : same_high hs hs' -> marks hs n c -> marks hs' n c.
Proof. intros Hh Hm i fh Hi Hl. destruct (Hh _ _ Hl) as (fh0 & Hl0 & ->). eauto. Qed.

Lemma marks_le (hs : list block_file_t) n c c' : c <= c' -> marks hs n c -> marks hs n c'.
Proof. intros Hc Hm i fh Hi Hl. specialize (Hm i fh Hi Hl). lia. Qed.

(** A block is deleted and its key appended elsewhere. *)
Lemma move_block_inv sizes hs n dk b il jr idx m key iv id data fh :
  storage_inv sizes hs n dk b il idx m -> idx !! key = Some iv -> key_ok key -> bytes_ok data ->
  0 <= id < n -> hs !! Z.to_nat id = Some fh -> block_cnt fh + free_slots_cnt fh < 2 ^ 32 -> Z.of_nat (length data) <= type_size id ->
  exists hs1 dk1 b1 il1 hs' dk' b' il' iv',
    do_delete_block iv key (St sizes hs n dk b il jr) = Ret 0 (St sizes hs1 n dk1 b1 il1 jr) /\
    storage_inv sizes hs1 n dk1 b1 il1 (delete key idx) (delete key m) /\
    append_block id key data (St sizes hs1 n dk1 b1 il1 jr) = Ret 0 (St sizes hs' n dk' b' il' jr) /\
    storage_inv sizes hs' n dk' b' il' (<[key := iv']> idx) (<[key := data]> m) /\
    (forall c, marks hs n c -> marks hs' n (c + 1)).
Proof.
  intros Hinv Hk Hkey Hdata Hid Hl Hroom Hfit.
  destruct (do_delete_block_inv _ _ _ _ _ _ jr _ _ key iv Hinv Hk Hkey) as (hs1 & dk1 & b1 & il1 & Ed & Hinv1 & Hhigh).
  destruct (proj2 (si_files _ _ _ _ _ _ _ _ Hinv1) id Hid) as (fh1 & f1 & Hl1 & _ & _).
  destruct (Hhigh _ _ Hl1) as (fh0 & Hl0 & Eh). rewrite Hl in Hl0. injection Hl0 as <-.
  destruct (append_block_inv _ _ _ _ _ _ jr _ _ id key data fh1 Hinv1 Hid Hl1)
    as (hs' & dk' & b' & il' & iv' & Ea & Hinv' & Hm'); try done; [lia|apply lookup_delete_eq|].
  rewrite !insert_delete_eq in Hinv'. exists hs1, dk1, b1, il1, hs', dk', b', il', iv'.
  split; [exact Ed|]. split; [exact Hinv1|]. split; [exact Ea|]. split; [exact Hinv'|].
  intros c Hc'. apply Hm'. now apply (same_high_marks hs).
Qed.

Lemma update_run sizes hs n dk b il j idx m key data :
  storage_inv sizes hs n dk b il idx m -> bytes_ok key -> bytes_ok data ->
  Z.of_nat (length data) <= type_size (n - 1) ->
  marks hs n (2 ^ 32 - 1) ->
  exists hs' dk' b' il' idx', update_block key data (St sizes hs n dk b il (RWLock.rwlock_zero, j)) =
      Ret 0 (St sizes hs' n dk' b' il' (RWLock.rwlock_zero, j)) /\
    storage_inv sizes hs' n dk' b' il' idx' (<[fixed_key key := data]> m) /\
    (forall c, marks hs n c -> marks hs' n (c + 1)).
Proof.
  intros Hinv Hkb Hdata Hlen Hroom. pose proof Hinv as [Hn Hsz [_ Hfs] [Hh Hc] _ Hent _ _].
  pose proof (fixed_key_ok key Hkb) as Hkey. set (k := fixed_key key) in *.
  destruct (calc_block_size_spec (Z.of_nat (length data)) n Hn ltac:(lia)) as (id & Hid & Ecalc & Hfit & Hmin).
  destruct (Hfs id Hid) as (fh & f & Hl & _ & _).
  assert (Hroomid : block_cnt fh + free_slots_cnt fh < 2 ^ 32).
  { specialize (Hroom id fh Hid Hl). lia. }
  unfold update_block. erewrite bind_ret by apply ex_lock_idx_run. fold k.
  destruct (idx !! k) as [iv|] eqn:Hk.
  - destruct (db_find_hit sizes hs n dk b il (written, j) idx k iv Hh Hc Hk) as (b1 & Ef & Hh1 & Hc1).
    pose proof (storage_inv_db _ _ _ _ _ _ _ _ _ Hinv Hh1 Hc1) as Hinv1.
    erewrite bind_ret by exact Ef. cbn [Z.eqb].
    destruct (Hent k iv Hk) as (Hv & Hbid & _). rewrite value_roundtrip by exact Hv.
    destruct (Z.leb_spec (Z.of_nat (length data)) (type_size (block_id iv))) as [Hstay|Hmove].
    + destruct (modify_block_inv _ _ _ _ _ _ (written, j) _ _ k data iv Hinv1 Hk Hkey Hdata Hstay)
        as (dk' & b' & il' & iv' & Em & Hinv').
      exists hs, dk', b', il', (<[k := iv']> idx).
      split; [|split; [exact Hinv'|intros c; apply marks_le; lia]].
      erewrite bind_ret; [erewrite bind_ret by apply ex_unlock_idx_run; reflexivity|].
      erewrite bind_ret by (apply size_run; [lia|now apply Hsz]). rewrite (proj2 (Z.leb_le _ _)) by lia.
      erewrite bind_ret by exact Em. reflexivity.
    + destruct (move_block_inv _ _ _ _ _ _ (written, j) _ _ k iv id data fh Hinv1 Hk Hkey Hdata Hid Hl Hroomid Hfit)
        as (hs1 & dk1 & b2 & il1 & hs' & dk' & b' & il' & iv' & Ed & Hinv2 & Ea & Hinv' & Hm').
      exists hs', dk', b', il', (<[k := iv']> idx).
      split; [|split; [exact Hinv'|exact Hm']].
      erewrite bind_ret; [erewrite bind_ret by apply ex_unlock_idx_run; reflexivity|].
      erewrite bind_ret by (apply size_run; [lia|now apply Hsz]). rewrite (proj2 (Z.leb_gt _ _)) by lia.
      erewrite bind_ret by exact Ed. cbn [Z.eqb negb]. rewrite Ecalc.
      erewrite bind_ret by (eapply find_block_file_run; [exact Hinv2|lia]).
      unfold MAX_BLOCK_CNT in Hn. rewrite u64_small by (unfold in_range; lia).
      erewrite bind_ret by exact Ea. reflexivity.
  - destruct (db_find_miss sizes hs n dk b il (written, j) idx k Hh Hc Hk) as (b1 & Ef & Hh1 & Hc1).
    pose proof (storage_inv_db _ _ _ _ _ _ _ _ _ Hinv Hh1 Hc1) as Hinv1.
    destruct notfound_nonzero as [Hnf _].
    destruct (append_block_inv _ _ _ _ _ _ (written, j) _ _ id k data fh Hinv1 Hid Hl)
      as (hs' & dk' & b' & il' & iv' & Ea & Hinv' & Hm'); try done.
    exists hs', dk', b', il', (<[k := iv']> idx). split; [|split; [exact Hinv'|exact Hm']].
    erewrite bind_ret by exact Ef. cbv beta iota. rewrite (proj2 (Z.eqb_neq _ _)) by done. rewrite Z.eqb_refl.
    erewrite bind_ret; [erewrite bind_ret by apply ex_unlock_idx_run; reflexivity|].
    rewrite Ecalc. erewrite bind_ret by (eapply find_block_file_run; [exact Hinv1|lia]).
    rewrite (proj2 (Z.ltb_ge _ _)) by lia. erewrite bind_ret by exact Ea. reflexivity.
Qed.

Lemma find_run sizes hs n dk b il j idx m key :
  storage_inv sizes hs n dk b il idx m -> bytes_ok key ->
  exists b', find_block key (St sizes hs n dk b il (RWLock.rwlock_zero, j)) =
      Ret (match m !! fixed_key key with
           | Some d => (0, Some d, Z.of_nat (length d))
           | None => (DB_NOTFOUND, None, 0)
           end) (St sizes hs n dk b' il (RWLock.rwlock_zero, j)) /\
    storage_inv sizes hs n dk b' il idx m.
Proof.
  intros Hinv Hkb. pose proof Hinv as [Hn Hsz [Hlen Hfs] [Hh Hc] _ Hent _ _].
  set (k := fixed_key key). unfold find_block. erewrite bind_ret by apply sh_lock_idx_run. fold k.
  destruct (idx !! k) as [iv|] eqn:Hk.
  - destruct (db_find_hit sizes hs n dk b il (read1, j) idx k iv Hh Hc Hk) as (b1 & Ef & Hh1 & Hc1).
    exists b1. split; [|now apply (storage_inv_db _ _ _ _ b)].
    destruct (Hent k iv Hk) as (Hv & Hbid & d & fh & f & Hd & Hl & Hf & Hei). rewrite Hd.
    destruct (Hfs _ Hbid) as (fh0 & f0 & Hl0 & Hf0 & Hfi). rewrite Hl in Hl0. rewrite Hf in Hf0.
    injection Hl0 as <-. injection Hf0 as <-.
    pose proof (type_size_bound (block_id iv) ltac:(lia)) as Hb1. pose proof (ei_fits _ _ _ _ _ Hei) as Hfits.
    assert (Hlt : (Z.to_nat (block_id iv) < length hs)%nat) by (unfold MAX_BLOCK_CNT in *; lia).
    assert (Hpos : 0 <= data_size iv) by (rewrite (ei_size _ _ _ _ _ Hei); lia).
    erewrite bind_ret by exact Ef. cbn [Z.eqb]. rewrite value_roundtrip by exact Hv.
    erewrite bind_ret by reflexivity. cbn [negb].
    erewrite bind_ret by (eapply sh_lock_run; [lia|exact Hl|apply Hfi]).
    erewrite bind_ret by apply sh_unlock_idx_run.
    erewrite bind_ret by (apply handler_run; [lia|now apply list_lookup_insert_eq]).
    cbn [relock fd]. rewrite (fi_fd _ _ _ Hfi).
    assert (Hoff : 0 <= offset iv).
    { destruct (ei_slot _ _ _ _ _ Hei) as (q & -> & Hq). pose proof (fi_high _ _ _ Hfi). apply slot_range; lia. }
    erewrite bind_ret by (eapply pread_run; [exact Hf|exact Hoff|exact Hpos|apply (ei_len _ _ _ _ _ Hei)]).
    erewrite bind_ret by (eapply sh_unlock_run; [lia|now apply list_lookup_insert_eq|done]).
    rewrite insert_insert_same.
    replace (<[Z.to_nat (block_id iv) := _]> hs) with hs
      by (symmetry; apply list_insert_id; rewrite Hl; f_equal; pose proof (fi_lock _ _ _ Hfi) as Hlk; destruct fh; cbn in *; now subst).
    cbn [fst snd]. rewrite i64_small by lia. rewrite Z.eqb_refl. cbn [negb]. rewrite Z.max_r by done.
    unfold ret. do 2 f_equal; [|apply (ei_size _ _ _ _ _ Hei)]. do 2 f_equal. exact (ei_data _ _ _ _ _ Hei).
  - destruct (db_find_miss sizes hs n dk b il (read1, j) idx k Hh Hc Hk) as (b1 & Ef & Hh1 & Hc1).
    exists b1. split; [|now apply (storage_inv_db _ _ _ _ b)].
    rewrite (proj1 (idx_none _ _ _ _ _ _ _ _ k Hinv) Hk). destruct notfound_nonzero as [Hnf _].
    erewrite bind_ret by exact Ef. cbv beta iota. rewrite (proj2 (Z.eqb_neq _ _)) by done.
    erewrite bind_ret by apply sh_unlock_idx_run. reflexivity.
Qed.

Lemma delete_run sizes hs n dk b il j idx m key :
  storage_inv sizes hs n dk b il idx m -> bytes_ok key ->
  exists hs' dk' b' il' idx', delete_block key (St sizes hs n dk b il (RWLock.rwlock_zero, j)) =
      Ret (if decide (is_Some (m !! fixed_key key)) then 0 else DB_NOTFOUND)
          (St sizes hs' n dk' b' il' (RWLock.rwlock_zero, j)) /\
    storage_inv sizes hs' n dk' b' il' idx' (delete (fixed_key key) m) /\
    (forall c, marks hs n c -> marks hs' n c).
Proof.
  intros Hinv Hkb. pose proof Hinv as [Hn Hsz [Hlen Hfs] [Hh Hc] _ Hent _ _].
  pose proof (fixed_key_ok key Hkb) as Hkey. set (k := fixed_key key) in *.
  unfold delete_block. erewrite bind_ret by apply ex_lock_idx_run. fold k.
  destruct (idx !! k) as [iv|] eqn:Hk.
  - destruct (db_find_hit sizes hs n dk b il (written, j) idx k iv Hh Hc Hk) as (b1 & Ef & Hh1 & Hc1).
    pose proof (storage_inv_db _ _ _ _ _ _ _ _ _ Hinv Hh1 Hc1) as Hinv1.
    destruct (Hent k iv Hk) as (Hv & _ & d & _ & _ & Hd & _). rewrite decide_True by (rewrite Hd; eauto).
    destruct (do_delete_block_inv _ _ _ _ _ _ (written, j) _ _ k iv Hinv1 Hk Hkey)
      as (hs1 & dk1 & b2 & il1 & Ed & Hinv2 & Hhigh).
    exists hs1, dk1, b2, il1, (delete k idx).
    split; [|split; [exact Hinv2|intros c; now apply same_high_marks]].
    erewrite bind_ret by exact Ef. cbn [Z.eqb]. rewrite value_roundtrip by exact Hv.
    erewrite bind_ret by exact Ed. erewrite bind_ret by apply ex_unlock_idx_run. reflexivity.
  - destruct (db_find_miss sizes hs n dk b il (written, j) idx k Hh Hc Hk) as (b1 & Ef & Hh1 & Hc1).
    pose proof (proj1 (idx_none _ _ _ _ _ _ _ _ k Hinv) Hk) as Hm.
    rewrite decide_False by (rewrite Hm; now intros []). rewrite delete_id by exact Hm.
    exists hs, dk, b1, il, idx. split; [|split; [now apply (storage_inv_db _ _ _ _ b)|done]].
    destruct notfound_nonzero as [Hnf _].
    erewrite bind_ret by exact Ef. cbv beta iota. rewrite (proj2 (Z.eqb_neq _ _)) by done. rewrite Z.eqb_refl.
    erewrite bind_ret by apply ex_unlock_idx_run. reflexivity.
Qed.

End Preserve.

(** ** Opening and closing *)

Section Opening.
Context {DB : Type} `{BerkeleyDBLaws DB}.

Lemma type_size_succ i : 0 <= i -> type_size i * 2 = type_size (i + 1).
Proof. intros. unfold type_size. rewrite Z.pow_add_r by lia. lia. Qed.

(** [init_storage]: exactly the sizes that do not exceed the largest one. *)
Lemma init_loop_spec fuel i largest n sizes :
  0 <= i <= n -> n <= MAX_BLOCK_CNT -> n - i < Z.of_nat fuel ->
  (forall j, j < n -> 0 <= j -> type_size j <= largest) -> largest < type_size n ->
  Z.of_nat (length sizes) = MAX_BLOCK_CNT ->
  (forall j, 0 <= j < i -> sizes !! Z.to_nat j = Some (type_size j)) ->
  exists sizes', init_loop fuel i (type_size i) largest sizes i = (0, sizes', n) /\
    Z.of_nat (length sizes') = MAX_BLOCK_CNT /\
    (forall j, 0 <= j < n -> sizes' !! Z.to_nat j = Some (type_size j)).
Proof.
  revert i sizes; induction fuel as [|fuel IH]; intros i sizes Hi Hn Hf Hle Hlt Hlen Hs; [lia|].
  cbn [init_loop]. destruct (decide (i = n)) as [->|Hne].
  - rewrite (proj2 (Z.leb_gt _ _)) by done. now exists sizes.
  - rewrite (proj2 (Z.leb_le (type_size i) _)) by (apply Hle; lia).
    rewrite (proj2 (Z.leb_gt _ _)) by lia.
    pose proof (type_size_bound i ltac:(lia)). pose proof (type_size_pos i ltac:(lia)).
    rewrite Z.shiftl_mul_pow2 by done. change (2 ^ 1) with 2.
    rewrite u64_small by (unfold in_range; lia). rewrite type_size_succ by lia.
    apply IH; try done; try lia; [now rewrite length_insert|].
    intros j Hj. destruct (decide (j = i)) as [->|]; [apply list_lookup_insert_eq; lia|].
    rewrite list_lookup_insert_ne by lia. apply Hs. lia.
Qed.

(** The state while a storage is being opened. *)
Definition Op (sizes : list Z) (hs : list block_file_t) (n : Z) (dk : gmap Z file)
  (j : option (list Z)) : state DB := State true sizes hs n dk None None None j [] [].

Lemma op_handler sizes hs n dk j i fh :
  0 <= i -> hs !! Z.to_nat i = Some fh -> handler i (Op sizes hs n dk j) = Ret fh (Op sizes hs n dk j).
Proof. intros Hi Hh. unfold handler. rewrite (proj2 (Z.ltb_ge i 0)) by done. cbn. now rewrite Hh. Qed.

Lemma op_size sizes hs n dk j i sz :
  0 <= i -> sizes !! Z.to_nat i = Some sz -> size_at i (Op sizes hs n dk j) = Ret sz (Op sizes hs n dk j).
Proof. intros Hi Hh. unfold size_at. rewrite (proj2 (Z.ltb_ge i 0)) by done. cbn. now rewrite Hh. Qed.

Lemma op_pwrite sizes hs n dk j name f len g :
  dk !! name = Some f -> 0 <= len ->
  pwrite (FdOpen name) len g 0 (Op sizes hs n dk j) =
  Ret len (Op sizes hs n (<[name := file_put f 0 len g]> dk) j).
Proof.
  intros Hf Hlen. unfold pwrite, file_of, bind, get, ret, next_io. cbn [disk Op io].
  rewrite Hf. cbn [option_map Z.ltb Z.compare]. now rewrite Z.max_r by done.
Qed.

Lemma op_pread sizes hs n dk j name f len :
  dk !! name = Some f -> 0 <= len <= flen f ->
  pread (FdOpen name) len 0 (Op sizes hs n dk j) =
  Ret (len, fun i => fbytes f (0 + i)) (Op sizes hs n dk j).
Proof.
  intros Hf Hlen. unfold pread, file_of, bind, get, ret, next_io. cbn [disk Op io].
  rewrite Hf. cbn [option_map Z.ltb Z.compare]. do 2 f_equal. lia.
Qed.

(** One turn of the loop of [open_data_files]. *)
Definition open_one (e : open_env (DB := DB)) (name i : Z) : M DB Z :=
  if oe_access e name then load_data_file name i (oe_open e name)
  else create_data_file name i (oe_open e name).

Lemma open_data_loop_run (e : open_env (DB := DB)) (F : Z -> block_file_t) (G : Z -> file)
  sizes n (dk0 : gmap Z file) j k i hs dk :
  (forall i hs dk, 0 <= i < n -> hs !! Z.to_nat i = Some zero_block_file ->
     dk !! type_size i = dk0 !! type_size i ->
     open_one e (type_size i) i (Op sizes hs n dk j) =
     Ret 0 (Op sizes (<[Z.to_nat i := F i]> hs) n (<[type_size i := G i]> dk) j)) ->
  (forall i, 0 <= i < n -> sizes !! Z.to_nat i = Some (type_size i)) ->
  n <= Z.of_nat (length hs) -> 0 <= i -> i + Z.of_nat k = n ->
  (forall i', i <= i' < n -> hs !! Z.to_nat i' = Some zero_block_file /\
                            dk !! type_size i' = dk0 !! type_size i') ->
  (forall i', 0 <= i' < i -> hs !! Z.to_nat i' = Some (F i') /\ dk !! type_size i' = Some (G i')) ->
  exists hs' dk', open_data_loop e k i (Op sizes hs n dk j) = Ret 0 (Op sizes hs' n dk' j) /\
    length hs' = length hs /\
    (forall i', 0 <= i' < n -> hs' !! Z.to_nat i' = Some (F i') /\ dk' !! type_size i' = Some (G i')).
Proof.
  intros Hone Hsz. revert i hs dk; induction k as [|k IH]; intros i hs dk Hlen Hi Hk Htodo Hdone.
  - exists hs, dk. split; [done|]. split; [done|]. intros i' Hi'. apply Hdone. lia.
  - cbn [open_data_loop]. destruct (Htodo i ltac:(lia)) as [Hh Hd].
    erewrite bind_ret.
    2: { unfold size_at. rewrite (proj2 (Z.ltb_ge i 0)) by lia. cbn [Op block_size_array].
         rewrite (Hsz i) by lia. reflexivity. }
    erewrite bind_ret by (apply (Hone i hs dk); [lia|done|done]). cbn [Z.eqb negb].
    destruct (IH (i + 1) (<[Z.to_nat i := F i]> hs) (<[type_size i := G i]> dk)) as (hs' & dk' & E & El & Eall).
    + rewrite length_insert. lia.
    + lia.
    + lia.
    + intros i' Hi'. rewrite list_lookup_insert_ne by lia. rewrite lookup_insert_ne; [apply Htodo; lia|].
      intros E. apply type_size_inj in E; lia.
    + intros i' Hi'. destruct (decide (i' = i)) as [->|Hne].
      * split; [apply list_lookup_insert_eq; lia|apply lookup_insert_eq].
      * rewrite list_lookup_insert_ne by lia. rewrite lookup_insert_ne; [apply Hdone; lia|].
        intros E. apply type_size_inj in E; lia.
    + exists hs', dk'. rewrite length_insert in El. done.
Qed.

(** A new data file. *)
Definition created (sz : Z) : block_file_t :=
  BlockFile (FdOpen sz) RWLock.rwlock_zero sz 0 0 (fun _ => 0).
Definition created_file (sz : Z) : file := file_put empty_file 0 DATA_SECTION_POS (header_byte (created sz)).

Lemma created_inv sz : file_inv sz (created sz) (created_file sz).
Proof.
  unfold created_file. split; cbn [created fd lock block_size block_cnt free_slots_cnt free_slots_offset];
    try done; try lia; try (unfold MAX_FREE_SLOTS; lia).
  - intros x Hx. unfold SLOTS_SECTION_POS in Hx.
    rewrite file_put_in by (unfold DATA_SECTION_POS, MAX_FREE_SLOTS; lia).
    unfold header_byte, SLOTS_SECTION_POS. rewrite Z.sub_0_r. now rewrite (proj2 (Z.ltb_lt _ _)) by lia.
Qed.

Lemma create_run (e : open_env (DB := DB)) sizes hs n dk j i :
  0 <= i < n -> hs !! Z.to_nat i = Some zero_block_file -> sizes !! Z.to_nat i = Some (type_size i) ->
  dk !! type_size i = None -> oe_access e (type_size i) = false -> oe_open e (type_size i) = true ->
  open_one e (type_size i) i (Op sizes hs n dk j) =
  Ret 0 (Op sizes (<[Z.to_nat i := created (type_size i)]> hs) n (<[type_size i := created_file (type_size i)]> dk) j).
Proof.
  intros Hi Hh Hs Hd Ha Ho. unfold open_one. rewrite Ha, Ho. unfold create_data_file. cbn [negb].
  erewrite bind_ret by reflexivity. cbn [Op disk]. rewrite Hd. cbn [default].
  erewrite bind_ret by reflexivity. fold (Op sizes hs n (<[type_size i := empty_file]> dk) j).
  erewrite bind_ret by (apply op_handler; [lia|exact Hh]).
  erewrite bind_ret by (apply op_size; [lia|exact Hs]).
  erewrite bind_ret by reflexivity.
  cbn [Op block_filehandler_array inited_global_vars block_size_array block_type_count disk indexdb
       index_logger index_lock journal io allocs zero_block_file free_slots_offset].
  erewrite bind_ret.
  2: { apply (op_pwrite sizes (<[Z.to_nat i := created (type_size i)]> hs) n _ j (type_size i) empty_file);
       [apply lookup_insert_eq|unfold DATA_SECTION_POS, MAX_FREE_SLOTS; lia]. }
  rewrite Z.eqb_refl. cbn [negb]. rewrite insert_insert_eq. reflexivity.
Qed.

(** The answers with which a storage opens on an empty directory. *)
Record opens (e : open_env (DB := DB)) (n : Z) (acc : bool) (d : DB) : Prop := {
  op_stat : oe_stat e = 0;
  op_access : forall i, 0 <= i < n -> oe_access e (type_size i) = acc /\ oe_open e (type_size i) = true;
  op_bdb : Bdb.open_transaction_bdb (oe_bdb e) BDB_CACHE_SIZE = inr (Some (Bdb.BdbT d 0));
  op_lock : oe_rwlock e = true;
  op_journal : oe_journal e = IndexLog.create_ok
}.

(** The rest of [open_storage] once the data files are open. *)
Lemma open_index_run (e : open_env (DB := DB)) n acc d sizes hs dk j :
  opens e n acc d ->
  open_index_file e (Op sizes hs n dk j) =
  Ret 0 (St sizes hs n dk (Bdb.BdbT d 0) (IndexLog.fresh_logger true) (RWLock.rwlock_zero, j)).
Proof.
  intros [_ _ Hb Hl Hj]. unfold open_index_file. rewrite Hb. cbn [Bdb.error_no Z.eqb negb].
  rewrite Hl, Hj. reflexivity.
Qed.

(** The storage the files describe, whatever the file-scope variables held. *)
Lemma open_storage_run (e : open_env (DB := DB)) n acc d largest (F : Z -> block_file_t) (G : Z -> file) (s : state DB) :
  opens e n acc d -> 1 <= n <= MAX_BLOCK_CNT -> type_size (n - 1) <= largest < type_size n ->
  inited_global_vars s = false -> io s = [] -> allocs s = [] ->
  (forall sizes i hs dk, 0 <= i < n -> hs !! Z.to_nat i = Some zero_block_file ->
     sizes !! Z.to_nat i = Some (type_size i) ->
     dk !! type_size i = disk s !! type_size i ->
     open_one e (type_size i) i (Op sizes hs n dk (journal s)) =
     Ret 0 (Op sizes (<[Z.to_nat i := F i]> hs) n (<[type_size i := G i]> dk) (journal s))) ->
  exists sizes hs dk, open_storage e largest s =
      Ret 0 (St sizes hs n dk (Bdb.BdbT d 0) (IndexLog.fresh_logger true) (RWLock.rwlock_zero, journal s)) /\
    length sizes = Z.to_nat MAX_BLOCK_CNT /\
    (forall i, 0 <= i < n -> sizes !! Z.to_nat i = Some (type_size i)) /\
    length hs = Z.to_nat MAX_BLOCK_CNT /\
    (forall i, 0 <= i < n -> hs !! Z.to_nat i = Some (F i) /\ dk !! type_size i = Some (G i)).
Proof.
  intros He Hn Hlarge Hin Hio Hal Hone. pose proof (op_stat _ _ _ _ He) as Hstat.
  destruct s as [i0 sizes0 hs0 n0 dk db lg lk j io0 al0]. cbn in Hin, Hio, Hal, Hone. subst.
  pose proof (type_size_mono 0 (n - 1) ltac:(lia)) as Hmono. change (type_size 0) with 128 in Hmono.
  destruct (init_loop_spec (S (Z.to_nat MAX_BLOCK_CNT)) 0 largest n (replicate (Z.to_nat MAX_BLOCK_CNT) 0))
    as (sizes & Einit & Hlen & Hsizes); try lia; try done.
  { intros i Hi Hi0. pose proof (type_size_mono i (n - 1) ltac:(lia)). lia. }
  set (hs1 := replicate (Z.to_nat MAX_BLOCK_CNT) zero_block_file).
  destruct (open_data_loop_run e F G sizes n dk j (Z.to_nat n) 0 hs1 dk) as (hs & dk' & Eloop & Elen & Eall).
  { intros i hs dk1 Hi Hh Hd. apply Hone; try done. now apply Hsizes. }
  { exact Hsizes. }
  { unfold hs1. rewrite length_replicate. lia. }
  { lia. } { lia. }
  { intros i Hi. split; [|done]. apply lookup_replicate_2. lia. }
  { intros i Hi. lia. }
  exists sizes, hs, dk'. split; [|unfold hs1 in Elen; rewrite length_replicate in Elen; repeat split; try done; try lia; apply Eall; lia].
  unfold open_storage. erewrite bind_ret by reflexivity. cbn [negb].
  erewrite bind_ret by reflexivity. erewrite bind_ret by reflexivity. erewrite bind_ret by reflexivity.
  rewrite Hstat. cbn [ENOENT Z.eqb negb andb].
  erewrite bind_ret by reflexivity. cbn [inited_global_vars].
  erewrite bind_ret.
  2: { erewrite bind_ret by reflexivity.
       unfold init_storage. rewrite (proj2 (Z.ltb_ge _ _)) by (unfold BEGINNING_SIZE; lia).
       change BEGINNING_SIZE with (type_size 0). rewrite Einit.
       erewrite bind_ret by reflexivity. cbn [Z.eqb negb].
       unfold open_data_files. erewrite bind_ret.
       2: { erewrite bind_ret by reflexivity. cbn [block_type_count]. exact Eloop. }
       reflexivity. }
  cbn [Z.eqb negb]. erewrite bind_ret by (eapply open_index_run; exact He). reflexivity.
Qed.


(** ** Restart *)

Lemma put_header_inv sz fh f : file_inv sz fh f -> file_inv sz fh (put_header fh f).
Proof.
  intros [Hfd Hlk Hbs Hcnt Hfree Hhi Hslots Hinj Hhd Hds Hlen].
  unfold put_header, MAX_FREE_SLOTS in *. split; try done.
  - intros x Hx. unfold SLOTS_SECTION_POS in *. rewrite file_put_in by lia. now rewrite Z.sub_0_r.
  - intros j b Hj Hb. unfold SLOTS_SECTION_POS in *. rewrite file_put_out by lia. apply Hds; lia.
  - eapply Z.le_trans; [|apply file_put_len]. done.
Qed.

Lemma put_header_entry sz fh f iv d : 0 <= sz -> entry_inv sz fh f iv d -> entry_inv sz fh (put_header fh f) iv d.
Proof.
  intros Hsz [Hc Hs Hfit (q & Hq & Hq') Hu Hd Hl]. pose proof (slot_pos_ge sz q Hsz ltac:(lia)) as Hge.
  split; try done; [now exists q| |].
  - etransitivity; [|exact Hd]. apply file_get_ext. intros x Hx. unfold put_header.
    unfold DATA_SECTION_POS, MAX_FREE_SLOTS, SLOTS_SECTION_POS in *. rewrite file_put_out by lia. done.
  - intros Hpos. specialize (Hl Hpos). unfold put_header.
    pose proof (proj1 (file_put_len f 0 SLOTS_SECTION_POS (byte_at (header_fields fh)))). lia.
Qed.

(** A file that is as good for its handler and for every entry it holds. *)
Definition as_good (sz : Z) (fh : block_file_t) (f f' : file) : Prop :=
  file_inv sz fh f' /\ forall iv d, entry_inv sz fh f iv d -> entry_inv sz fh f' iv d.

Lemma put_header_good sz fh f f' : 0 <= sz -> file_inv sz fh f -> as_good sz fh (put_header fh f) f' -> as_good sz fh f f'.
Proof. intros Hsz Hfi [H1 H2]. split; [done|]. intros iv d He. apply H2. now apply put_header_entry. Qed.

(** Reading an 8-byte field of the header back. *)
Lemma word_read (g : Z -> Z) p v :
  (forall b, 0 <= b < 8 -> g (p + b) = byte_at (le_split 8 v) b) -> is_u64 v ->
  le_combine (g <$> seqZ p 8) = v.
Proof.
  intros Hg Hv. assert (E : g <$> seqZ p 8 = le_split 8 v).
  { apply list_eq. intros i. rewrite list_lookup_fmap. destruct (decide (i < 8)%nat) as [Hi|Hi].
    - rewrite lookup_seqZ_lt by lia. cbn [option_map fmap option_fmap]. rewrite Hg by lia.
      unfold byte_at. rewrite Nat2Z.id, nth_lookup.
      destruct (lookup_lt_is_Some_2 (le_split 8 v) i) as [y Hy]; [now rewrite le_split_length|]. now rewrite Hy.
    - rewrite lookup_seqZ_ge by lia. symmetry. apply lookup_ge_None_2. rewrite le_split_length. lia. }
  rewrite E, le_combine_split. apply Z.mod_small. exact Hv.
Qed.

(** The handler [load_data_file] builds from a well-formed file. *)
Definition loaded (sz : Z) (f : file) : block_file_t :=
  load_header (BlockFile (FdOpen sz) RWLock.rwlock_zero 0 0 0 (fun _ => 0))
    (fun x => if x <? DATA_SECTION_POS then fbytes f (0 + x)
              else header_byte (BlockFile (FdOpen sz) RWLock.rwlock_zero 0 0 0 (fun _ => 0)) x).

Lemma loaded_fields sz fh f :
  128 <= sz <= 2 ^ 26 -> file_inv sz fh f ->
  block_size (loaded sz f) = sz /\ block_cnt (loaded sz f) = block_cnt fh /\
  free_slots_cnt (loaded sz f) = free_slots_cnt fh /\
  forall j, 0 <= j < free_slots_cnt fh -> free_slots_offset (loaded sz f) j = free_slots_offset fh j.
Proof.
  intros Hsz [Hfd Hlk Hbs Hcnt Hfree Hhi Hslots Hinj Hhd Hds Hlen]. unfold MAX_FREE_SLOTS in Hfree.
  assert (Hfield : forall k v, (k < 3)%nat -> is_u64 v ->
    (forall b, 0 <= b < 8 -> byte_at (header_fields fh) (8 * Z.of_nat k + b) = byte_at (le_split 8 v) b) ->
    le_combine ((fun x => if x <? DATA_SECTION_POS then fbytes f (0 + x)
              else header_byte (BlockFile (FdOpen sz) RWLock.rwlock_zero 0 0 0 (fun _ => 0)) x) <$> seqZ (8 * Z.of_nat k) 8) = v).
  { intros k v Hk Hv Hb. apply word_read; [|exact Hv]. intros b Hb8.
    unfold DATA_SECTION_POS, MAX_FREE_SLOTS. rewrite (proj2 (Z.ltb_lt _ _)) by lia.
    rewrite Z.add_0_l, Hhd by (unfold SLOTS_SECTION_POS; lia). now apply Hb. }
  unfold loaded, load_header; cbn [block_size block_cnt free_slots_cnt free_slots_offset].
  assert (Hbyte : forall k, (k < 3)%nat -> forall b, 0 <= b < 8 ->
    byte_at (header_fields fh) (8 * Z.of_nat k + b) =
    byte_at (le_split 8 (match k with 0%nat => block_size fh | 1%nat => block_cnt fh | _ => free_slots_cnt fh end)) b).
  { intros k Hk b Hb. unfold byte_at. replace (Z.to_nat (8 * Z.of_nat k + b)) with (8 * k + Z.to_nat b)%nat by lia.
    assert (Hn : (Z.to_nat b < 8)%nat) by lia. revert Hn. generalize (Z.to_nat b) as c. intros c Hc.
    destruct k as [|[|[|k]]]; [| | |lia]; do 8 (destruct c as [|c]; [reflexivity|]); lia. }
  split; [|split; [|split]].
  - refine (eq_trans (Hfield 0%nat (block_size fh) _ _ (Hbyte 0%nat _)) Hbs); [lia| |lia].
    rewrite Hbs. unfold in_range. lia.
  - apply (Hfield 1%nat); [lia|unfold in_range; lia|apply (Hbyte 1%nat); lia].
  - apply (Hfield 2%nat); [lia|unfold in_range; lia|apply (Hbyte 2%nat); lia].
  - intros j Hj. destruct (Hslots j Hj) as (q & Eq & Hq). unfold SLOTS_SECTION_POS.
    rewrite (word_read _ (24 + 8 * j) (u64 (free_slots_offset fh j))).
    + apply i64_u64. rewrite Eq. unfold slot_pos, DATA_SECTION_POS, MAX_FREE_SLOTS. nia.
    + intros b Hb. unfold DATA_SECTION_POS, MAX_FREE_SLOTS. rewrite (proj2 (Z.ltb_lt _ _)) by lia.
      rewrite Z.add_0_l. apply (Hds j b Hj Hb).
    + apply u64_range.
Qed.

Lemma loaded_inv sz fh f : 128 <= sz <= 2 ^ 26 -> file_inv sz fh f -> file_inv sz (loaded sz f) f.
Proof.
  intros Hsz Hfi. destruct (loaded_fields _ _ _ Hsz Hfi) as (E1 & E2 & E3 & E4).
  destruct Hfi as [Hfd Hlk Hbs Hcnt Hfree Hhi Hslots Hinj Hhd Hds Hlen].
  split; rewrite ?E1, ?E2, ?E3; try done.
  - intros j Hj. rewrite E4 by done. auto.
  - intros j j' Hj Hj'. rewrite !E4 by done. auto.
  - intros x Hx. rewrite Hhd by done. unfold header_fields. now rewrite E1, E2, E3, Hbs.
  - intros j b Hj Hb. rewrite E4 by done. auto.
Qed.

Lemma loaded_entry sz fh f iv d :
  128 <= sz <= 2 ^ 26 -> file_inv sz fh f -> entry_inv sz fh f iv d -> entry_inv sz (loaded sz f) f iv d.
Proof.
  intros Hsz Hfi [Hc Hs Hfit (q & Hq & Hq') Hu Hd Hl].
  destruct (loaded_fields _ _ _ Hsz Hfi) as (E1 & E2 & E3 & E4).
  split; try done; rewrite ?E2, ?E3; [now exists q|]. intros j Hj. rewrite E4 by done. auto.
Qed.

Lemma load_run (e : open_env (DB := DB)) sizes hs n dk j i f :
  0 <= i < n -> hs !! Z.to_nat i = Some zero_block_file -> sizes !! Z.to_nat i = Some (type_size i) ->
  dk !! type_size i = Some f -> DATA_SECTION_POS <= flen f ->
  oe_access e (type_size i) = true -> oe_open e (type_size i) = true ->
  open_one e (type_size i) i (Op sizes hs n dk j) =
  Ret 0 (Op sizes (<[Z.to_nat i := loaded (type_size i) f]> hs) n (<[type_size i := f]> dk) j).
Proof.
  intros Hi Hh Hs Hd Hlen Ha Ho. unfold open_one. rewrite Ha, Ho. unfold load_data_file. cbn [negb].
  pose proof (lookup_lt_Some _ _ _ Hh) as Hlt.
  erewrite bind_ret by (apply op_handler; [lia|exact Hh]).
  cbn [zero_block_file lock block_size block_cnt free_slots_cnt free_slots_offset].
  set (fh0 := BlockFile (FdOpen (type_size i)) RWLock.rwlock_zero 0 0 0 (fun _ => 0)).
  erewrite bind_ret by reflexivity.
  cbn [Op block_filehandler_array inited_global_vars block_size_array block_type_count disk indexdb
       index_logger index_lock journal io allocs].
  fold (Op sizes (<[Z.to_nat i := fh0]> hs) n dk j).
  erewrite bind_ret.
  2: { unfold read_data_file. erewrite bind_ret by reflexivity.
       erewrite bind_ret by (apply assert_run, Z.ltb_lt; cbn; lia).
       erewrite bind_ret by (apply op_handler; [lia|now apply list_lookup_insert_eq]).
       cbn [fh0 fd]. erewrite bind_ret.
       2: { apply op_pread; [exact Hd|]. split; [unfold DATA_SECTION_POS, MAX_FREE_SLOTS; lia|exact Hlen]. }
       cbn [fst snd]. rewrite Z.eqb_refl. cbn [negb]. reflexivity. }
  erewrite bind_ret by (apply op_handler; [lia|now apply list_lookup_insert_eq]).
  erewrite bind_ret by reflexivity. cbn [fst snd].
  cbn [Op block_filehandler_array inited_global_vars block_size_array block_type_count disk indexdb
       index_logger index_lock journal io allocs].
  rewrite insert_insert_same, (insert_id dk _ _ Hd). reflexivity.
Qed.

(** Closing: every header is synced, every descriptor closed. *)
Lemma close_loop_run sizes n (b : Bdb.bdb_t DB) il jr k i hs dk (hs0 : list block_file_t) (dk0 : gmap Z file) :
  0 <= i -> i + Z.of_nat k = n -> n <= Z.of_nat (length hs) ->
  (forall i', 0 <= i' < n -> exists fh f, hs0 !! Z.to_nat i' = Some fh /\ dk0 !! type_size i' = Some f /\
     file_inv (type_size i') fh f) ->
  (forall i', i <= i' < n -> hs !! Z.to_nat i' = hs0 !! Z.to_nat i' /\ dk !! type_size i' = dk0 !! type_size i') ->
  (forall i', 0 <= i' < i -> exists fh f, hs0 !! Z.to_nat i' = Some fh /\ dk0 !! type_size i' = Some f /\
     dk !! type_size i' = Some (put_header fh f)) ->
  exists hs' dk', close_loop k i (St sizes hs n dk b il jr) = Ret (Some (Z.of_nat k)) (St sizes hs' n dk' b il jr) /\
    (forall i', 0 <= i' < n -> exists fh f, hs0 !! Z.to_nat i' = Some fh /\ dk0 !! type_size i' = Some f /\
     dk' !! type_size i' = Some (put_header fh f)).
Proof.
  intros Hi Hk Hlen Hall. revert i hs dk Hi Hk Hlen; induction k as [|k IH]; intros i hs dk Hi Hk Hlen Htodo Hdone.
  - exists hs, dk. split; [done|]. intros i' Hi'. apply Hdone. lia.
  - destruct (Hall i ltac:(lia)) as (fh & f & Hh0 & Hd0 & Hfi). destruct (Htodo i ltac:(lia)) as [Hh Hd].
    rewrite Hh0 in Hh. rewrite Hd0 in Hd. cbn [close_loop].
    erewrite bind_ret by (apply handler_run; [lia|exact Hh]). rewrite (fi_fd _ _ _ Hfi).
    erewrite bind_ret by (eapply sync_header_run; [lia|exact Hh|apply Hfi|exact Hd]).
    erewrite bind_ret by (apply handler_run; [lia|exact Hh]).
    erewrite bind_ret by apply set_handler_run.
    edestruct (IH (i + 1)) as (hs' & dk' & E & Eall).
    6: { exists hs', dk'. split; [|exact Eall]. erewrite bind_ret by exact E. unfold ret. cbn [option_map].
         do 3 f_equal. lia. }
    + lia.
    + lia.
    + rewrite length_insert. lia.
    + intros i' Hi'. rewrite list_lookup_insert_ne by lia. rewrite lookup_insert_ne; [apply Htodo; lia|].
      intros Ee. apply type_size_inj in Ee; lia.
    + intros i' Hi'. destruct (decide (i' = i)) as [->|Hne].
      * exists fh, f. split; [done|]. split; [done|]. apply lookup_insert_eq.
      * destruct (Hdone i' ltac:(lia)) as (fh' & f' & ? & ? & ?). exists fh', f'.
        split; [done|]. split; [done|]. rewrite lookup_insert_ne; [done|].
        intros Ee. apply type_size_inj in Ee; lia.
Qed.

(** The logger closes; the file holds what was flushed. *)
Lemma close_logging il p J :
  IndexLog.logging il p J -> exists f, IndexLog.index_logger_close il (IndexLog.full_write il) = Some (f, 0).
Proof.
  intros Hl. destruct (IndexLog.flush_logging il p J Hl) as (il' & p' & E & _).
  pose proof (IndexLog.lg_curr _ _ _ Hl) as Hc. unfold IndexLog.index_logger_close. rewrite Hc.
  exists (IndexLog.fd il'). destruct p; cbn [Z.eqb Pos.eqb orb negb]; rewrite E; reflexivity.
Qed.

(** The storage of a well-formed set of files and an index, from the parts. *)
Lemma reopened_inv sizes hs hs' n (dk dk' : gmap Z file) b d il idx m :
  storage_inv sizes hs n dk b il idx m ->
  healthy d -> contents d = contents (Bdb.dbp b) ->
  length hs' = Z.to_nat MAX_BLOCK_CNT ->
  (forall i, 0 <= i < n -> exists fh f, hs !! Z.to_nat i = Some fh /\ dk !! type_size i = Some f /\
     hs' !! Z.to_nat i = Some (loaded (type_size i) (put_header fh f)) /\
     dk' !! type_size i = Some (put_header fh f)) ->
  forall sizes', length sizes' = Z.to_nat MAX_BLOCK_CNT ->
  (forall i, 0 <= i < n -> sizes' !! Z.to_nat i = Some (type_size i)) ->
  storage_inv sizes' hs' n dk' (Bdb.BdbT d 0) (IndexLog.fresh_logger true) idx m /\
  (forall c, marks hs n c -> marks hs' n c).
Proof.
  intros [Hn Hsz [Hlen Hfs] [Hh Hc] Hlg Hent Hdom Hap] Hd Hcd Hlen' Hall sizes' Hl1 Hl2.
  assert (Hnew : forall i, 0 <= i < n -> exists fh f, hs !! Z.to_nat i = Some fh /\ dk !! type_size i = Some f /\
     hs' !! Z.to_nat i = Some (loaded (type_size i) (put_header fh f)) /\
     dk' !! type_size i = Some (put_header fh f) /\ file_inv (type_size i) fh (put_header fh f) /\
     128 <= type_size i <= 2 ^ 26).
  { intros i Hi. destruct (Hall i Hi) as (fh & f & E1 & E2 & E3 & E4).
    destruct (Hfs i Hi) as (fh0 & f0 & E1' & E2' & Hfi). rewrite E1 in E1'. rewrite E2 in E2'.
    injection E1' as <-. injection E2' as <-. exists fh, f. repeat (split; [done|]).
    split; [now apply put_header_inv|]. split; [apply type_size_pos; lia|apply type_size_bound; lia]. }
  split; [split; cbn [Bdb.dbp]; try done|].
  - split; [done|]. intros i Hi. destruct (Hnew i Hi) as (fh & f & _ & _ & E3 & E4 & Hfi & Hb).
    exists (loaded (type_size i) (put_header fh f)), (put_header fh f). split; [done|]. split; [done|].
    now apply (loaded_inv _ fh).
  - split; [done|]. now rewrite Hcd.
  - exists IndexLog.Buffer1, (IndexLog.Journal [] []). apply IndexLog.fresh_logging.
  - intros k iv Hk. destruct (Hent k iv Hk) as (Hv & Hid & dd & fh0 & f0 & Em & E1' & E2' & Hei).
    split; [done|]. split; [done|]. destruct (Hnew _ Hid) as (fh & f & E1 & E2 & E3 & E4 & Hfi & Hb).
    rewrite E1 in E1'. rewrite E2 in E2'. injection E1' as <-. injection E2' as <-.
    exists dd, (loaded (type_size (block_id iv)) (put_header fh f)), (put_header fh f).
    split; [done|]. split; [done|]. split; [done|]. apply (loaded_entry _ fh); [done|done|].
    apply put_header_entry; [lia|done].
  - intros c Hm i fh' Hi Hl. destruct (Hnew i Hi) as (fh & f & E1 & _ & E3 & _ & Hfi & Hb).
    rewrite E3 in Hl. injection Hl as <-. destruct (loaded_fields _ _ _ Hb Hfi) as (_ & -> & -> & _). eauto.
Qed.

(** ** Syncing *)

(** Headers of the first files written back. *)
Lemma sync_headers_run sizes hs n (b : Bdb.bdb_t DB) il jr k i dk :
  0 <= i -> i + Z.of_nat k = n ->
  (forall i', 0 <= i' < n -> exists fh f, hs !! Z.to_nat i' = Some fh /\ dk !! type_size i' = Some f /\
     file_inv (type_size i') fh f) ->
  exists dk', sync_headers k i (St sizes hs n dk b il jr) = Ret tt (St sizes hs n dk' b il jr) /\
    forall i', 0 <= i' < n -> exists fh f, hs !! Z.to_nat i' = Some fh /\ dk !! type_size i' = Some f /\
      exists f', dk' !! type_size i' = Some f' /\ as_good (type_size i') fh f f'.
Proof.
  intros Hi Hk Hall. revert i dk Hi Hk Hall; induction k as [|k IH]; intros i dk Hi Hk Hall.
  - exists dk. split; [done|]. intros i' Hi'. destruct (Hall i' Hi') as (fh & f & E1 & E2 & Hfi).
    exists fh, f. split; [done|]. split; [done|]. exists f. split; [done|]. by split.
  - destruct (Hall i ltac:(lia)) as (fh & f & Hh & Hd & Hfi). cbn [sync_headers].
    destruct (IH (i + 1) (<[type_size i := put_header fh f]> dk)) as (dk' & E & Hall'); [lia|lia| |].
    { intros i' Hi'. destruct (decide (i' = i)) as [->|Hne].
      - exists fh, (put_header fh f). rewrite lookup_insert_eq. split; [done|]. split; [done|]. now apply put_header_inv.
      - rewrite lookup_insert_ne; [apply Hall; lia|]. intros Ee. apply type_size_inj in Ee; lia. }
    exists dk'. split.
    { erewrite bind_ret by (eapply sync_header_run; [lia|exact Hh|apply Hfi|exact Hd]). exact E. }
    intros i' Hi'. destruct (Hall' i' Hi') as (fh' & f' & E1 & E2 & f2 & E3 & Hgood).
    destruct (decide (i' = i)) as [->|Hne].
    + rewrite lookup_insert_eq in E2. injection E2 as <-. rewrite Hh in E1. injection E1 as <-.
      exists fh, f. split; [done|]. split; [done|]. exists f2. split; [done|].
      apply put_header_good; [pose proof (type_size_pos i Hi); lia|done|done].
    + rewrite lookup_insert_ne in E2; [by exists fh', f'; split; [|split; [|exists f2]]|]. intros Ee. apply type_size_inj in Ee; lia.
Qed.

Lemma flush_run sizes hs n dk b il j idx m :
  storage_inv sizes hs n dk b il idx m ->
  exists b' il', flush_index (St sizes hs n dk b il (RWLock.rwlock_zero, j)) =
      Ret tt (St sizes hs n dk b' il' (RWLock.rwlock_zero, j)) /\
    storage_inv sizes hs n dk b' il' idx m.
Proof.
  intros Hinv. pose proof Hinv as [Hn Hsz Hfs [Hh Hc] (p & J & Hlg) Hent Hdom Hap].
  destruct (sync_law _ Hh) as [Hh' Hc']. destruct (IndexLog.flush_logging il p J Hlg) as (il' & p' & E & Hlg').
  exists (Bdb.sync_bdb b).1, il'. split.
  - unfold flush_index. erewrite bind_ret by reflexivity. cbn [St indexdb].
    erewrite bind_ret by reflexivity. unfold log_flush, bind, get, next_io, set_logger, ret.
    cbn [St index_logger io default]. rewrite E. reflexivity.
  - split; try done; [|by exists p', (IndexLog.journal_flush J)].
    split; [done|]. cbn [Bdb.sync_bdb fst Bdb.dbp]. congruence.
Qed.

Lemma sync_run sizes hs n dk b il j idx m object :
  storage_inv sizes hs n dk b il idx m ->
  CString.is_word index_word object = true \/ CString.is_word all_word object = true ->
  exists dk' b' il', sync_storage object (St sizes hs n dk b il (RWLock.rwlock_zero, j)) =
      Ret 0 (St sizes hs n dk' b' il' (RWLock.rwlock_zero, j)) /\
    storage_inv sizes hs n dk' b' il' idx m.
Proof.
  intros Hinv Hw. destruct (flush_run _ _ _ _ _ _ j _ _ Hinv) as (b' & il' & E & Hinv').
  unfold sync_storage. destruct (CString.is_word index_word object).
  - exists dk, b', il'. split; [|done]. erewrite bind_ret by exact E. reflexivity.
  - destruct Hw as [|Hw]; [done|]. rewrite Hw. pose proof Hinv' as [Hn Hsz [Hlen Hfs] Hdb Hlg Hent Hdom Hap].
    destruct (sync_headers_run sizes hs n b' il' (RWLock.rwlock_zero, j) (Z.to_nat n) 0 dk) as (dk' & E' & Hall);
      [lia|lia|exact Hfs|].
    exists dk', b', il'. split.
    { erewrite bind_ret by exact E. erewrite bind_ret by reflexivity. cbn [St block_type_count].
      erewrite bind_ret by exact E'. reflexivity. }
    split; try done.
    + split; [done|]. intros i Hi. destruct (Hfs i Hi) as (fh & f & E1 & E2 & Hfi).
      destruct (Hall i Hi) as (fh' & f' & E1' & E2' & f2 & E3 & [Hgood _]). rewrite E1 in E1'.
      injection E1' as <-. by exists fh, f2.
    + intros k iv Hk. destruct (Hent k iv Hk) as (Hv & Hid & d & fh & f & Hm & E1 & E2 & Hei).
      split; [done|]. split; [done|]. destruct (Hall _ Hid) as (fh' & f' & E1' & E2' & f2 & E3 & [_ Hgood]).
      rewrite E1 in E1'. rewrite E2 in E2'. injection E1' as <-. injection E2' as <-.
      exists d, fh, f2. split; [done|]. split; [done|]. split; [done|]. now apply Hgood.
Qed.

(** ** Whole lives of a storage *)

(** Everything a caller can ask for; [Restart] closes the storage and opens it
    again, on the files and the database it left. *)
Inductive op := Update (key data : list Z) | Find (key : list Z) | Delete (key : list Z) | Restart.
Inductive reply := Code (r : Z) | Found (r : Z) (value : option (list Z)) (value_len : Z).

Definition reopen_env (d : DB) : open_env (DB := DB) :=
  OpenEnv 0 true (fun _ => true) (fun _ => true) (Bdb.OpenEnv true 0 0 0 0 0 0 0 0 0 d) true IndexLog.create_ok.
Definition restart (largest : Z) : M DB Z :=
  bind get (fun s =>
  match indexdb s with
  | None => abort
  | Some b => bind close_storage (fun r =>
      if negb (r =? 0) then ret r else open_storage (reopen_env (Bdb.dbp b)) largest)
  end).
Definition run_op (largest : Z) (o : op) : M DB reply :=
  match o with
  | Update key data => bind (update_block key data) (fun r => ret (Code r))
  | Find key => bind (find_block key) (fun r => ret (Found r.1.1 r.1.2 r.2))
  | Delete key => bind (delete_block key) (fun r => ret (Code r))
  | Restart => bind (restart largest) (fun r => ret (Code r))
  end.
Fixpoint run_ops (largest : Z) (ops : list op) : M DB (list reply) :=
  match ops with
  | [] => ret []
  | o :: ops => bind (run_op largest o) (fun r => bind (run_ops largest ops) (fun rs => ret (r :: rs)))
  end.

(** The specification: a finite map. *)
Definition spec_op (o : op) (m : gmap (list Z) (list Z)) : reply * gmap (list Z) (list Z) :=
  match o with
  | Update key data => (Code 0, <[fixed_key key := data]> m)
  | Find key => (match m !! fixed_key key with
                 | Some d => Found 0 (Some d) (Z.of_nat (length d))
                 | None => Found DB_NOTFOUND None 0
                 end, m)
  | Delete key => (Code (if decide (is_Some (m !! fixed_key key)) then 0 else DB_NOTFOUND), delete (fixed_key key) m)
  | Restart => (Code 0, m)
  end.
Fixpoint spec_ops (ops : list op) (m : gmap (list Z) (list Z)) : list reply * gmap (list Z) (list Z) :=
  match ops with
  | [] => ([], m)
  | o :: ops => let '(r, m) := spec_op o m in let '(rs, m) := spec_ops ops m in (r :: rs, m)
  end.
(** Keys and data are bytes, and the data fit the largest block. *)
Definition op_ok (n : Z) (o : op) : Prop :=
  match o with
  | Update key data => bytes_ok key /\ bytes_ok data /\ Z.of_nat (length data) <= type_size (n - 1)
  | Find key | Delete key => bytes_ok key
  | Restart => True
  end.

(** [largest] asks for [n] block sizes. *)
Definition sizes_for (n largest : Z) : Prop :=
  1 <= n <= MAX_BLOCK_CNT /\ type_size (n - 1) <= largest < type_size n.

Lemma reopen_opens n d : opens (reopen_env d) n true d.
Proof. split; try reflexivity. done. Qed.

(** Closing writes every header back and leaves the database as it is. *)
Lemma close_run sizes hs n dk b il j idx m :
  storage_inv sizes hs n dk b il idx m ->
  exists hs1 dk1 j1, close_storage (St sizes hs n dk b il (RWLock.rwlock_zero, j)) =
      Ret 0 (State false sizes hs1 0 dk1 None None (Some RWLock.rwlock_zero) (Some j1) [] []) /\
    forall i, 0 <= i < n -> exists fh f, hs !! Z.to_nat i = Some fh /\ dk !! type_size i = Some f /\
      dk1 !! type_size i = Some (put_header fh f).
Proof.
  intros Hinv. pose proof Hinv as [Hn _ [Hlen Hfs] [Hh Hc] (p & J & Hlg) _ _ _].
  destruct (close_loop_run sizes n b il (RWLock.rwlock_zero, j) (Z.to_nat n) 0 hs dk hs dk)
    as (hs1 & dk1 & Eclose & Hclosed); try lia; try done.
  destruct (close_logging _ _ _ Hlg) as (fj & Ej). destruct (close_law _ Hh) as [Ec1 Ec2].
  exists hs1, dk1, (IndexLog.f_data fj). split; [|exact Hclosed].
  unfold close_storage. erewrite bind_ret by reflexivity. cbn [St inited_global_vars].
  erewrite bind_ret.
  2: { erewrite bind_ret by exact Eclose. reflexivity. }
  cbn [negb]. erewrite bind_ret by reflexivity.
  cbn [St indexdb block_size_array block_filehandler_array block_type_count disk index_logger
       index_lock journal io allocs fst snd].
  unfold Bdb.close_bdb. rewrite Ec1, Ec2. cbn [Z.eqb negb].
  erewrite bind_ret by (erewrite bind_ret by reflexivity; reflexivity).
  cbn [negb]. erewrite bind_ret by reflexivity. cbn [index_logger].
  erewrite bind_ret by reflexivity. cbn [default]. rewrite Ej.
  erewrite bind_ret by reflexivity. cbn [Z.eqb negb]. erewrite bind_ret by reflexivity.
  unfold ret. do 2 f_equal. cbn [block_type_count]. lia.
Qed.

(** Opening a storage whose files were closed from [hs] and [dk]. *)
Lemma reopen_run sizes hs n dk b il idx m (e : open_env (DB := DB)) d largest (s : state DB) :
  storage_inv sizes hs n dk b il idx m -> sizes_for n largest ->
  opens e n true d -> healthy d -> contents d = contents (Bdb.dbp b) ->
  inited_global_vars s = false -> io s = [] -> allocs s = [] ->
  (forall i, 0 <= i < n -> exists fh f, hs !! Z.to_nat i = Some fh /\ dk !! type_size i = Some f /\
     disk s !! type_size i = Some (put_header fh f)) ->
  exists sizes' hs' dk', open_storage e largest s =
      Ret 0 (St sizes' hs' n dk' (Bdb.BdbT d 0) (IndexLog.fresh_logger true) (RWLock.rwlock_zero, journal s)) /\
    storage_inv sizes' hs' n dk' (Bdb.BdbT d 0) (IndexLog.fresh_logger true) idx m /\
    (forall c, marks hs n c -> marks hs' n c).
Proof.
  intros Hinv [Hn Hlarge] He Hd Hcd Hin Hio Hal Hclosed. pose proof Hinv as [_ _ [_ Hfs] _ _ _ _ _].
  destruct (open_storage_run e n true d largest
     (fun i => loaded (type_size i) (default empty_file (disk s !! type_size i)))
     (fun i => default empty_file (disk s !! type_size i)) s)
    as (sizes' & hs' & dk' & E2 & Hl1 & Hl2 & Hl3 & Hl4); try done.
  { intros sizes2 i hs2 dk2 Hi Hz Hs2 Hd2. destruct (Hclosed i Hi) as (fh & f & _ & Ed & Ed1).
    rewrite Ed1 in Hd2 |- *. cbn [default]. destruct (op_access _ _ _ _ He i Hi) as [Ha Ho]. apply load_run; try done.
    destruct (Hfs i Hi) as (fh0 & f0 & _ & Ed0 & Hfi). rewrite Ed in Ed0. injection Ed0 as <-.
    eapply Z.le_trans; [apply Hfi|apply file_put_len]. }
  exists sizes', hs', dk'. split; [exact E2|].
  apply (reopened_inv sizes hs hs' n dk dk' b d il idx m Hinv Hd Hcd); try done.
  intros i Hi. destruct (Hclosed i Hi) as (fh & f & E & Ed & Ed1). exists fh, f.
  destruct (Hl4 i Hi) as [-> ->]. now rewrite Ed1.
Qed.

Lemma restart_run sizes hs n dk b il j idx m largest :
  storage_inv sizes hs n dk b il idx m -> sizes_for n largest ->
  exists sizes' hs' dk' j', restart largest (St sizes hs n dk b il (RWLock.rwlock_zero, j)) =
      Ret 0 (St sizes' hs' n dk' (Bdb.BdbT (Bdb.dbp b) 0) (IndexLog.fresh_logger true) (RWLock.rwlock_zero, j')) /\
    storage_inv sizes' hs' n dk' (Bdb.BdbT (Bdb.dbp b) 0) (IndexLog.fresh_logger true) idx m /\
    (forall c, marks hs n c -> marks hs' n c).
Proof.
  intros Hinv Hsz. pose proof (si_db _ _ _ _ _ _ _ _ Hinv) as [Hh _].
  destruct (close_run _ _ _ _ _ _ j _ _ Hinv) as (hs1 & dk1 & j1 & E1 & Hclosed).
  set (s1 := State false sizes hs1 0 dk1 None None (Some RWLock.rwlock_zero) (Some j1) [] [] : state DB) in E1.
  destruct (reopen_run sizes hs n dk b il idx m (reopen_env (Bdb.dbp b)) (Bdb.dbp b) largest s1 Hinv Hsz
     (reopen_opens n (Bdb.dbp b)) Hh eq_refl eq_refl eq_refl eq_refl Hclosed) as (sizes' & hs' & dk' & E2 & Hinv' & Hm).
  exists sizes', hs', dk', (Some j1). split; [|by split].
  unfold restart. erewrite bind_ret by reflexivity. cbn [St indexdb].
  erewrite bind_ret by exact E1. cbn [Z.eqb negb]. rewrite E2. reflexivity.
Qed.

Lemma represents_intro sizes hs n dk b il j idx m :
  storage_inv sizes hs n dk b il idx m -> represents (St sizes hs n dk b il (RWLock.rwlock_zero, j)) m.
Proof. intros Hinv. by exists sizes, hs, n, dk, b, il, j, idx. Qed.

(** One operation follows the specification and uses at most one slot more. *)
(** The files of a closed storage [s1] hold [m]: whoever opens them with a
    database of the contents [ct] gets it back, with room for [c] blocks. *)
Definition durable (n c : Z) (s1 : state DB) (ct : gmap (list Z) (list Z)) (m : gmap (list Z) (list Z)) : Prop :=
  forall (e : open_env (DB := DB)) d largest s,
    sizes_for n largest -> opens e n true d -> healthy d -> contents d = ct ->
    inited_global_vars s = false -> io s = [] -> allocs s = [] -> disk s = disk s1 ->
    exists s', open_storage e largest s = Ret 0 s' /\ represents s' m /\ block_type_count s' = n /\ room s' c.

Lemma close_durable sizes hs n dk b il j idx m c :
  storage_inv sizes hs n dk b il idx m -> marks hs n (2 ^ 32 - c) ->
  exists s1, close_storage (St sizes hs n dk b il (RWLock.rwlock_zero, j)) = Ret 0 s1 /\
    durable n c s1 (contents (Bdb.dbp b)) m.
Proof.
  intros Hinv Hc. destruct (close_run _ _ _ _ _ _ j _ _ Hinv) as (hs1 & dk1 & j1 & E & Hclosed).
  eexists. split; [exact E|]. intros e d largest s Hsz He Hd Hcd Hin Hio Hal Hdk. cbn [disk] in Hdk.
  destruct (reopen_run sizes hs n dk b il idx m e d largest s Hinv Hsz He Hd Hcd Hin Hio Hal) as (sizes' & hs' & dk' & E2 & Hinv' & Hm).
  { rewrite Hdk. exact Hclosed. }
  eexists. split; [exact E2|]. split; [eapply represents_intro, Hinv'|]. split; [done|]. now apply Hm.
Qed.

Lemma op_run n largest o (s : state DB) m c :
  represents s m -> block_type_count s = n -> sizes_for n largest -> op_ok n o ->
  1 <= c -> room s c ->
  exists s', run_op largest o s = Ret (spec_op o m).1 s' /\ represents s' (spec_op o m).2 /\
    block_type_count s' = n /\ room s' (c - 1).
Proof.
  intros (sizes & hs & n' & dk & b & il & j & idx & -> & Hinv) En Hsz Hok Hc Hroom.
  cbn [St block_type_count] in En. subst n'. unfold room in *. cbn [St block_filehandler_array block_type_count] in Hroom.
  destruct o as [key data|key|key|]; cbn [run_op spec_op fst snd op_ok] in *.
  - destruct Hok as (Hk & Hd & Hl).
    destruct (update_run sizes hs n dk b il j idx m key data)
      as (hs' & dk' & b' & il' & idx' & E & Hinv' & Hm); try done; [apply (marks_le _ _ (2 ^ 32 - c)); [lia|done]|].
    eexists. split; [erewrite bind_ret by exact E; reflexivity|]. split; [eapply represents_intro, Hinv'|].
    split; [done|]. replace (2 ^ 32 - (c - 1)) with (2 ^ 32 - c + 1) by lia. now apply Hm.
  - destruct (find_run sizes hs n dk b il j idx m key) as (b' & E & Hinv'); try done.
    eexists. split; [erewrite bind_ret by exact E; unfold ret; f_equal; now destruct (m !! fixed_key key)|].
    split; [eapply represents_intro, Hinv'|]. split; [done|]. now apply (marks_le _ _ (2 ^ 32 - c)); [lia|].
  - destruct (delete_run sizes hs n dk b il j idx m key)
      as (hs' & dk' & b' & il' & idx' & E & Hinv' & Hm); try done.
    eexists. split; [erewrite bind_ret by exact E; reflexivity|]. split; [eapply represents_intro, Hinv'|].
    split; [done|]. apply (marks_le _ _ (2 ^ 32 - c)); [lia|]. now apply Hm.
  - destruct (restart_run sizes hs n dk b il j idx m largest Hinv Hsz) as (sizes' & hs' & dk' & j' & E & Hinv' & Hm).
    eexists. split; [erewrite bind_ret by exact E; reflexivity|]. split; [eapply represents_intro, Hinv'|].
    split; [done|]. apply (marks_le _ _ (2 ^ 32 - c)); [lia|]. now apply Hm.
Qed.

Lemma ops_run n largest ops (s : state DB) m :
  represents s m -> block_type_count s = n -> sizes_for n largest -> Forall (op_ok n) ops ->
  room s (Z.of_nat (length ops)) ->
  exists s', run_ops largest ops s = Ret (spec_ops ops m).1 s' /\ represents s' (spec_ops ops m).2.
Proof.
  intros Hr Hn Hsz Hok. revert s m Hr Hn; induction Hok as [|o ops Ho _ IH]; intros s m Hr Hn Hroom.
  - exists s. done.
  - cbn [run_ops spec_ops length] in *.
    destruct (op_run n largest o s m (Z.of_nat (S (length ops))) Hr Hn Hsz Ho ltac:(lia) Hroom) as (s1 & E & Hr1 & Hn1 & Hroom1).
    destruct (spec_op o m) as [r m1]. cbn [fst snd] in *.
    destruct (IH s1 m1 Hr1 Hn1) as (s2 & E2 & Hr2).
    { replace (Z.of_nat (length ops)) with (Z.of_nat (S (length ops)) - 1) by lia. done. }
    destruct (spec_ops ops m1) as [rs m2]. cbn [fst snd] in *.
    exists s2. split; [|done]. erewrite bind_ret by exact E. erewrite bind_ret by exact E2. reflexivity.
Qed.

(** Nothing stored: an empty directory and an empty database. *)
Record pristine (s : state DB) (n : Z) : Prop := {
  pr_inited : inited_global_vars s = false;
  pr_io : io s = [];
  pr_allocs : allocs s = [];
  pr_disk : forall i, 0 <= i < n -> disk s !! type_size i = None
}.

Lemma open_fresh_run (e : open_env (DB := DB)) n d largest (s : state DB) :
  opens e n false d -> healthy d -> contents d = ∅ -> sizes_for n largest -> pristine s n ->
  exists s', open_storage e largest s = Ret 0 s' /\ represents s' ∅ /\
    block_type_count s' = n /\ room s' (2 ^ 32).
Proof.
  intros He Hh Hc [Hn Hlarge] [Hin Hio Hal Hdk].
  destruct (open_storage_run e n false d largest (fun i => created (type_size i)) (fun i => created_file (type_size i)) s)
    as (sizes & hs & dk & E & Hl1 & Hl2 & Hl3 & Hl4); try done.
  { intros sizes2 i hs2 dk2 Hi Hz Hs2 Hd2. destruct (op_access _ _ _ _ He i Hi) as [Ha Ho].
    apply create_run; try done. now rewrite Hd2, Hdk by done. }
  eexists. split; [exact E|]. split.
  - exists sizes, hs, n, dk, (Bdb.BdbT d 0), (IndexLog.fresh_logger true), (journal s), ∅. split; [done|].
    split; cbn [Bdb.dbp]; try (intros k iv Hk; now rewrite lookup_empty in Hk); try done.
    + split; [done|]. intros i Hi. destruct (Hl4 i Hi) as [-> ->]. do 2 eexists. split; [done|]. split; [done|].
      apply created_inv.
    + exists IndexLog.Buffer1, (IndexLog.Journal [] []). apply IndexLog.fresh_logging.
    + intros k [x Hx]. now rewrite lookup_empty in Hx.
  - split; [done|]. intros i fh Hi Hl. cbn in Hl. destruct (Hl4 i Hi) as [E1 _]. rewrite E1 in Hl.
    injection Hl as <-. cbn. lia.
Qed.

End Opening.
End StorageRefine.
