(* ===== verification/StorageProps.v ===== *)
(** The correctness of [src/src/storage.c]: the storage opened on an empty
    directory is a finite map from the first 16 bytes of a key to data, through
    updates, lookups, deletions and restarts; and what it does outside of that
    contract, with data that no block can hold or without memory. *)

From Stdlib Require Import ZArith Lia.
From stdpp Require Import base numbers list gmap.
From S2P Require Import Prelude Crc32 RWLock IndexTypes IndexLog Bdb Storage StorageRefine.

Module StorageProps.
Import IndexTypes Storage StorageRefine.

Section Props.
Context {DB : Type} `{BerkeleyDBLaws DB}.

(** C9: a storage opened on an empty directory behaves as a finite map. For any
    sequence of updates, lookups, deletions and restarts (close, then open
    again), with byte strings as keys and data that fit the largest block,
    every operation returns, with the code and the value the map gives, and the
    final state represents the final map. *)
Theorem storage_history (e : open_env (DB := DB)) n d largest (s : state DB) ops :
  opens e n false d -> healthy d -> contents d = ∅ -> sizes_for n largest -> pristine s n ->
  Forall (op_ok n) ops -> Z.of_nat (length ops) <= 2 ^ 32 ->
  exists s', bind (open_storage e largest) (fun r => bind (run_ops largest ops) (fun rs => ret (r, rs))) s =
      Ret (0, (spec_ops ops ∅).1) s' /\
    represents s' (spec_ops ops ∅).2.
Proof.
  intros He Hh Hc Hsz Hs Hops Hlen.
  destruct (open_fresh_run e n d largest s He Hh Hc Hsz Hs) as (s1 & E1 & Hr1 & Hn1 & Hroom).
  destruct (ops_run n largest ops s1 ∅ Hr1 Hn1 Hsz Hops) as (s2 & E2 & Hr2).
  { intros i fh Hi Hl. specialize (Hroom i fh Hi Hl). lia. }
  exists s2. split; [|exact Hr2]. erewrite bind_ret by exact E1. erewrite bind_ret by exact E2. reflexivity.
Qed.

(** C12: [update_block] with data that fit the largest block returns 0 and
    replaces the data of the key, whether it was stored or not, in place or in
    a block of another size. *)
Theorem update_block_refines (s : state DB) m key data :
  represents s m -> bytes_ok key -> bytes_ok data ->
  Z.of_nat (length data) <= type_size (block_type_count s - 1) -> room s 1 ->
  exists s', update_block key data s = Ret 0 s' /\ represents s' (<[fixed_key key := data]> m).
Proof.
  intros (sizes & hs & n & dk & b & il & j & idx & -> & Hinv) Hk Hd Hl Hroom.
  destruct (update_run sizes hs n dk b il j idx m key data Hinv Hk Hd Hl Hroom)
    as (hs' & dk' & b' & il' & idx' & E & Hinv' & _).
  eexists. split; [exact E|]. eapply represents_intro, Hinv'.
Qed.

(** C13: [find_block] returns the data stored for the key, or [DB_NOTFOUND], and
    leaves the storage as it was. *)
Theorem find_block_refines (s : state DB) m key :
  represents s m -> bytes_ok key ->
  exists s', find_block key s =
      Ret (match m !! fixed_key key with
           | Some d => (0, Some d, Z.of_nat (length d))
           | None => (DB_NOTFOUND, None, 0)
           end) s' /\ represents s' m.
Proof.
  intros (sizes & hs & n & dk & b & il & j & idx & -> & Hinv) Hk.
  destruct (find_run sizes hs n dk b il j idx m key Hinv Hk) as (b' & E & Hinv').
  eexists. split; [exact E|]. eapply represents_intro, Hinv'.
Qed.

(** C14: [delete_block] removes the key, returning 0 when it was stored and
    [DB_NOTFOUND] when it was not; every other key keeps its data. *)
Theorem delete_block_refines (s : state DB) m key :
  represents s m -> bytes_ok key ->
  exists s', delete_block key s = Ret (if decide (is_Some (m !! fixed_key key)) then 0 else DB_NOTFOUND) s' /\
    represents s' (delete (fixed_key key) m).
Proof.
  intros (sizes & hs & n & dk & b & il & j & idx & -> & Hinv) Hk.
  destruct (delete_run sizes hs n dk b il j idx m key Hinv Hk)
    as (hs' & dk' & b' & il' & idx' & E & Hinv' & _).
  eexists. split; [exact E|]. eapply represents_intro, Hinv'.
Qed.

(** ** Data that no block can hold *)

Lemma calc_loop_cases k i len :
  0 <= i -> i + Z.of_nat k <= MAX_BLOCK_CNT -> 0 <= len < 2 ^ 31 ->
  calc_loop k (type_size i) len = -1 \/
  exists i', i <= i' /\ calc_loop k (type_size i) len = type_size i' /\ len <= type_size i'.
Proof.
  revert i; induction k as [|k IH]; intros i Hi Hk Hlen; [now left|]. unfold MAX_BLOCK_CNT in *.
  cbn [calc_loop]. rewrite i32_small by lia.
  destruct (Z.leb_spec len (type_size i)) as [Hle|Hgt]; [right; exists i; done|].
  pose proof (type_size_bound i ltac:(unfold MAX_BLOCK_CNT; lia)). pose proof (type_size_pos i Hi).
  rewrite i32_small, type_size_succ by lia.
  destruct (IH (i + 1) ltac:(lia) ltac:(lia) Hlen) as [E|(i' & Hi' & E)]; [now left|right].
  exists i'. split; [lia|done].
Qed.

Lemma find_size_none sizes cnt start x :
  (forall j, 0 <= j < Z.of_nat cnt -> exists y, sizes !! Z.to_nat j = Some y /\ y <> x) ->
  find_size sizes cnt start x = -1.
Proof.
  revert sizes start; induction cnt as [|cnt IH]; intros sizes start Hs; [by destruct sizes|].
  destruct (Hs 0 ltac:(lia)) as (y & Hy & Hne). destruct sizes as [|z sizes]; [done|]. cbn in Hy. injection Hy as ->.
  cbn [find_size]. rewrite (proj2 (Z.eqb_neq _ _)) by congruence. apply IH.
  intros j Hj. destruct (Hs (j + 1) ltac:(lia)) as (y' & Hy' & Hne').
  replace (Z.to_nat (j + 1)) with (S (Z.to_nat j)) in Hy' by lia. by exists y'.
Qed.

(** No size is found for data above the largest block. *)
Lemma find_oversize sizes hs n dk b il jr idx m len :
  storage_inv sizes hs n dk b il idx m -> type_size (n - 1) < len < 2 ^ 31 ->
  find_block_file (u64 (calc_block_size len)) (St (DB := DB) sizes hs n dk b il jr) =
  Ret (-1) (St sizes hs n dk b il jr).
Proof.
  intros Hinv Hlen. destruct (si_count _ _ _ _ _ _ _ _ Hinv) as [Hn1 Hn2].
  pose proof (type_size_pos (n - 1) ltac:(lia)) as Hp.
  unfold find_block_file. erewrite bind_ret by reflexivity. cbn [St block_size_array block_type_count].
  unfold ret. f_equal. apply find_size_none. intros j Hj.
  exists (type_size j). split; [apply (si_sizes _ _ _ _ _ _ _ _ Hinv); lia|].
  pose proof (type_size_mono j (n - 1) ltac:(lia)) as Hm. pose proof (type_size_pos j ltac:(lia)).
  unfold calc_block_size. change BEGINNING_SIZE with (type_size 0).
  destruct (calc_loop_cases (Z.to_nat MAX_BLOCK_CNT) 0 len) as [->|(i & Hi & -> & Hle)]; try (unfold MAX_BLOCK_CNT; lia).
  - pose proof (type_size_bound j ltac:(lia)). change (u64 (-1)) with 18446744073709551615. lia.
  - unfold MAX_BLOCK_CNT in *. intros E.
    assert (u64 (type_size i) = 0 \/ u64 (type_size i) = type_size i) as [E0|E0]; [|lia|lia].
    unfold u64, type_size, BEGINNING_SIZE. change 128 with (2 ^ 7). rewrite <- Z.pow_add_r by lia.
    destruct (Z.lt_ge_cases (7 + i) 64) as [Hs|Hs].
    + right. apply Z.mod_small. split; [apply Z.pow_nonneg; lia|apply Z.pow_lt_mono_r; lia].
    + left. replace (7 + i) with (64 + (i - 57)) by lia. rewrite Z.pow_add_r by lia.
      rewrite Z.mul_comm. apply Z_mod_mult.
Qed.

(** Inserting a new key with data above the largest block size reports
    success and stores nothing. *)
Theorem oversize_insert_lost (s : state DB) m key data :
  represents s m -> bytes_ok key -> m !! fixed_key key = None ->
  type_size (block_type_count s - 1) < Z.of_nat (length data) < 2 ^ 31 ->
  exists s', update_block key data s = Ret 0 s' /\ represents s' m.
Proof.
  intros (sizes & hs & n & dk & b & il & j & idx & -> & Hinv) Hkb Hk Hlen. cbn [St block_type_count] in Hlen.
  pose proof (proj2 (idx_none _ _ _ _ _ _ _ _ _ Hinv) Hk) as Hidx. pose proof Hinv as [_ _ _ [Hh Hc] _ _ _ _].
  destruct (db_find_miss sizes hs n dk b il (written, j) idx _ Hh Hc Hidx) as (b1 & Ef & Hh1 & Hc1).
  pose proof (storage_inv_db _ _ _ _ _ _ _ _ _ Hinv Hh1 Hc1) as Hinv1. destruct notfound_nonzero as [Hnf _].
  eexists. split; [|eapply represents_intro, Hinv1].
  unfold update_block. erewrite bind_ret by apply ex_lock_idx_run.
  erewrite bind_ret by exact Ef. cbv beta iota. rewrite (proj2 (Z.eqb_neq _ _)) by done. rewrite Z.eqb_refl.
  erewrite bind_ret; [erewrite bind_ret by apply ex_unlock_idx_run; reflexivity|].
  erewrite bind_ret by (eapply find_oversize; eassumption). reflexivity.
Qed.

(** C38: updating a stored key with data above the largest block size, but below
    2^31 bytes, fails, and the old data are gone. *)
Theorem oversize_update_deletes (s : state DB) m key data old :
  represents s m -> bytes_ok key -> m !! fixed_key key = Some old ->
  type_size (block_type_count s - 1) < Z.of_nat (length data) < 2 ^ 31 ->
  exists s', update_block key data s = Ret (-3) s' /\ represents s' (delete (fixed_key key) m).
Proof.
  intros (sizes & hs & n & dk & b & il & j & idx & -> & Hinv) Hkb Hk Hlen. cbn [St block_type_count] in Hlen.
  pose proof Hinv as [Hn Hsz _ [Hh Hc] _ Hent Hdom _]. pose proof (fixed_key_ok key Hkb) as Hkey.
  destruct (Hdom (fixed_key key)) as [iv Hiv]; [by rewrite Hk|].
  destruct (db_find_hit sizes hs n dk b il (written, j) idx _ iv Hh Hc Hiv) as (b1 & Ef & Hh1 & Hc1).
  pose proof (storage_inv_db _ _ _ _ _ _ _ _ _ Hinv Hh1 Hc1) as Hinv1.
  destruct (Hent _ iv Hiv) as (Hv & Hbid & _). unfold MAX_BLOCK_CNT in Hn.
  destruct (do_delete_block_inv _ _ _ _ _ _ (written, j) _ _ _ iv Hinv1 Hiv Hkey)
    as (hs1 & dk1 & b2 & il1 & Ed & Hinv2 & _).
  pose proof (type_size_mono (block_id iv) (n - 1) ltac:(lia)).
  eexists. split; [|eapply represents_intro, Hinv2].
  unfold update_block. erewrite bind_ret by apply ex_lock_idx_run.
  erewrite bind_ret by exact Ef. cbn [Z.eqb]. rewrite value_roundtrip by exact Hv.
  erewrite bind_ret; [erewrite bind_ret by apply ex_unlock_idx_run; reflexivity|].
  erewrite bind_ret by (apply size_run; [lia|apply Hsz; lia]). rewrite (proj2 (Z.leb_gt _ _)) by lia.
  erewrite bind_ret by exact Ed. cbn [Z.eqb negb].
  erewrite bind_ret by (eapply find_oversize; eassumption).
  assert (Eapp : forall s0 : state DB, block_type_count s0 = n ->
    append_block (u64 (-1)) (fixed_key key) data s0 = Ret (-1) s0).
  { intros s0 Hs0. unfold append_block. erewrite bind_ret by reflexivity. rewrite Hs0.
    rewrite (proj2 (Z.leb_le _ _)) by (change (u64 (-1)) with 18446744073709551615; lia). reflexivity. }
  erewrite bind_ret by (apply Eapp; reflexivity). reflexivity.
Qed.

(** ** No memory for a value *)

(** [s] where the next allocations answer [al]. *)
Definition with_allocs (s : state DB) (al : list bool) : state DB :=
  State (inited_global_vars s) (block_size_array s) (block_filehandler_array s) (block_type_count s) (disk s)
        (indexdb s) (index_logger s) (index_lock s) (journal s) (io s) al.

Lemma find_no_memory (s : state DB) m key d :
  represents s m -> bytes_ok key -> m !! fixed_key key = Some d ->
  exists s', find_block key (with_allocs s [true; false]) = Ret (-1, None, Z.of_nat (length d)) s' /\
    forall key' data', update_block key' data' s' = Blocked /\ delete_block key' s' = Blocked.
Proof.
  intros (sizes & hs & n & dk & b & il & j & idx & -> & Hinv) Hkb Hk.
  pose proof Hinv as [_ _ _ [Hh Hc] _ Hent Hdom _].
  destruct (Hdom (fixed_key key)) as [iv Hiv]; [by rewrite Hk|].
  destruct (Hent _ iv Hiv) as (Hv & _ & d' & fh & f & Hd & _ & _ & Hei). rewrite Hk in Hd. injection Hd as <-.
  destruct (get_law (Bdb.dbp b) (fixed_key key) (Z.of_nat sizeof_index_value) (value_bytes iv))
    as (db' & E & _); [done|by rewrite Hc, lookup_fmap, Hiv|by rewrite value_bytes_length|].
  exists (State true sizes hs n dk (Some (Bdb.BdbT db' (Bdb.error_no b))) (Some il) (Some read1) j [] []).
  split; [|by intros key' data'].
  unfold find_block, with_allocs. cbn [St inited_global_vars block_size_array block_filehandler_array
    block_type_count disk indexdb index_logger index_lock journal io fst snd].
  erewrite bind_ret by reflexivity.
  erewrite bind_ret.
  2: { unfold db_find. erewrite bind_ret by reflexivity. erewrite bind_ret by reflexivity. cbn [indexdb].
       unfold Bdb.find_record. cbn [negb andb]. rewrite E. cbn [Z.eqb]. reflexivity. }
  cbn [Z.eqb default id]. rewrite Nat2Z.id, value_bytes_length, Nat.sub_diag, value_roundtrip by exact Hv.
  erewrite bind_ret by reflexivity. cbn [negb]. unfold ret. rewrite (ei_size _ _ _ _ _ Hei). reflexivity.
Qed.

(** C39: a lookup of a stored key that finds no memory for the value keeps the
    index lock: after it, every update and every deletion blocks forever. *)
Theorem find_block_alloc_failure (s : state DB) m key d :
  represents s m -> bytes_ok key -> m !! fixed_key key = Some d ->
  exists s', find_block key (with_allocs s [true; false]) = Ret (-1, None, Z.of_nat (length d)) s' /\
    forall key' data', update_block key' data' s' = Blocked /\ delete_block key' s' = Blocked.
Proof. apply find_no_memory. Qed.

End Props.
(** ** Concrete storages, on the finite-map database *)

Import MapDB.

Definition ex_env : open_env (DB := gmap (list Z) (list Z)) :=
  OpenEnv 0 true (fun _ => false) (fun _ => true)
    (Bdb.OpenEnv true 0 0 0 0 0 0 0 0 0 (∅ : gmap (list Z) (list Z))) true IndexLog.create_ok.
Definition ex_pristine : state (gmap (list Z) (list Z)) :=
  State false (replicate 20 0) (replicate 20 zero_block_file) 0 ∅ None None None None [] [].
Definition ex_key : list Z := [107; 101; 121].

Lemma ex_opens n : opens ex_env n false ∅.
Proof. split; try reflexivity. done. Qed.

Lemma ex_pristine_ok n : pristine ex_pristine n.
Proof. by split. Qed.

Lemma bytes_ok_replicate k x : 0 <= x < 256 -> bytes_ok (replicate k x).
Proof. intros Hx. now apply Forall_replicate. Qed.

Lemma ex_key_ok : bytes_ok ex_key.
Proof. repeat constructor; lia. Qed.

Lemma ex_empty : exists s : state (gmap (list Z) (list Z)),
  represents s ∅ /\ block_type_count s = 1 /\ room s 1.
Proof.
  destruct (open_fresh_run ex_env 1 ∅ 128 ex_pristine) as (s & _ & Hr & Hn & Hroom);
    [apply ex_opens|done|done|by split|apply ex_pristine_ok|].
  exists s. split; [done|]. split; [done|]. intros i fh Hi Hl. specialize (Hroom i fh Hi Hl). lia.
Qed.

Lemma ex_stored : exists s : state (gmap (list Z) (list Z)),
  represents s (<[fixed_key ex_key := [1; 2; 3]]> ∅) /\ block_type_count s = 1 /\ room s 1.
Proof.
  destruct (open_fresh_run ex_env 1 ∅ 128 ex_pristine) as (s & _ & Hr & Hn & Hroom);
    [apply ex_opens|done|done|by split|apply ex_pristine_ok|].
  destruct (op_run 1 128 (Update ex_key [1; 2; 3]) s ∅ 2 Hr Hn) as (s1 & _ & Hr1 & Hn1 & Hroom1);
    [by split| |lia|intros i fh Hi Hl; specialize (Hroom i fh Hi Hl); lia|by exists s1].
  split; [apply ex_key_ok|]. split; [repeat constructor; lia|]. vm_compute. discriminate.
Qed.

Lemma storage_history_witness :
  exists s', bind (open_storage ex_env LARGEST_SIZE) (fun r =>
      bind (run_ops LARGEST_SIZE
        [Update ex_key [1; 2; 3]; Find ex_key; Restart; Find ex_key; Update ex_key (replicate 200 5);
         Find ex_key; Delete ex_key; Restart; Find ex_key; Delete ex_key])
        (fun rs => ret (r, rs))) ex_pristine =
      Ret (0, [Code 0; Found 0 (Some [1; 2; 3]) 3; Code 0; Found 0 (Some [1; 2; 3]) 3; Code 0;
               Found 0 (Some (replicate 200 5)) 200; Code 0; Code 0; Found (-30988) None 0; Code (-30988)]) s' /\
    represents s' ∅.
Proof.
  destruct (storage_history ex_env 16 ∅ LARGEST_SIZE ex_pristine
    [Update ex_key [1; 2; 3]; Find ex_key; Restart; Find ex_key; Update ex_key (replicate 200 5);
     Find ex_key; Delete ex_key; Restart; Find ex_key; Delete ex_key]) as (s' & E & Hr).
  - apply ex_opens.
  - done.
  - done.
  - by split.
  - apply ex_pristine_ok.
  - repeat (apply Forall_cons; split); try apply ex_key_ok; try done; cbn [op_ok].
    + split; [apply ex_key_ok|]. split; [repeat constructor; lia|]. vm_compute. discriminate.
    + split; [apply ex_key_ok|]. split; [apply bytes_ok_replicate; lia|]. vm_compute. discriminate.
  - cbn. lia.
  - exists s'. split; [exact E|exact Hr].
Defined.

Lemma update_block_refines_witness : exists s s' : state (gmap (list Z) (list Z)),
  represents s (<[fixed_key ex_key := [1; 2; 3]]> ∅) /\
  update_block ex_key [7; 8] s = Ret 0 s' /\ represents s' (<[fixed_key ex_key := [7; 8]]> (<[fixed_key ex_key := [1; 2; 3]]> ∅)).
Proof.
  destruct ex_stored as (s & Hr & Hn & Hroom).
  destruct (update_block_refines s _ ex_key [7; 8] Hr) as (s' & E & Hr').
  - apply ex_key_ok.
  - repeat constructor; lia.
  - rewrite Hn. vm_compute. discriminate.
  - exact Hroom.
  - exists s, s'. split; [exact Hr|]. split; [exact E|exact Hr'].
Defined.

Lemma find_block_refines_witness : exists s s' : state (gmap (list Z) (list Z)),
  find_block ex_key s = Ret (0, Some [1; 2; 3], 3) s' /\ represents s' (<[fixed_key ex_key := [1; 2; 3]]> ∅).
Proof.
  destruct ex_stored as (s & Hr & Hn & Hroom).
  destruct (find_block_refines s _ ex_key Hr) as (s' & E & Hr'); [apply ex_key_ok|].
  rewrite lookup_insert_eq in E. exists s, s'. split; [exact E|exact Hr'].
Defined.

Lemma delete_block_refines_witness : exists s s' : state (gmap (list Z) (list Z)),
  delete_block ex_key s = Ret 0 s' /\ represents s' (delete (fixed_key ex_key) (<[fixed_key ex_key := [1; 2; 3]]> ∅)).
Proof.
  destruct ex_stored as (s & Hr & Hn & Hroom).
  destruct (delete_block_refines s _ ex_key Hr) as (s' & E & Hr'); [apply ex_key_ok|].
  exists s, s'. split; [exact E|exact Hr'].
Defined.

Lemma oversize_insert_lost_witness : exists s s' : state (gmap (list Z) (list Z)),
  update_block ex_key (replicate 129 5) s = Ret 0 s' /\ represents s' ∅.
Proof.
  destruct ex_empty as (s & Hr & Hn & Hroom).
  destruct (oversize_insert_lost s ∅ ex_key (replicate 129 5) Hr) as (s' & E & Hr').
  - apply ex_key_ok.
  - done.
  - rewrite Hn. split; vm_compute; reflexivity.
  - exists s, s'. split; [exact E|exact Hr'].
Defined.

Lemma oversize_update_deletes_witness : exists s s' : state (gmap (list Z) (list Z)),
  update_block ex_key (replicate 129 5) s = Ret (-3) s' /\
  represents s' (delete (fixed_key ex_key) (<[fixed_key ex_key := [1; 2; 3]]> ∅)).
Proof.
  destruct ex_stored as (s & Hr & Hn & Hroom).
  destruct (oversize_update_deletes s _ ex_key (replicate 129 5) [1; 2; 3] Hr) as (s' & E & Hr').
  - apply ex_key_ok.
  - apply lookup_insert_eq.
  - rewrite Hn. split; vm_compute; reflexivity.
  - exists s, s'. split; [exact E|exact Hr'].
Defined.

Lemma find_block_alloc_failure_witness : exists s s' : state (gmap (list Z) (list Z)),
  find_block ex_key (with_allocs s [true; false]) = Ret (-1, None, 3) s' /\
  update_block ex_key [1] s' = Blocked.
Proof.
  destruct ex_stored as (s & Hr & Hn & Hroom).
  destruct (find_block_alloc_failure s _ ex_key [1; 2; 3] Hr) as (s' & E & Hb).
  - apply ex_key_ok.
  - apply lookup_insert_eq.
  - exists s, s'. split; [exact E|]. apply Hb.
Defined.

End StorageProps.
