(* ===== verification/StorageThreads.v ===== *)
(** The operations of [src/src/storage.c] as programs of single accesses to the
    shared state, and threads that run them interleaved: what several query
    threads do to one storage at the same time. An access is one read or one
    assignment of a shared variable, one system call, one call of Berkeley DB
    or of the journal, or one call on a lock; between two accesses any other
    thread may run. Run alone, a program is the function of [Storage]. *)

From Stdlib Require Import ZArith Lia.
From stdpp Require Import base numbers list gmap.
From S2P Require Import Prelude Crc32 RWLock IndexTypes IndexLog Bdb Storage.
From S2P Require Import StorageRefine.

Module StorageThreads.
Import IndexTypes Storage StorageRefine.

(** ** Programs *)

(** The lock of the index, and the lock of each block file. *)
Inductive lock_name := Index | BlockFile (id : Z).

#[export] Instance lock_name_eq_dec : EqDecision lock_name.
Proof. solve_decision. Defined.

(** [true] is the exclusive mode: [rwlock_wrlock] and [rwlock_unwrlock]. *)
Inductive access : Set -> Type :=
  | Lock (ex : bool) (w : lock_name) : access unit
  | Unlock (ex : bool) (w : lock_name) : access unit
  | TypeCount : access Z
  | SizeAt (id : Z) : access Z
  | FindBlockFile (sz : Z) : access Z
  | Fd (id : Z) : access fd_t
  | BlockSize (id : Z) : access Z
  | BlockCnt (id : Z) : access Z
  | FreeCnt (id : Z) : access Z
  | Slot (id i : Z) : access Z
  | SetBlockCnt (id v : Z) : access unit
  | SetFreeCnt (id v : Z) : access unit
  | SetSlot (id i v : Z) : access unit
  | Pread (f : fd_t) (n off : Z) : access (Z * (Z -> Z))
  | SyncHeader (id : Z) : access Z
  | SyncSlot (id i : Z) : access Z
  | SyncData (id n : Z) (g : Z -> Z) (off : Z) : access Z
  | DbFind (key : list Z) : access (Z * Bdb.dbt_data)
  | DbInsert (key value : list Z) : access Z
  | DbDelete (key : list Z) : access Z
  | LogAppend (ili : index_log_item_s) : access unit
  | Alloc : access bool.

Inductive prog (A : Type) : Type :=
  | Done (a : A)
  | Then {X : Set} (e : access X) (k : X -> prog A)
  | Aborts
  | Undef.
Arguments Done {A}.
Arguments Then {A X}.
Arguments Aborts {A}.
Arguments Undef {A}.

Fixpoint pbind {A B} (p : prog A) (f : A -> prog B) : prog B :=
  match p with
  | Done a => f a
  | Then e k => Then e (fun x => pbind (k x) f)
  | Aborts => Aborts
  | Undef => Undef
  end.

Declare Scope prog_scope.
Delimit Scope prog_scope with prog.
#[local] Open Scope prog_scope.
#[local] Notation "'acc' x := e 'in' k" := (Then e (fun x => k))
  (at level 10, x name, e at level 100, k at level 200) : prog_scope.
#[local] Notation "'step' e 'in' k" := (Then e (fun _ : unit => k))
  (at level 10, e at level 100, k at level 200) : prog_scope.
#[local] Notation "'call' x := p 'in' k" := (pbind p (fun x => k))
  (at level 10, x name, p at level 100, k at level 200) : prog_scope.
Definition passert {A} (b : bool) (p : prog A) : prog A := if b then p else Aborts.

(** ** The operations *)

Definition is_open (f : fd_t) : bool := match f with FdOpen _ => true | _ => false end.

Definition append_block (id : Z) (key data : list Z) : prog Z :=
  let data_size := Z.of_nat (length data) in
  acc n := TypeCount in
  if n <=? id then Done (-1)
  else
    acc f := Fd id in
    passert (is_open f) (
    acc size := SizeAt id in
    passert (data_size <=? size) (
    let crc32_value := Crc32.crc32_calc data in
    let index_key := take 16 (take 16 key ++ replicate 16 0) in
    step Lock true (BlockFile id) in
    acc cnt := FreeCnt id in
    call offset :=
      if negb (cnt =? 0) then
        acc c := FreeCnt id in
        acc offset := Slot id (c - 1) in
        acc c := FreeCnt id in
        step SetSlot id (c - 1) 0 in
        acc c := FreeCnt id in
        step SetFreeCnt id (c - 1) in
        acc b := BlockCnt id in
        step SetBlockCnt id (u64 (b + 1)) in
        acc _ := SyncHeader id in
        acc _ := SyncData id data_size (byte_at data) offset in
        Done offset
      else
        acc b := BlockCnt id in
        step SetBlockCnt id (u64 (b + 1)) in
        acc _ := SyncHeader id in
        acc size := BlockSize id in
        acc b := BlockCnt id in
        let offset := i64 (DATA_SECTION_POS + size * (b - 1)) in
        acc _ := SyncData id data_size (byte_at data) offset in
        Done offset in
    step Unlock true (BlockFile id) in
    let iv := IndexValue crc32_value (u32 id) data_size offset in
    step LogAppend (IndexLogItem (op_code index_append) index_key iv) in
    acc _ := DbInsert index_key (value_bytes iv) in
    Done 0)).

Definition modify_block (iv : index_value_t) (key data : list Z) : prog Z :=
  let data_size := Z.of_nat (length data) in
  let id := block_id iv in
  acc n := TypeCount in
  if n <=? id then Done (-1)
  else
    acc f := Fd id in
    passert (is_open f) (
    acc size := SizeAt id in
    passert (data_size <=? size) (
    let crc32_value := Crc32.crc32_calc data in
    step Lock true (BlockFile id) in
    acc retno := SyncData id data_size (byte_at data) (offset iv) in
    passert (retno =? 0) (
    step Unlock true (BlockFile id) in
    let iv := IndexValue crc32_value (block_id iv) data_size (offset iv) in
    let index_key := take 16 (take 16 key ++ replicate 16 0) in
    step LogAppend (IndexLogItem (op_code index_modify) index_key iv) in
    acc retno := DbInsert (take 16 key) (value_bytes iv) in
    Done (if negb (retno =? 0) then -1 else 0)))).

(** The number of free slots cannot change while the lock is held; it is read
    once for the test and for [slot_pos]. *)
Definition do_delete_block (iv : index_value_t) (key : list Z) : prog Z :=
  let id := block_id iv in
  let index_key := take 16 (key ++ replicate 16 0) in
  step LogAppend (IndexLogItem (op_code index_del) index_key iv) in
  acc r := DbDelete key in
  if negb (r =? 0) then Done (-1)
  else
    step Lock true (BlockFile id) in
    acc cnt := FreeCnt id in
    if MAX_FREE_SLOTS <=? cnt then
      step Unlock true (BlockFile id) in
      acc _ := SizeAt id in
      Done 0
    else
      acc b := BlockCnt id in
      step SetBlockCnt id (u64 (b - 1)) in
      let slot_pos := cnt in
      step SetSlot id slot_pos (offset iv) in
      acc c := FreeCnt id in
      step SetFreeCnt id (c + 1) in
      step Unlock true (BlockFile id) in
      acc _ := SyncHeader id in
      acc _ := SyncSlot id slot_pos in
      Done 0.

Definition free_dbt {A} (d : Bdb.dbt_data) (p : prog A) : prog A :=
  match d with Bdb.Untouched => Undef | _ => p end.

Section Operations.
Context {DB : Type} `{BerkeleyDB DB}.

Definition update_block (key data : list Z) : prog Z :=
  let data_size := Z.of_nat (length data) in
  let fixed_key_buffer := fixed_key key in
  step Lock true Index in
  acc f := DbFind fixed_key_buffer in
  let retno := f.1 in
  call r :=
    if retno =? 0 then
      match f.2 with
      | Bdb.Value bytes =>
          let iv := value_of_bytes bytes in
          acc size := SizeAt (block_id iv) in
          if data_size <=? size then
            call retno := modify_block iv fixed_key_buffer data in
            Done (if negb (retno =? 0) then -1 else 0)
          else
            call retno := do_delete_block iv fixed_key_buffer in
            if negb (retno =? 0) then Done (-2)
            else
              acc new_block_id := FindBlockFile (u64 (calc_block_size data_size)) in
              call retno := append_block (u64 new_block_id) fixed_key_buffer data in
              Done (if negb (retno =? 0) then -3 else 0)
      | _ => Undef
      end
    else if retno =? DB_NOTFOUND then
      acc new_block_id := FindBlockFile (u64 (calc_block_size data_size)) in
      if new_block_id <? 0 then Done 0
      else
        call retno := append_block new_block_id fixed_key_buffer data in
        Done (if negb (retno =? 0) then -4 else 0)
    else Done (-1) in
  step Unlock true Index in
  free_dbt f.2 (Done r).

(** [find_block] from the read of the file on, from the allocation of the
    value on, and from the answer of the index on. *)
Definition find_read (iv : index_value_t) : prog (Z * option (list Z) * Z) :=
  let id := block_id iv in
  acc f := Fd id in
  acc r := Pread f (data_size iv) (offset iv) in
  step Unlock false (BlockFile id) in
  let value := r.2 <$> seqZ 0 (Z.max 0 r.1) in
  Done (if negb (r.1 =? i64 (data_size iv)) then -1 else 0, Some value, data_size iv).
Definition find_value (iv : index_value_t) : prog (Z * option (list Z) * Z) :=
  acc a := Alloc in
  if negb a then Done (-1, None, data_size iv)
  else
    step Lock false (BlockFile (block_id iv)) in
    step Unlock false Index in
    find_read iv.
Definition find_entry (f : Z * Bdb.dbt_data) : prog (Z * option (list Z) * Z) :=
  let retno := f.1 in
  if retno =? 0 then
    match f.2 with
    | Bdb.Value bytes => find_value (value_of_bytes bytes)
    | _ => Undef
    end
  else step Unlock false Index in Done (retno, None, 0).
Definition find_block (key : list Z) : prog (Z * option (list Z) * Z) :=
  step Lock false Index in
  acc f := DbFind (fixed_key key) in
  find_entry f.

Definition delete_block (key : list Z) : prog Z :=
  let fixed_key_buffer := fixed_key key in
  step Lock true Index in
  acc f := DbFind fixed_key_buffer in
  let retno := f.1 in
  if retno =? 0 then
    match f.2 with
    | Bdb.Value bytes =>
        let iv := value_of_bytes bytes in
        call retno := do_delete_block iv fixed_key_buffer in
        step Unlock true Index in
        free_dbt f.2 (Done (if negb (retno =? 0) then -1 else 0))
    | _ => Undef
    end
  else if retno =? DB_NOTFOUND then step Unlock true Index in free_dbt f.2 (Done DB_NOTFOUND)
  else step Unlock true Index in free_dbt f.2 (Done (-1)).

(** ** One access *)

(** A field of [block_filehandler_array[id]] read and assigned. *)
Definition field {A} (g : block_file_t -> A) (id : Z) : M DB A := bind (handler id) (fun fh => ret (g fh)).
Definition assign (h : block_file_t -> block_file_t) (id : Z) : M DB unit :=
  bind (handler id) (fun fh => set_handler id (h fh)).
Definition with_block_cnt (v : Z) (fh : block_file_t) : block_file_t :=
  Storage.BlockFile (fd fh) (lock fh) (block_size fh) v (free_slots_cnt fh) (free_slots_offset fh).
Definition with_free_cnt (v : Z) (fh : block_file_t) : block_file_t :=
  Storage.BlockFile (fd fh) (lock fh) (block_size fh) (block_cnt fh) v (free_slots_offset fh).
Definition with_slot (i v : Z) (fh : block_file_t) : block_file_t :=
  Storage.BlockFile (fd fh) (lock fh) (block_size fh) (block_cnt fh) (free_slots_cnt fh)
    (fun j => if j =? i then v else free_slots_offset fh j).

Definition lock_alone (ex : bool) (w : lock_name) : M DB unit :=
  match w, ex with
  | Index, true => EX_LOCK_IDX | Index, false => SH_LOCK_IDX
  | BlockFile id, true => EX_LOCK id | BlockFile id, false => SH_LOCK id
  end.
Definition unlock_alone (ex : bool) (w : lock_name) : M DB unit :=
  match w, ex with
  | Index, true => EX_UNLOCK_IDX | Index, false => SH_UNLOCK_IDX
  | BlockFile id, true => EX_UNLOCK id | BlockFile id, false => SH_UNLOCK id
  end.

(** Every access but those on locks. *)
Definition perform {X : Set} (e : access X) : M DB X :=
  match e in access X return M DB X with
  | Lock _ _ | Unlock _ _ => ret tt
  | TypeCount => bind get (fun s => ret (block_type_count s))
  | SizeAt id => size_at id
  | FindBlockFile sz => find_block_file sz
  | Fd id => field fd id
  | BlockSize id => field block_size id
  | BlockCnt id => field block_cnt id
  | FreeCnt id => field free_slots_cnt id
  | Slot id i => field (fun fh => free_slots_offset fh i) id
  | SetBlockCnt id v => assign (with_block_cnt v) id
  | SetFreeCnt id v => assign (with_free_cnt v) id
  | SetSlot id i v => assign (with_slot i v) id
  | Pread f n off => pread f n off
  | SyncHeader id => sync_data_file_header id false
  | SyncSlot id i => bind (handler id) (fun fh =>
      sync_data_file id sizeof_off_t (byte_at (slot_bytes (free_slots_offset fh i)))
        (SLOTS_SECTION_POS + sizeof_off_t * i) false)
  | SyncData id n g off => sync_data_file id n g off false
  | DbFind key => db_find key (Z.of_nat sizeof_index_value)
  | DbInsert key value => db_insert key value
  | DbDelete key => db_delete key
  | LogAppend ili => log_append ili
  | Alloc => next_alloc
  end.

(** The same by a thread that has the storage, and its locks, for itself. *)
Definition perform_alone {X : Set} (e : access X) : M DB X :=
  match e in access X return M DB X with
  | Lock ex w => lock_alone ex w
  | Unlock ex w => unlock_alone ex w
  | e => perform e
  end.

(** A whole program: with the locks of the state, and without any. *)
Fixpoint alone {A} (p : prog A) : M DB A :=
  match p with
  | Done a => ret a
  | Then e k => bind (perform_alone e) (fun x => alone (k x))
  | Aborts => abort
  | Undef => undefined
  end.
Fixpoint unlocked {A} (p : prog A) : M DB A :=
  match p with
  | Done a => ret a
  | Then e k => bind (perform e) (fun x => unlocked (k x))
  | Aborts => abort
  | Undef => undefined
  end.

End Operations.
(** ** Run alone, the programs are the functions of the storage *)

Section Alone.
Context {DB : Type} `{BerkeleyDB DB}.

Lemma bind_ext {A B} (m : M DB A) (k k' : A -> M DB B) s :
  (forall a s', k a s' = k' a s') -> bind m k s = bind m k' s.
Proof. intros E. unfold bind. now destruct (m s). Qed.

Lemma bind_bind {A B C} (m : M DB A) (k : A -> M DB B) (l : B -> M DB C) s :
  bind (bind m k) l s = bind m (fun a => bind (k a) l) s.
Proof. unfold bind. now destruct (m s). Qed.

Lemma alone_bind {A B} (p : prog A) (f : A -> prog B) (s : state DB) :
  alone (pbind p f) s = bind (alone p) (fun a => alone (f a)) s.
Proof.
  revert s; induction p as [a|X e k IH| |]; intros s; try reflexivity.
  cbn [pbind alone]. rewrite bind_bind. apply bind_ext. intros x s'. apply IH.
Qed.

Definition put_handler (s : state DB) (id : Z) (fh : block_file_t) : state DB :=
  State (inited_global_vars s) (block_size_array s) (<[Z.to_nat id := fh]> (block_filehandler_array s))
    (block_type_count s) (disk s) (indexdb s) (index_logger s) (index_lock s) (journal s) (io s) (allocs s).

(** What [handler] gives. *)
Lemma handler_cases id (s : state DB) :
  handler id s = Undefined \/
  exists fh, handler id s = Ret fh s /\ 0 <= id /\ block_filehandler_array s !! Z.to_nat id = Some fh.
Proof.
  unfold handler. destruct (Z.ltb_spec id 0); [now left|].
  destruct (block_filehandler_array s !! Z.to_nat id) eqn:E; [right; eauto|now left].
Qed.

Lemma handler_put (s : state DB) id fh fh' :
  handler id s = Ret fh s -> handler id (put_handler s id fh') = Ret fh' (put_handler s id fh').
Proof.
  intros E. destruct (handler_cases id s) as [E'|(g & _ & H0 & Hl)]; [congruence|].
  unfold handler. rewrite (proj2 (Z.ltb_ge _ _)) by done. cbn.
  now rewrite list_lookup_insert_eq by (eapply lookup_lt_Some, Hl).
Qed.

Lemma put_put (s : state DB) id fh fh' : put_handler (put_handler s id fh) id fh' = put_handler s id fh'.
Proof. unfold put_handler. cbn. now rewrite insert_insert_same. Qed.

Lemma field_bind {A B} (g : block_file_t -> A) id (k : A -> M DB B) s fh :
  handler id s = Ret fh s -> bind (field g id) k s = k (g fh) s.
Proof. intros E. unfold field, bind, ret. now rewrite E. Qed.

Lemma assign_then {B} (h : block_file_t -> block_file_t) id (k : unit -> M DB B) s fh :
  handler id s = Ret fh s -> bind (assign h id) k s = k tt (put_handler s id (h fh)).
Proof. intros E. unfold assign, bind. now rewrite E. Qed.

Lemma handler_bind {B} id (k : block_file_t -> M DB B) s fh :
  handler id s = Ret fh s -> bind (handler id) k s = k fh s.
Proof. apply bind_ret. Qed.

Lemma set_handler_bind {B} id fh (k : unit -> M DB B) s :
  bind (set_handler id fh) k s = k tt (put_handler s id fh).
Proof. reflexivity. Qed.

End Alone.

Section Equal.
Context {DB : Type} `{BerkeleyDB DB}.

Lemma alone_passert {A} b (p : prog A) (s : state DB) : alone (passert b p) s = bind (assert b) (fun _ => alone p) s.
Proof. now destruct b. Qed.
Lemma alone_then {A} {X : Set} (e : access X) (k : X -> prog A) (s : state DB) :
  alone (Then e k) s = bind (perform_alone e) (fun x => alone (k x)) s.
Proof. reflexivity. Qed.
Lemma then_bind {A B} {X : Set} (e : access X) (k : X -> prog A) (f : A -> M DB B) s :
  bind (alone (Then e k)) f s = bind (perform_alone e) (fun x => bind (alone (k x)) f) s.
Proof. apply bind_bind. Qed.
Lemma done_bind {A B} (a : A) (f : A -> M DB B) s : bind (alone (Done a)) f s = f a s.
Proof. reflexivity. Qed.
Lemma ret_bind {A B} (a : A) (f : A -> M DB B) s : bind (ret a) f s = f a s.
Proof. reflexivity. Qed.
Lemma get_bind {B} (f : state DB -> M DB B) s : bind get f s = f s s.
Proof. reflexivity. Qed.

Lemma field_bind_undefined {A B} (g : block_file_t -> A) id (k : A -> M DB B) s :
  handler id s = Undefined -> bind (field g id) k s = Undefined.
Proof. intros E. unfold field, bind. now rewrite E. Qed.
Lemma handler_bind_undefined {B} id (k : block_file_t -> M DB B) s :
  handler id s = Undefined -> bind (handler id) k s = Undefined.
Proof. intros E. unfold bind. now rewrite E. Qed.

(** Symbolic execution of both sides: binds are flattened, and the accesses to a
    handler that is known are computed. *)
Ltac norm :=
  repeat (cbv beta; cbn [perform_alone perform lock_alone unlock_alone]; first
    [ rewrite alone_bind | rewrite bind_bind | rewrite alone_then | rewrite then_bind | rewrite alone_passert
    | rewrite done_bind | rewrite ret_bind | rewrite get_bind | rewrite set_handler_bind
    | match goal with
      | E : handler ?id ?s = Ret ?fh ?s |- context [bind (assign ?h ?id) _ ?s] =>
          rewrite (assign_then h id _ s fh E); pose proof (handler_put s id fh (h fh) E)
      | E : handler ?id ?s = Ret ?fh ?s |- context [bind (field ?g ?id) _ ?s] =>
          rewrite (field_bind g id _ s fh E)
      | E : handler ?id ?s = Ret ?fh ?s |- context [bind (handler ?id) _ ?s] =>
          rewrite (handler_bind id _ s fh E)
      end
    | rewrite put_put]); cbv beta; cbn [perform_alone perform lock_alone unlock_alone].
Ltac next := apply bind_ext; intros ? ?; norm.
Ltac on_handler id s :=
  let E := fresh "E" in let fh := fresh "fh" in
  destruct (handler_cases id s) as [E|(fh & E & _ & _)];
  [rewrite (field_bind_undefined _ _ _ _ E), (handler_bind_undefined _ _ _ E); reflexivity|norm].

(** Step over the access both sides begin with. *)
Ltac here := match goal with |- bind (field _ ?id) _ ?s = _ => on_handler id s end.
Ltac go := repeat first [reflexivity | here | next].
Lemma append_block_alone id key data (s : state DB) :
  alone (append_block id key data) s = Storage.append_block id key data s.
Proof.
  unfold append_block, Storage.append_block. norm.
  destruct (_ <=? id); [reflexivity|]. norm.
  go. destruct (negb _); norm; go. 
Qed.

Lemma modify_block_alone iv key data (s : state DB) :
  alone (modify_block iv key data) s = Storage.modify_block iv key data s.
Proof.
  unfold modify_block, Storage.modify_block. norm.
  destruct (_ <=? block_id iv); [reflexivity|]. norm.
  go. now destruct (_ =? 0).
Qed.

Lemma do_delete_block_alone iv key (s : state DB) :
  alone (do_delete_block iv key) s = Storage.do_delete_block iv key s.
Proof.
  unfold do_delete_block, Storage.do_delete_block. norm.
  go. destruct (negb _); [reflexivity|]. norm.
  go. destruct (_ <=? _); norm; go.
Qed.

Lemma free_dbt_alone {A} d (p : prog A) (s : state DB) :
  alone (free_dbt d p) s = bind (Storage.free_dbt d) (fun _ => alone p) s.
Proof. now destruct d. Qed.

Lemma bind_cong {A B} (m m' : M DB A) (k k' : A -> M DB B) s :
  m s = m' s -> (forall a s', k a s' = k' a s') -> bind m k s = bind m' k' s.
Proof. intros E Ek. unfold bind. rewrite E. now destruct (m' s). Qed.

(** One call of the code on both sides. *)
Ltac callee L := apply bind_cong; [apply L|intros ? ?; norm].

Theorem update_block_alone key data (s : state DB) :
  alone (update_block key data) s = Storage.update_block key data s.
Proof.
  unfold update_block, Storage.update_block. norm. next. apply bind_ext. intros [retno dbt] s1. cbn [fst snd].
  norm. apply bind_cong; [|intros r s2; norm; next; exact (free_dbt_alone dbt (Done r) _)].
  destruct (retno =? 0); [|destruct (retno =? DB_NOTFOUND)].
  - destruct dbt; try reflexivity. norm. next. destruct (_ <=? _); norm.
    + callee modify_block_alone. reflexivity.
    + callee do_delete_block_alone. destruct (negb _); [reflexivity|]. norm. next.
      callee append_block_alone. reflexivity.
  - norm. next. destruct (_ <? 0); [reflexivity|]. norm. callee append_block_alone. reflexivity.
  - reflexivity.
Qed.

Theorem find_block_alone key (s : state DB) : alone (find_block key) s = Storage.find_block key s.
Proof.
  unfold find_block, Storage.find_block. norm. next. apply bind_ext. intros [retno dbt] s1.
  unfold find_entry, find_value, find_read. cbn [fst snd].
  destruct (retno =? 0); norm; [|go].
  destruct dbt; try reflexivity. norm. next. destruct (negb _); [reflexivity|]. norm. go.
Qed.

Theorem delete_block_alone key (s : state DB) : alone (delete_block key) s = Storage.delete_block key s.
Proof.
  unfold delete_block, Storage.delete_block. norm. next. apply bind_ext. intros [retno dbt] s1. cbn [fst snd].
  destruct (retno =? 0); [|destruct (retno =? DB_NOTFOUND)].
  - destruct dbt; try reflexivity. norm. callee do_delete_block_alone. next. reflexivity.
  - norm. next. exact (free_dbt_alone dbt (Done _) _).
  - norm. next. exact (free_dbt_alone dbt (Done _) _).
Qed.
End Equal.

(** ** Locks that are free do not change what a program does *)

Section Free.
Context {DB : Type} `{BerkeleyDB DB}.

(** [s] with every lock free. *)
Definition free_handler (fh : block_file_t) : block_file_t := relock fh RWLock.rwlock_zero.
Definition free (s : state DB) : state DB :=
  State (inited_global_vars s) (block_size_array s) (free_handler <$> block_filehandler_array s)
    (block_type_count s) (disk s) (indexdb s) (index_logger s)
    (option_map (fun _ => RWLock.rwlock_zero) (index_lock s)) (journal s) (io s) (allocs s).

(** [m'] does to the free state what [m] does to the state. *)
Definition frees {A} (m m' : M DB A) : Prop := forall s x s', m s = Ret x s' -> m' (free s) = Ret x (free s').

Lemma frees_ret {A} (a : A) : frees (ret a) (ret a).
Proof. intros s x s' [= -> ->]. reflexivity. Qed.
Lemma frees_abort {A} : frees (@abort DB A) abort.
Proof. intros s x s' [=]. Qed.
Lemma frees_bind {A B} (m m' : M DB A) (k k' : A -> M DB B) :
  frees m m' -> (forall a, frees (k a) (k' a)) -> frees (bind m k) (bind m' k').
Proof.
  intros Hm Hk s x s' E. unfold bind in *. destruct (m s) as [a s1| | |] eqn:E1; try discriminate.
  rewrite (Hm _ _ _ E1). now apply Hk.
Qed.
Lemma frees_get {B} (k k' : state DB -> M DB B) :
  (forall s, frees (k s) (k' (free s))) -> frees (bind get k) (bind get k').
Proof. intros Hk s x s' E. now apply (Hk s). Qed.
Lemma frees_handler {B} id (k k' : block_file_t -> M DB B) :
  (forall fh, frees (k fh) (k' (free_handler fh))) -> frees (bind (handler id) k) (bind (handler id) k').
Proof.
  intros Hk s x s' E. destruct (handler_cases id s) as [Eh|(fh & Eh & H0 & Hl)].
  { now rewrite (handler_bind_undefined _ _ _ Eh) in E. }
  rewrite (handler_bind _ _ _ _ Eh) in E.
  assert (Ef : handler id (free s) = Ret (free_handler fh) (free s)).
  { unfold handler. rewrite (proj2 (Z.ltb_ge _ _)) by done. cbn. now rewrite list_lookup_fmap, Hl. }
  rewrite (handler_bind _ _ _ _ Ef). now apply Hk.
Qed.
Lemma frees_set_handler id fh : frees (set_handler id fh) (set_handler id (free_handler fh)).
Proof.
  intros s x s' [= <- <-]. cbn. unfold ret, free. cbn. now rewrite list_fmap_insert.
Qed.

Lemma frees_file_of f : frees (@file_of DB f) (file_of f).
Proof. intros s x s' [= <- <-]. reflexivity. Qed.
Lemma frees_next_io : frees (@next_io DB) next_io.
Proof. intros s x s' E. unfold next_io in *. cbn [free io]. destruct (io s) eqn:Ei; injection E as <- <-; unfold free; cbn; now rewrite ?Ei. Qed.
Lemma frees_next_alloc : frees (@next_alloc DB) next_alloc.
Proof. intros s x s' E. unfold next_alloc in *. cbn [free allocs]. destruct (allocs s) eqn:Ei; injection E as <- <-; unfold free; cbn; now rewrite ?Ei. Qed.
Lemma frees_set_disk d : frees (@set_disk DB d) (set_disk d).
Proof. intros s x s' [= <- <-]. reflexivity. Qed.
Lemma frees_set_indexdb b : frees (@set_indexdb DB b) (set_indexdb b).
Proof. intros s x s' [= <- <-]. reflexivity. Qed.
Lemma frees_set_logger l : frees (@set_logger DB l) (set_logger l).
Proof. intros s x s' [= <- <-]. reflexivity. Qed.
Lemma frees_size_at id : frees (@size_at DB id) (size_at id).
Proof.
  intros s x s' E. unfold size_at in *. destruct (id <? 0); [done|]. cbn.
  destruct (block_size_array s !! _); [|done]. now injection E as <- <-.
Qed.
Lemma frees_assert b : frees (@assert DB b) (assert b).
Proof. destruct b; [apply frees_ret|apply frees_abort]. Qed.

Ltac frees_step :=
  repeat (cbv beta; lazymatch goal with
    | |- frees (bind get _) _ => apply frees_get; intros ?
    | |- frees (bind (handler _) _) _ => apply frees_handler; intros ?
    | |- frees (bind _ _) _ => apply frees_bind; [|intros ?]
    | |- frees (set_handler _ _) _ => apply frees_set_handler
    | |- frees (ret _) _ => apply frees_ret
    | |- frees abort _ => apply frees_abort
    | |- frees (file_of _) _ => apply frees_file_of
    | |- frees next_io _ => apply frees_next_io
    | |- frees next_alloc _ => apply frees_next_alloc
    | |- frees (set_disk _) _ => apply frees_set_disk
    | |- frees (set_indexdb _) _ => apply frees_set_indexdb
    | |- frees (set_logger _) _ => apply frees_set_logger
    | |- frees (size_at _) _ => apply frees_size_at
    | |- frees (assert _) _ => apply frees_assert
    | |- frees match _ with _ => _ end _ =>
        cbn [free inited_global_vars block_type_count block_size_array block_filehandler_array disk indexdb index_logger];
        match goal with |- frees (match ?x with _ => _ end) _ => destruct x end
    end).

Lemma frees_sync_data id n g off fl : frees (@sync_data_file DB id n g off fl) (sync_data_file id n g off fl).
Proof.
  unfold sync_data_file, pwrite. frees_step.
Qed.

Ltac frees_tac := repeat progress (frees_step; try apply frees_sync_data).

Lemma frees_perform {X : Set} (e : access X) :
  match e with Lock _ _ | Unlock _ _ => True | _ => frees (@perform DB _ _ e) (perform e) end.
Proof.
  destruct e; try exact I; cbn [perform];
    unfold field, assign, find_block_file, pread, sync_data_file_header, db_find, db_insert, db_delete, log_append;
    frees_tac.
Qed.

Lemma set_file_lock_free id l (s s' : state DB) : set_file_lock id l s = Ret tt s' -> free s' = free s.
Proof.
  unfold set_file_lock. destruct (handler_cases id s) as [E|(fh & E & _ & Hl)].
  { now rewrite (handler_bind_undefined _ _ _ E). }
  rewrite (handler_bind _ _ _ _ E). intros [= <-]. unfold free. cbn. f_equal.
  rewrite list_fmap_insert. apply list_insert_id. now rewrite list_lookup_fmap, Hl.
Qed.

Lemma on_file_lock_free id (k : block_file_t -> M DB unit) (s s' : state DB) :
  (forall fh, k fh = (fun _ => Blocked) \/ exists l, k fh = set_file_lock id l) ->
  bind (handler id) k s = Ret tt s' -> free s' = free s.
Proof.
  intros Hk. destruct (handler_cases id s) as [E|(fh & E & _)].
  { now rewrite (handler_bind_undefined _ _ _ E). }
  rewrite (handler_bind _ _ _ _ E). destruct (Hk fh) as [->|[l ->]]; [done|apply set_file_lock_free].
Qed.

Lemma on_index_lock_free (k : RWLock.rwlock_t -> M DB unit) (s s' : state DB) :
  (forall l, k l = (fun _ => Blocked) \/ exists l', k l = set_index l') ->
  bind index_lock_ptr k s = Ret tt s' -> free s' = free s.
Proof.
  intros Hk. unfold bind, index_lock_ptr. destruct (index_lock s) as [l|] eqn:E; [|done].
  destruct (Hk l) as [->|[l' ->]]; [done|]. intros [= <-]. unfold free. cbn. now rewrite E.
Qed.

Lemma lock_free ex w (s s' : state DB) :
  lock_alone ex w s = Ret tt s' \/ unlock_alone ex w s = Ret tt s' -> free s' = free s.
Proof.
  intros [E|E]; revert E; destruct w as [|id], ex; cbn [lock_alone unlock_alone];
    first [apply on_index_lock_free|apply on_file_lock_free]; intros l; unfold with_lock;
    try case_match; eauto.
Qed.

(** What a program does alone, it does without its locks. *)
Lemma unlocked_free {A} (p : prog A) : frees (alone p) (unlocked p).
Proof.
  induction p as [a|X e k IH| |].
  - apply frees_ret.
  - intros s x s' E. cbn [alone unlocked] in *. unfold bind in *.
    destruct (perform_alone e s) as [y s1| | |] eqn:E1; try discriminate.
    assert (perform e (free s) = Ret y (free s1)) as ->; [|now apply IH].
    pose proof (frees_perform e) as Hf.
    destruct e; try exact (Hf _ _ _ E1); cbn [perform]; destruct y;
      rewrite (lock_free ex w s s1) by auto; reflexivity.
  - apply frees_abort.
  - intros s x s' [=].
Qed.
(** *** Opening, where every lock is made *)

Lemma frees_set_globals i sizes hs n : frees (@set_globals DB i sizes hs n) (set_globals i sizes (free_handler <$> hs) n).
Proof. intros s x s' [= <- <-]. reflexivity. Qed.
Lemma frees_set_index_lock o : option_map (fun _ => RWLock.rwlock_zero) o = o -> frees (@set_index_lock DB o) (set_index_lock o).
Proof. intros Ho s x s' [= <- <-]. unfold set_index_lock, free. cbn. by rewrite Ho. Qed.

Lemma frees_init largest : frees (@init_storage DB largest) (init_storage largest).
Proof.
  unfold init_storage. destruct (init_loop _ _ _ _ _ _) as [[r sizes] count]. apply frees_get. intros s.
  apply frees_bind; [|intros _; apply frees_ret]. cbn [free inited_global_vars].
  change (replicate (Z.to_nat MAX_BLOCK_CNT) zero_block_file) with (free_handler <$> replicate (Z.to_nat MAX_BLOCK_CNT) zero_block_file) at 2.
  apply frees_set_globals.
Qed.
Lemma frees_open_data e n i : frees (open_data_loop (DB := DB) e n i) (open_data_loop e n i).
Proof.
  revert i; induction n as [|n IH]; intros i; cbn [open_data_loop]; [apply frees_ret|].
  apply frees_bind; [apply frees_size_at|]. intros name. apply frees_bind.
  - destruct (oe_access e name); [unfold load_data_file, read_data_file, pread|unfold create_data_file, pwrite]; frees_tac;
     try apply frees_set_handler.
  - intros r. destruct (negb (r =? 0)); [apply frees_ret|apply IH].
Qed.
Lemma frees_open_index e : frees (open_index_file (DB := DB) e) (open_index_file e).
Proof.
  unfold open_index_file. destruct (Bdb.open_transaction_bdb _ _) as [|[b|]]; [apply frees_abort| |apply frees_ret].
  destruct (negb _); [apply frees_ret|]. apply frees_bind; [apply frees_set_indexdb|intros _].
  apply frees_bind; [apply frees_set_index_lock; by destruct (oe_rwlock e)|intros _].
  destruct (IndexLog.index_logger_create _ _); [|apply frees_abort]. frees_tac.
Qed.
Lemma frees_open_storage e largest : frees (open_storage (DB := DB) e largest) (open_storage e largest).
Proof.
  assert (Hn : frees (@set_index_lock DB None) (set_index_lock None)) by by apply frees_set_index_lock.
  unfold open_storage, open_data_files.
  repeat first [ progress frees_tac | exact Hn | apply frees_set_globals | apply frees_init | apply frees_open_data | apply frees_open_index ].
Qed.

Lemma open_storage_free e largest (s : state DB) r s' : free s = s -> open_storage e largest s = Ret r s' -> free s' = s'.
Proof. intros Hf E. pose proof (frees_open_storage e largest s r s' E) as E'. rewrite Hf, E in E'. by injection E'. Qed.

End Free.

End StorageThreads.
