(* ===== verification/Interleave.v ===== *)
(** Query threads that use one storage at the same time: any number of threads
    call [find_block], [update_block] and [delete_block] of [src/src/storage.c]
    whenever they like, and between two accesses of one thread any other may
    run. The locks are the counters, sleepers and broadcasts of [RWLock]. The
    specification is an atomic map: an operation takes effect at one moment
    between its call and its return. *)

From Stdlib Require Import ZArith Lia.
From stdpp Require Import base numbers list gmap.
From S2P Require Import Prelude RWLock IndexTypes IndexLog Bdb Storage.
From S2P Require Import StorageRefine StorageThreads.

Module Interleave.
Import Storage StorageRefine StorageThreads.

(** ** Runs of a transition system and their visible events *)

Section Runs.
Context {C E : Type} (R : option E -> C -> C -> Prop).

Inductive runs : C -> list E -> C -> Prop :=
  | runs_nil c : runs c [] c
  | runs_silent c c' h c'' : R None c c' -> runs c' h c'' -> runs c h c''
  | runs_event e c c' h c'' : R (Some e) c c' -> runs c' h c'' -> runs c (e :: h) c''.

Lemma runs_trans c h c' h' c'' : runs c h c' -> runs c' h' c'' -> runs c (h ++ h') c''.
Proof. induction 1; intros Hr; cbn; [done|eapply runs_silent|eapply runs_event]; eauto. Qed.
Lemma runs_one o c c' : R o c c' -> runs c (option_list o) c'.
Proof. intros Hr. destruct o; [eapply runs_event|eapply runs_silent]; try exact Hr; apply runs_nil. Qed.
End Runs.

(** A simulation with an invariant that may depend on how many events are left. *)
Lemma runs_simulation {C A E} (R : option E -> C -> C -> Prop) (S : option E -> A -> A -> Prop)
  (ok : E -> Prop) (inv : nat -> C -> A -> Prop) :
  (forall n o c c' a, R o c c' -> (forall e, o = Some e -> ok e) ->
     inv (length (option_list o) + n)%nat c a ->
     exists a', runs S a (option_list o) a' /\ inv n c' a') ->
  forall c h c', runs R c h c' -> Forall ok h -> forall n a, inv (length h + n)%nat c a ->
  exists a', runs S a h a' /\ inv n c' a'.
Proof.
  intros Hsim c h c' Hr. induction Hr as [c|c c1 h c' Hs Hr IH|e c c1 h c' Hs Hr IH]; intros Hok n a Hinv.
  - exists a. split; [apply runs_nil|done].
  - destruct (Hsim (length h + n)%nat None c c1 a Hs ltac:(discriminate) Hinv) as (a1 & Ha & Hinv1).
    destruct (IH Hok n a1 Hinv1) as (a' & Ha' & Hinv'). exists a'. split; [|done].
    exact (runs_trans S _ _ _ _ _ Ha Ha').
  - apply Forall_cons in Hok as [He Hok].
    destruct (Hsim (length h + n)%nat (Some e) c c1 a Hs ltac:(congruence) Hinv) as (a1 & Ha & Hinv1).
    destruct (IH Hok n a1 Hinv1) as (a' & Ha' & Hinv'). exists a'. split; [|done].
    exact (runs_trans S _ _ _ _ _ Ha Ha').
Qed.

(** ** Requests *)

Inductive request := Put (key data : list Z) | Get (key : list Z) | Del (key : list Z).
Definition request_op (r : request) : op :=
  match r with Put key data => Update key data | Get key => Find key | Del key => Delete key end.
Inductive event := Called (i : nat) (r : request) | Returned (i : nat) (v : reply).
Definition event_ok (n : Z) (e : event) : Prop :=
  match e with Called _ r => op_ok n (request_op r) | Returned _ _ => True end.

(** ** Threads *)

Inductive thread := Resting | Serving (p : prog reply).

(** A call of [rwlock_wrlock] or [rwlock_rdlock] by a thread that is [t]: up to
    the first [pthread_cond_wait] or the end, and from a wake-up on to the same. *)
Definition attempt (ex : bool) (t : RWLock.tstate) (l : RWLock.rwlock_t) : option (RWLock.rwlock_t * RWLock.tstate) :=
  match ex, t with
  | false, RWLock.Idle =>
      let l := RWLock.rdlock_enter l in
      Some (l, if RWLock.rdlock_blocked l then RWLock.RWait false else RWLock.Reading)
  | false, RWLock.RWait true => Some (l, if RWLock.rdlock_blocked l then RWLock.RWait false else RWLock.Reading)
  | true, RWLock.Idle =>
      let l := RWLock.wrlock_enter l in
      Some (if RWLock.wrlock_blocked l then (l, RWLock.WWait false) else (RWLock.wrlock_acquire l, RWLock.Writing))
  | true, RWLock.WWait true =>
      Some (if RWLock.wrlock_blocked l then (l, RWLock.WWait false) else (RWLock.wrlock_acquire l, RWLock.Writing))
  | _, _ => None
  end.
Definition release (ex : bool) (l : RWLock.rwlock_t) : RWLock.rwlock_t * bool :=
  if ex then RWLock.rwlock_unwrlock l else RWLock.rwlock_unrdlock l.
Definition inside (ex : bool) : RWLock.tstate := if ex then RWLock.Writing else RWLock.Reading.

Definition is_lock {X : Set} (e : access X) : bool := match e with Lock _ _ | Unlock _ _ => true | _ => false end.

Definition lock_table := lock_name -> RWLock.config.
Definition set_lock (L : lock_table) (w : lock_name) (c : RWLock.config) : lock_table :=
  fun w' => if decide (w' = w) then c else L w'.

#[export] Existing Instance RWLock.tstate_eq_dec.

Section Threads.
Context {DB : Type} `{BerkeleyDB DB}.

Definition body (r : request) : prog reply :=
  match r with
  | Put key data => pbind (update_block key data) (fun v => Done (Code v))
  | Get key => pbind (find_block key) (fun v => Done (Found v.1.1 v.1.2 v.2))
  | Del key => pbind (delete_block key) (fun v => Done (Code v))
  end.

(** The locks of the configuration stand for those inside the state. *)
Record config := Config { store : state DB; locks : lock_table; threads : list thread }.

(** The next access of a program, when it is not on a lock; the lock it asks for;
    and the lock it gives back. *)
Definition access_step (p : prog reply) (s : state DB) : option (prog reply * state DB) :=
  match p with
  | Then e k => if is_lock e then None else match perform e s with Ret x s' => Some (k x, s') | _ => None end
  | _ => None
  end.
Definition locking (p : prog reply) : option (bool * lock_name * prog reply) :=
  match p with
  | Then e k => match e in access X return (X -> prog reply) -> _ with
                | Lock ex w => fun k => Some (ex, w, k tt)
                | _ => fun _ => None
                end k
  | _ => None
  end.
Definition unlocking (p : prog reply) : option (bool * lock_name * prog reply) :=
  match p with
  | Then e k => match e in access X return (X -> prog reply) -> _ with
                | Unlock ex w => fun k => Some (ex, w, k tt)
                | _ => fun _ => None
                end k
  | _ => None
  end.

Inductive step : option event -> config -> config -> Prop :=
  | step_call s L ts i r :
      ts !! i = Some Resting ->
      step (Some (Called i r)) (Config s L ts) (Config s L (<[i := Serving (body r)]> ts))
  | step_return s L ts i v :
      ts !! i = Some (Serving (Done v)) ->
      step (Some (Returned i v)) (Config s L ts) (Config s L (<[i := Resting]> ts))
  | step_access s L ts i p p' s' :
      ts !! i = Some (Serving p) -> access_step p s = Some (p', s') ->
      step None (Config s L ts) (Config s' L (<[i := Serving p']> ts))
  | step_lock s L ts i p ex w p' l lts t l' t' :
      ts !! i = Some (Serving p) -> locking p = Some (ex, w, p') ->
      L w = RWLock.Config l lts -> lts !! i = Some t -> attempt ex t l = Some (l', t') ->
      step None (Config s L ts)
        (Config s (set_lock L w (RWLock.Config l' (<[i := t']> lts)))
           (if decide (t' = inside ex) then <[i := Serving p']> ts else ts))
  | step_unlock s L ts i p ex w p' l lts l' b :
      ts !! i = Some (Serving p) -> unlocking p = Some (ex, w, p') ->
      L w = RWLock.Config l lts -> lts !! i = Some (inside ex) -> release ex l = (l', b) ->
      step None (Config s L ts)
        (Config s (set_lock L w (RWLock.Config l' (RWLock.broadcast b (<[i := RWLock.Idle]> lts))))
           (<[i := Serving p']> ts)).

(** [pthread_cond_wait] may also return without a broadcast. *)
Inductive spurious : config -> config -> Prop :=
  | spurious_wake s L ts w l lts i t :
      L w = RWLock.Config l lts -> lts !! i = Some t ->
      spurious (Config s L ts) (Config s (set_lock L w (RWLock.Config l (<[i := RWLock.wake t]> lts))) ts).

Definition moves (o : option event) (c c' : config) : Prop := step o c c' \/ (o = None /\ spurious c c').

Definition start (n : nat) (s : state DB) : config :=
  Config s (fun _ => RWLock.init n) (replicate n Resting).
Definition resting (c : config) : Prop := Forall (eq Resting) (threads c).

(** ** The atomic map *)

Inductive pending := Quiet | Asked (r : request) | Answered (v : reply).
Record atomic := Atomic { content : gmap (list Z) (list Z); clients : list pending }.

Inductive atomic_step : option event -> atomic -> atomic -> Prop :=
  | atomic_call m qs i r : qs !! i = Some Quiet ->
      atomic_step (Some (Called i r)) (Atomic m qs) (Atomic m (<[i := Asked r]> qs))
  | atomic_act m qs i r : qs !! i = Some (Asked r) ->
      atomic_step None (Atomic m qs)
        (Atomic (spec_op (request_op r) m).2 (<[i := Answered (spec_op (request_op r) m).1]> qs))
  | atomic_return m qs i v : qs !! i = Some (Answered v) ->
      atomic_step (Some (Returned i v)) (Atomic m qs) (Atomic m (<[i := Quiet]> qs)).

Definition atomic_start (n : nat) (m : gmap (list Z) (list Z)) : atomic := Atomic m (replicate n Quiet).

End Threads.
Arguments config : clear implicits.
End Interleave.
