(* ===== verification/Linear.v ===== *)
(** The threads of [Interleave] are linearizable: every history of calls and
    returns is one of the atomic map. *)

From Stdlib Require Import ZArith Lia.
From stdpp Require Import base numbers list gmap.
From S2P Require Import Prelude RWLock IndexTypes IndexLog Bdb Storage.
From S2P Require Import StorageRefine StorageThreads Interleave.

Module Linear.
Import IndexTypes Storage StorageRefine StorageThreads Interleave.

(** ** Locks *)

Lemma attempt_step ex t l l' t' lts i :
  lts !! i = Some t -> attempt ex t l = Some (l', t') ->
  RWLock.step (RWLock.Config l lts) (RWLock.Config l' (<[i := t']> lts)).
Proof.
  intros Hi E. destruct ex, t as [|[]| |[]|]; try discriminate E; cbn in E.
  - destruct (RWLock.wrlock_blocked _) eqn:Eb; injection E as <- <-.
    + now apply RWLock.step_wrlock_wait.
    + now apply RWLock.step_wrlock_go.
  - destruct (RWLock.wrlock_blocked _) eqn:Eb; injection E as <- <-.
    + now apply RWLock.step_wr_retry_wait.
    + now apply RWLock.step_wr_retry_go.
  - destruct (RWLock.rdlock_blocked _) eqn:Eb; injection E as <- <-.
    + now apply RWLock.step_rdlock_wait.
    + now apply RWLock.step_rdlock_go.
  - destruct (RWLock.rdlock_blocked _) eqn:Eb; injection E as <- <-.
    + now apply RWLock.step_rd_retry_wait.
    + now apply RWLock.step_rd_retry_go.
Qed.

Lemma release_step ex l l' b lts i :
  lts !! i = Some (inside ex) -> release ex l = (l', b) ->
  RWLock.step (RWLock.Config l lts) (RWLock.Config l' (RWLock.broadcast b (<[i := RWLock.Idle]> lts))).
Proof. intros Hi E. destruct ex; [now apply RWLock.step_unwrlock|now apply RWLock.step_unrdlock]. Qed.

(** Where a call of a lock can stand: it waits, or it is inside. *)
Definition waiting (ex : bool) : RWLock.tstate := if ex then RWLock.WWait true else RWLock.RWait true.
Lemma attempt_cases ex t l l' t' :
  attempt ex t l = Some (l', t') ->
  t' = inside ex \/ (t' <> inside ex /\ RWLock.wake t' = waiting ex).
Proof.
  intros E. destruct ex, t as [|[]| |[]|]; try discriminate E; cbn in E; case_match;
    injection E as <- <-; cbn; auto; right; split; congruence.
Qed.

(** What thread [i] has of every lock, asleep or not. *)
Definition view := lock_name -> RWLock.tstate.
Definition sees (L : lock_table) (i : nat) (v : view) : Prop :=
  forall w, RWLock.wake <$> (RWLock.threads (L w) !! i) = Some (v w).
Definition idle : view := fun _ => RWLock.Idle.
Definition put (v : view) (w : lock_name) (t : RWLock.tstate) : view :=
  fun w' => if decide (w' = w) then t else v w'.

Lemma wake_wake t : RWLock.wake (RWLock.wake t) = RWLock.wake t.
Proof. now destruct t as [|[]| |[]|]. Qed.

Lemma wake_inside ex t : RWLock.wake t = inside ex -> t = inside ex.
Proof. destruct ex, t as [|[]| |[]|]; cbn; congruence. Qed.

Lemma sees_own L i v w l l' lts t' b :
  L w = RWLock.Config l lts -> sees L i v ->
  sees (set_lock L w (RWLock.Config l' (RWLock.broadcast b (<[i := t']> lts)))) i (put v w (RWLock.wake t')).
Proof.
  intros E Hv w'. unfold set_lock, put. destruct (decide (w' = w)) as [->|]; [|apply Hv].
  specialize (Hv w). rewrite E in Hv. cbn [RWLock.threads] in *.
  destruct (lts !! i) eqn:Ei; [|discriminate].
  assert (Hlt : (i < length lts)%nat) by (eapply lookup_lt_Some, Ei).
  destruct b; cbn [RWLock.broadcast]; rewrite ?list_lookup_fmap, list_lookup_insert_eq by done; cbn; now rewrite ?wake_wake.
Qed.

Lemma sees_other L i j v w l l' lts t' b :
  L w = RWLock.Config l lts -> i <> j -> sees L j v ->
  sees (set_lock L w (RWLock.Config l' (RWLock.broadcast b (<[i := t']> lts)))) j v.
Proof.
  intros E Hij Hv w'. unfold set_lock. destruct (decide (w' = w)) as [->|]; [|apply Hv].
  specialize (Hv w). rewrite E in Hv. cbn [RWLock.threads] in *.
  destruct b; cbn [RWLock.broadcast]; rewrite ?list_lookup_fmap, list_lookup_insert_ne by done; [|done].
  rewrite <- Hv. destruct (lts !! j); cbn; now rewrite ?wake_wake.
Qed.

Lemma sees_spurious L i j v w l lts t :
  L w = RWLock.Config l lts -> lts !! i = Some t -> sees L j v ->
  sees (set_lock L w (RWLock.Config l (<[i := RWLock.wake t]> lts))) j v.
Proof.
  intros E Hi Hv w'. unfold set_lock. destruct (decide (w' = w)) as [->|]; [|apply Hv].
  specialize (Hv w). rewrite E in Hv. cbn [RWLock.threads] in *.
  destruct (decide (i = j)) as [->|]; [|now rewrite list_lookup_insert_ne].
  rewrite list_lookup_insert_eq by (eapply lookup_lt_Some, Hi).
  rewrite Hi in Hv. cbn in *. now rewrite wake_wake.
Qed.

Lemma sees_ext L i v v' : (forall w, v w = v' w) -> sees L i v -> sees L i v'.
Proof. intros E Hv w. rewrite <- E. apply Hv. Qed.

(** The invariant of every lock, for [n] threads. *)
Definition locks_ok (L : lock_table) (n : nat) : Prop :=
  forall w, RWLock.inv (L w) /\ length (RWLock.threads (L w)) = n.

Lemma locks_ok_step L n w c c' :
  Z.of_nat n + 1 < 2 ^ 64 -> locks_ok L n -> L w = c -> RWLock.step c c' -> locks_ok (set_lock L w c') n.
Proof.
  intros Hn Hok E Hs w'. unfold set_lock. destruct (decide (w' = w)) as [->|]; [|apply Hok].
  destruct (Hok w) as [Hi Hl]. rewrite E in *. split; [|now rewrite (RWLock.step_length _ _ Hs)].
  apply (RWLock.lock_step_inv c); [now rewrite Hl|done|done].
Qed.

Lemma sees_start n i : (i < n)%nat -> sees (fun _ => RWLock.init n) i idle.
Proof. intros Hi w. cbn. rewrite lookup_replicate_2 by done. reflexivity. Qed.

Lemma sees_excludes L n i j v v' w :
  locks_ok L n -> sees L i v -> sees L j v' -> i <> j -> v w = RWLock.Writing ->
  v' w <> RWLock.Reading /\ v' w <> RWLock.Writing.
Proof.
  intros Hok Hi Hj Hij E. destruct (Hok w) as [Hinv _]. specialize (Hi w). specialize (Hj w). rewrite E in Hi.
  destruct (RWLock.threads (L w) !! i) as [t|] eqn:Et; [|discriminate].
  destruct (RWLock.threads (L w) !! j) as [t'|] eqn:Et'; [|discriminate].
  cbn in Hi, Hj. injection Hi as Hi. injection Hj as Hj. apply (wake_inside true) in Hi as ->.
  destruct (RWLock.writing_excludes (L w) i j t' Hinv Et Et' Hij) as [H1 H2].
  rewrite <- Hj. split; intros Ew; [apply H1, (wake_inside false)|apply H2, (wake_inside true)]; exact Ew.
Qed.

(** ** What a writer may do between its locks *)

(** The block file a writer of the index has locked, or that it has left the index. *)
Inductive hold := NoFile | OnFile (id : Z) | Gone.
#[export] Instance hold_eq_dec : EqDecision hold.
Proof. solve_decision. Defined.
Definition allowed (h : hold) {X : Set} (e : access X) : Prop :=
  match e with
  | Lock ex w => ex = true /\ h = NoFile /\ w <> Index
  | Unlock ex w => ex = true /\ h = match w with BlockFile id => OnFile id | Index => NoFile end
  | SyncData id _ _ _ => h = OnFile id
  | SyncSlot _ i => h <> Gone /\ i < MAX_FREE_SLOTS
  | _ => h <> Gone
  end.
Definition next_hold (h : hold) {X : Set} (e : access X) : hold :=
  match e with
  | Lock _ (BlockFile id) => OnFile id
  | Unlock _ (BlockFile _) => NoFile
  | Unlock _ Index => Gone
  | _ => h
  end.
(** Whatever the accesses answer, the program keeps to what is allowed, and ends in [Q]. *)
Fixpoint disciplined {A} (Q : hold -> Prop) (h : hold) (p : prog A) : Prop :=
  match p with
  | Done _ => Q h
  | Then e k => allowed h e /\ forall x, disciplined Q (next_hold h e) (k x)
  | _ => True
  end.

Lemma disciplined_bind {A B} (Q R : hold -> Prop) (p : prog A) (f : A -> prog B) h :
  disciplined Q h p -> (forall h' a, Q h' -> disciplined R h' (f a)) -> disciplined R h (pbind p f).
Proof.
  intros Hp Hf. revert h Hp. induction p as [a|X e k IH| |]; intros h Hp; cbn in *; auto.
  destruct Hp as [He Hk]. split; [done|]. intros x. apply IH, Hk.
Qed.

Ltac discipline :=
  repeat (progress (cbn [disciplined allowed next_hold pbind]; unfold passert, free_dbt)
    || match goal with
       | |- _ /\ _ => split
       | |- forall _, _ => intros ?
       | |- disciplined _ _ (if ?b then _ else _) => destruct b eqn:?
       | |- disciplined _ _ match ?d with _ => _ end => destruct d
       end);
  try solve [done | apply Z.leb_gt; assumption].

Lemma append_disciplined id key data : disciplined (eq NoFile) NoFile (append_block id key data).
Proof.
  unfold append_block. discipline; apply (disciplined_bind (eq (OnFile id))); discipline; subst; discipline.
Qed.
Lemma modify_disciplined iv key data : disciplined (eq NoFile) NoFile (modify_block iv key data).
Proof. unfold modify_block. discipline. Qed.
Lemma do_delete_disciplined iv key : disciplined (eq NoFile) NoFile (do_delete_block iv key).
Proof. unfold do_delete_block. discipline. Qed.

Section Writers.
Context {DB : Type} `{BerkeleyDB DB}.

Definition exclusive (r : request) : bool := match r with Get _ => false | _ => true end.

Ltac callee L := apply (disciplined_bind (eq NoFile)); [apply L|intros ? ? <-; discipline].

Lemma update_disciplined key data :
  exists k, update_block key data = Then (Lock true Index) k /\ disciplined (eq Gone) NoFile (k tt).
Proof.
  eexists. split; [reflexivity|]. cbn beta. discipline.
  apply (disciplined_bind (eq NoFile)).
  - discipline; [callee modify_disciplined|callee do_delete_disciplined|]; callee append_disciplined.
  - intros h' a <-. discipline.
Qed.
Lemma delete_disciplined key :
  exists k, delete_block key = Then (Lock true Index) k /\ disciplined (eq Gone) NoFile (k tt).
Proof.
  eexists. split; [reflexivity|]. cbn beta. discipline. callee do_delete_disciplined.
Qed.

Definition found (v : Z * option (list Z) * Z) : prog reply := Done (Found v.1.1 v.1.2 v.2).

(** Every request begins with the lock of the index. *)
Lemma body_starts r : exists k, body r = Then (Lock (exclusive r) Index) k /\
  match r with
  | Get key => k tt = Then (DbFind (fixed_key key)) (fun f => pbind (find_entry f) found)
  | _ => disciplined (eq Gone) NoFile (k tt)
  end.
Proof.
  destruct r as [key data|key|key]; cbn [body exclusive].
  - destruct (update_disciplined key data) as (k & -> & Hk). eexists. split; [reflexivity|]. cbn beta.
    apply (disciplined_bind (eq Gone)); [exact Hk|]. now intros ? ? <-.
  - eexists. now split.
  - destruct (delete_disciplined key) as (k & -> & Hk). eexists. split; [reflexivity|]. cbn beta.
    apply (disciplined_bind (eq Gone)); [exact Hk|]. now intros ? ? <-.
Qed.
End Writers.

(** ** What every access keeps *)

Section Stable.
Context {DB : Type} `{BerkeleyDB DB}.

(** [n] open files and an environment that reports no error. *)
Record skeleton (n : Z) (s : state DB) : Prop := {
  sk_count : block_type_count s = n /\ 1 <= n <= MAX_BLOCK_CNT;
  sk_io : io s = [];
  sk_allocs : allocs s = [];
  sk_files : forall i, 0 <= i < n -> exists fh f, block_filehandler_array s !! Z.to_nat i = Some fh /\
    fd fh = FdOpen (type_size i) /\ disk s !! type_size i = Some f
}.

(** The block of the index entry [iv] holds [d]. *)
Definition pinned (n : Z) (iv : index_value_t) (d : list Z) (s : state DB) : Prop :=
  0 <= block_id iv < n /\ data_size iv = Z.of_nat (length d) /\ data_size iv <= 2 ^ 26 /\
  DATA_SECTION_POS <= offset iv /\
  exists f, disk s !! type_size (block_id iv) = Some f /\ file_get f (offset iv) (data_size iv) = d /\
    (0 < data_size iv -> offset iv + data_size iv <= flen f).

(** Nothing a reader depends on differs. *)
Definition same_files (s s' : state DB) : Prop :=
  block_type_count s' = block_type_count s /\ io s' = io s /\ allocs s' = allocs s /\ disk s' = disk s /\
  forall i fh, block_filehandler_array s !! i = Some fh ->
    exists fh', block_filehandler_array s' !! i = Some fh' /\ fd fh' = fd fh.

Lemma same_files_refl s : same_files s s.
Proof. repeat split; try done. eauto. Qed.

Lemma skeleton_same n s s' : same_files s s' -> skeleton n s -> skeleton n s'.
Proof.
  intros (E1 & E2 & E3 & E4 & E5) [Hc Hio Hal Hf]. split; [by rewrite E1|by rewrite E2|by rewrite E3|].
  intros i Hi. destruct (Hf i Hi) as (fh & f & Hl & Hfd & Hd). destruct (E5 _ _ Hl) as (fh' & Hl' & Efd).
  exists fh', f. rewrite E4. split; [done|]. by rewrite Efd.
Qed.

Lemma pinned_same n iv d s s' : same_files s s' -> pinned n iv d s -> pinned n iv d s'.
Proof. intros (_ & _ & _ & E & _). unfold pinned. now rewrite E. Qed.

Definition put_disk (s : state DB) (name : Z) (f : file) : state DB :=
  State (inited_global_vars s) (block_size_array s) (block_filehandler_array s) (block_type_count s)
    (<[name := f]> (disk s)) (indexdb s) (index_logger s) (index_lock s) (journal s) (io s) (allocs s).

Lemma pwrite_open (s : state DB) name f m g off :
  io s = [] -> disk s !! name = Some f ->
  pwrite (FdOpen name) m g off s =
  if off <? 0 then Ret (-1) s else Ret m (put_disk s name (file_put f off (Z.max 0 m) g)).
Proof.
  intros Hio Hd. unfold pwrite, file_of, next_io, bind, get, ret. cbn. rewrite Hio, Hd. cbn. now destruct (off <? 0).
Qed.

Lemma size_at_state id (s : state DB) x s' : size_at id s = Ret x s' -> s' = s.
Proof. unfold size_at. destruct (id <? 0); [done|]. case_match; congruence. Qed.

Lemma put_disk_stable n s id f f' :
  skeleton n s -> 0 <= id -> disk s !! type_size id = Some f ->
  skeleton n (put_disk s (type_size id) f') /\
  forall iv d, pinned n iv d s ->
    (block_id iv = id -> flen f <= flen f' /\ forall x, DATA_SECTION_POS <= x -> fbytes f' x = fbytes f x) ->
    pinned n iv d (put_disk s (type_size id) f').
Proof.
  intros [Hc Hio Hal Hf] H0 Hd. split.
  - split; try done. intros i Hi. destruct (Hf i Hi) as (fh & f0 & Hl & Hfd & Hd0). exists fh.
    destruct (decide (type_size i = type_size id)) as [E|Hne]; cbn [put_disk disk block_filehandler_array].
    + exists f'. by rewrite Hfd, E, lookup_insert_eq.
    + exists f0. by rewrite lookup_insert_ne by done.
  - intros iv d (Hb & Hs & Hm & Ho & fp & Hp & Hg & Hlen) Hsame. repeat split; try lia. cbn [put_disk disk].
    destruct (decide (type_size (block_id iv) = type_size id)) as [E|Hne].
    + rewrite E, Hd in Hp. injection Hp as <-. apply type_size_inj in E; [|lia|lia].
      destruct (Hsame E) as [Hl Hx]. exists f'. rewrite E, lookup_insert_eq. split; [done|].
      split; [|lia]. rewrite <- Hg. apply file_get_ext. intros x Hx'. apply Hx. lia.
    + exists fp. by rewrite lookup_insert_ne by done.
Qed.

(** A write of [m] bytes at [off] of file [id]. *)
Lemma sync_data_stable n s id m g off fl x s' :
  skeleton n s -> sync_data_file id m g off fl s = Ret x s' ->
  skeleton n s' /\ forall iv d, pinned n iv d s -> (block_id iv = id -> off + m <= DATA_SECTION_POS) -> pinned n iv d s'.
Proof.
  intros Hsk E. pose proof Hsk as [[Hc Hn] Hio Hal Hf]. unfold sync_data_file in E. rewrite get_bind in E.
  unfold assert in E. destruct (Z.ltb_spec id (block_type_count s)) as [Hid|]; [|discriminate]. rewrite ret_bind in E.
  destruct (handler_cases id s) as [Eh|(fh & Eh & H0 & Hl)]; [by rewrite (handler_bind_undefined _ _ _ Eh) in E|].
  rewrite (handler_bind _ _ _ _ Eh) in E. destruct (Hf id ltac:(lia)) as (fh' & f & Hl' & Hfd & Hd).
  rewrite Hl in Hl'. injection Hl' as <-. rewrite Hfd in E.
  unfold bind at 1 in E. rewrite (pwrite_open _ _ _ _ _ _ Hio Hd) in E.
  assert (Es' : s' = s \/ (0 <= off /\ s' = put_disk s (type_size id) (file_put f off (Z.max 0 m) g))).
  { destruct (Z.ltb_spec off 0); destruct (negb _) in E; unfold bind, ret in E;
      try (destruct (size_at id _) eqn:Es in E; try discriminate; apply size_at_state in Es as ->);
      injection E as _ <-; auto. }
  destruct Es' as [->|[Hoff ->]]; [done|].
  destruct (put_disk_stable n s id f (file_put f off (Z.max 0 m) g) Hsk H0 Hd) as [Hs Hp].
  split; [exact Hs|]. intros iv d Hpin Hm. apply Hp; [exact Hpin|]. intros Ei. specialize (Hm Ei).
  split; [apply file_put_len|]. intros y Hy. apply file_put_out. lia.
Qed.

Lemma assign_stable id (h : block_file_t -> block_file_t) (s : state DB) x s' :
  (forall fh, fd (h fh) = fd fh) -> assign h id s = Ret x s' -> same_files s s'.
Proof.
  intros Hh E. unfold assign in E. destruct (handler_cases id s) as [Eh|(fh & Eh & H0 & Hl)].
  { by rewrite (handler_bind_undefined _ _ _ Eh) in E. }
  rewrite (handler_bind _ _ _ _ Eh) in E. injection E as _ <-. repeat split; try done.
  intros i g Hg. cbn. destruct (decide (i = Z.to_nat id)) as [->|Hne].
  - rewrite Hl in Hg. injection Hg as <-. exists (h fh).
    by rewrite list_lookup_insert_eq by (eapply lookup_lt_Some, Hl).
  - exists g. by rewrite list_lookup_insert_ne.
Qed.

Lemma field_stable {A} (g : block_file_t -> A) id (s : state DB) x s' : field g id s = Ret x s' -> s' = s.
Proof.
  unfold field. destruct (handler_cases id s) as [E|(fh & E & _)].
  - by rewrite (handler_bind_undefined _ _ _ E).
  - rewrite (handler_bind _ _ _ _ E). unfold ret. congruence.
Qed.

(** Accesses that only read, or that only change the index or the journal. *)
Lemma perform_same {X : Set} (e : access X) n s x s' :
  skeleton n s -> perform e s = Ret x s' ->
  match e with SyncHeader _ | SyncSlot _ _ | SyncData _ _ _ _ => True | _ => same_files s s' end.
Proof.
  intros [_ Hio Hal _] E.
  destruct e; try exact I; cbn [perform] in E;
    try (eapply assign_stable; [|exact E]; reflexivity);
    try (apply field_stable in E as ->; apply same_files_refl);
    try (apply size_at_state in E as ->; apply same_files_refl).
  all: unfold find_block_file, pread, file_of, db_find, db_insert, db_delete, log_append, next_io, next_alloc, bind,
         ret, get, set_indexdb, set_logger, abort in E; cbn in E; rewrite ?Hio, ?Hal in E;
    repeat case_match; try discriminate; simplify_eq; (repeat split); try done; eauto.
Qed.

Lemma perform_stable {X : Set} (e : access X) n s x s' :
  skeleton n s -> perform e s = Ret x s' ->
  skeleton n s' /\ forall iv d, pinned n iv d s ->
    match e with
    | SyncData id _ _ _ => id <> block_id iv
    | SyncSlot _ i => i < MAX_FREE_SLOTS
    | _ => True
    end -> pinned n iv d s'.
Proof.
  intros Hsk E. pose proof (perform_same e n s x s' Hsk E) as Hs.
  destruct e; try (split; [exact (skeleton_same _ _ _ Hs Hsk)|intros iv d Hp _; exact (pinned_same _ _ _ _ _ Hs Hp)]);
    clear Hs; cbn [perform] in E.
  - unfold sync_data_file_header in E. destruct (handler_cases id s) as [Eh|(fh & Eh & H0 & Hl)].
    { by rewrite (handler_bind_undefined _ _ _ Eh) in E. }
    rewrite (handler_bind _ _ _ _ Eh) in E. unfold bind in E. case_match eqn:Es; try discriminate. injection E as _ <-.
    destruct (sync_data_stable _ _ _ _ _ _ _ _ _ Hsk Es) as [Hs' Hp]. split; [done|].
    intros iv d Hpin _. apply Hp; [done|]. unfold SLOTS_SECTION_POS, DATA_SECTION_POS, MAX_FREE_SLOTS. lia.
  - destruct (handler_cases id s) as [Eh|(fh & Eh & H0 & Hl)].
    { by rewrite (handler_bind_undefined _ _ _ Eh) in E. }
    rewrite (handler_bind _ _ _ _ Eh) in E.
    destruct (sync_data_stable _ _ _ _ _ _ _ _ _ Hsk E) as [Hs' Hp]. split; [done|].
    intros iv d Hpin Hi. apply Hp; [done|]. unfold sizeof_off_t, SLOTS_SECTION_POS, DATA_SECTION_POS, MAX_FREE_SLOTS in *. lia.
  - destruct (sync_data_stable _ _ _ _ _ _ _ _ _ Hsk E) as [Hs' Hp]. split; [done|].
    intros iv d Hpin Hi. apply Hp; [done|]. intros Eb. now destruct Hi.
Qed.
End Stable.

(** ** The invariant *)

Section Invariant.
Context {DB : Type} `{BerkeleyDBLaws DB}.

(** [s] means [m], no lock inside it is taken, and there is room for [c] blocks. *)
Definition settled (n c : Z) (m : gmap (list Z) (list Z)) (s : state DB) : Prop :=
  represents s m /\ free s = s /\ room s c /\ block_type_count s = n.

Definition same_view (v v' : view) : Prop := forall w, v w = v' w.
Definition on_index : view := put idle Index RWLock.Reading.
Definition on_file (id : Z) : view := put idle (BlockFile id) RWLock.Reading.
Definition answer_of (iv : index_value_t) (r : Z * (Z -> Z)) : reply :=
  Found (if negb (r.1 =? i64 (data_size iv)) then -1 else 0) (Some (r.2 <$> seqZ 0 (Z.max 0 r.1))) (data_size iv).
Definition answer (d : list Z) : reply := Found 0 (Some d) (Z.of_nat (length d)).

(** The places of [find_block] after its lookup was decided. *)
Inductive reading (n : Z) (m : gmap (list Z) (list Z)) (s : state DB) : reply -> prog reply -> view -> Prop :=
  | rd_find key v : same_view v on_index -> bytes_ok key ->
      reading n m s (spec_op (Find key) m).1
        (Then (DbFind (fixed_key key)) (fun f => pbind (find_entry f) found)) v
  | rd_missing a v : same_view v on_index ->
      reading n m s a (Then (Unlock false Index) (fun _ => Done a)) v
  | rd_alloc iv d v : same_view v on_index -> pinned n iv d s ->
      reading n m s (answer d) (pbind (find_value iv) found) v
  | rd_lock iv d v : (forall w, w <> BlockFile (block_id iv) -> v w = on_index w) ->
      v (BlockFile (block_id iv)) = RWLock.Idle \/ v (BlockFile (block_id iv)) = RWLock.RWait true ->
      pinned n iv d s ->
      reading n m s (answer d)
        (Then (Lock false (BlockFile (block_id iv))) (fun _ => Then (Unlock false Index) (fun _ => pbind (find_read iv) found))) v
  | rd_leave iv d v : same_view v (put on_index (BlockFile (block_id iv)) RWLock.Reading) -> pinned n iv d s ->
      reading n m s (answer d) (Then (Unlock false Index) (fun _ => pbind (find_read iv) found)) v
  | rd_fd iv d v : same_view v (on_file (block_id iv)) -> pinned n iv d s ->
      reading n m s (answer d) (pbind (find_read iv) found) v
  | rd_pread iv d v : same_view v (on_file (block_id iv)) -> pinned n iv d s ->
      reading n m s (answer d)
        (Then (Pread (FdOpen (type_size (block_id iv))) (data_size iv) (offset iv))
           (fun r => Then (Unlock false (BlockFile (block_id iv))) (fun _ => Done (answer_of iv r)))) v
  | rd_unlock a id v : same_view v (on_file id) ->
      reading n m s a (Then (Unlock false (BlockFile id)) (fun _ => Done a)) v.

(** What a writer of the index holds of the block files. *)
Definition holds (h : hold) (p : prog reply) (v : view) : Prop :=
  v Index = RWLock.Writing /\
  forall id, v (BlockFile id) = (if decide (h = OnFile id) then RWLock.Writing else RWLock.Idle) \/
    (h = NoFile /\ v (BlockFile id) = RWLock.WWait true /\ exists p', locking p = Some (true, BlockFile id, p')).

Inductive thread_ok (n c : Z) (m : gmap (list Z) (list Z)) (s : state DB) : thread -> pending -> view -> Prop :=
  | ok_resting v : same_view v idle -> thread_ok n c m s Resting Quiet v
  | ok_asked r v : op_ok n (request_op r) ->
      (v Index = RWLock.Idle \/ v Index = waiting (exclusive r)) -> (forall w, w <> Index -> v w = RWLock.Idle) ->
      thread_ok n c m s (Serving (body r)) (Asked r) v
  | ok_reading a p v : reading n m s a p v -> thread_ok n c m s (Serving p) (Answered a) v
  | ok_writing a p h v s' : holds h p v -> h <> Gone -> disciplined (eq Gone) h p ->
      unlocked p s = Ret a s' -> settled n c m s' ->
      thread_ok n c m s (Serving p) (Answered a) v
  | ok_done a v : same_view v idle -> thread_ok n c m s (Serving (Done a)) (Answered a) v.

(** Requests that are asked and have not taken effect. *)
Fixpoint asked (qs : list pending) : nat :=
  match qs with [] => 0 | Asked _ :: qs => S (asked qs) | _ :: qs => asked qs end.

Definition nobody_writes (L : lock_table) : Prop := forall i, RWLock.threads (L Index) !! i <> Some RWLock.Writing.

Record linked (n : Z) (k b : nat) (c : config DB) (a : atomic) : Prop := {
  lk_threads : length (threads c) = k /\ length (clients a) = k /\ Z.of_nat k + 1 < 2 ^ 64;
  lk_locks : locks_ok (locks c) k;
  lk_skeleton : skeleton n (store c);
  lk_thread : forall i t q, threads c !! i = Some t -> clients a !! i = Some q ->
    exists v, sees (locks c) i v /\ thread_ok n (Z.of_nat (b + asked (clients a))) (content a) (store c) t q v;
  lk_settled : nobody_writes (locks c) -> settled n (Z.of_nat (b + asked (clients a))) (content a) (store c)
}.

(** ** Operations as their effect on a settled storage *)

Lemma represents_skeleton (s : state DB) m : represents s m -> skeleton (block_type_count s) s.
Proof.
  intros (sizes & hs & n & dk & b & il & j & idx & -> & Hinv). split; try done; [split; [done|apply Hinv]|].
  intros i Hi. destruct (proj2 (si_files _ _ _ _ _ _ _ _ Hinv) i Hi) as (fh & f & Hl & Hd & Hfi).
  exists fh, f. split; [exact Hl|]. split; [apply Hfi|exact Hd].
Qed.

Lemma settled_skeleton n c m (s : state DB) : settled n c m s -> skeleton n s.
Proof. intros (Hr & _ & _ & <-). exact (represents_skeleton s m Hr). Qed.

Lemma free_fields fh : free_handler fh = relock fh RWLock.rwlock_zero.
Proof. reflexivity. Qed.

Lemma represents_free (s : state DB) m : represents s m -> represents (free s) m.
Proof.
  intros (sizes & hs & n & dk & b & il & j & idx & -> & Hinv).
  exists sizes, (free_handler <$> hs), n, dk, b, il, j, idx. split; [reflexivity|].
  assert (Hsame : forall i fh, 0 <= i < n -> hs !! Z.to_nat i = Some fh -> (free_handler <$> hs) !! Z.to_nat i = Some fh).
  { intros i fh Hi Hl. rewrite list_lookup_fmap, Hl. cbn. f_equal.
    destruct (proj2 (si_files _ _ _ _ _ _ _ _ Hinv) i Hi) as (fh' & f & Hl' & _ & Hfi).
    rewrite Hl in Hl'. injection Hl' as <-. apply relock_same, Hfi. }
  destruct Hinv as [Hn Hsz [Hlen Hfs] Hdb Hlg Hent Hdom Hap]. split; try done.
  - split; [by rewrite length_fmap|]. intros i Hi. destruct (Hfs i Hi) as (fh & f & Hl & Hd).
    exists fh, f. split; [by apply Hsame|done].
  - intros k iv Hk. destruct (Hent k iv Hk) as (Hv & Hb & d & fh & f & Hm & Hl & Hd).
    split; [done|]. split; [done|]. exists d, fh, f. split; [done|]. split; [by apply Hsame|done].
Qed.

Lemma room_free (s : state DB) c : room s c -> room (free s) c.
Proof.
  intros Hr i fh Hi Hl. cbn in Hi, Hl. rewrite list_lookup_fmap in Hl.
  destruct (block_filehandler_array s !! Z.to_nat i) as [g|] eqn:E; [|done]. injection Hl as <-. exact (Hr i g Hi E).
Qed.

Lemma free_free (s : state DB) : free (free s) = free s.
Proof.
  unfold free. cbn. f_equal; [|by destruct (index_lock s)].
  rewrite <- list_fmap_compose. by apply list_fmap_ext.
Qed.

Lemma body_alone r (s : state DB) largest : alone (body r) s = run_op largest (request_op r) s.
Proof.
  destruct r; cbn [body request_op run_op]; rewrite alone_bind; unfold bind.
  - rewrite update_block_alone. now destruct (Storage.update_block _ _ _).
  - rewrite find_block_alone. now destruct (Storage.find_block _ _).
  - rewrite delete_block_alone. now destruct (Storage.delete_block _ _).
Qed.

Lemma sizes_for_some n : 1 <= n <= MAX_BLOCK_CNT -> sizes_for n (type_size (n - 1)).
Proof.
  intros Hn. split; [done|]. split; [lia|]. unfold type_size, BEGINNING_SIZE.
  replace n with (n - 1 + 1) at 2 by lia. rewrite Z.pow_add_r by lia. pose proof (Z.pow_pos_nonneg 2 (n - 1)). lia.
Qed.

(** A request without locks on a settled storage. *)
Lemma body_settled n c m (s : state DB) r :
  settled n c m s -> op_ok n (request_op r) -> 1 <= c ->
  exists s', unlocked (body r) s = Ret (spec_op (request_op r) m).1 s' /\
    settled n (c - 1) (spec_op (request_op r) m).2 s'.
Proof.
  intros Hset Hok Hc. pose proof (sk_count _ _ (settled_skeleton _ _ _ _ Hset)) as [_ Hn].
  destruct Hset as (Hr & Hfree & Hroom & Hcnt).
  destruct (op_run n _ _ s m c Hr Hcnt (sizes_for_some n Hn) Hok Hc Hroom) as (s' & E & Hr' & Hn' & Hroom').
  rewrite <- (body_alone r) in E. apply unlocked_free in E. rewrite Hfree in E.
  exists (free s'). split; [exact E|]. split; [by apply represents_free|].
  split; [apply free_free|]. split; [by apply room_free|exact Hn'].
Qed.

(** The lookup of [find_block] on a settled storage. *)
Lemma find_settled n c m (s : state DB) key :
  settled n c m s -> bytes_ok key ->
  exists f s', perform (DbFind (fixed_key key)) s = Ret f s' /\ settled n c m s' /\ same_files s s' /\
    ((m !! fixed_key key = None /\ f = (DB_NOTFOUND, Bdb.Null)) \/
     (exists d iv, m !! fixed_key key = Some d /\ find_entry f = find_value iv /\ pinned n iv d s')).
Proof.
  intros Hset Hkb. destruct Hset as ((sizes & hs & n' & dk & b & il & j & idx & -> & Hinv) & Hfree & Hroom & Hcnt).
  cbn [St block_type_count] in Hcnt. subst n'. pose proof Hinv as [Hn _ [_ Hfs] [Hh Hc] _ Hent Hdom _].
  set (s := St sizes hs n dk b il (RWLock.rwlock_zero, j)) in *. cbn [perform].
  assert (Hset' : forall b', storage_inv sizes hs n dk b' il idx m ->
     settled n c m (St sizes hs n dk b' il (RWLock.rwlock_zero, j))).
  { intros b' Hinv'. split; [eapply represents_intro, Hinv'|]. split; [|split; [exact Hroom|done]].
    unfold free, St, s in *. cbn in *. injection Hfree as Hfree. by rewrite Hfree. }
  destruct (idx !! fixed_key key) as [iv|] eqn:Hk.
  - destruct (db_find_hit sizes hs n dk b il (RWLock.rwlock_zero, j) idx _ iv Hh Hc Hk) as (b1 & Ef & Hh1 & Hc1).
    destruct (Hent _ iv Hk) as (Hv & Hbid & d & fh & f & Hd & Hl & Hf & Hei).
    destruct (Hfs _ Hbid) as (fh0 & f0 & Hl0 & _ & Hfi). rewrite Hl in Hl0. injection Hl0 as <-.
    exists (0, Bdb.Value (value_bytes iv ++ [])), (St sizes hs n dk b1 il (RWLock.rwlock_zero, j)).
    split; [exact Ef|]. split; [apply Hset'; exact (storage_inv_db _ _ _ _ _ _ _ _ _ Hinv Hh1 Hc1)|].
    split; [repeat split; try done; eauto|]. right. exists d, iv. split; [done|].
    split; [unfold find_entry; cbn [fst snd Z.eqb]; by rewrite value_roundtrip|].
    pose proof (ei_fits _ _ _ _ _ Hei). pose proof (type_size_bound (block_id iv) ltac:(unfold MAX_BLOCK_CNT in *; lia)).
    pose proof (type_size_pos (block_id iv) ltac:(lia)).
    destruct (ei_slot _ _ _ _ _ Hei) as (q & Hq & Hq').
    pose proof (slot_pos_ge (type_size (block_id iv)) q ltac:(lia) ltac:(lia)).
    repeat split; try lia; [apply Hei|]. exists f. split; [done|]. split; apply Hei.
  - destruct (db_find_miss sizes hs n dk b il (RWLock.rwlock_zero, j) idx _ Hh Hc Hk) as (b1 & Ef & Hh1 & Hc1).
    exists (DB_NOTFOUND, Bdb.Null), (St sizes hs n dk b1 il (RWLock.rwlock_zero, j)).
    split; [exact Ef|]. split; [apply Hset'; exact (storage_inv_db _ _ _ _ _ _ _ _ _ Hinv Hh1 Hc1)|].
    split; [repeat split; try done; eauto|]. left. split; [|done].
    exact (proj1 (idx_none _ _ _ _ _ _ _ _ _ Hinv) Hk).
Qed.
End Invariant.

(** ** Keeping the invariant *)

Section Keeping.
Context {DB : Type} `{BerkeleyDBLaws DB}.

Lemma asked_insert qs i q q' :
  qs !! i = Some q -> (asked (<[i := q']> qs) + asked [q] = asked qs + asked [q'])%nat.
Proof.
  revert i; induction qs as [|x qs IH]; intros [|i] Hi; cbn in Hi; try done.
  - injection Hi as ->. destruct q, q'; cbn; lia.
  - specialize (IH i Hi). change (<[S i := q']> (x :: qs)) with (x :: <[i := q']> qs).
    destruct x, q, q'; simpl asked in *; lia.
Qed.

Lemma sees_same L i v v' : sees L i v -> sees L i v' -> same_view v v'.
Proof. intros Hv Hv' w. specialize (Hv w). specialize (Hv' w). congruence. Qed.

Lemma sees_lookup L i v w l lts t :
  sees L i v -> L w = RWLock.Config l lts -> lts !! i = Some t -> RWLock.wake t = v w.
Proof. intros Hv E Hi. specialize (Hv w). rewrite E in Hv. cbn in Hv. rewrite Hi in Hv. cbn in Hv. congruence. Qed.

Lemma sees_writing L i v : sees L i v -> v Index = RWLock.Writing -> ~ nobody_writes L.
Proof.
  intros Hv E Hn. specialize (Hv Index). rewrite E in Hv.
  destruct (RWLock.threads (L Index) !! i) as [t|] eqn:Et; [|done]. cbn in Hv. injection Hv as Hv.
  apply (wake_inside true) in Hv as ->. exact (Hn i Et).
Qed.

Lemma reading_nobody L k i v :
  locks_ok L k -> sees L i v -> v Index = RWLock.Reading -> nobody_writes L.
Proof.
  intros Hok Hv E j Hj. destruct (Hok Index) as [Hinv _]. specialize (Hv Index). rewrite E in Hv.
  destruct (RWLock.threads (L Index) !! i) as [t|] eqn:Et; [|done]. cbn in Hv. injection Hv as Hv.
  apply (wake_inside false) in Hv as ->. cbn [inside] in Et.
  assert (Hij : j <> i) by (intros ->; congruence).
  now destruct (RWLock.writing_excludes _ _ _ _ Hinv Hj Et Hij).
Qed.

Lemma nobody_other L w c : w <> Index -> nobody_writes (set_lock L w c) -> nobody_writes L.
Proof. intros Hw Hn i. specialize (Hn i). unfold set_lock in Hn. by rewrite decide_False in Hn. Qed.

Lemma nobody_back L l lts i t l' t' b :
  L Index = RWLock.Config l lts -> lts !! i = Some t -> t <> RWLock.Writing ->
  nobody_writes (set_lock L Index (RWLock.Config l' (RWLock.broadcast b (<[i := t']> lts)))) -> nobody_writes L.
Proof.
  intros E Hi Ht Hn j Hj. specialize (Hn j). unfold set_lock in Hn. rewrite decide_True in Hn by done.
  rewrite E in Hj. cbn in Hj, Hn. destruct (decide (j = i)) as [->|Hne]; [congruence|].
  apply Hn. destruct b; cbn [RWLock.broadcast]; rewrite ?list_lookup_fmap, list_lookup_insert_ne by done; by rewrite Hj.
Qed.

Lemma room_less (s : state DB) c c' : c <= c' -> room s c' -> room s c.
Proof. intros Hc Hr. unfold room in *. apply (marks_le _ _ (2 ^ 32 - c')); [lia|exact Hr]. Qed.

Lemma settled_less n c c' m (s : state DB) : c' <= c -> settled n c m s -> settled n c' m s.
Proof.
  intros Hc (Hr & Hf & Hroom & Hn). split; [done|]. split; [done|]. split; [|done]. by apply (room_less s c' c).
Qed.

(** Replacing what thread [i] does, sees and owes. *)
Lemma linked_next n k b b' (s s' : state DB) L L' ts m m' qs i t q t' q' v' :
  linked n k b (Config s L ts) (Atomic m qs) ->
  ts !! i = Some t -> qs !! i = Some q ->
  locks_ok L' k -> skeleton n s' ->
  sees L' i v' -> thread_ok n (Z.of_nat (b' + asked (<[i := q']> qs))) m' s' t' q' v' ->
  (forall j t0 q0 v, j <> i -> sees L j v -> thread_ok n (Z.of_nat (b + asked qs)) m s t0 q0 v ->
     sees L' j v /\ thread_ok n (Z.of_nat (b' + asked (<[i := q']> qs))) m' s' t0 q0 v) ->
  (nobody_writes L' -> settled n (Z.of_nat (b' + asked (<[i := q']> qs))) m' s') ->
  linked n k b' (Config s' L' (<[i := t']> ts)) (Atomic m' (<[i := q']> qs)).
Proof.
  intros [[Ht [Hq Hk]] HL Hsk Hth Hset] Hi Hqi HL' Hsk' Hv' Hok Hother Hset'. cbn in *.
  split; cbn; [by rewrite !length_insert|done|done| |done].
  intros j t0 q0 Hj Hqj. destruct (decide (j = i)) as [->|Hne].
  - rewrite list_lookup_insert_eq in Hj by (eapply lookup_lt_Some; eassumption).
    rewrite list_lookup_insert_eq in Hqj by (eapply lookup_lt_Some; eassumption).
    injection Hj as <-. injection Hqj as <-. by exists v'.
  - rewrite list_lookup_insert_ne in Hj by done. rewrite list_lookup_insert_ne in Hqj by done. destruct (Hth j t0 q0 Hj Hqj) as (v & Hv & Hok0).
    exists v. by apply Hother.
Qed.

(** The invariant of the threads that do not move, when the storage's files stay. *)
Lemma reading_same n m (s s' : state DB) a p v : same_files s s' -> reading n m s a p v -> reading n m s' a p v.
Proof. intros Hs [| | | | | | |]; econstructor; eauto using pinned_same. Qed.

Lemma thread_ok_same n c c' m (s s' : state DB) t q v :
  c' <= c -> (same_files s s' /\ v Index <> RWLock.Writing \/ s' = s) ->
  thread_ok n c m s t q v -> thread_ok n c' m s' t q v.
Proof.
  intros Hc Hs Hok. destruct Hok as [v Hv|r v Hr Hi Hw|a p v Hr|a p h v sf Hh Hg Hd Hu Hset|a v Hv];
    [by constructor|by constructor| | |by constructor].
  - constructor. destruct Hs as [[Hs _]| ->]; [by apply (reading_same _ _ s)|done].
  - destruct Hs as [[_ Hv]| ->]; [by destruct (proj1 Hh)|].
    apply (ok_writing _ _ _ _ _ _ h _ sf); try done. by apply (settled_less _ c).
Qed.

(** The threads that a writer of the index meets: [m] and the index do not matter to them. *)
Lemma thread_ok_outside n c c' m m' (s s' : state DB) t q v :
  v Index <> RWLock.Writing -> v Index <> RWLock.Reading ->
  (forall iv d, v (BlockFile (block_id iv)) = RWLock.Reading -> pinned n iv d s -> pinned n iv d s') ->
  thread_ok n c m s t q v -> thread_ok n c' m' s' t q v.
Proof.
  intros Hw Hr Hpin Hok. destruct Hok as [v Hv|r v Ho Hi Hx|a p v Hrd|a p h v sf Hh Hg Hd Hu Hset|a v Hv];
    [by constructor|by constructor| |by destruct (proj1 Hh)|by constructor].
  constructor. destruct Hrd as [key v Hv Hk|a v Hv|iv d v Hv Hp|iv d v Hv Hf Hp|iv d v Hv Hp|iv d v Hv Hp|iv d v Hv Hp|a id v Hv];
    try (by destruct Hr; rewrite (Hv Index)).
  - apply (rd_fd _ _ _ iv d); [done|]. apply Hpin; [|done]. rewrite (Hv _). unfold on_file, put. by rewrite decide_True.
  - apply (rd_pread _ _ _ iv d); [done|]. apply Hpin; [|done]. rewrite (Hv _). unfold on_file, put. by rewrite decide_True.
  - by apply rd_unlock.
Qed.
End Keeping.

(** ** The simulation, step by step *)

Section Simulation.
Context {DB : Type} `{BerkeleyDBLaws DB}.

Lemma locking_shape p ex w p' :
  locking p = Some (ex, w, p') -> exists k, p = Then (Lock ex w) k /\ p' = k tt.
Proof. destruct p as [a|X e k| |]; try done. destruct e; try done. intros [= -> -> <-]. eauto. Qed.
Lemma unlocking_shape p ex w p' :
  unlocking p = Some (ex, w, p') -> exists k, p = Then (Unlock ex w) k /\ p' = k tt.
Proof. destruct p as [a|X e k| |]; try done. destruct e; try done. intros [= -> -> <-]. eauto. Qed.

Lemma put_same v w t : put v w t w = t.
Proof. unfold put. by rewrite decide_True. Qed.
Lemma put_other v w w' t : w' <> w -> put v w t w' = v w'.
Proof. intros Hne. unfold put. by rewrite decide_False. Qed.

(** One access of a reader. *)
Lemma reading_access n c m (s s' : state DB) a p p' v :
  reading n m s a p v -> skeleton n s -> (v Index = RWLock.Reading -> settled n c m s) ->
  access_step p s = Some (p', s') ->
  reading n m s' a p' v /\ same_files s s' /\
  (v Index = RWLock.Reading -> settled n c m s') /\ (v Index <> RWLock.Reading -> s' = s).
Proof.
  intros Hrd Hsk Hset E.
  destruct Hrd as [key v Hv Hk|a v Hv|iv d v Hv Hp|iv d v Hv Hf Hp|iv d v Hv Hp|iv d v Hv Hp|iv d v Hv Hp|a id v Hv];
    try discriminate E.
  - assert (Hi : v Index = RWLock.Reading) by (rewrite (Hv _); apply put_same).
    destruct (find_settled n c m s key (Hset Hi) Hk) as (f & s1 & E1 & Hs1 & Hsame & Hcase).
    cbn [access_step is_lock] in E. rewrite E1 in E. injection E as <- <-.
    split; [|split; [done|split; [done|done]]]. cbn [spec_op fst].
    destruct Hcase as [[-> ->]|(d & iv & -> & -> & Hp)].
    + destruct notfound_nonzero as [Hnf _]. unfold find_entry. cbn [fst snd].
      rewrite (proj2 (Z.eqb_neq _ _)) by done. by apply rd_missing.
    + by apply (rd_alloc _ _ _ iv d).
  - cbn in E. unfold next_alloc in E. rewrite (sk_allocs _ _ Hsk) in E. injection E as <- <-.
    assert (Hi : v Index = RWLock.Reading) by (rewrite (Hv _); apply put_same).
    split; [|split; [apply same_files_refl|split; [done|done]]].
    apply (rd_lock _ _ _ iv d); [intros w _; apply Hv| |done].
    left. rewrite (Hv _). unfold on_index. by rewrite put_other.
  - pose proof Hp as (Hb & _). destruct (sk_files _ _ Hsk _ Hb) as (fh & f & Hl & Hfd & _).
    cbn in E. unfold field, bind, handler in E. rewrite (proj2 (Z.ltb_ge _ _)), Hl in E by lia. cbn in E.
    rewrite Hfd in E. injection E as <- <-.
    split; [|split; [apply same_files_refl|split; [by intros; apply Hset|done]]].
    by apply (rd_pread _ _ _ iv d).
  - pose proof Hp as (Hb & Hsz & Hmax & Hoff & f & Hd & Hg & Hlen). cbn in E.
    unfold pread, file_of, next_io, bind, get, ret in E. cbn in E.
    rewrite (sk_io _ _ Hsk), Hd in E. cbn in E.
    rewrite (proj2 (Z.ltb_ge _ _)) in E by (unfold DATA_SECTION_POS, MAX_FREE_SLOTS in Hoff; lia). injection E as <- <-.
    split; [|split; [apply same_files_refl|split; [by intros; apply Hset|done]]].
    unfold answer_of. cbn [fst snd].
    replace (Z.max 0 (Z.min (data_size iv) (flen f - offset iv))) with (data_size iv) by lia.
    rewrite i64_small, Z.eqb_refl, Z.max_r by lia. cbn [negb].
    change ((fun i => fbytes f (offset iv + i)) <$> seqZ 0 (data_size iv)) with (file_get f (offset iv) (data_size iv)).
    rewrite Hg, Hsz. by apply rd_unlock.
Qed.

(** One access of a writer. *)
Lemma writing_access n (s s' sf : state DB) a h p p' v :
  holds h p v -> h <> Gone -> disciplined (eq Gone) h p -> unlocked p s = Ret a sf -> skeleton n s ->
  access_step p s = Some (p', s') ->
  holds h p' v /\ disciplined (eq Gone) h p' /\ unlocked p' s' = Ret a sf /\ skeleton n s' /\
  (forall iv d, pinned n iv d s -> v (BlockFile (block_id iv)) <> RWLock.Writing -> pinned n iv d s').
Proof.
  intros [Hi Hf] Hg Hd Hu Hsk E. destruct p as [x|X e k| |]; try discriminate E.
  cbn [access_step] in E. destruct (is_lock e) eqn:Hl; [discriminate|].
  destruct (perform e s) as [x s1| | |] eqn:Ep; try discriminate. injection E as <- <-.
  cbn [disciplined unlocked] in Hd, Hu. destruct Hd as [Ha Hk]. rewrite (bind_ret _ _ _ _ _ Ep) in Hu.
  destruct (perform_stable e n s x s1 Hsk Ep) as [Hsk' Hpin].
  assert (Hh : next_hold h e = h) by (destruct e; try done; discriminate Hl).
  specialize (Hk x). rewrite Hh in Hk.
  assert (Hf' : forall id, v (BlockFile id) = if decide (h = OnFile id) then RWLock.Writing else RWLock.Idle).
  { intros id. destruct (Hf id) as [|(_ & _ & q & Hq)]; [done|]. apply locking_shape in Hq as (k' & Hq & _).
    exfalso. cbn in Hl. destruct e; try discriminate Hl; discriminate Hq. }
  split; [split; [done|by intros id; left]|]. split; [done|]. split; [done|]. split; [done|].
  intros iv d Hp Hv. apply Hpin; [done|]. rewrite Hf' in Hv. destruct e; try done; cbn in Ha.
  - apply Ha.
  - intros ->. subst h. by rewrite decide_True in Hv.
Qed.

(** What the invariant says of a thread. *)
Lemma linked_thread n k b c a i t :
  linked n k b c a -> threads c !! i = Some t ->
  exists q v, clients a !! i = Some q /\ sees (locks c) i v /\
    thread_ok n (Z.of_nat (b + asked (clients a))) (content a) (store c) t q v.
Proof.
  intros Hlk Hi. destruct (lk_threads _ _ _ _ _ Hlk) as (Ht & Hq & _).
  destruct (lookup_lt_is_Some_2 (clients a) i) as [q Eq]; [rewrite Hq, <- Ht; eapply lookup_lt_Some, Hi|].
  destruct (lk_thread _ _ _ _ _ Hlk i t q Hi Eq) as (v & Hv & Hok). by exists q, v.
Qed.

Lemma sim_call n k b (s : state DB) L ts i r a :
  linked n k (S b) (Config s L ts) a -> ts !! i = Some Resting -> op_ok n (request_op r) ->
  exists a', runs atomic_step a [Called i r] a' /\ linked n k b (Config s L (<[i := Serving (body r)]> ts)) a'.
Proof.
  intros Hlk Hi Hr. destruct (linked_thread _ _ _ _ _ _ _ Hlk Hi) as (q & v & Hq & Hv & Hok).
  destruct a as [m qs]. cbn in Hq, Hv, Hok. inversion Hok as [v' Hidle| | | |]; subst.
  pose proof (asked_insert qs i Quiet (Asked r) Hq) as Hc. cbn in Hc.
  exists (Atomic m (<[i := Asked r]> qs)). split; [apply (runs_one _ (Some _)); by constructor|].
  replace (S b) with (S b)%nat in Hlk by done. pose proof Hlk as [_ HL Hsk _ Hset]. cbn in HL, Hsk, Hset.
  assert (E : (b + asked (<[i := Asked r]> qs) = S b + asked qs)%nat) by lia.
  apply (linked_next n k (S b) b s s L L ts m m qs i Resting Quiet _ _ v Hlk Hi Hq HL Hsk Hv).
  - apply ok_asked; [done|left; apply Hidle|intros w _; apply Hidle].
  - intros j t0 q0 v0 Hj Hv0 Ht0. split; [done|]. by rewrite E.
  - by rewrite E.
Qed.

Lemma sim_return n k b0 b (s : state DB) L ts i w a :
  (b <= b0)%nat -> linked n k b0 (Config s L ts) a -> ts !! i = Some (Serving (Done w)) ->
  exists a', runs atomic_step a [Returned i w] a' /\ linked n k b (Config s L (<[i := Resting]> ts)) a'.
Proof.
  intros Hb Hlk Hi. destruct (linked_thread _ _ _ _ _ _ _ Hlk Hi) as (q & v & Hq & Hv & Hok).
  destruct a as [m qs]. cbn in Hq, Hv, Hok. inversion Hok as [|r v' Hr Hi' Hw Eb|a p v' Hrd|a p h v' sf Hh Hg Hd Hu Hs|a v' Hidle]; subst.
  - destruct (body_starts r) as (k0 & E & _). rewrite E in Eb. discriminate.
  - inversion Hrd.
  - cbn in Hd. congruence.
  - pose proof (asked_insert qs i (Answered w) Quiet Hq) as Hc. cbn in Hc.
    exists (Atomic m (<[i := Quiet]> qs)). split; [apply (runs_one _ (Some _)); by constructor|].
    pose proof Hlk as [_ HL Hsk _ Hset]. cbn in HL, Hsk, Hset.
    apply (linked_next n k b0 b s s L L ts m m qs i _ _ _ _ v Hlk Hi Hq HL Hsk Hv).
    + by apply ok_resting.
    + intros j t0 q0 v0 Hj Hv0 Ht0. split; [done|]. revert Ht0. apply thread_ok_same; [lia|by right].
    + intros Hn. eapply settled_less, Hset, Hn. lia.
Qed.

Lemma insert_same_pending (qs : list pending) (i : nat) q : qs !! i = Some q -> <[i := q]> qs = qs.
Proof. apply list_insert_id. Qed.

(** [linked_next] when the atomic map does nothing. *)
Lemma linked_silent n k b (s s' : state DB) L L' ts m qs i t q t' v' :
  linked n k b (Config s L ts) (Atomic m qs) ->
  ts !! i = Some t -> qs !! i = Some q ->
  locks_ok L' k -> skeleton n s' ->
  sees L' i v' -> thread_ok n (Z.of_nat (b + asked qs)) m s' t' q v' ->
  (forall j t0 q0 v, j <> i -> sees L j v -> thread_ok n (Z.of_nat (b + asked qs)) m s t0 q0 v ->
     sees L' j v /\ thread_ok n (Z.of_nat (b + asked qs)) m s' t0 q0 v) ->
  (nobody_writes L' -> settled n (Z.of_nat (b + asked qs)) m s') ->
  linked n k b (Config s' L' (<[i := t']> ts)) (Atomic m qs).
Proof.
  intros Hlk Hi Hq HL Hsk Hv Hok Hother Hset.
  rewrite <- (insert_same_pending qs i q Hq).
  apply (linked_next n k b b s s' L L' ts m m qs i t q t' q v' Hlk Hi Hq); by rewrite ?insert_same_pending.
Qed.

Lemma sim_access n k b (s s' : state DB) L ts i p p' a :
  linked n k b (Config s L ts) a -> ts !! i = Some (Serving p) -> access_step p s = Some (p', s') ->
  linked n k b (Config s' L (<[i := Serving p']> ts)) a.
Proof.
  intros Hlk Hi E. destruct (linked_thread _ _ _ _ _ _ _ Hlk Hi) as (q & v & Hq & Hv & Hok).
  destruct a as [m qs]. pose proof Hlk as [_ HL Hsk _ Hset]. cbn in Hq, Hv, Hok, HL, Hsk, Hset.
  inversion Hok as [|r v' Hr Hi' Hw Eb|a p0 v' Hrd|a p0 h v' sf Hh Hg Hd Hu Hs|a v' Hidle]; subst.
  - destruct (body_starts r) as (k0 & E0 & _). rewrite E0 in E. discriminate.
  - destruct (reading_access n (Z.of_nat (b + asked qs)) m s s' a p p' v Hrd Hsk) as (Hrd' & Hsame & Hs' & Hs); [|done|].
    { intros Hri. apply Hset. exact (reading_nobody L k i v HL Hv Hri). }
    apply (linked_silent n k b s s' L L ts m qs i _ _ _ v Hlk Hi Hq HL (skeleton_same _ _ _ Hsame Hsk) Hv).
    + by apply ok_reading.
    + intros j t0 q0 v0 Hj Hv0 Ht0. split; [done|]. revert Ht0. apply thread_ok_same; [done|].
      destruct (decide (v Index = RWLock.Reading)) as [Hri|Hri]; [left|right; by apply Hs].
      split; [done|]. intros Hw0. exact (sees_writing L j v0 Hv0 Hw0 (reading_nobody L k i v HL Hv Hri)).
    + intros Hn. destruct (decide (v Index = RWLock.Reading)) as [Hri|Hri]; [by apply Hs'|].
      rewrite (Hs Hri). by apply Hset.
  - destruct (writing_access n s s' sf a h p p' v Hh Hg Hd Hu Hsk E) as (Hh' & Hd' & Hu' & Hsk' & Hpin).
    pose proof (proj1 Hh) as Hwi.
    apply (linked_silent n k b s s' L L ts m qs i _ _ _ v Hlk Hi Hq HL Hsk' Hv).
    + by apply (ok_writing _ _ _ _ _ _ h _ sf).
    + intros j t0 q0 v0 Hj Hv0 Ht0. split; [done|]. revert Ht0.
      destruct (sees_excludes L k i j v v0 Index HL Hv Hv0 ltac:(done) Hwi) as [He1 He2].
      apply thread_ok_outside; [done|done|]. intros iv d Hrf Hp. apply Hpin; [done|]. intros Hwf.
      destruct (sees_excludes L k i j v v0 _ HL Hv Hv0 ltac:(done) Hwf); congruence.
    + intros Hn. destruct (sees_writing L i v Hv Hwi Hn).
  - discriminate E.
Qed.
End Simulation.

(** Steps on locks. *)
Section LockSteps.
Context {DB : Type} `{BerkeleyDBLaws DB}.

Lemma attempt_from ex t l l' t' : attempt ex t l = Some (l', t') -> t <> RWLock.Writing /\ t <> RWLock.Reading.
Proof. now destruct ex, t as [|[]| |[]|]. Qed.

(** Whoever gets the index lock: no writer was inside. *)
Lemma entered_nobody L k l lts i t l' t' ex :
  locks_ok (set_lock L Index (RWLock.Config l' (<[i := t']> lts))) k -> L Index = RWLock.Config l lts ->
  lts !! i = Some t -> t <> RWLock.Writing -> t' = inside ex -> nobody_writes L.
Proof.
  intros Hok E Hi Ht Ht' j Hj. destruct (Hok Index) as [Hinv _]. unfold set_lock in Hinv.
  rewrite decide_True in Hinv by done. rewrite E in Hj. cbn in Hj.
  assert (Hji : j <> i) by (intros ->; congruence).
  destruct (RWLock.writing_excludes _ j i t' Hinv) as [H1 H2]; [by cbn; rewrite list_lookup_insert_ne| |done|].
  - cbn. apply list_lookup_insert_eq. eapply lookup_lt_Some, Hi.
  - subst t'. by destruct ex.
Qed.

Lemma nobody_back_plain L l lts i t l' t' :
  L Index = RWLock.Config l lts -> lts !! i = Some t -> t <> RWLock.Writing ->
  nobody_writes (set_lock L Index (RWLock.Config l' (<[i := t']> lts))) -> nobody_writes L.
Proof. intros E Hi Ht. apply (nobody_back L l lts i t l' t' false E Hi Ht). Qed.

(** A request gets the index lock: it takes effect. *)
Lemma enter_index n k b (s : state DB) L ts m qs i r v l lts l' t p' :
  linked n k b (Config s L ts) (Atomic m qs) ->
  ts !! i = Some (Serving (body r)) -> qs !! i = Some (Asked r) -> sees L i v ->
  thread_ok n (Z.of_nat (b + asked qs)) m s (Serving (body r)) (Asked r) v ->
  locking (body r) = Some (exclusive r, Index, p') ->
  L Index = RWLock.Config l lts -> lts !! i = Some t -> t <> RWLock.Writing ->
  locks_ok (set_lock L Index (RWLock.Config l' (<[i := inside (exclusive r)]> lts))) k ->
  exists a', runs atomic_step (Atomic m qs) [] a' /\
    linked n k b (Config s (set_lock L Index (RWLock.Config l' (<[i := inside (exclusive r)]> lts))) (<[i := Serving p']> ts)) a'.
Proof.
  intros Hlk Hi Hq Hv Hok El EL Hit Ht HL'.
  assert (Hn : nobody_writes L) by exact (entered_nobody L k l lts i t l' _ (exclusive r) HL' EL Hit Ht eq_refl).
  pose proof (lk_settled _ _ _ _ _ Hlk Hn) as Hset. cbn in Hset. pose proof (settled_skeleton _ _ _ _ Hset) as Hsk.
  pose proof (asked_insert qs i _ (Answered (spec_op (request_op r) m).1) Hq) as Hc. cbn in Hc.
  inversion Hok as [|r0 v0 Hr Hidx Hothers Eb| | |]; subst. clear Eb.
  destruct (body_settled n _ m s r Hset Hr ltac:(lia)) as (s' & Eu & Hset').
  exists (Atomic (spec_op (request_op r) m).2 (<[i := Answered (spec_op (request_op r) m).1]> qs)).
  split; [apply (runs_one _ None); by constructor|].
  pose proof (sees_own L i v Index l l' lts (inside (exclusive r)) false EL Hv) as Hv'. cbn [RWLock.broadcast] in Hv'.
  destruct (body_starts r) as (k0 & Ebody & Hk0). rewrite Ebody in El, Eu. cbn in El. injection El as <-.
  cbn [unlocked perform] in Eu. rewrite ret_bind in Eu.
  apply (linked_next n k b b s s L _ ts m _ qs i _ _ _ _ _ Hlk Hi Hq HL' Hsk Hv').
  - destruct r as [key data|key|key]; cbn [exclusive inside] in *.
    + apply (ok_writing _ _ _ _ _ _ NoFile _ s'); try done; [|eapply settled_less, Hset'; lia].
      split; [apply put_same|]. intros id. left. rewrite put_other, decide_False by done. apply Hothers. done.
    + apply ok_reading. rewrite Hk0. apply rd_find; [|exact Hr]. intros w. unfold on_index.
      destruct (decide (w = Index)) as [->|]; [by rewrite !put_same|by rewrite !put_other, Hothers by done].
    + apply (ok_writing _ _ _ _ _ _ NoFile _ s'); try done; [|eapply settled_less, Hset'; lia].
      split; [apply put_same|]. intros id. left. rewrite put_other, decide_False by done. apply Hothers. done.
  - intros j t0 q0 v0 Hj Hv0 Ht0.
    pose proof (sees_other L i j v0 Index l l' lts (inside (exclusive r)) false EL ltac:(done) Hv0) as Hv0'.
    split; [exact Hv0'|]. revert Ht0. destruct (exclusive r) eqn:Ex.
    + destruct (sees_excludes _ k i j _ v0 Index HL' Hv' Hv0' ltac:(done)) as [He1 He2]; [apply put_same|].
      by apply thread_ok_outside.
    + destruct r; try discriminate Ex. apply thread_ok_same; [lia|by right].
  - intros Hn'. destruct (exclusive r) eqn:Ex; [|destruct r; try discriminate Ex; eapply settled_less, Hset; lia].
    destruct (sees_writing _ i _ Hv' ltac:(apply put_same) Hn').
Qed.

(** A thread moves in a lock, and nothing takes effect. *)
Lemma move_lock n k b (s : state DB) L ts m qs i q v w l lts l' t' bc t0 t2 :
  linked n k b (Config s L ts) (Atomic m qs) -> ts !! i = Some t0 -> qs !! i = Some q -> sees L i v ->
  L w = RWLock.Config l lts ->
  locks_ok (set_lock L w (RWLock.Config l' (RWLock.broadcast bc (<[i := t']> lts)))) k ->
  thread_ok n (Z.of_nat (b + asked qs)) m s t2 q (put v w (RWLock.wake t')) ->
  (nobody_writes (set_lock L w (RWLock.Config l' (RWLock.broadcast bc (<[i := t']> lts)))) ->
     settled n (Z.of_nat (b + asked qs)) m s) ->
  linked n k b (Config s (set_lock L w (RWLock.Config l' (RWLock.broadcast bc (<[i := t']> lts)))) (<[i := t2]> ts)) (Atomic m qs).
Proof.
  intros Hlk Hi Hq Hv EL HL' Hok Hset. pose proof (lk_skeleton _ _ _ _ _ Hlk) as Hsk. cbn in Hsk.
  apply (linked_silent n k b s s L _ ts m qs i t0 q t2 _ Hlk Hi Hq HL' Hsk (sees_own L i v w l l' lts t' bc EL Hv)); try done.
  intros j t1 q1 v1 Hj Hv1 Ht1. split; [by apply (sees_other L i j v1 w l l' lts t' bc EL)|done].
Qed.

Lemma move_lock_plain n k b (s : state DB) L ts m qs i q v w l lts l' t' t0 t2 :
  linked n k b (Config s L ts) (Atomic m qs) -> ts !! i = Some t0 -> qs !! i = Some q -> sees L i v ->
  L w = RWLock.Config l lts ->
  locks_ok (set_lock L w (RWLock.Config l' (<[i := t']> lts))) k ->
  thread_ok n (Z.of_nat (b + asked qs)) m s t2 q (put v w (RWLock.wake t')) ->
  (nobody_writes (set_lock L w (RWLock.Config l' (<[i := t']> lts))) -> settled n (Z.of_nat (b + asked qs)) m s) ->
  linked n k b (Config s (set_lock L w (RWLock.Config l' (<[i := t']> lts))) (<[i := t2]> ts)) (Atomic m qs).
Proof. apply (move_lock n k b s L ts m qs i q v w l lts l' t' false). Qed.

Lemma keep_thread (ts : list thread) i t : ts !! i = Some t -> <[i := t]> ts = ts.
Proof. apply list_insert_id. Qed.

Ltac stay := eexists; split; [apply runs_nil|]; split; [done|].

(** A thread that has taken effect asks for a lock of a block file: it gets it, or waits. *)
Lemma writing_asks n c m (s sf : state DB) a p h v ex w p' t' :
  holds h p v -> disciplined (eq Gone) h p -> unlocked p s = Ret a sf -> settled n c m sf ->
  locking p = Some (ex, w, p') -> t' = inside ex \/ (t' <> inside ex /\ RWLock.wake t' = waiting ex) ->
  thread_ok n c m s (Serving (if decide (t' = inside ex) then p' else p)) (Answered a) (put v w (RWLock.wake t')).
Proof.
  intros [Hwi Hwf] Hd Hu Hs El Hcase. pose proof El as El0. apply locking_shape in El as (k0 & -> & ->).
  destruct Hd as [(-> & -> & Hwn) Hk0]. cbn [unlocked perform] in Hu. rewrite ret_bind in Hu. destruct w as [|id]; [done|]. cbn [next_hold] in Hk0.
  destruct Hcase as [->|[Hne Hwake]].
  - rewrite decide_True by done. apply (ok_writing _ _ _ _ _ _ (OnFile id) _ sf); try done. split; [by rewrite put_other|].
    intros id'. left. destruct (decide (id' = id)) as [->|Hne]; [by rewrite put_same, decide_True|].
    rewrite put_other by congruence. rewrite decide_False by congruence.
    destruct (Hwf id') as [->|(_ & _ & p1 & E1)]; [by rewrite decide_False|]. cbn in E1. congruence.
  - rewrite decide_False by done. apply (ok_writing _ _ _ _ _ _ NoFile _ sf); try done.
    split; [by rewrite put_other|]. intros id'. destruct (decide (id' = id)) as [->|Hni].
    + right. rewrite put_same. split; [done|]. split; [exact Hwake|]. by exists (k0 tt).
    + rewrite put_other by congruence. destruct (Hwf id') as [Hi'|(_ & _ & p1 & E1)]; [by left|]. cbn in E1. congruence.
Qed.

Lemma reading_asks n c m (s : state DB) a p v ex w p' t' :
  reading n m s a p v -> locking p = Some (ex, w, p') -> t' = inside ex \/ (t' <> inside ex /\ RWLock.wake t' = waiting ex) ->
  thread_ok n c m s (Serving (if decide (t' = inside ex) then p' else p)) (Answered a) (put v w (RWLock.wake t')).
Proof.
  intros Hrd El Hcase.
  destruct Hrd as [key v Hx Hk0|a v Hx|iv d v Hx Hp|iv d v Hx Hf Hp|iv d v Hx Hp|iv d v Hx Hp|iv d v Hx Hp|a id v Hx];
    try discriminate El. cbn in El. injection El as <- <- <-.
  destruct Hcase as [->|[Hne Hwake]].
  - rewrite decide_True by done. apply ok_reading, (rd_leave _ _ _ iv d); [|done]. intros w. cbn [inside RWLock.wake].
    destruct (decide (w = BlockFile (block_id iv))) as [->|Hw]; [by rewrite !put_same|by rewrite !put_other, Hx].
  - rewrite decide_False by done. apply ok_reading, (rd_lock _ _ _ iv d); [intros w Hw; by rewrite put_other, Hx| |done].
    right. by rewrite put_same, Hwake.
Qed.

Lemma sim_lock n k b (s : state DB) L ts i p ex w p' l lts t l' t' a :
  linked n k b (Config s L ts) a -> ts !! i = Some (Serving p) -> locking p = Some (ex, w, p') ->
  L w = RWLock.Config l lts -> lts !! i = Some t -> attempt ex t l = Some (l', t') ->
  exists a', runs atomic_step a [] a' /\ (w <> Index -> a' = a) /\
    linked n k b (Config s (set_lock L w (RWLock.Config l' (<[i := t']> lts)))
      (if decide (t' = inside ex) then <[i := Serving p']> ts else ts)) a'.
Proof.
  intros Hlk Hi El EL Hit Ea. destruct (linked_thread _ _ _ _ _ _ _ Hlk Hi) as (q & v & Hq & Hv & Hok).
  destruct a as [m qs]. pose proof Hlk as [(_ & _ & Hk) HL Hsk _ Hset]. cbn in Hq, Hv, Hok, HL, Hsk, Hset.
  pose proof (locks_ok_step L k w _ _ Hk HL EL (attempt_step ex t l l' t' lts i Hit Ea)) as HL'.
  destruct (attempt_from _ _ _ _ _ Ea) as [Hnw Hnr]. pose proof (attempt_cases _ _ _ _ _ Ea) as Hcase.
  assert (Hback : nobody_writes (set_lock L w (RWLock.Config l' (<[i := t']> lts))) -> nobody_writes L).
  { destruct (decide (w = Index)) as [->|Hw]; [by apply (nobody_back_plain L l lts i t)|by apply nobody_other]. }
  assert (Hts : (if decide (t' = inside ex) then <[i := Serving p']> ts else ts) =
    <[i := Serving (if decide (t' = inside ex) then p' else p)]> ts) by (case_decide; [done|by rewrite keep_thread]).
  inversion Hok as [|r v' Hr Hidx Hw Eb|a p0 v' Hrd|a p0 h v' sf Hh Hg Hd Hu Hs|a v' Hidle]; subst.
  - assert (ex = exclusive r /\ w = Index) as [-> ->].
    { destruct (body_starts r) as (k0 & E & _). rewrite E in El. injection El as <- <- _. done. }
    destruct Hcase as [->|[Hne Hwake]].
    { rewrite decide_True by done.
      destruct (enter_index n k b s L ts m qs i r v l lts l' t p' Hlk Hi Hq Hv Hok El EL Hit Hnw HL') as (a' & Ha & Hl').
      by exists a'. }
    rewrite decide_False by done. rewrite <- (keep_thread ts i _ Hi). stay.
    apply (move_lock_plain n k b s L ts m qs i (Asked r) v Index l lts l' t' _ _ Hlk Hi Hq Hv EL HL'); [|by intros; apply Hset, Hback].
    apply ok_asked; [done|right; by rewrite put_same|]. intros w Hw'. by rewrite put_other, Hw.
  - rewrite Hts. stay. apply (move_lock_plain n k b s L ts m qs i _ v _ l lts l' _ _ _ Hlk Hi Hq Hv EL HL'); [|by intros; apply Hset, Hback].
    by apply reading_asks.
  - rewrite Hts. stay. apply (move_lock_plain n k b s L ts m qs i _ v _ l lts l' _ _ _ Hlk Hi Hq Hv EL HL'); [|by intros; apply Hset, Hback].
    by apply (writing_asks _ _ _ _ sf _ _ h).
  - discriminate El.
Qed.
End LockSteps.

Section Linearizability.
Context {DB : Type} `{BerkeleyDBLaws DB}.

Lemma sim_unlock n k b (s : state DB) L ts i p ex w p' l lts l' bc a :
  linked n k b (Config s L ts) a -> ts !! i = Some (Serving p) -> unlocking p = Some (ex, w, p') ->
  L w = RWLock.Config l lts -> lts !! i = Some (inside ex) -> release ex l = (l', bc) ->
  linked n k b (Config s (set_lock L w (RWLock.Config l' (RWLock.broadcast bc (<[i := RWLock.Idle]> lts))))
    (<[i := Serving p']> ts)) a.
Proof.
  intros Hlk Hi El EL Hit Er. destruct (linked_thread _ _ _ _ _ _ _ Hlk Hi) as (q & v & Hq & Hv & Hok).
  destruct a as [m qs]. pose proof Hlk as [(_ & _ & Hk) HL Hsk _ Hset]. cbn in Hq, Hv, Hok, HL, Hsk, Hset.
  pose proof (locks_ok_step L k w _ _ Hk HL EL (release_step ex l l' bc lts i Hit Er)) as HL'.
  assert (Hback : ex = false -> nobody_writes (set_lock L w (RWLock.Config l' (RWLock.broadcast bc (<[i := RWLock.Idle]> lts)))) -> nobody_writes L).
  { intros ->. destruct (decide (w = Index)) as [->|Hw]; [by apply (nobody_back L l lts i RWLock.Reading)|by apply nobody_other]. }
  inversion Hok as [|r v' Hr Hidx Hw Eb|a p0 v' Hrd|a p0 h v' sf Hh Hg Hd Hu Hs|a v' Hidle]; subst.
  - destruct (body_starts r) as (k0 & E & _). rewrite E in El. discriminate.
  - destruct Hrd as [key v Hx Hk0|a v Hx|iv d v Hx Hp|iv d v Hx Hf Hp|iv d v Hx Hp|iv d v Hx Hp|iv d v Hx Hp|a id v Hx];
      try discriminate El; cbn in El; injection El as <- <- <-;
      (apply (move_lock n k b s L ts m qs i _ v _ l lts l' _ bc _ _ Hlk Hi Hq Hv EL HL');
       [|by intros; apply Hset, Hback]).
    + apply ok_done. intros w. destruct (decide (w = Index)) as [->|Hw]; [by rewrite put_same|].
      rewrite put_other, Hx by done. unfold on_index. by rewrite put_other.
    + apply ok_reading, (rd_fd _ _ _ iv d); [|done]. intros w. unfold on_file.
      destruct (decide (w = Index)) as [->|Hw]; [by rewrite put_same, put_other|]. rewrite put_other, Hx by done.
      destruct (decide (w = BlockFile (block_id iv))) as [->|Hw']; [by rewrite !put_same|].
      unfold on_index. by rewrite !put_other.
    + apply ok_done. intros w. destruct (decide (w = BlockFile id)) as [->|Hw]; [by rewrite put_same|].
      rewrite put_other, Hx by done. unfold on_file. by rewrite put_other.
  - apply unlocking_shape in El as (k0 & -> & ->). destruct Hd as [(-> & ->) Hk0]. specialize (Hk0 tt).
    cbn [unlocked perform] in Hu. rewrite ret_bind in Hu. destruct Hh as [Hwi Hwf].
    assert (Hwf' : forall id, v (BlockFile id) = RWLock.Idle \/ (BlockFile id = w /\ v (BlockFile id) = RWLock.Writing)).
    { intros id. destruct (Hwf id) as [Hx|(_ & _ & p1 & E1)]; [|cbn in E1; congruence].
      case_decide as Hd; [right|by left]. split; [|done]. destruct w; congruence. }
    destruct w as [|id]; cbn [next_hold] in Hk0;
      apply (move_lock n k b s L ts m qs i _ v _ l lts l' _ bc _ _ Hlk Hi Hq Hv EL HL').
    + destruct (k0 tt) as [x|X e k1| |]; try discriminate Hu.
      * injection Hu as -> ->. apply ok_done. intros w. destruct (decide (w = Index)) as [->|Hw]; [by rewrite put_same|].
        rewrite put_other by done. destruct w as [|id]; [done|]. by destruct (Hwf' id) as [|[]].
      * exfalso. destruct Hk0 as [Ha _]. destruct e; cbn in Ha; destruct_and?; try done. by destruct w.
    + intros _. destruct (k0 tt) as [x|X e k1| |]; try discriminate Hu; [by injection Hu as -> ->|].
      exfalso. destruct Hk0 as [Ha _]. destruct e; cbn in Ha; destruct_and?; try done. by destruct w.
    + apply (ok_writing _ _ _ _ _ _ NoFile _ sf); try done. split; [by rewrite put_other|]. intros id'. left.
      rewrite decide_False by done. destruct (decide (id' = id)) as [->|Hne]; [by rewrite put_same|].
      rewrite put_other by congruence. destruct (Hwf' id') as [|[E _]]; [done|congruence].
    + intros Hn. destruct (sees_writing L i v Hv Hwi). by apply nobody_other in Hn.
  - discriminate El.
Qed.

Lemma sim_spurious n k b c c' (a : atomic) :
  spurious (DB := DB) c c' -> linked n k b c a -> linked n k b c' a.
Proof.
  intros [s L ts w l lts i t EL Hi] [(Ht & Hq & Hk) HL Hsk Hth Hset]. cbn in *.
  split; cbn; try done.
  - apply (locks_ok_step L k w _ _ Hk HL EL). by apply RWLock.step_spurious.
  - intros j t0 q0 Hj Hqj. destruct (Hth j t0 q0 Hj Hqj) as (v & Hv & Hok). exists v. split; [|done].
    by apply (sees_spurious L i j v w l lts t).
  - intros Hn. apply Hset. destruct (decide (w = Index)) as [->|Hw]; [|by apply (nobody_other L w (RWLock.Config l (<[i := RWLock.wake t]> lts)))].
    intros j Hj. specialize (Hn j). unfold set_lock in Hn. rewrite decide_True in Hn by done. rewrite EL in Hj. cbn in *.
    destruct (decide (j = i)) as [->|Hne]; [|by rewrite list_lookup_insert_ne in Hn].
    rewrite Hi in Hj. injection Hj as ->. apply Hn, list_lookup_insert_eq. eapply lookup_lt_Some, Hi.
Qed.

(** Every move is simulated by the atomic map. *)
Lemma moves_simulated n k b o c c' (a : atomic) :
  moves (DB := DB) o c c' -> (forall e, o = Some e -> event_ok n e) ->
  linked n k (length (option_list o) + b) c a ->
  exists a', runs atomic_step a (option_list o) a' /\ linked n k b c' a'.
Proof.
  intros [Hs|[-> Hs]] Hok Hlk; [|exists a; split; [apply runs_nil|by apply (sim_spurious n k b c)]].
  destruct Hs as [s L ts i r Hi|s L ts i w Hi|s L ts i p p' s' Hi E|s L ts i p ex w p' l lts t l' t' Hi El EL Hit Ea
    |s L ts i p ex w p' l lts l' bc Hi El EL Hit Er].
  - exact (sim_call n k b s L ts i r a Hlk Hi (Hok _ eq_refl)).
  - exact (sim_return n k (S b) b s L ts i w a ltac:(lia) Hlk Hi).
  - exists a. split; [apply runs_nil|exact (sim_access n k b s s' L ts i p p' a Hlk Hi E)].
  - destruct (sim_lock n k b s L ts i p ex w p' l lts t l' t' a Hlk Hi El EL Hit Ea) as (a' & Ha & _ & Hl). by exists a'.
  - exists a. split; [apply runs_nil|exact (sim_unlock n k b s L ts i p ex w p' l lts l' bc a Hlk Hi El EL Hit Er)].
Qed.

Lemma asked_quiet k : asked (replicate k Quiet) = 0%nat.
Proof. by induction k. Qed.

Lemma start_linked n k b (s : state DB) m :
  settled n (Z.of_nat b) m s -> Z.of_nat k + 1 < 2 ^ 64 -> linked n k b (start k s) (atomic_start k m).
Proof.
  intros Hs Hk. split; cbn.
  - by rewrite !length_replicate.
  - intros w. split; [apply RWLock.init_inv|apply length_replicate].
  - exact (settled_skeleton _ _ _ _ Hs).
  - intros i t q [-> Hi]%lookup_replicate [-> _]%lookup_replicate. exists idle.
    split; [by apply sees_start|]. by apply ok_resting.
  - intros _. by rewrite asked_quiet, Nat.add_0_r.
Qed.

(** In a history of at most [b] events the invariant never breaks. *)
Lemma history_linked n k b (s : state DB) m h c :
  settled n (Z.of_nat b) m s -> Z.of_nat k + 1 < 2 ^ 64 -> (length h <= b)%nat -> Forall (event_ok n) h ->
  runs moves (start k s) h c ->
  exists a, runs atomic_step (atomic_start k m) h a /\ linked n k (b - length h) c a.
Proof.
  intros Hs Hk Hh Hok Hr.
  apply (runs_simulation moves atomic_step (event_ok n) (linked n k)
    (fun n' o c c' a Hm Ho Hl => moves_simulated n k n' o c c' a Hm Ho Hl) _ _ _ Hr Hok).
  replace (length h + (b - length h))%nat with b by lia. by apply start_linked.
Qed.

(** When every thread rests, every request has been answered. *)
Lemma resting_settled n k b c (a : atomic) :
  linked n k b c a -> resting c -> Forall (eq Quiet) (clients a) /\ settled n (Z.of_nat b) (content a) (store c).
Proof.
  intros Hlk Hrest. destruct (lk_threads _ _ _ _ _ Hlk) as (Ht & Hq & _).
  assert (Hall : forall i t q, threads c !! i = Some t -> clients a !! i = Some q ->
            q = Quiet /\ sees (locks c) i idle).
  { intros i t q Hi Hqi. destruct (lk_thread _ _ _ _ _ Hlk i t q Hi Hqi) as (v & Hv & Hok).
    pose proof (proj1 (Forall_lookup _ _) Hrest i t Hi) as <-. inversion Hok as [v' Hv'| | | |]; subst.
    split; [done|]. by apply (sees_ext _ _ v). }
  assert (Hquiet : Forall (eq Quiet) (clients a)).
  { apply Forall_lookup. intros i q Hqi.
    destruct (lookup_lt_is_Some_2 (threads c) i) as [t Hi]; [rewrite Ht, <- Hq; eapply lookup_lt_Some, Hqi|].
    symmetry. by apply (Hall i t q). }
  split; [done|]. assert (E : asked (clients a) = 0%nat).
  { clear -Hquiet. induction Hquiet as [|q qs <- _ IH]; done. }
  pose proof (lk_settled _ _ _ _ _ Hlk) as Hs. rewrite E, Nat.add_0_r in Hs. apply Hs.
  intros i Hi. destruct (lk_locks _ _ _ _ _ Hlk Index) as [_ Hlen].
  assert (Hlt : (i < k)%nat) by (rewrite <- Hlen; eapply lookup_lt_Some, Hi).
  destruct (lookup_lt_is_Some_2 (threads c) i) as [t Hti]; [lia|].
  destruct (lookup_lt_is_Some_2 (clients a) i) as [q Hqi]; [lia|].
  destruct (Hall i t q Hti Hqi) as [_ Hv]. specialize (Hv Index). rewrite Hi in Hv. discriminate.
Qed.

End Linearizability.

End Linear.
