(* ===== verification/Progress.v ===== *)
(** The threads of [Interleave] cannot block each other for good: from every
    configuration they reach, they can go on until every call has returned. *)

From Stdlib Require Import ZArith Lia.
From stdpp Require Import base numbers list gmap.
From S2P Require Import Prelude RWLock IndexTypes IndexLog Bdb Storage.
From S2P Require Import StorageRefine StorageThreads Interleave Linear.

Module Progress.
Import IndexTypes Storage StorageRefine StorageThreads Interleave Linear.

(** ** Locks that let a thread in *)

Lemma count_none p lts : (forall j t, lts !! j = Some t -> p t = false) -> RWLock.countb p lts = 0.
Proof.
  intros Hp. pose proof (RWLock.countb_nonneg p lts). destruct (Z.eq_dec (RWLock.countb p lts) 0) as [|Hne]; [done|].
  destruct (RWLock.countb_pos p lts ltac:(lia)) as (j & t & Hj & Ht). rewrite (Hp j t Hj) in Ht. discriminate.
Qed.

(** With nobody writing, a reader gets in as soon as it runs. *)
Lemma reader_enters l lts i t :
  RWLock.inv (RWLock.Config l lts) -> (forall j, lts !! j <> Some RWLock.Writing) ->
  lts !! i = Some t -> RWLock.wake t = RWLock.Idle \/ RWLock.wake t = RWLock.RWait true ->
  exists l', attempt false t l = Some (l', RWLock.Reading).
Proof.
  intros [_ Hw _ _ _ Hsr _] Hno Hi Ht. cbn in *.
  rewrite (count_none RWLock.is_writing lts) in Hw by (intros j [| | | |] Hj; try done; by destruct (Hno j)).
  assert (Hb : forall l1, RWLock.write_queue_len l1 = RWLock.write_queue_len l -> RWLock.rdlock_blocked l1 = false).
  { intros l1 E. unfold RWLock.rdlock_blocked. apply Z.ltb_ge. lia. }
  destruct t as [|[]| |a|]; try (by destruct Ht).
  - eexists. cbn. by rewrite Hb.
  - eexists. cbn. by rewrite Hb.
  - pose proof (RWLock.countb_lookup RWLock.asleep_r lts i _ Hi eq_refl). lia.
Qed.

(** With nobody else in the lock, a writer gets in. *)
Lemma writer_enters l lts i t :
  RWLock.inv (RWLock.Config l lts) ->
  (forall j u, lts !! j = Some u -> RWLock.is_reader u = false /\ RWLock.is_writing u = false) ->
  lts !! i = Some t -> RWLock.wake t = RWLock.Idle \/ RWLock.wake t = RWLock.WWait true ->
  exists l', attempt true t l = Some (l', RWLock.Writing).
Proof.
  intros [Hr Hw _ _ _ _ Hsw] Hno Hi Ht. cbn in *.
  rewrite (count_none RWLock.is_writing lts) in Hw by (intros j u Hj; exact (proj2 (Hno j u Hj))).
  rewrite (count_none RWLock.is_reader lts) in Hr by (intros j u Hj; exact (proj1 (Hno j u Hj))).
  assert (Hb : forall l1, RWLock.write_queue_len l1 = RWLock.write_queue_len l ->
            RWLock.read_queue_len l1 = RWLock.read_queue_len l -> RWLock.wrlock_blocked l1 = false).
  { intros l1 E1 E2. unfold RWLock.wrlock_blocked. rewrite orb_false_iff, !Z.ltb_ge. lia. }
  destruct t as [|a| |[]|]; try (by destruct Ht).
  - eexists. cbn. by rewrite Hb.
  - eexists. cbn. by rewrite Hb.
  - pose proof (RWLock.countb_lookup RWLock.asleep_w lts i _ Hi eq_refl) as Hp. destruct (Hsw Hp); lia.
Qed.

(** ** A thread that is inside goes on to its end *)

Definition child (p' p : prog reply) : Prop := match p with Then _ k => exists x, p' = k x | _ => False end.
Lemma child_wf : well_founded child.
Proof.
  intros p. induction p as [a|X e k IH| |]; apply Acc_intro; intros p' Hc; cbn in Hc; try contradiction.
  destruct Hc as [x ->]. apply IH.
Qed.

Section Progress.
Context {DB : Type} `{BerkeleyDBLaws DB}.

Lemma access_child p (s : state DB) p' s' : access_step p s = Some (p', s') -> child p' p.
Proof.
  destruct p as [a|X e k| |]; try done. cbn. destruct (is_lock e); [done|].
  destruct (perform e s); try done. intros [= <- _]. eauto.
Qed.
Lemma locking_child p ex w p' : locking p = Some (ex, w, p') -> child p' p.
Proof. intros (k & -> & ->)%locking_shape. cbn. eauto. Qed.
Lemma unlocking_child p ex w p' : unlocking p = Some (ex, w, p') -> child p' p.
Proof. intros (k & -> & ->)%unlocking_shape. cbn. eauto. Qed.

(** What thread [i], seeing [v], can do next when it has been let in. *)
Inductive next_move (s : state DB) (p : prog reply) (v : view) : Prop :=
  | mv_done a : p = Done a -> next_move s p v
  | mv_access p' s' : access_step p s = Some (p', s') -> next_move s p v
  | mv_read id p' : locking p = Some (false, BlockFile id, p') -> v Index = RWLock.Reading ->
      v (BlockFile id) = RWLock.Idle \/ v (BlockFile id) = RWLock.RWait true -> next_move s p v
  | mv_write id p' : locking p = Some (true, BlockFile id, p') -> v Index = RWLock.Writing ->
      v (BlockFile id) = RWLock.Idle \/ v (BlockFile id) = RWLock.WWait true -> next_move s p v
  | mv_unlock ex w p' : unlocking p = Some (ex, w, p') -> v w = inside ex -> next_move s p v.

Lemma reading_moves n c m (s : state DB) a p v :
  reading n m s a p v -> skeleton n s -> (v Index = RWLock.Reading -> settled n c m s) -> next_move s p v.
Proof.
  intros Hrd Hsk Hset.
  destruct Hrd as [key v Hv Hk|a v Hv|iv d v Hv Hp|iv d v Hv Hf Hp|iv d v Hv Hp|iv d v Hv Hp|iv d v Hv Hp|a id v Hv].
  - destruct (find_settled n c m s key) as (f & s1 & E1 & _); [apply Hset; by rewrite (Hv _)|done|].
    eapply mv_access. cbn [access_step is_lock]. by rewrite E1.
  - apply (mv_unlock _ _ _ false Index (Done a)); [done|]. by rewrite (Hv _).
  - eapply mv_access. cbn. unfold next_alloc. by rewrite (sk_allocs _ _ Hsk).
  - eapply mv_read; [reflexivity|by rewrite Hv|done].
  - eapply mv_unlock; [reflexivity|]. by rewrite (Hv _).
  - pose proof Hp as (Hb & _). destruct (sk_files _ _ Hsk _ Hb) as (fh & f & Hl & _).
    eapply mv_access. cbn. unfold field, bind, handler.
    rewrite (proj2 (Z.ltb_ge _ _)), Hl by lia. reflexivity.
  - eapply mv_access. cbn. unfold pread, file_of, next_io, bind, get, ret. cbn. rewrite (sk_io _ _ Hsk). reflexivity.
  - eapply mv_unlock; [reflexivity|]. rewrite (Hv _). apply put_same.
Qed.

Lemma writing_moves (s sf : state DB) a h p v :
  holds h p v -> h <> Gone -> disciplined (eq Gone) h p -> unlocked p s = Ret a sf -> next_move s p v.
Proof.
  intros [Hi Hf] Hg Hd Hu. destruct p as [x|X e k| |]; try discriminate Hu.
  - by eapply mv_done.
  - destruct (is_lock e) eqn:El.
    + destruct Hd as [Ha _]. destruct e as [ex w|ex w| | | | | | | | | | | | | | | | | | | |]; try discriminate El; cbn in Ha.
      * destruct Ha as (-> & -> & Hw). destruct w as [|id]; [done|].
        eapply mv_write; [reflexivity|done|]. destruct (Hf id) as [Hx|(_ & Hx & _)]; [left|by right].
        by rewrite decide_False in Hx.
      * destruct Ha as [-> ->]. eapply mv_unlock; [reflexivity|]. destruct w as [|id]; [done|].
        destruct (Hf id) as [Hx|(Hx & _)]; [|done]. by rewrite decide_True in Hx.
    + cbn [unlocked] in Hu. unfold bind in Hu. destruct (perform e s) as [x s1| | |] eqn:E; try discriminate.
      eapply (mv_access _ _ _ (k x) s1). cbn [access_step]. by rewrite El, E.
Qed.

Lemma view_tstate L i v w l lts : sees L i v -> L w = RWLock.Config l lts -> exists t, lts !! i = Some t /\ RWLock.wake t = v w.
Proof.
  intros Hv EL. specialize (Hv w). rewrite EL in Hv. cbn in Hv. destruct (lts !! i) as [t|]; [|done].
  exists t. split; [done|]. cbn in Hv. congruence.
Qed.

(** The thread behind an entry of a lock. *)
Lemma lock_member n k b c (a : atomic) w l lts j u :
  linked (DB := DB) n k b c a -> locks c w = RWLock.Config l lts -> lts !! j = Some u ->
  exists t q v, threads c !! j = Some t /\ clients a !! j = Some q /\ sees (locks c) j v /\ v w = RWLock.wake u /\
    thread_ok n (Z.of_nat (b + asked (clients a))) (content a) (store c) t q v.
Proof.
  intros Hlk EL Hj. destruct (lk_locks _ _ _ _ _ Hlk w) as [_ Hlen]. rewrite EL in Hlen. cbn in Hlen.
  destruct (lk_threads _ _ _ _ _ Hlk) as (Hlt & _).
  destruct (lookup_lt_is_Some_2 (threads c) j) as [t Ht]; [rewrite Hlt, <- Hlen; eapply lookup_lt_Some, Hj|].
  destruct (linked_thread _ _ _ _ _ j t Hlk Ht) as (q & v & Hq & Hv & Hok).
  destruct (view_tstate _ _ _ _ _ _ Hv EL) as (u' & Hu & Hwu). rewrite Hj in Hu. injection Hu as <-.
  by exists t, q, v.
Qed.

(** The thread's own steps do not disturb the condition under which it runs: a
    writer of the index is alone in the block files. *)
Definition calm (L : lock_table) (i : nat) : Prop :=
  forall j v v' id, j <> i -> sees L i v -> v Index = RWLock.Writing -> sees L j v' -> v' (BlockFile id) = RWLock.Idle.

Lemma calm_move n k b c (a : atomic) i v w l l' lts t' bc :
  linked (DB := DB) n k b c a -> calm (locks c) i -> sees (locks c) i v -> locks c w = RWLock.Config l lts ->
  (w = Index -> RWLock.wake t' <> RWLock.Writing) ->
  calm (set_lock (locks c) w (RWLock.Config l' (RWLock.broadcast bc (<[i := t']> lts)))) i.
Proof.
  intros Hlk Hcalm Hv EL Ht j v1 v' id Hj Hv1 Hw Hv'.
  pose proof (sees_same _ _ _ _ Hv1 (sees_own _ i v w l l' lts t' bc EL Hv)) as Hsame.
  assert (Hwi : v Index = RWLock.Writing).
  { rewrite (Hsame Index) in Hw. destruct (decide (w = Index)) as [->|Hne]; [|by rewrite put_other in Hw].
    rewrite put_same in Hw. by destruct (Ht eq_refl). }
  assert (Hj' : exists u, lts !! j = Some u).
  { specialize (Hv' w). unfold set_lock in Hv'. rewrite decide_True in Hv' by done. cbn in Hv'.
    destruct bc; cbn [RWLock.broadcast] in Hv'; rewrite ?list_lookup_fmap, list_lookup_insert_ne in Hv' by done;
      destruct (lts !! j); eauto; discriminate. }
  destruct Hj' as [u Hu]. destruct (lock_member _ _ _ _ _ _ _ _ j u Hlk EL Hu) as (tj & qj & v0 & _ & _ & Hv0 & _).
  rewrite (sees_same _ _ _ _ Hv' (sees_other _ i j v0 w l l' lts t' bc EL ltac:(done) Hv0)).
  exact (Hcalm j v v0 id Hj Hv Hwi Hv0).
Qed.

(** Whoever writes a block file writes the index. *)
Lemma file_writer n c m (s : state DB) t q v id :
  thread_ok n c m s t q v -> v (BlockFile id) = RWLock.Writing -> v Index = RWLock.Writing.
Proof.
  intros Hok Hw. destruct Hok as [v Hv|r v Hr Hi Ho|a p v Hrd|a p h v sf Hh Hg Hd Hu Hs|a v Hv].
  - by rewrite (Hv _) in Hw.
  - by rewrite Ho in Hw.
  - exfalso. destruct Hrd as [key v Hv Hk|a v Hv|iv d v Hv Hp|iv d v Hv Hf Hp|iv d v Hv Hp|iv d v Hv Hp|iv d v Hv Hp|a id' v Hv].
    4: { destruct (decide (BlockFile id = BlockFile (block_id iv))) as [E|Hne]; [rewrite E in Hw; destruct Hf; congruence|].
         rewrite Hv in Hw by done. unfold on_index in Hw. by rewrite put_other in Hw. }
    all: rewrite (Hv _) in Hw; unfold on_index, on_file, put in Hw; repeat case_decide; done.
  - apply Hh.
  - by rewrite (Hv _) in Hw.
Qed.

Lemma holder_step n k b c (a : atomic) i p ans :
  linked (DB := DB) n k b c a -> threads c !! i = Some (Serving p) -> clients a !! i = Some (Answered ans) ->
  calm (locks c) i ->
  (exists w, p = Done w) \/
  exists p' c', child p' p /\ step None c c' /\ linked n k b c' a /\
    threads c' = <[i := Serving p']> (threads c) /\ calm (locks c') i.
Proof.
  intros Hlk Hi Hq Hcalm. destruct (linked_thread _ _ _ _ _ _ _ Hlk Hi) as (q & v & Hq' & Hv & Hok).
  rewrite Hq in Hq'. injection Hq' as <-. pose proof (lk_locks _ _ _ _ _ Hlk) as HL.
  assert (Hmv : next_move (store c) p v).
  { inversion Hok as [| |a' p' v' Hrd|a' p' h v' sf Hh Hg Hd Hu Hs|a' v' Hidle]; subst.
    - apply (reading_moves n (Z.of_nat (b + asked (clients a))) _ _ _ _ _ Hrd (lk_skeleton _ _ _ _ _ Hlk)). intros Hri.
      exact (lk_settled _ _ _ _ _ Hlk (reading_nobody _ k i v HL Hv Hri)).
    - by apply (writing_moves _ sf ans h).
    - by eapply mv_done. }
  destruct c as [s L ts]. cbn [locks threads store] in *.
  destruct Hmv as [w ->|p' s' E|id p' E Hri Hf|id p' E Hwi Hf|ex w p' E Hw]; [left; eauto|right..].
  - exists p', (Config s' L (<[i := Serving p']> ts)). split; [exact (access_child p s p' s' E)|].
    split; [by apply (step_access s L ts i p)|]. split; [by apply (sim_access n k b s s' L ts i p)|]. done.
  - destruct (L (BlockFile id)) as [l lts] eqn:EL. destruct (view_tstate _ _ _ _ _ _ Hv EL) as (t & Ht & Hwt).
    destruct (reader_enters l lts i t) as [l' Ea]; [rewrite <- EL; apply HL| |done|by rewrite Hwt|].
    { intros j Hj. destruct (lock_member _ _ _ _ _ _ _ _ j _ Hlk EL Hj) as (tj & qj & vj & _ & _ & Hvj & Hwu & Hokj).
      pose proof (file_writer _ _ _ _ _ _ _ id Hokj Hwu) as Hwj.
      exact (sees_writing L j vj Hvj Hwj (reading_nobody L k i v HL Hv Hri)). }
    eexists p', _. split; [exact (locking_child _ _ _ _ E)|]. split; [by eapply step_lock|].
    destruct (sim_lock n k b s L ts i p false _ p' l lts t l' _ a Hlk Hi E EL Ht Ea) as (a' & _ & Ha & Hl').
    rewrite Ha in Hl' by done. split; [exact Hl'|]. rewrite decide_True by done. split; [done|].
    by apply (calm_move n k b (Config s L ts) a i v (BlockFile id) l l' lts RWLock.Reading false).
  - destruct (L (BlockFile id)) as [l lts] eqn:EL. destruct (view_tstate _ _ _ _ _ _ Hv EL) as (t & Ht & Hwt).
    destruct (writer_enters l lts i t) as [l' Ea]; [rewrite <- EL; apply HL| |done|by rewrite Hwt|].
    { intros j u Hj. destruct (decide (j = i)) as [->|Hne].
      { rewrite Ht in Hj. injection Hj as ->. rewrite <- Hwt in Hf. destruct u as [|[]| |[]|]; cbn in Hf; destruct Hf; done. }
      destruct (lock_member _ _ _ _ _ _ _ _ j _ Hlk EL Hj) as (tj & qj & vj & _ & _ & Hvj & Hwu & _).
      rewrite (Hcalm j v vj id Hne Hv Hwi Hvj) in Hwu. by destruct u as [|[]| |[]|]. }
    eexists p', _. split; [exact (locking_child _ _ _ _ E)|]. split; [by eapply step_lock|].
    destruct (sim_lock n k b s L ts i p true _ p' l lts t l' _ a Hlk Hi E EL Ht Ea) as (a' & _ & Ha & Hl').
    rewrite Ha in Hl' by done. split; [exact Hl'|]. rewrite decide_True by done. split; [done|].
    by apply (calm_move n k b (Config s L ts) a i v (BlockFile id) l l' lts RWLock.Writing false).
  - destruct (L w) as [l lts] eqn:EL. destruct (view_tstate _ _ _ _ _ _ Hv EL) as (t & Ht & Hwt).
    rewrite Hw in Hwt. apply wake_inside in Hwt as ->. destruct (release ex l) as [l' bc] eqn:Er.
    eexists p', _. split; [exact (unlocking_child _ _ _ _ E)|]. split; [by eapply step_unlock|].
    split; [by apply (sim_unlock n k b s L ts i p ex w p' l lts l' bc)|]. split; [done|].
    by apply (calm_move n k b (Config s L ts) a i v w l l' lts RWLock.Idle bc).
Qed.

(** ** Every call returns *)

Definition is_return (e : event) : Prop := match e with Returned _ _ => True | Called _ _ => False end.

(** A thread that was let in runs to its end and returns. *)
Lemma finish n k b p c (a : atomic) i ans :
  linked (DB := DB) n k b c a -> threads c !! i = Some (Serving p) -> clients a !! i = Some (Answered ans) ->
  calm (locks c) i ->
  exists w c' a', runs step c [Returned i w] c' /\ linked n k b c' a' /\ threads c' = <[i := Resting]> (threads c).
Proof.
  revert c. induction p as [p IH] using (well_founded_induction child_wf). intros c Hlk Hi Hq Hcalm.
  destruct (holder_step n k b c a i p ans Hlk Hi Hq Hcalm) as [[w ->]|(p' & c1 & Hc & Hs & Hlk1 & Ht1 & Hcalm1)].
  - destruct c as [s L ts]. cbn in Hi.
    destruct (sim_return n k b b s L ts i w a ltac:(lia) Hlk Hi) as (a' & _ & Hlk').
    eexists w, _, a'. split; [exact (runs_one step (Some _) _ _ (step_return s L ts i w Hi))|by split].
  - destruct (IH p' Hc c1 Hlk1) as (w & c' & a' & Hr & Hlk' & Ht'); [|done|done|].
    { rewrite Ht1. apply list_lookup_insert_eq. eapply lookup_lt_Some, Hi. }
    exists w, c', a'. split; [by eapply runs_silent|]. split; [done|]. by rewrite Ht', Ht1, list_insert_insert_eq.
Qed.

Lemma search {X} (P : nat -> X -> Prop) (l : list X) :
  (forall i x, P i x \/ ~ P i x) ->
  (exists i x, l !! i = Some x /\ P i x) \/ (forall i x, l !! i = Some x -> ~ P i x).
Proof.
  revert P. induction l as [|y l IH]; intros P Hd; [by right|].
  destruct (Hd 0%nat y) as [Hy|Hy]; [left; by exists 0%nat, y|].
  destruct (IH (fun i => P (S i)) (fun i => Hd (S i))) as [(i & x & Hi & Hx)|Hno]; [left; by exists (S i), x|right].
  intros [|i] x Hi; [by injection Hi as <-|by apply (Hno i)].
Qed.

(** The threads that were let in to the index without writing, and all of them. *)
Definition let_in (a : atomic) (i : nat) (t : thread) : Prop :=
  t <> Resting /\ exists ans, clients a !! i = Some (Answered ans).
Lemma let_in_dec a i t : let_in a i t \/ ~ let_in a i t.
Proof.
  unfold let_in. destruct t as [|p]; [right; by intros []|].
  destruct (clients a !! i) as [[|r|ans]|]; try (right; by intros [_ [? ?]]). left. split; [done|eauto].
Qed.

Lemma finish_one n k b c (a : atomic) :
  linked (DB := DB) n k b c a -> (exists i t, threads c !! i = Some t /\ let_in a i t) ->
  exists w c' a' i, runs step c [Returned i w] c' /\ linked n k b c' a' /\
    threads c' = <[i := Resting]> (threads c) /\ exists p, threads c !! i = Some (Serving p).
Proof.
  intros Hlk Hsome.
  assert (Hgo : forall i t, threads c !! i = Some t -> let_in a i t -> calm (locks c) i ->
    exists w c' a' i, runs step c [Returned i w] c' /\ linked n k b c' a' /\
      threads c' = <[i := Resting]> (threads c) /\ exists p, threads c !! i = Some (Serving p)).
  { intros i [|p] Hi [Hne [ans Hq]] Hcalm; [done|].
    destruct (finish n k b p c a i ans Hlk Hi Hq Hcalm) as (w & c' & a' & Hr & Hlk' & Ht).
    exists w, c', a', i. do 3 (split; [done|]). by exists p. }
  destruct (search (fun i t => let_in a i t /\ RWLock.threads (locks c Index) !! i <> Some RWLock.Writing) (threads c))
    as [(i & t & Hi & Hin & Hnw)|Hno].
  { intros i t. destruct (let_in_dec a i t); [|right; by intros []].
    destruct (decide (RWLock.threads (locks c Index) !! i = Some RWLock.Writing)); [right; by intros []|by left]. }
  - apply (Hgo i t Hi Hin). intros j v v' id _ Hv Hw. destruct Hnw. specialize (Hv Index). rewrite Hw in Hv.
    destruct (RWLock.threads (locks c Index) !! i) as [u|]; [|done]. injection Hv as Hv. by apply (wake_inside true) in Hv as ->.
  - destruct Hsome as (i & t & Hi & Hin). apply (Hgo i t Hi Hin). intros j v v' id Hj Hv Hw Hv'.
    destruct (locks c Index) as [l lts] eqn:EL. destruct (view_tstate _ _ _ _ _ _ Hv' EL) as (u & Hu & Hwu).
    destruct (lock_member _ _ _ _ _ _ _ _ j u Hlk EL Hu) as (tj & qj & v0 & Htj & Hqj & Hv0 & _ & Hok).
    rewrite (sees_same _ _ _ _ Hv' Hv0).
    destruct (sees_excludes _ k i j v v0 Index (lk_locks _ _ _ _ _ Hlk) Hv Hv0 ltac:(done) Hw) as [Hx1 Hx2].
    inversion Hok as [v1 Hv1|r v1 Hr Hix Ho|a1 p v1 Hrd|a1 p h v1 sf Hh Hg Hd Hu1 Hs|a1 v1 Hv1]; subst; try (by apply Hv1).
    + by apply Ho.
    + destruct (Hno j _ Htj). split; [split; [done|by exists a1]|]. cbn. rewrite Hu. intros [= ->].
      apply Hx2. rewrite <- (sees_same _ _ _ _ Hv' Hv0), <- Hwu. done.
    + by destruct Hx2; apply Hh.
Qed.

(** When nobody was let in, somebody gets in. *)
Lemma enter_thread n k b c (a : atomic) j p r v l lts u :
  linked (DB := DB) n k b c a -> threads c !! j = Some (Serving p) -> p = body r -> sees (locks c) j v ->
  locks c Index = RWLock.Config l lts -> lts !! j = Some u ->
  (exists l', attempt (exclusive r) u l = Some (l', inside (exclusive r))) ->
  exists c' a' t, step None c c' /\ linked n k b c' a' /\ threads c' = <[j := t]> (threads c) /\ let_in a' j t.
Proof.
  intros Hlk Hj -> Hv EL Hu [l' Ea]. destruct (body_starts (DB := DB) r) as (k0 & Eb & _).
  assert (El : locking (body r) = Some (exclusive r, Index, k0 tt)) by (by rewrite Eb).
  destruct c as [s L ts]. cbn in *.
  destruct (sim_lock n k b s L ts j _ _ _ _ l lts u l' _ a Hlk Hj El EL Hu Ea) as (a' & _ & _ & Hlk').
  rewrite decide_True in Hlk' by done.
  eexists _, a', (Serving (k0 tt)). split; [by eapply step_lock|]. rewrite decide_True by done.
  split; [exact Hlk'|]. split; [done|]. split; [done|].
  destruct (linked_thread _ _ _ _ _ j (Serving (k0 tt)) Hlk') as (q & v' & Hq & Hv' & Hok).
  { cbn. apply list_lookup_insert_eq. eapply lookup_lt_Some, Hj. }
  pose proof (sees_same _ _ _ _ Hv' (sees_own L j v Index l l' lts (inside (exclusive r)) false EL Hv) Index) as E.
  rewrite put_same in E.
  inversion Hok as [|r1 v1 Hr Hix Ho| | |]; subst; eauto.
  exfalso. rewrite E in Hix. destruct Hix as [Hix|Hix]; destruct (exclusive r), (exclusive r1); discriminate Hix.
Qed.

Lemma someone_enters n k b c (a : atomic) i p :
  linked (DB := DB) n k b c a -> threads c !! i = Some (Serving p) ->
  (forall j t, threads c !! j = Some t -> ~ let_in a j t) ->
  exists j c' a' t p', step None c c' /\ linked n k b c' a' /\ threads c !! j = Some (Serving p') /\
    threads c' = <[j := t]> (threads c) /\ let_in a' j t.
Proof.
  intros Hlk Hi Hno. destruct (locks c Index) as [l lts] eqn:EL.
  assert (Hinv : RWLock.inv (RWLock.Config l lts)) by (rewrite <- EL; apply (lk_locks _ _ _ _ _ Hlk)).
  assert (Hmem : forall j u, lts !! j = Some u -> RWLock.wake u = RWLock.Idle \/
    exists r v, threads c !! j = Some (Serving (body r)) /\ sees (locks c) j v /\ RWLock.wake u = waiting (exclusive r)).
  { intros j u Hu. destruct (lock_member _ _ _ _ _ _ _ _ j u Hlk EL Hu) as (t & q & v & Ht & Hq & Hv & Ew & Hok).
    rewrite <- Ew. inversion Hok as [v1 Hv1|r v1 Hr Hix Ho|a1 p1 v1 Hrd|a1 p1 h v1 sf Hh Hg Hd Hu1 Hs|a1 v1 Hv1]; subst;
      try (by destruct (Hno j _ Ht); split; [done|eauto]); [by left; apply Hv1|].
    destruct Hix; [by left|right]. by exists r, v. }
  assert (Hnw : forall j, lts !! j <> Some RWLock.Writing).
  { intros j Hj. destruct (Hmem j _ Hj) as [E|(r & v & _ & _ & E)]; [done|]. by destruct (exclusive r). }
  destruct (decide (0 < RWLock.countb RWLock.is_reader lts)) as [Hpos|Hnone].
  - destruct (RWLock.countb_pos _ _ Hpos) as (j & u & Hj & Hu).
    destruct (Hmem j u Hj) as [E|(r & v & Ht & Hv & E)]; [by destruct u as [|[]| |[]|]|].
    destruct (exclusive r) eqn:Ex; [by destruct u as [|[]| |[]|]|].
    destruct (enter_thread n k b c a j _ r v l lts u Hlk Ht eq_refl Hv EL Hj) as (c' & a' & t & H1 & H2 & H3 & H4).
    { rewrite Ex. apply (reader_enters l lts j u); try done. by right. }
    by exists j, c', a', t, (body r).
  - assert (Hnr : forall j u, lts !! j = Some u -> RWLock.is_reader u = false).
    { intros j u Hj. destruct (RWLock.is_reader u) eqn:E; [|done]. destruct Hnone. by apply (RWLock.countb_lookup _ _ j u). }
    destruct (linked_thread _ _ _ _ _ _ _ Hlk Hi) as (q & v & Hq & Hv & Hok).
    destruct (view_tstate _ _ _ _ _ _ Hv EL) as (u & Hu & Hwu).
    inversion Hok as [|r v1 Hr Hix Ho|a1 p1 v1 Hrd|a1 p1 h v1 sf Hh Hg Hd Hu1 Hs|a1 v1 Hv1]; subst;
      try (by destruct (Hno i _ Hi); split; [done|eauto]).
    destruct (enter_thread n k b c a i _ r v l lts u Hlk Hi eq_refl Hv EL Hu) as (c' & a' & t & H1 & H2 & H3 & H4).
    { destruct (exclusive r) eqn:Ex; cbn [inside].
      - apply (writer_enters l lts i u); try done; [|by rewrite Hwu].
        intros j u' Hj. split; [by apply (Hnr j)|]. destruct (RWLock.is_writing u') eqn:E; [|done].
        destruct u' as [|[]| |[]|]; try done. by destruct (Hnw j).
      - apply (reader_enters l lts i u); try done. by rewrite Hwu. }
    by exists i, c', a', t, (body r).
Qed.

(** Threads under way. *)
Fixpoint busy (ts : list thread) : nat :=
  match ts with [] => 0 | Resting :: ts => busy ts | Serving _ :: ts => S (busy ts) end.
Lemma busy_insert ts i p t : ts !! i = Some (Serving p) ->
  busy ts = (busy (<[i := t]> ts) + match t with Resting => 1 | Serving _ => 0 end)%nat.
Proof.
  revert i; induction ts as [|x ts IH]; intros [|i] Hi; cbn in Hi; try done.
  - injection Hi as ->. destruct t; cbn; lia.
  - specialize (IH i Hi). change (<[S i := t]> (x :: ts)) with (x :: <[i := t]> ts).
    destruct x; simpl busy; lia.
Qed.
Lemma busy_resting ts : Forall (eq Resting) ts -> busy ts = 0%nat.
Proof. induction 1 as [|t ts <- _ IH]; done. Qed.

Lemma all_return n k b c (a : atomic) :
  linked (DB := DB) n k b c a ->
  exists h c' a', runs step c h c' /\ linked n k b c' a' /\ Forall is_return h /\ length h = busy (threads c) /\ resting c'.
Proof.
  remember (busy (threads c)) as m eqn:Em. revert c a Em.
  induction m as [m IH] using lt_wf_ind. intros c a Em Hlk.
  assert (Hone : forall c1 a1, linked n k b c1 a1 -> busy (threads c1) = m ->
    (exists i t, threads c1 !! i = Some t /\ let_in a1 i t) ->
    exists h c' a', runs step c1 h c' /\ linked n k b c' a' /\ Forall is_return h /\ length h = m /\ resting c').
  { intros c1 a1 Hlk1 E1 Hsome. destruct (finish_one n k b c1 a1 Hlk1 Hsome) as (w & c2 & a2 & i & Hr & Hlk2 & Ht & p & Hp).
    pose proof (busy_insert _ i p Resting Hp) as Eb. rewrite <- Ht in Eb.
    destruct (IH (busy (threads c2)) ltac:(lia) c2 a2 eq_refl Hlk2) as (h & c3 & a3 & Hr' & Hlk3 & Hh & Hlen & Hrest).
    exists (Returned i w :: h), c3, a3. split; [exact (runs_trans step _ [_] _ _ _ Hr Hr')|]. split; [done|].
    split; [by constructor|]. split; [cbn; lia|done]. }
  destruct (search (let_in a) (threads c) (let_in_dec a)) as [(i & t & Hi & Hin)|Hno]; [apply (Hone c a); eauto|].
  destruct (search (fun _ t => t <> Resting) (threads c)) as [(i & [|p] & Hi & Hne)|Hrest]; [intros _ [|p]; [right; by intros []|by left]|done| |].
  - destruct (someone_enters n k b c a i p Hlk Hi Hno) as (j & c1 & a1 & t & p' & Hs & Hlk1 & Hj & Ht & Hin).
    destruct (Hone c1 a1 Hlk1) as (h & c2 & a2 & Hr & Hlk2 & Hh & Hrest).
    { rewrite Ht, Em, (busy_insert _ j p' t Hj). destruct t; [by destruct (proj1 Hin)|lia]. }
    { exists j, t. rewrite Ht. split; [apply list_lookup_insert_eq; eapply lookup_lt_Some, Hj|done]. }
    exists h, c2, a2. split; [by eapply runs_silent|done].
  - assert (Hall : resting c).
    { apply Forall_lookup. intros i [|p] Hi; [done|]. by destruct (Hrest i _ Hi). }
    exists [], c, a. split; [apply runs_nil|]. split; [done|]. split; [constructor|]. split; [|done].
    rewrite Em. by rewrite (busy_resting _ Hall).
Qed.
End Progress.
End Progress.
