(* ===== verification/Concurrent.v ===== *)
(** What query threads may rely on when they use the storage of
    [src/src/storage.c] at the same time: it is an atomic map, and no thread
    waits for good. *)

From Stdlib Require Import ZArith Lia.
From stdpp Require Import base numbers list gmap.
From S2P Require Import Prelude RWLock Bdb Storage.
From S2P Require Import StorageRefine StorageProps StorageThreads Interleave Linear Progress.

Module Concurrent.
Import Storage StorageRefine StorageThreads Interleave Linear Progress.

Section Concurrent.
Context {DB : Type} `{BerkeleyDBLaws DB}.

(** C5: query threads that use the storage at the same time are linearizable.
    Any number of threads call [find_block], [update_block] and [delete_block]
    on one storage whenever they like; between two accesses to the shared
    state, or inside of a call of a lock, any other thread may run, and waits
    may end spuriously. Then every history of calls and returns is a history
    of an atomic map, in which each operation takes effect at one moment
    between its call and its return with the answer the map gives. When no
    call is under way the storage represents that map. *)
Theorem storage_linearizable k (s : state DB) m h c :
  represents s m -> free s = s -> room s (Z.of_nat (length h)) -> Z.of_nat k + 1 < 2 ^ 64 ->
  Forall (event_ok (block_type_count s)) h -> runs moves (start k s) h c ->
  exists a, runs atomic_step (atomic_start k m) h a /\
    (resting c -> Forall (eq Quiet) (clients a) /\ represents (store c) (content a)).
Proof.
  intros Hr Hf Hroom Hk Hok Hruns.
  destruct (history_linked (block_type_count s) k (length h) s m h c) as (a & Ha & Hl); try done.
  exists a. split; [done|]. intros Hrest. destruct (resting_settled _ _ _ _ _ Hl Hrest) as [Hq Hs].
  split; [done|apply Hs].
Qed.
(** C10: the threads never block each other for good. Whatever calls were made
    and wherever each thread stands, inside of an operation or asleep in a
    lock, there is a way on, without a spurious wake-up, on which every call
    that is under way returns, and returns once; the system is quiet, so that
    no allocation and no write fails on the way. *)
Theorem storage_progress k (s : state DB) m h c :
  represents s m -> free s = s -> room s (Z.of_nat (length h)) -> Z.of_nat k + 1 < 2 ^ 64 ->
  Forall (event_ok (block_type_count s)) h -> runs moves (start k s) h c ->
  exists h' c', runs step c h' c' /\ Forall is_return h' /\ length h' = busy (threads c) /\ resting c'.
Proof.
  intros Hr Hf Hroom Hk Hok Hruns.
  destruct (history_linked (block_type_count s) k (length h) s m h c) as (a & _ & Hl); try done.
  destruct (all_return _ _ _ _ _ Hl) as (h' & c' & a' & Hr' & _ & Hh & Hlen & Hrest). by exists h', c'.
Qed.
End Concurrent.

(** ** Two threads, one that stores and one that looks the same key up *)

Import MapDB StorageProps.

Definition ex_calls : list event := [Called 0 (Put ex_key [1; 2; 3]); Called 1 (Get ex_key)].
Definition ex_called (s : state (gmap (list Z) (list Z))) : config (gmap (list Z) (list Z)) :=
  Config s (fun _ => RWLock.init 2) [Serving (body (Put ex_key [1; 2; 3])); Serving (body (Get ex_key))].

Lemma runs_moves {DB} `{BerkeleyDB DB} (c c' : config DB) h : runs step c h c' -> runs moves c h c'.
Proof. induction 1; [apply runs_nil|eapply runs_silent|eapply runs_event]; eauto; by left. Qed.

Lemma ex_calls_run s : runs moves (start 2 s) ex_calls (ex_called s).
Proof.
  eapply runs_event; [left; by apply step_call|]. eapply runs_event; [left; by apply step_call|]. apply runs_nil.
Qed.

Lemma ex_calls_ok : Forall (event_ok 1) ex_calls.
Proof.
  repeat constructor; try lia. vm_compute. discriminate.
Qed.

Lemma ex_storage : exists s : state (gmap (list Z) (list Z)),
  represents s ∅ /\ free s = s /\ block_type_count s = 1 /\ room s (2 ^ 32).
Proof.
  destruct (open_fresh_run ex_env 1 ∅ 128 ex_pristine) as (s & _ & Hr & Hn & Hroom);
    [apply ex_opens|done|done|by split|apply ex_pristine_ok|].
  exists (free s). split; [by apply represents_free|]. split; [apply free_free|]. split; [done|by apply room_free].
Qed.

Lemma storage_progress_witness : exists (s : state (gmap (list Z) (list Z))) h c,
  runs moves (start 2 s) ex_calls (ex_called s) /\
  runs step (ex_called s) h c /\ Forall is_return h /\ length h = 2%nat /\ resting c.
Proof.
  destruct ex_storage as (s & Hr & Hf & Hn & Hroom).
  destruct (storage_progress 2 s ∅ ex_calls (ex_called s) Hr Hf) as (h & c & Hrun & Hh & Hlen & Hrest).
  - apply (room_less s 2 (2 ^ 32)); [lia|exact Hroom].
  - lia.
  - rewrite Hn. apply ex_calls_ok.
  - apply ex_calls_run.
  - exists s, h, c. split; [apply ex_calls_run|]. by split.
Defined.

Lemma ex_complete_run : exists (s : state (gmap (list Z) (list Z))) h c,
  represents s ∅ /\ free s = s /\ room s (Z.of_nat (length h)) /\ Forall (event_ok (block_type_count s)) h /\
  runs moves (start 2 s) h c /\ length h = 4%nat /\ resting c.
Proof.
  destruct ex_storage as (s & Hr & Hf & Hn & Hroom).
  destruct (history_linked 1 2 4 s ∅ ex_calls (ex_called s)) as (a & _ & Hl).
  - split; [done|]. split; [done|]. split; [apply (room_less s 4 (2 ^ 32)); [lia|exact Hroom]|done].
  - lia.
  - cbn. lia.
  - apply ex_calls_ok.
  - apply ex_calls_run.
  - destruct (all_return _ _ _ _ _ Hl) as (h & c & a' & Hrun & _ & Hh & Hlen & Hrest). cbn in Hlen.
    exists s, (ex_calls ++ h), c. rewrite length_app, Hlen. do 2 (split; [done|]).
    split; [apply (room_less s _ (2 ^ 32)); [cbn; lia|exact Hroom]|]. rewrite Hn.
    split; [apply Forall_app; split; [apply ex_calls_ok|eapply Forall_impl; [exact Hh|by intros []]]|].
    split; [exact (runs_trans moves _ _ _ _ _ (ex_calls_run s) (runs_moves _ _ _ Hrun))|]. by split.
Qed.

Lemma storage_linearizable_witness : exists (s : state (gmap (list Z) (list Z))) h c a,
  runs moves (start 2 s) h c /\ length h = 4%nat /\ resting c /\
  runs atomic_step (atomic_start 2 ∅) h a /\ represents (store c) (content a).
Proof.
  destruct ex_complete_run as (s & h & c & Hr & Hf & Hroom & Hok & Hrun & Hlen & Hrest).
  destruct (storage_linearizable 2 s ∅ h c Hr Hf Hroom) as (a & Ha & Hq).
  - lia.
  - exact Hok.
  - exact Hrun.
  - exists s, h, c, a. split; [exact Hrun|]. split; [exact Hlen|]. split; [exact Hrest|]. split; [exact Ha|].
    apply Hq. exact Hrest.
Defined.

End Concurrent.
