(* ===== verification/Protocol.v ===== *)
(** The memcached text protocol of [src/src/memcached_protocol.c]: the request
    record and the parser of a request head, on its 512-byte buffer. Every
    access to the buffer is checked ([None]: outside of it). *)

From Stdlib Require Import ZArith Lia String.
From stdpp Require Import base numbers list.
From S2P Require Import Prelude CString.

Module Protocol.
Import CString.

(** ** Data *)

Definition MAX_KEY_SIZE : Z := 251.
Definition MAX_QUERY_HEADER_SIZE : Z := 512.
Definition RET_SUCCESS : Z := 0.
Definition RET_PARSE_REQ_FAILED : Z := 2.

Inductive cmd_type_e := cmd_unknown | cmd_set | cmd_get | cmd_delete | cmd_sync | cmd_power.
Inductive parse_status_e := ps_unknown | ps_succ | ps_failed.
#[export] Instance cmd_type_eq_dec : EqDecision cmd_type_e.
Proof. solve_decision. Defined.
#[export] Instance parse_status_eq_dec : EqDecision parse_status_e.
Proof. solve_decision. Defined.

(** [data] is NULL or a block of memory. *)
Record query_request_s := QueryRequest {
  query_head_buf : list Z;
  query_head_buf_size : Z;
  data : option (list Z);
  data_size : Z;
  cmd_type : cmd_type_e;
  parse_status : parse_status_e;
  flag : Z;
  exptime : Z;
  key : list Z
}.

Definition set_key (qr : query_request_s) (k : list Z) : query_request_s :=
  QueryRequest (query_head_buf qr) (query_head_buf_size qr) (data qr) (data_size qr)
    (cmd_type qr) (parse_status qr) (flag qr) (exptime qr) k.
Definition set_flag (qr : query_request_s) (f : Z) : query_request_s :=
  QueryRequest (query_head_buf qr) (query_head_buf_size qr) (data qr) (data_size qr)
    (cmd_type qr) (parse_status qr) f (exptime qr) (key qr).
Definition set_exptime (qr : query_request_s) (e : Z) : query_request_s :=
  QueryRequest (query_head_buf qr) (query_head_buf_size qr) (data qr) (data_size qr)
    (cmd_type qr) (parse_status qr) (flag qr) e (key qr).
Definition set_data_size (qr : query_request_s) (n : Z) : query_request_s :=
  QueryRequest (query_head_buf qr) (query_head_buf_size qr) (data qr) n
    (cmd_type qr) (parse_status qr) (flag qr) (exptime qr) (key qr).
Definition set_data (qr : query_request_s) (d : option (list Z)) : query_request_s :=
  QueryRequest (query_head_buf qr) (query_head_buf_size qr) d (data_size qr)
    (cmd_type qr) (parse_status qr) (flag qr) (exptime qr) (key qr).
Definition set_cmd (qr : query_request_s) (c : cmd_type_e) (s : parse_status_e) : query_request_s :=
  QueryRequest (query_head_buf qr) (query_head_buf_size qr) (data qr) (data_size qr)
    c s (flag qr) (exptime qr) (key qr).
Definition set_head (qr : query_request_s) (b : list Z) (n : Z) : query_request_s :=
  QueryRequest b n (data qr) (data_size qr) (cmd_type qr) (parse_status qr) (flag qr) (exptime qr) (key qr).

(** The 251-byte field after [strncpy] of [s] and the final NUL. *)
Definition key_field (s : list Z) : list Z := take 251 (take 250 s ++ replicate 251 0).

(** ** The commands *)

(** [ScanKey(saveptr, qr->key)]: the buffer, [*saveptr], and the request, [None]
    when the macro makes the function return false. *)
Definition ScanKey (b : list Z) (p : Z) (qr : query_request_s)
  : option (list Z * Z * option query_request_s) :=
  l ← from b p; n ← count_until not_sp l;
  let p := p + n in
  len ← strlen b p;
  c1 ← rd b (p + len - 1);
  if negb (c1 =? LF) then Some (b, p, None)
  else
    c2 ← rd b (p + len - 2);
    if negb (c2 =? CR) then Some (b, p, None)
    else
      c3 ← rd b (p + len - 3);
      b ← wr b (if c3 =? SP then p + len - 3 else p + len - 2) 0;
      s ← cstr b p;
      Some (b, p, Some (set_key qr (key_field s))).

(** The key as a C string. *)
Definition key_str (qr : query_request_s) : list Z := default [] (cstr (key qr) 0).

(** Each command: the buffer, [*saveptr], the request and the result. *)
Definition scan_then (accept : query_request_s -> bool) (b : list Z) (p : Z) (qr : query_request_s)
  : option (list Z * Z * query_request_s * bool) :=
  '(b, p, r) ← ScanKey b p qr;
  Some (match r with
        | None => (b, p, qr, false)
        | Some qr => (b, p, qr, accept qr)
        end).
Definition parse_power_cmd := scan_then (fun qr => is_word (str "halt") (key_str qr)).
Definition parse_sync_cmd := scan_then (fun qr => is_word (str "index") (key_str qr) || is_word (str "all") (key_str qr)).
Definition parse_get_cmd := scan_then (fun _ => true).
Definition parse_delete_cmd := scan_then (fun _ => true).

Inductive parse_set_state_s := s_set_key | s_set_flag | s_set_exptime | s_set_bytes | s_set_done | s_set_failed.

#[export] Instance parse_set_state_eq_dec : EqDecision parse_set_state_s.
Proof. solve_decision. Defined.

(** One turn of the loop of [parse_set_cmd]. *)
Definition parse_set_step (state : parse_set_state_s) (b : list Z) (p : Z) (qr : query_request_s) (retval : bool)
  : option (parse_set_state_s * list Z * Z * query_request_s * bool) :=
  match state with
  | s_set_key =>
      '(b, token, p) ← strtok_r b p;
      match token with
      | None => Some (s_set_failed, b, p, qr, retval)
      | Some t =>
          n ← strlen b t;
          if MAX_KEY_SIZE <=? n then Some (s_set_failed, b, p, qr, retval)
          else s ← cstr b t; Some (s_set_flag, b, p, set_key qr (take 251 (s ++ replicate 251 0)), retval)
      end
  | s_set_flag =>
      '(b, token, p) ← strtok_r b p;
      match token with
      | None => Some (s_set_failed, b, p, qr, retval)
      | Some t => s ← cstr b t; Some (s_set_exptime, b, p, set_flag qr (atoi s), retval)
      end
  | s_set_exptime =>
      '(b, token, p) ← strtok_r b p;
      match token with
      | None => Some (s_set_failed, b, p, qr, retval)
      | Some t => s ← cstr b t; Some (s_set_bytes, b, p, set_exptime qr (atoi s), retval)
      end
  | s_set_bytes =>
      '(b, token, p) ← strtok_r b p;
      match token with
      | None => Some (s_set_failed, b, p, qr, retval)
      | Some t => s ← cstr b t; Some (s_set_done, b, p, set_data_size qr (u64 (atol s)), retval)
      end
  | s_set_failed => Some (s_set_done, b, p, qr, false)
  | s_set_done => Some (s_set_done, b, p, qr, retval)
  end.

(** The loop, at most [fuel] turns. *)
Fixpoint parse_set_loop (fuel : nat) (state : parse_set_state_s) (b : list Z) (p : Z) (qr : query_request_s) (retval : bool)
  : option (list Z * Z * query_request_s * bool) :=
  match state with
  | s_set_done => Some (b, p, qr, retval)
  | _ =>
      match fuel with
      | O => None
      | S fuel =>
          '(state, b, p, qr, retval) ← parse_set_step state b p qr retval;
          parse_set_loop fuel state b p qr retval
      end
  end.

Definition parse_set_cmd (b : list Z) (p : Z) (qr : query_request_s)
  : option (list Z * Z * query_request_s * bool) :=
  len ← strlen b p;
  c1 ← rd b (p + len - 1);
  if negb (c1 =? LF) then Some (b, p, qr, false)
  else
    c2 ← rd b (p + len - 2);
    if negb (c2 =? CR) then Some (b, p, qr, false)
    else
      b ← wr b (p + len - 2) 0;
      parse_set_loop 6 s_set_key b p qr true.

(** ** The request head *)

Inductive parse_state_s := s_ready | s_get | s_set | s_delete | s_sync | s_power | s_done | s_fatal.
#[export] Instance parse_state_eq_dec : EqDecision parse_state_s.
Proof. solve_decision. Defined.

(** The state after [s_ready], from the first token. *)
Definition command_state (token : list Z) : parse_state_s :=
  if is_word (str "get") token then s_get
  else if is_word (str "set") token then s_set
  else if is_word (str "delete") token then s_delete
  else if is_word (str "sync") token then s_sync
  else if is_word (str "power") token then s_power
  else s_fatal.

(** The [HandleCmd] macro: the command's function, then the type and the status. *)
Definition HandleCmd (c : cmd_type_e)
  (parse : list Z -> Z -> query_request_s -> option (list Z * Z * query_request_s * bool))
  (b : list Z) (p : Z) (qr : query_request_s) : option (parse_state_s * query_request_s) :=
  '(_, _, qr, ok) ← parse b p qr;
  Some (if ok : bool then (s_done, set_cmd qr c ps_succ) else (s_fatal, set_cmd qr c ps_failed)).

(** One turn of the loop; [retval] included. *)
Definition parse_step (state : parse_state_s) (token b : list Z) (p : Z) (qr : query_request_s) (retval : Z)
  : option (parse_state_s * query_request_s * Z) :=
  match state with
  | s_ready => Some (command_state token, qr, retval)
  | s_get => '(s, qr) ← HandleCmd cmd_get parse_get_cmd b p qr; Some (s, qr, retval)
  | s_set => '(s, qr) ← HandleCmd cmd_set parse_set_cmd b p qr; Some (s, qr, retval)
  | s_delete => '(s, qr) ← HandleCmd cmd_delete parse_delete_cmd b p qr; Some (s, qr, retval)
  | s_sync => '(s, qr) ← HandleCmd cmd_sync parse_sync_cmd b p qr; Some (s, qr, retval)
  | s_power => '(s, qr) ← HandleCmd cmd_power parse_power_cmd b p qr; Some (s, qr, retval)
  | s_fatal => Some (s_done, set_cmd qr (cmd_type qr) ps_failed, RET_PARSE_REQ_FAILED)
  | s_done => Some (s_done, qr, retval)
  end.
Fixpoint parse_loop (fuel : nat) (state : parse_state_s) (token b : list Z) (p : Z) (qr : query_request_s) (retval : Z)
  : option (query_request_s * Z) :=
  match state with
  | s_done => Some (qr, retval)
  | _ =>
      match fuel with
      | O => None
      | S fuel =>
          '(state, qr, retval) ← parse_step state token b p qr retval;
          parse_loop fuel state token b p qr retval
      end
  end.

(** The parser works on a copy of the head whose last byte is set to NUL. *)
Definition parse_memcached_string_head (qr : query_request_s) : option (query_request_s * Z) :=
  let qr := set_cmd qr cmd_unknown (parse_status qr) in
  b ← wr (query_head_buf qr) (MAX_QUERY_HEADER_SIZE - 1) 0;
  '(b, token, p) ← strtok_r b 0;
  match token with
  | None => Some (set_cmd qr cmd_unknown ps_failed, RET_PARSE_REQ_FAILED)
  | Some t => s ← cstr b t; parse_loop 3 s_ready s b p qr RET_SUCCESS
  end.

(** [strstr] on the head buffer, which need not hold a NUL: behind it in the
    record lies [query_head_buf_size]. *)
Definition head_memory (qr : query_request_s) : list Z := query_head_buf qr ++ le_split 8 (query_head_buf_size qr).
Definition try_parse_memcached_string_head (qr : query_request_s) : option (option Z) :=
  strstr_crlf (head_memory qr) 0.

Definition cmd_type_name (c : cmd_type_e) : string :=
  match c with
  | cmd_unknown => "unknow cmd_type"
  | cmd_set => "SET"
  | cmd_get => "GET"
  | cmd_delete => "DELETE"
  | cmd_sync => "SYNC"
  | cmd_power => "POWER"
  end.

(** ** Requests on concrete heads *)

(** A request as the server prepares it: everything zero but the head. *)
Definition request_of (head : list Z) : query_request_s :=
  QueryRequest (take 512 (head ++ replicate 512 0)) 0 None 0 cmd_unknown ps_unknown 0 0 (replicate 251 0).
Definition crlf : list Z := [CR; LF].

Example set_example :
  match parse_memcached_string_head (request_of (str "SET key 7 -1 12" ++ crlf)) with
  | Some (qr, r) => (r, cmd_type qr, parse_status qr, key_str qr, flag qr, exptime qr, data_size qr)
  | None => (-1, cmd_unknown, ps_unknown, [], 0, 0, 0)
  end = (RET_SUCCESS, cmd_set, ps_succ, str "key", 7, -1, 12).
Proof. vm_compute. reflexivity. Qed.

Example get_quirk :
  match parse_memcached_string_head (request_of (str "get  " ++ crlf)) with
  | Some (qr, r) => (r, cmd_type qr, parse_status qr, key_str qr)
  | None => (-1, cmd_unknown, ps_unknown, [])
  end = (RET_SUCCESS, cmd_get, ps_succ, crlf).
Proof. vm_compute. reflexivity. Qed.

(** ** No access leaves the buffer *)

(** What a command leaves alone; the key stays a C string. *)
Record framed (qr qr' : query_request_s) : Prop := {
  fr_head : query_head_buf qr' = query_head_buf qr;
  fr_head_size : query_head_buf_size qr' = query_head_buf_size qr;
  fr_data : data qr' = data qr;
  fr_key : terminated MAX_KEY_SIZE (key qr) -> terminated MAX_KEY_SIZE (key qr')
}.

Lemma framed_refl qr : framed qr qr.
Proof. by split. Qed.

Lemma framed_trans qr1 qr2 qr3 : framed qr1 qr2 -> framed qr2 qr3 -> framed qr1 qr3.
Proof. intros [] []. split; [congruence..|auto]. Qed.

Lemma framed_cmd qr c s : framed qr (set_cmd qr c s).
Proof. by split. Qed.

Lemma padded_terminated s : (length s <= 250)%nat -> terminated MAX_KEY_SIZE (take 251 (s ++ replicate 251 0)).
Proof.
  intros Hs. split; unfold MAX_KEY_SIZE.
  - rewrite length_take, length_app, length_replicate. lia.
  - unfold rd. cbn [Z.ltb Z.compare Z.sub Z.add Z.opp Z.pos_sub]. rewrite lookup_take_lt by lia.
    rewrite lookup_app_r by lia. apply lookup_replicate_2. lia.
Qed.

Lemma key_field_terminated s : terminated MAX_KEY_SIZE (key_field s).
Proof. apply padded_terminated. rewrite length_take. lia. Qed.

Lemma framed_key qr k : terminated MAX_KEY_SIZE k -> framed qr (set_key qr k).
Proof. by split. Qed.

#[local] Hint Resolve framed_refl framed_cmd framed_key key_field_terminated : core.

Lemma ScanKey_safe n b p qr :
  terminated n b -> 3 <= p < n ->
  exists b' p' r, ScanKey b p qr = Some (b', p', r) /\ (forall qr', r = Some qr' -> framed qr qr').
Proof.
  intros Ht Hp. unfold ScanKey.
  destruct (count_terminated not_sp n b p Ht eq_refl ltac:(lia)) as (l & k & _ & E1 & E2 & Hk & Hpk & _).
  rewrite E1. cbn [mbind option_bind]. rewrite E2. cbn [mbind option_bind].
  destruct (strlen_terminated n b (p + k) Ht ltac:(lia)) as (len & El & Hlen & Hlt & _ & _).
  rewrite El. cbn [mbind option_bind]. pose proof (proj1 Ht) as Hb.
  destruct (rd_some b (p + k + len - 1)) as [c1 E3]; [lia|]. rewrite E3. cbn [mbind option_bind].
  destruct (negb (c1 =? LF)); [by exists b, (p + k), None|].
  destruct (rd_some b (p + k + len - 2)) as [c2 E4]; [lia|]. rewrite E4. cbn [mbind option_bind].
  destruct (negb (c2 =? CR)); [by exists b, (p + k), None|].
  destruct (rd_some b (p + k + len - 3)) as [c3 E5]; [lia|]. rewrite E5. cbn [mbind option_bind].
  destruct (wr_terminated n b (if c3 =? SP then p + k + len - 3 else p + k + len - 2) Ht) as (b' & E6 & Ht');
    [destruct (c3 =? SP); lia|].
  rewrite E6. cbn [mbind option_bind].
  destruct (strlen_terminated n b' (p + k) Ht' ltac:(lia)) as (len' & _ & _ & _ & _ & E7).
  rewrite E7. cbn [mbind option_bind]. do 3 eexists. split; [reflexivity|]. intros qr' [= <-]. auto.
Qed.

(** A command function that stays inside a buffer of [n] bytes. *)
Definition safe_parser (n : Z) (parse : list Z -> Z -> query_request_s -> option (list Z * Z * query_request_s * bool)) : Prop :=
  forall b p qr, terminated n b -> 3 <= p < n ->
    exists b' p' qr' ok, parse b p qr = Some (b', p', qr', ok) /\ framed qr qr'.

Lemma scan_then_safe n accept : safe_parser n (scan_then accept).
Proof.
  intros b p qr Ht Hp. unfold scan_then.
  destruct (ScanKey_safe n b p qr Ht Hp) as (b' & p' & r & E & Hr). rewrite E. cbn [mbind option_bind].
  destruct r as [qr'|]; do 4 eexists; (split; [reflexivity|auto]).
Qed.

(** The turns a state of [parse_set_cmd] has left. *)
Definition set_turns (state : parse_set_state_s) : nat :=
  match state with
  | s_set_key => 5 | s_set_flag => 4 | s_set_exptime => 3 | s_set_bytes => 2 | s_set_failed => 1 | s_set_done => 0
  end.

Lemma parse_set_step_safe n state b p qr retval :
  terminated n b -> 0 <= p < n -> state <> s_set_done ->
  exists state' b' p' qr' retval', parse_set_step state b p qr retval = Some (state', b', p', qr', retval') /\
    (set_turns state' < set_turns state)%nat /\ terminated n b' /\ 0 <= p' < n /\ framed qr qr'.
Proof.
  intros Ht Hp Hne.
  destruct (strtok_terminated n b p Ht Hp) as (b' & t & p' & E & Ht' & Hp' & Htok).
  destruct state; cbn [parse_set_step set_turns]; try done;
    try (do 5 eexists; split; [reflexivity|]; split; [cbn; lia|]; by auto).
  all: rewrite E; cbn [mbind option_bind]; destruct t as [t|];
    [|do 5 eexists; split; [reflexivity|]; split; [cbn; lia|]; split; [done|]; split; [lia|auto]].
  all: destruct (Htok t eq_refl) as [Ht1 _];
    destruct (strlen_terminated n b' t Ht' ltac:(lia)) as (len & El & Hlen & _ & _ & Es).
  { rewrite El. cbn [mbind option_bind].
    destruct (Z.leb_spec MAX_KEY_SIZE len) as [Hlong|Hshort];
      [do 5 eexists; split; [reflexivity|]; split; [cbn; lia|]; split; [done|]; split; [lia|auto]|].
    rewrite Es. cbn [mbind option_bind]. do 5 eexists. split; [reflexivity|]. split; [cbn; lia|]. split; [done|]. split; [lia|].
    apply framed_key, padded_terminated. unfold MAX_KEY_SIZE in Hshort. rewrite length_take. lia. }
  all: rewrite Es; cbn [mbind option_bind]; do 5 eexists; split; [reflexivity|]; split; [cbn; lia|]; split; [done|]; split; [lia|by split].
Qed.

Lemma parse_set_loop_safe n fuel state b p qr retval :
  (set_turns state <= fuel)%nat -> terminated n b -> 0 <= p < n ->
  exists b' p' qr' ok, parse_set_loop fuel state b p qr retval = Some (b', p', qr', ok) /\ framed qr qr'.
Proof.
  revert state b p qr retval; induction fuel as [|fuel IH]; intros state b p qr retval Hf Ht Hp.
  - destruct state; cbn in Hf; try lia. by exists b, p, qr, retval.
  - destruct (decide (state = s_set_done)) as [->|Hne]; [by exists b, p, qr, retval|].
    destruct (parse_set_step_safe n state b p qr retval Ht Hp Hne)
      as (state' & b1 & p1 & qr1 & ret1 & E & Hlt & Ht1 & Hp1 & Hfr).
    destruct (IH state' b1 p1 qr1 ret1 ltac:(lia) Ht1 Hp1) as (b' & p' & qr' & ok & E' & Hfr').
    exists b', p', qr', ok. split; [|by eapply framed_trans].
    destruct state; try done; cbn [parse_set_loop]; rewrite E; exact E'.
Qed.

Lemma parse_set_safe n : safe_parser n parse_set_cmd.
Proof.
  intros b p qr Ht Hp. unfold parse_set_cmd. pose proof (proj1 Ht) as Hb.
  destruct (strlen_terminated n b p Ht ltac:(lia)) as (len & El & Hlen & Hlt & _ & _).
  rewrite El. cbn [mbind option_bind].
  destruct (rd_some b (p + len - 1)) as [c1 E3]; [lia|]. rewrite E3. cbn [mbind option_bind].
  destruct (negb (c1 =? LF)); [do 4 eexists; split; [reflexivity|auto]|].
  destruct (rd_some b (p + len - 2)) as [c2 E4]; [lia|]. rewrite E4. cbn [mbind option_bind].
  destruct (negb (c2 =? CR)); [do 4 eexists; split; [reflexivity|auto]|].
  destruct (wr_terminated n b (p + len - 2) Ht) as (b' & E6 & Ht'); [lia|]. rewrite E6. cbn [mbind option_bind].
  apply (parse_set_loop_safe n); [cbn; lia|done|lia].
Qed.

(** The objects a sync command names. *)
Definition sync_object (qr : query_request_s) : bool := is_word (str "index") (key_str qr) || is_word (str "all") (key_str qr).

Lemma scan_then_accepts accept b p qr b' p' qr' :
  scan_then accept b p qr = Some (b', p', qr', true) -> accept qr' = true.
Proof.
  unfold scan_then. destruct (ScanKey b p qr) as [[[b1 p1] [qr1|]]|]; cbn [mbind option_bind]; congruence.
Qed.

(** How a request that was parsed, or was not, leaves the parser. *)
Definition parse_outcome (qr qr' : query_request_s) (r : Z) : Prop :=
  framed qr qr' /\
  ((r = RET_SUCCESS /\ parse_status qr' = ps_succ /\ cmd_type qr' <> cmd_unknown /\
      (cmd_type qr' = cmd_sync -> sync_object qr' = true)) \/
   (r = RET_PARSE_REQ_FAILED /\ parse_status qr' = ps_failed)).

(** The function of a command, with what the loop makes of its result. *)
Lemma command_safe n token b p qr c parse st :
  terminated n b -> 3 <= p < n -> safe_parser n parse -> c <> cmd_unknown -> (c = cmd_sync -> parse = parse_sync_cmd) -> st <> s_done ->
  parse_step st token b p qr RET_SUCCESS = ('(s, qr') ← HandleCmd c parse b p qr; Some (s, qr', RET_SUCCESS)) ->
  exists qr' r, parse_loop 2 st token b p qr RET_SUCCESS = Some (qr', r) /\ parse_outcome qr qr' r.
Proof.
  intros Ht Hp Hs Hc Hsync Hst Estep. destruct (Hs b p qr Ht Hp) as (b' & p' & qr1 & ok & E & Hfr).
  unfold HandleCmd in Estep. rewrite E in Estep. cbn [mbind option_bind] in Estep.
  assert (Eloop : parse_loop 2 st token b p qr RET_SUCCESS =
    (let '(s, qr2) := if ok : bool then (s_done, set_cmd qr1 c ps_succ) else (s_fatal, set_cmd qr1 c ps_failed) in
     parse_loop 1 s token b p qr2 RET_SUCCESS)).
  { destruct st; try done; cbn [parse_loop]; rewrite Estep; by destruct ok. }
  rewrite Eloop. destruct ok; cbn; do 2 eexists; (split; [reflexivity|]); (split; [by eauto 6 using framed_trans, framed_cmd|]).
  - left. split; [done|]. split; [done|]. split; [done|]. intros Ec. cbn in Ec. rewrite (Hsync Ec) in E.
    exact (scan_then_accepts _ _ _ _ _ _ _ E).
  - by right.
Qed.

(** The loop over a first token whose command starts behind it. *)
Lemma parse_loop_safe n token b p qr :
  terminated n b -> (command_state token <> s_fatal -> 3 <= p < n) -> cmd_type qr = cmd_unknown ->
  exists qr' r, parse_loop 3 s_ready token b p qr RET_SUCCESS = Some (qr', r) /\ parse_outcome qr qr' r.
Proof.
  intros Ht Hp Hcmd.
  change (parse_loop 3 s_ready token b p qr RET_SUCCESS)
    with (parse_loop 2 (command_state token) token b p qr RET_SUCCESS).
  assert (Hstates : command_state token = s_fatal \/ command_state token <> s_fatal /\
    (command_state token = s_get \/ command_state token = s_set \/ command_state token = s_delete \/
     command_state token = s_sync \/ command_state token = s_power)).
  { unfold command_state. repeat case_match; auto 10. }
  destruct Hstates as [E|[Hne [E|[E|[E|[E|E]]]]]]; rewrite E in *.
  { cbn. do 2 eexists. split; [reflexivity|]. split; [auto|]. by right. }
  all: specialize (Hp Hne).
  - apply (command_safe n token b p qr cmd_get parse_get_cmd); [done|done|apply scan_then_safe|done|done|done|reflexivity].
  - apply (command_safe n token b p qr cmd_set parse_set_cmd); [done|done|apply parse_set_safe|done|done|done|reflexivity].
  - apply (command_safe n token b p qr cmd_delete parse_delete_cmd); [done|done|apply scan_then_safe|done|done|done|reflexivity].
  - apply (command_safe n token b p qr cmd_sync parse_sync_cmd); [done|done|apply scan_then_safe|done|done|done|reflexivity].
  - apply (command_safe n token b p qr cmd_power parse_power_cmd); [done|done|apply scan_then_safe|done|done|done|reflexivity].
Qed.

(** ** Parsing known heads *)

Lemma wr_last head rest :
  Z.of_nat (length (head ++ 0 :: rest)) = 512 ->
  exists rest', wr (head ++ 0 :: rest) (MAX_QUERY_HEADER_SIZE - 1) 0 = Some (head ++ 0 :: rest').
Proof.
  intros Hl. rewrite length_app in Hl. cbn [length] in Hl. unfold MAX_QUERY_HEADER_SIZE.
  unfold wr. rewrite length_app. cbn [length]. rewrite (proj2 (Z.ltb_ge _ _)), (proj2 (Z.leb_gt _ _)) by lia.
  cbn [orb]. rewrite insert_app_r_alt by lia.
  destruct (Z.to_nat (512 - 1) - length head)%nat as [|k]; [by exists rest|]. exists (<[k := 0]> rest). reflexivity.
Qed.

(** The first token of a head and what is left. *)
Lemma parse_first (qr : query_request_s) name tail rest :
  query_head_buf qr = name ++ SP :: tail ++ 0 :: rest ->
  Z.of_nat (length (query_head_buf qr)) = 512 -> is_token name ->
  exists rest', parse_memcached_string_head qr =
    parse_loop 3 s_ready name ((name ++ [0]) ++ tail ++ 0 :: rest') (Z.of_nat (length (name ++ [0])))
      (set_cmd qr cmd_unknown (parse_status qr)) RET_SUCCESS.
Proof.
  intros Hb Hl Hname. destruct (wr_last (name ++ SP :: tail) rest) as (rest' & E).
  { rewrite <- app_assoc. cbn [app]. now rewrite <- Hb. }
  exists rest'. unfold parse_memcached_string_head. cbn [set_cmd query_head_buf]. rewrite Hb.
  rewrite <- app_assoc in E. cbn [app] in E. rewrite E. cbn [mbind option_bind].
  pose proof (strtok_app [] name SP (tail ++ 0 :: rest') Hname (or_introl eq_refl)) as Et.
  change (Z.of_nat (@length Z [])) with 0 in Et. cbn [app] in Et. rewrite <- app_assoc. cbn [app]. rewrite Et. cbn [mbind option_bind].
  pose proof (cstr_app [] name (tail ++ 0 :: rest') (token_nonzero _ Hname)) as Ec.
  change (Z.of_nat (@length Z [])) with 0 in Ec. cbn [app] in Ec. rewrite Ec. cbn [mbind option_bind].
  rewrite Z.eqb_refl.
  replace (0 + Z.of_nat (length name) + 1) with (Z.of_nat (length (name ++ [0]))) by (rewrite length_app; cbn; lia).
  now rewrite <- app_assoc.
Qed.

(** [ScanKey] on a key without spaces that ends the line. *)
Lemma ScanKey_line pre k rest qr :
  is_token k -> (1 <= length pre)%nat ->
  ScanKey (pre ++ (k ++ crlf) ++ 0 :: rest) (Z.of_nat (length pre)) qr =
  Some (pre ++ k ++ 0 :: LF :: 0 :: rest, Z.of_nat (length pre), Some (set_key qr (key_field k))).
Proof.
  intros Hk Hpre. pose proof (token_nonzero _ Hk) as Hnz. unfold ScanKey. rewrite from_app. cbn [mbind option_bind].
  destruct Hk as [Hne Hs]. destruct k as [|c k]; [done|]. inversion Hs as [|?? [Hc0 Hc1] Hs']; subst.
  cbn [app count_until]. unfold not_sp at 1. rewrite (proj2 (Z.eqb_neq c SP)) by done. cbn [negb mbind option_bind].
  rewrite Z.add_0_r. change (c :: (k ++ crlf) ++ 0 :: rest) with (((c :: k) ++ crlf) ++ 0 :: rest).
  rewrite strlen_app by (apply Forall_app; split; [done|repeat constructor; done]). cbn [mbind option_bind].
  assert (El : Z.of_nat (length ((c :: k) ++ crlf)) = Z.of_nat (length (c :: k)) + 2) by (rewrite length_app; cbn; lia).
  rewrite El.
  replace (pre ++ ((c :: k) ++ crlf) ++ 0 :: rest) with ((pre ++ (c :: k) ++ [CR]) ++ LF :: 0 :: rest)
    by (rewrite <- !app_assoc; reflexivity).
  replace (Z.of_nat (length pre) + (Z.of_nat (length (c :: k)) + 2) - 1) with (Z.of_nat (length (pre ++ (c :: k) ++ [CR])))
    by (rewrite !length_app; cbn [length]; lia).
  rewrite rd_app. cbn [mbind option_bind LF Z.eqb Pos.eqb negb].
  replace ((pre ++ (c :: k) ++ [CR]) ++ LF :: 0 :: rest) with ((pre ++ c :: k) ++ CR :: LF :: 0 :: rest)
    by (rewrite <- !app_assoc; reflexivity).
  replace (Z.of_nat (length pre) + (Z.of_nat (length (c :: k)) + 2) - 2) with (Z.of_nat (length (pre ++ c :: k)))
    by (rewrite !length_app; lia).
  rewrite rd_app. cbn [mbind option_bind CR Z.eqb Pos.eqb negb].
  destruct (exists_last (l := c :: k) ltac:(done)) as (k' & x & Ek). rewrite Ek.
  assert (Hx : x <> SP).
  { rewrite Ek in Hs. apply Forall_app in Hs as [_ Hx]. inversion Hx; subst. tauto. }
  replace ((pre ++ k' ++ [x]) ++ CR :: LF :: 0 :: rest) with ((pre ++ k') ++ x :: CR :: LF :: 0 :: rest)
    by (rewrite <- !app_assoc; reflexivity).
  replace (Z.of_nat (length pre) + (Z.of_nat (length (k' ++ [x])) + 2) - 3) with (Z.of_nat (length (pre ++ k')))
    by (rewrite !length_app; cbn [length]; lia).
  rewrite rd_app. cbn [mbind option_bind]. rewrite (proj2 (Z.eqb_neq x SP)) by done.
  replace ((pre ++ k') ++ x :: CR :: LF :: 0 :: rest) with ((pre ++ k' ++ [x]) ++ CR :: LF :: 0 :: rest)
    by (rewrite <- !app_assoc; reflexivity).
  rewrite wr_app. cbn [mbind option_bind]. rewrite <- Ek, <- app_assoc.
  rewrite cstr_app by done. cbn [mbind option_bind]. reflexivity.
Qed.

(** One turn of [parse_set_cmd] on a token. *)
Lemma set_turn pre tok sep rest (qr qr' : query_request_s) state state' :
  is_token tok -> sep = SP \/ sep = 0 ->
  (forall b p b' t, strtok_r b p = Some (b', Some t, p + Z.of_nat (length tok) + (if sep =? SP then 1 else 0)) ->
     cstr b' t = Some tok -> strlen b' t = Some (Z.of_nat (length tok)) ->
     parse_set_step state b p qr true =
     Some (state', b', p + Z.of_nat (length tok) + (if sep =? SP then 1 else 0), qr', true)) ->
  parse_set_step state (pre ++ tok ++ sep :: rest) (Z.of_nat (length pre)) qr true =
  Some (state', (pre ++ tok) ++ 0 :: rest,
        Z.of_nat (length (pre ++ tok)) + (if sep =? SP then 1 else 0), qr', true).
Proof.
  intros Ht Hsep Hstep. pose proof (token_nonzero _ Ht) as Hnz.
  rewrite (Hstep _ _ _ _ (strtok_app pre tok sep rest Ht Hsep) (cstr_app pre tok rest Hnz) (strlen_app pre tok rest Hnz)).
  rewrite length_app, Nat2Z.inj_add. now rewrite <- app_assoc.
Qed.

(** The line end is looked at from behind and cut off. *)
Lemma parse_set_cut pre line rest (qr : query_request_s) :
  Forall (fun c => c <> 0) line ->
  parse_set_cmd (pre ++ (line ++ crlf) ++ 0 :: rest) (Z.of_nat (length pre)) qr =
  parse_set_loop 6 s_set_key (pre ++ line ++ 0 :: LF :: 0 :: rest) (Z.of_nat (length pre)) qr true.
Proof.
  intros Hnz.
  assert (Hnz' : Forall (fun c => c <> 0) (line ++ crlf)) by (apply Forall_app; split; [done|repeat constructor; done]).
  unfold parse_set_cmd. rewrite strlen_app by done. cbn [mbind option_bind].
  assert (El : Z.of_nat (length (line ++ crlf)) = Z.of_nat (length line) + 2) by (rewrite length_app; cbn; lia).
  rewrite El.
  replace (pre ++ (line ++ crlf) ++ 0 :: rest) with ((pre ++ line ++ [CR]) ++ LF :: 0 :: rest)
    by (rewrite <- !app_assoc; reflexivity).
  replace (Z.of_nat (length pre) + (Z.of_nat (length line) + 2) - 1) with (Z.of_nat (length (pre ++ line ++ [CR])))
    by (rewrite !length_app; cbn [length]; lia).
  rewrite rd_app. cbn [mbind option_bind LF Z.eqb Pos.eqb negb].
  replace ((pre ++ line ++ [CR]) ++ LF :: 0 :: rest) with ((pre ++ line) ++ CR :: LF :: 0 :: rest)
    by (rewrite <- !app_assoc; reflexivity).
  replace (Z.of_nat (length pre) + (Z.of_nat (length line) + 2) - 2) with (Z.of_nat (length (pre ++ line)))
    by (rewrite !length_app; lia).
  rewrite rd_app. cbn [mbind option_bind CR Z.eqb Pos.eqb negb]. rewrite wr_app. cbn [mbind option_bind].
  by rewrite <- app_assoc.
Qed.

(** The whole line of a set command. *)
Lemma parse_set_line pre k f e n rest (qr : query_request_s) :
  is_token k -> Z.of_nat (length k) <= 250 ->
  - 2 ^ 31 <= f < 2 ^ 31 -> - 2 ^ 31 <= e < 2 ^ 31 -> - 2 ^ 63 <= n < 2 ^ 63 ->
  exists b p, parse_set_cmd
      (pre ++ (k ++ SP :: print_dec f ++ SP :: print_dec e ++ SP :: print_dec n ++ crlf) ++ 0 :: rest)
      (Z.of_nat (length pre)) qr =
    Some (b, p, set_data_size (set_exptime (set_flag (set_key qr (key_field k)) f) e) (u64 n), true).
Proof.
  intros Hk Hlen Hf He Hn.
  pose proof (print_dec_token f ltac:(lia)) as Tf. pose proof (print_dec_token e ltac:(lia)) as Te.
  pose proof (print_dec_token n ltac:(lia)) as Tn.
  set (line := k ++ SP :: print_dec f ++ SP :: print_dec e ++ SP :: print_dec n).
  assert (Eline : k ++ SP :: print_dec f ++ SP :: print_dec e ++ SP :: print_dec n ++ crlf = line ++ crlf).
  { unfold line. repeat (rewrite <- app_assoc; cbn [app]). reflexivity. }
  rewrite Eline, parse_set_cut.
  2: { unfold line. repeat (apply Forall_app; split; [by apply token_nonzero|]; constructor; [done|]). by apply token_nonzero. }
  unfold line. repeat (rewrite <- app_assoc; cbn [app]).
  cbn [parse_set_loop].
  rewrite (set_turn pre k SP _ qr (set_key qr (key_field k)) s_set_key s_set_flag Hk (or_introl eq_refl)).
  2: { intros b p b' t E1 E2 E3. cbn [parse_set_step]. rewrite E1. cbn [mbind option_bind]. rewrite E3.
       cbn [mbind option_bind]. rewrite (proj2 (Z.leb_gt _ _)) by (unfold MAX_KEY_SIZE; lia). rewrite E2.
       cbn [mbind option_bind]. unfold key_field. now rewrite (take_ge k) by lia. }
  cbn [mbind option_bind SP Z.eqb Pos.eqb].
  assert (Epos : forall l : list Z, Z.of_nat (length l) + 1 = Z.of_nat (length (l ++ [0])))
    by (intros l; rewrite length_app; cbn; lia).
  assert (Ecat : forall (l r : list Z), l ++ 0 :: r = (l ++ [0]) ++ r) by (intros l r; now rewrite <- app_assoc).
  rewrite Epos, Ecat.
  rewrite (set_turn _ (print_dec f) SP _ _ (set_flag (set_key qr (key_field k)) f) s_set_flag s_set_exptime Tf (or_introl eq_refl)).
  2: { intros b p b' t E1 E2 E3. cbn [parse_set_step]. rewrite E1. cbn [mbind option_bind]. rewrite E2.
       cbn [mbind option_bind]. now rewrite atoi_print_dec by lia. }
  cbn [mbind option_bind SP Z.eqb Pos.eqb]. rewrite Epos, Ecat.
  rewrite (set_turn _ (print_dec e) SP _ _ (set_exptime (set_flag (set_key qr (key_field k)) f) e)
             s_set_exptime s_set_bytes Te (or_introl eq_refl)).
  2: { intros b p b' t E1 E2 E3. cbn [parse_set_step]. rewrite E1. cbn [mbind option_bind]. rewrite E2.
       cbn [mbind option_bind]. now rewrite atoi_print_dec by lia. }
  cbn [mbind option_bind SP Z.eqb Pos.eqb]. rewrite Epos, Ecat.
  rewrite (set_turn _ (print_dec n) 0 _ _
             (set_data_size (set_exptime (set_flag (set_key qr (key_field k)) f) e) (u64 n))
             s_set_bytes s_set_done Tn (or_intror eq_refl)).
  2: { intros b p b' t E1 E2 E3. cbn [parse_set_step]. rewrite E1. cbn [mbind option_bind]. rewrite E2.
       cbn [mbind option_bind]. now rewrite atol_print_dec by lia. }
  cbn [mbind option_bind]. do 2 eexists. reflexivity.
Qed.

(** A whole set head, and a whole get or delete head. *)
Lemma parse_set_head (qr : query_request_s) k f e n rest :
  query_head_buf qr = (str "set" ++ SP :: k ++ SP :: print_dec f ++ SP :: print_dec e ++ SP :: print_dec n ++ crlf) ++ 0 :: rest ->
  Z.of_nat (length (query_head_buf qr)) = MAX_QUERY_HEADER_SIZE ->
  is_token k -> Z.of_nat (length k) <= 250 ->
  - 2 ^ 31 <= f < 2 ^ 31 -> - 2 ^ 31 <= e < 2 ^ 31 -> - 2 ^ 63 <= n < 2 ^ 63 ->
  parse_memcached_string_head qr =
  Some (set_cmd (set_data_size (set_exptime (set_flag (set_key qr (key_field k)) f) e) (u64 n)) cmd_set ps_succ, RET_SUCCESS).
Proof.
  intros Hb Hl Hk Hlen Hf He Hn.
  destruct (parse_first qr (str "set") (k ++ SP :: print_dec f ++ SP :: print_dec e ++ SP :: print_dec n ++ crlf) rest)
    as (rest' & E); [rewrite Hb, <- app_assoc; reflexivity|exact Hl|by split; [|repeat constructor]|].
  rewrite E. change (parse_loop 3 s_ready (str "set")) with (parse_loop 2 s_set (str "set")).
  cbn [parse_loop parse_step]. unfold HandleCmd.
  destruct (parse_set_line (str "set" ++ [0]) k f e n rest' (set_cmd qr cmd_unknown (parse_status qr)))
    as (b & p & Ep); try done.
  rewrite Ep. cbn [mbind option_bind]. reflexivity.
Qed.

Lemma key_field_str k : Forall (fun c => c <> 0) k -> cstr (key_field k) 0 = Some (take 250 k).
Proof.
  intros Hk. assert (Hpad : exists r, key_field k = take 250 k ++ 0 :: r).
  { unfold key_field. rewrite take_app, (take_ge (take 250 k)) by (rewrite length_take; lia).
    pose proof (length_take k 250) as Hlt. destruct (251 - length (take 250 k))%nat as [|j] eqn:Ej; [lia|].
    change (replicate 251 0) with (0 :: replicate 250 0). cbn [take]. by eexists. }
  destruct Hpad as [r ->].
  pose proof (cstr_app [] (take 250 k) r (Forall_take _ 250 _ Hk)) as Ec.
  change (Z.of_nat (@length Z [])) with 0 in Ec. cbn [app] in Ec. exact Ec.
Qed.

Lemma parse_get_head (qr : query_request_s) name c k rest :
  (name, c) = (str "get", cmd_get) \/ (name, c) = (str "delete", cmd_delete) ->
  query_head_buf qr = (name ++ SP :: k ++ crlf) ++ 0 :: rest ->
  Z.of_nat (length (query_head_buf qr)) = MAX_QUERY_HEADER_SIZE -> is_token k ->
  exists qr', parse_memcached_string_head qr = Some (qr', RET_SUCCESS) /\
    qr' = set_cmd (set_key qr (key_field k)) c ps_succ /\ key_str qr' = take 250 k.
Proof.
  intros Hc Hb Hl Hk.
  assert (Hname : is_token name) by (destruct Hc as [[= -> ->]|[= -> ->]]; by split; [|repeat constructor]).
  destruct (parse_first qr name (k ++ crlf) rest) as (rest' & E);
    [rewrite Hb, <- app_assoc; reflexivity|exact Hl|exact Hname|].
  rewrite E. eexists. split; [|split; [reflexivity|]].
  - set (pre := name ++ [0]). set (qr0 := set_cmd qr cmd_unknown (parse_status qr)).
    pose proof (ScanKey_line pre k rest' qr0 Hk ltac:(unfold pre; rewrite length_app; cbn; lia)) as Es.
    destruct Hc as [[= -> ->]|[= -> ->]].
    + change (parse_loop 3 s_ready (str "get")) with (parse_loop 2 s_get (str "get")).
      cbn [parse_loop parse_step]. unfold HandleCmd, parse_get_cmd, scan_then. rewrite Es. reflexivity.
    + change (parse_loop 3 s_ready (str "delete")) with (parse_loop 2 s_delete (str "delete")).
      cbn [parse_loop parse_step]. unfold HandleCmd, parse_delete_cmd, scan_then. rewrite Es. reflexivity.
  - unfold key_str. cbn [set_cmd set_key key]. now rewrite (key_field_str k (token_nonzero _ Hk)).
Qed.

Lemma parse_power_head (qr : query_request_s) rest :
  query_head_buf qr = (str "power" ++ SP :: str "halt" ++ crlf) ++ 0 :: rest ->
  Z.of_nat (length (query_head_buf qr)) = MAX_QUERY_HEADER_SIZE ->
  parse_memcached_string_head qr = Some (set_cmd (set_key qr (key_field (str "halt"))) cmd_power ps_succ, RET_SUCCESS).
Proof.
  intros Hb Hl. assert (Hk : is_token (str "halt")) by (split; [done|repeat constructor; done]).
  destruct (parse_first qr (str "power") (str "halt" ++ crlf) rest) as (rest' & E);
    [rewrite Hb, <- app_assoc; reflexivity|exact Hl|by split; [|repeat constructor]|].
  rewrite E. change (parse_loop 3 s_ready (str "power")) with (parse_loop 2 s_power (str "power")).
  cbn [parse_loop parse_step]. unfold HandleCmd, parse_power_cmd, scan_then.
  rewrite (ScanKey_line (str "power" ++ [0]) (str "halt") rest' (set_cmd qr cmd_unknown (parse_status qr)) Hk) by (cbn; lia).
  reflexivity.
Qed.

(** ** Parsing any head *)

(** A line whose first word is no command. *)
Lemma parse_unknown_head (qr : query_request_s) name tail rest :
  query_head_buf qr = name ++ SP :: tail ++ 0 :: rest ->
  Z.of_nat (length (query_head_buf qr)) = 512 -> is_token name -> command_state name = s_fatal ->
  parse_memcached_string_head qr = Some (set_cmd qr cmd_unknown ps_failed, RET_PARSE_REQ_FAILED).
Proof.
  intros Hb Hl Hname Hs. destruct (parse_first qr name tail rest Hb Hl Hname) as (rest' & E).
  rewrite E. cbn [parse_loop parse_step mbind option_bind]. rewrite Hs. reflexivity.
Qed.

Lemma parser_run (qr : query_request_s) :
  Z.of_nat (length (query_head_buf qr)) = MAX_QUERY_HEADER_SIZE ->
  exists qr' r, parse_memcached_string_head qr = Some (qr', r) /\ framed qr qr' /\
    ((r = RET_SUCCESS /\ parse_status qr' = ps_succ /\ cmd_type qr' <> cmd_unknown /\
        (cmd_type qr' = cmd_sync -> sync_object qr' = true)) \/
     (r = RET_PARSE_REQ_FAILED /\ parse_status qr' = ps_failed)).
Proof.
  intros Hl. unfold parse_memcached_string_head. cbn [set_cmd query_head_buf].
  assert (Hw : exists b, wr (query_head_buf qr) (MAX_QUERY_HEADER_SIZE - 1) 0 = Some b /\ terminated 512 b).
  { unfold wr. rewrite Hl. unfold MAX_QUERY_HEADER_SIZE in *. cbn [Z.ltb Z.leb Z.compare orb].
    eexists. split; [reflexivity|]. split; [rewrite length_insert; lia|]. unfold rd. cbn [Z.ltb Z.compare].
    apply list_lookup_insert_eq. lia. }
  destruct Hw as (b & Eb & Ht). rewrite Eb. cbn [mbind option_bind].
  destruct (strtok_terminated 512 b 0 Ht ltac:(lia)) as (b' & t & p & E & Ht' & Hp & Htok).
  rewrite E. cbn [mbind option_bind]. destruct t as [t|].
  - destruct (Htok t eq_refl) as [Hts (k & Ek & Hk)].
    destruct (strlen_terminated 512 b' t Ht' ltac:(lia)) as (k' & Ek' & Hk' & Hlt & _ & Ec).
    rewrite Ek in Ek'. injection Ek' as <-. rewrite Ec. cbn [mbind option_bind].
    destruct (parse_loop_safe 512 (take (Z.to_nat k) (drop (Z.to_nat t) b')) b' p
      (set_cmd qr cmd_unknown (parse_status qr))) as (qr' & r & E' & Hfr & Hres); [exact Ht'| |reflexivity|].
    2: { exists qr', r. split; [exact E'|]. split; [|exact Hres]. eapply framed_trans; [apply framed_cmd|exact Hfr]. }
    intros Hcmd. assert (Hlen : (3 <= length (take (Z.to_nat k) (drop (Z.to_nat t) b')))%nat).
    { revert Hcmd. generalize (take (Z.to_nat k) (drop (Z.to_nat t) b')). intros l Hcmd.
      destruct l as [|x [|y [|z l]]]; [| | |cbn; lia]; exfalso; apply Hcmd; unfold command_state, is_word;
        rewrite !bool_decide_eq_false_2; done. }
    rewrite length_take, length_drop in Hlen. lia.
  - do 2 eexists. split; [reflexivity|]. split; [by split|]. right. done.
Qed.

(** ** The theorems *)

(** C19: the parser reads and writes only inside the 512-byte copy of the head,
    whatever the bytes, and returns. It returns [RET_SUCCESS] exactly when the
    status is [ps_succ] and a command was recognised; otherwise
    [RET_PARSE_REQ_FAILED] with [ps_failed]. It leaves the head and the data
    alone, and the key field is a C string after it when it was one before; a
    sync command that is accepted names the index or everything. *)
Theorem parser_safe (qr : query_request_s) :
  Z.of_nat (length (query_head_buf qr)) = MAX_QUERY_HEADER_SIZE ->
  exists qr' r, parse_memcached_string_head qr = Some (qr', r) /\ framed qr qr' /\
    ((r = RET_SUCCESS /\ parse_status qr' = ps_succ /\ cmd_type qr' <> cmd_unknown /\
        (cmd_type qr' = cmd_sync -> sync_object qr' = true)) \/
     (r = RET_PARSE_REQ_FAILED /\ parse_status qr' = ps_failed)).
Proof.
  intros Hl. destruct (parser_run qr Hl) as (qr' & r & E & Hfr & Hres).
  exists qr', r. auto.
Qed.

(** C20: the head of a set command, [set <key> <flags> <exptime> <bytes>], is read
    back: for any key of 1 to 250 bytes without spaces and any numbers in the
    range of their types, whatever follows the head in the buffer. *)
Theorem set_head_roundtrip (qr : query_request_s) k f e n rest :
  query_head_buf qr = (str "set" ++ SP :: k ++ SP :: print_dec f ++ SP :: print_dec e ++ SP :: print_dec n ++ crlf) ++ 0 :: rest ->
  Z.of_nat (length (query_head_buf qr)) = MAX_QUERY_HEADER_SIZE ->
  is_token k -> Z.of_nat (length k) <= 250 ->
  - 2 ^ 31 <= f < 2 ^ 31 -> - 2 ^ 31 <= e < 2 ^ 31 -> - 2 ^ 63 <= n < 2 ^ 63 ->
  parse_memcached_string_head qr =
  Some (set_cmd (set_data_size (set_exptime (set_flag (set_key qr (key_field k)) f) e) (u64 n)) cmd_set ps_succ, RET_SUCCESS).
Proof. intros. now apply (parse_set_head qr k f e n rest). Qed.

(** The head of a get or a delete is read back: the key field holds the
    first 250 bytes of the key, so longer keys are cut without an error. *)
Theorem get_head_roundtrip (qr : query_request_s) name c k rest :
  (name, c) = (str "get", cmd_get) \/ (name, c) = (str "delete", cmd_delete) ->
  query_head_buf qr = (name ++ SP :: k ++ crlf) ++ 0 :: rest ->
  Z.of_nat (length (query_head_buf qr)) = MAX_QUERY_HEADER_SIZE -> is_token k ->
  exists qr', parse_memcached_string_head qr = Some (qr', RET_SUCCESS) /\
    qr' = set_cmd (set_key qr (key_field k)) c ps_succ /\ key_str qr' = take 250 k.
Proof. intros. now apply (parse_get_head qr name c k rest). Qed.

Definition ex_set : query_request_s := request_of (str "set key 7 -1 12" ++ crlf).

Lemma parser_safe_witness :
  Z.of_nat (length (query_head_buf (request_of (replicate 600 255)))) = MAX_QUERY_HEADER_SIZE /\
  exists qr' r, parse_memcached_string_head (request_of (replicate 600 255)) = Some (qr', r).
Proof.
  split; [vm_compute; reflexivity|].
  destruct (parser_safe (request_of (replicate 600 255))) as (qr' & r & E & _); [vm_compute; reflexivity|].
  exists qr', r. exact E.
Defined.

Lemma set_head_roundtrip_witness :
  parse_memcached_string_head ex_set =
  Some (set_cmd (set_data_size (set_exptime (set_flag (set_key ex_set (key_field (str "key"))) 7) (-1)) 12) cmd_set ps_succ, RET_SUCCESS).
Proof.
  apply (set_head_roundtrip ex_set (str "key") 7 (-1) 12 (replicate 494 0)); try lia; try (vm_compute; reflexivity).
  - split; [done|]. repeat constructor; vm_compute; discriminate.
  - vm_compute. discriminate.
Defined.

Lemma get_head_roundtrip_witness :
  exists qr', parse_memcached_string_head (request_of (str "get key" ++ crlf)) = Some (qr', RET_SUCCESS) /\
    key_str qr' = str "key".
Proof.
  destruct (get_head_roundtrip (request_of (str "get key" ++ crlf)) (str "get") cmd_get (str "key") (replicate 502 0))
    as (qr' & E & _ & Ek).
  - left. reflexivity.
  - vm_compute. reflexivity.
  - vm_compute. reflexivity.
  - split; [done|]. repeat constructor; vm_compute; discriminate.
  - exists qr'. split; [exact E|exact Ek].
Defined.

End Protocol.
