(* ===== verification/Grammar.v ===== *)
(** What the parser of [src/src/memcached_protocol.c] accepts, as a grammar: a
    function on the words of the line, without buffers, saved pointers or NULs,
    and the proof that the parser of [Protocol] computes it for every head. *)

From Stdlib Require Import ZArith Lia String.
From stdpp Require Import base numbers list.
From S2P Require Import Prelude CString Protocol.

Module Grammar.
Import Protocol.
Import CString.

(** ** The grammar *)

Fixpoint skip_sp (l : list Z) : list Z :=
  match l with c :: l' => if c =? SP then skip_sp l' else l | [] => [] end.
(** Up to the first space, and what is behind it. *)
Fixpoint break_sp (l : list Z) : list Z * list Z :=
  match l with
  | [] => ([], [])
  | c :: l => if c =? SP then ([], l) else let '(w, r) := break_sp l in (c :: w, r)
  end.
Definition word (l : list Z) : option (list Z * list Z) :=
  match skip_sp l with [] => None | s => Some (break_sp s) end.

(** A line without the CR and LF it must end in. *)
Definition chop (l : list Z) : option (list Z) :=
  match rev l with lf :: cr :: r => if (lf =? LF) && (cr =? CR) then Some (rev r) else None | _ => None end.

(** The one argument of a command: spaces before it are skipped, one space
    behind it is cut off; but when there is no argument, the space before the
    line end is taken for the one behind it, and the line end for the argument. *)
Definition argument (l : list Z) : option (list Z) :=
  let s := skip_sp l in
  body ← chop s;
  Some (match rev body with
        | [] => if (length s =? length l)%nat then [] else s
        | c :: r => if c =? SP then rev r else body
        end).

(** The four arguments of a set; more are ignored. *)
Definition set_words (body : list Z) : option (list Z * Z * Z * Z) :=
  '(k, l) ← word body;
  if MAX_KEY_SIZE <=? Z.of_nat (length k) then None
  else '(f, l) ← word l; '(e, l) ← word l; '(n, _) ← word l; Some (k, atoi f, atoi e, u64 (atol n)).

(** A command with one argument that is [accept]ed. *)
Definition keyed (qr : query_request_s) (c : cmd_type_e) (accept : list Z -> bool) (l : list Z) : option query_request_s :=
  k ← argument l;
  if accept (take 250 k) then Some (set_cmd (set_key qr (key_field k)) c ps_succ) else None.

(** The request that a head stands for, or [None]. *)
Definition request_for (qr : query_request_s) (head : list Z) : option query_request_s :=
  '(w, l) ← word head;
  if is_word (str "get") w then keyed qr cmd_get (fun _ => true) l
  else if is_word (str "set") w then
    body ← chop l;
    '(k, f, e, n) ← set_words body;
    Some (set_cmd (set_data_size (set_exptime (set_flag (set_key qr (key_field k)) f) e) n) cmd_set ps_succ)
  else if is_word (str "delete") w then keyed qr cmd_delete (fun _ => true) l
  else if is_word (str "sync") w then keyed qr cmd_sync (fun k => is_word (str "index") k || is_word (str "all") k) l
  else if is_word (str "power") w then keyed qr cmd_power (is_word (str "halt")) l
  else None.

(** The C string at the start of a buffer. *)
Fixpoint c_string (l : list Z) : list Z :=
  match l with c :: l => if c =? 0 then [] else c :: c_string l | [] => [] end.

(** ** Words of a line *)

Definition nonzero (l : list Z) : Prop := Forall (fun c => c <> 0) l.
Definition spaces (n : nat) : list Z := replicate n SP.

Lemma spaces_nonzero n : nonzero (spaces n).
Proof. by apply Forall_replicate. Qed.

Lemma skip_sp_spec l : exists n, l = spaces n ++ skip_sp l /\ (forall c r, skip_sp l = c :: r -> c <> SP).
Proof.
  induction l as [|c l (n & E & Hc)]; [by exists 0%nat|]. cbn [skip_sp]. destruct (Z.eqb_spec c SP) as [->|Hne].
  - exists (S n). split; [cbn; by rewrite E at 1|done].
  - exists 0%nat. split; [done|]. by intros ? ? [= <- <-].
Qed.

Lemma break_sp_spec l : nonzero l ->
  Forall (fun c => c <> 0 /\ c <> SP) (break_sp l).1 /\
  (l = (break_sp l).1 ++ SP :: (break_sp l).2 \/ l = (break_sp l).1 /\ (break_sp l).2 = []).
Proof.
  induction 1 as [|c l Hc Hl IH]; [by split; [|right]|]. cbn [break_sp]. destruct (Z.eqb_spec c SP) as [->|Hne]; [by split; [|left]|].
  destruct (break_sp l) as [w r]. cbn [fst snd] in *. destruct IH as [Hw Hr]. split; [by constructor|].
  destruct Hr as [-> |[-> ->]]; [by left|by right].
Qed.

Lemma word_none l : word l = None -> exists n, l = spaces n.
Proof.
  unfold word. destruct (skip_sp_spec l) as (n & E & _). destruct (skip_sp l); [|done]. intros _. exists n. by rewrite E, app_nil_r.
Qed.
Lemma word_some l w r : nonzero l -> word l = Some (w, r) ->
  exists n, is_token w /\ nonzero r /\ (l = spaces n ++ w ++ SP :: r \/ l = spaces n ++ w /\ r = []).
Proof.
  unfold word. destruct (skip_sp_spec l) as (n & E & Hc). intros Hl. destruct (skip_sp l) as [|c s] eqn:Es; [done|].
  intros Eb%(inj Some). assert (Hs : nonzero (c :: s)) by (rewrite E in Hl; by apply Forall_app in Hl as []).
  destruct (break_sp_spec _ Hs) as [Hw Hr]. rewrite Eb in Hw, Hr. cbn [fst snd] in *.
  assert (Hne : w <> []).
  { intros ->. destruct Hr as [Hr|[? _]]; [|done]. injection Hr as -> _. by destruct (Hc SP s). }
  exists n. split; [by split|]. rewrite E. destruct Hr as [Hr|[Hr ->]]; rewrite Hr in *.
  - split; [|by left]. apply Forall_app in Hs as [_ Hs]. by apply Forall_cons in Hs as [].
  - split; [constructor|by right].
Qed.

Lemma chop_some l body : chop l = Some body <-> l = body ++ crlf.
Proof.
  unfold chop. split.
  - destruct (rev l) as [|lf [|cr r]] eqn:E; [done|done|]. destruct (Z.eqb_spec lf LF) as [->|]; [|done].
    destruct (Z.eqb_spec cr CR) as [->|]; [|done]. cbn [andb]. intros [= <-].
    rewrite <- (rev_involutive l), E. cbn [rev]. by rewrite <- app_assoc.
  - intros ->. rewrite rev_app_distr. cbn [rev crlf app]. rewrite !Z.eqb_refl. cbn [andb]. by rewrite rev_involutive.
Qed.

(** ** The parser on a buffer [pre ++ l ++ 0 :: rest], at [l] *)

(** What may be before a line that is looked at from behind. *)
Definition behind (pre : list Z) (z : Z) : Prop := (exists p y, pre = p ++ [y; z]) /\ z <> LF /\ z <> CR.

Lemma strtok_skip pre n c r : c <> SP ->
  strtok_r (pre ++ spaces n ++ c :: r) (Z.of_nat (length pre)) =
  strtok_r ((pre ++ spaces n) ++ c :: r) (Z.of_nat (length (pre ++ spaces n))).
Proof.
  intros Hc. destruct n as [|n]; [cbn; by rewrite !app_nil_r|]. rewrite app_assoc. set (B := (pre ++ spaces (S n)) ++ c :: r).
  assert (Ef : from B (Z.of_nat (length pre)) = Some (spaces (S n) ++ c :: r)) by (unfold B; rewrite <- app_assoc; apply from_app).
  assert (E0 : rd B (Z.of_nat (length pre)) = Some SP) by (unfold B; rewrite <- app_assoc; apply rd_app).
  assert (Ef' : from B (Z.of_nat (length (pre ++ spaces (S n)))) = Some (c :: r)) by apply from_app.
  assert (Ec : rd B (Z.of_nat (length (pre ++ spaces (S n)))) = Some c) by apply rd_app.
  assert (En : not_sp c = true) by (unfold not_sp; by rewrite (proj2 (Z.eqb_neq _ _))).
  assert (El : Z.of_nat (length pre) + Z.of_nat (length (spaces (S n))) = Z.of_nat (length (pre ++ spaces (S n))))
    by (rewrite length_app; lia).
  unfold strtok_r. rewrite E0, Ec, Ef, Ef'. cbn [mbind option_bind]. change (SP =? 0) with false. cbv iota.
  rewrite (count_until_app not_sp (spaces (S n)) c r) by (done || by apply Forall_replicate).
  pose proof (count_until_app not_sp [] c r ltac:(constructor) En) as E1. cbn [app length] in E1. rewrite E1.
  cbn [mbind option_bind]. rewrite El, Z.add_0_r, Ec. cbn [mbind option_bind]. by destruct (c =? 0).
Qed.

(** [strtok_r] finds the next word. *)
Lemma strtok_word pre l rest : nonzero l ->
  match word l with
  | None => exists b s, strtok_r (pre ++ l ++ 0 :: rest) (Z.of_nat (length pre)) = Some (b, None, s)
  | Some (w, r) => exists pre' t x, strtok_r (pre ++ l ++ 0 :: rest) (Z.of_nat (length pre)) =
        Some (pre' ++ r ++ 0 :: rest, Some t, Z.of_nat (length pre')) /\
      cstr (pre' ++ r ++ 0 :: rest) t = Some w /\ strlen (pre' ++ r ++ 0 :: rest) t = Some (Z.of_nat (length w)) /\
      is_token w /\ nonzero r /\ (pre' = x ++ w ++ [0] \/ pre' = x ++ w)
  end.
Proof.
  intros Hl. destruct (word l) as [[w r]|] eqn:E.
  - destruct (word_some l w r Hl E) as (n & Hw & Hr & Hcase). pose proof (token_nonzero w Hw) as Hnz.
    assert (Hsp : forall r', strtok_r (pre ++ spaces n ++ w ++ r') (Z.of_nat (length pre)) =
      strtok_r ((pre ++ spaces n) ++ w ++ r') (Z.of_nat (length (pre ++ spaces n)))).
    { intros r'. destruct Hw as [Hne Hw]. destruct w as [|c w]; [done|]. apply Forall_cons in Hw as [[_ Hc] _]. by apply strtok_skip. }
    destruct Hcase as [->|[-> ->]]; rewrite <- !app_assoc; cbn [app]; rewrite Hsp.
    + rewrite (strtok_app _ w SP) by auto. set (x := pre ++ spaces n). exists (x ++ w ++ [0]), (Z.of_nat (length x)), x.
      assert (Eb : (x ++ w ++ [0]) ++ r ++ 0 :: rest = x ++ w ++ 0 :: (r ++ 0 :: rest)) by by rewrite <- !app_assoc.
      rewrite Eb, cstr_app, strlen_app by done. rewrite Z.eqb_refl. split; [|split; [done|]; split; [done|]; split; [done|]; split; [done|by left]].
      do 3 f_equal. rewrite !length_app. cbn. lia.
    + rewrite (strtok_app _ w 0) by auto. set (x := pre ++ spaces n). exists (x ++ w), (Z.of_nat (length x)), x.
      cbn [app]. rewrite <- app_assoc, cstr_app, strlen_app by done. split; [|split; [done|]; split; [done|]; split; [done|]; split; [done|by right]].
      do 3 f_equal. rewrite !length_app. cbn. lia.
  - destruct (word_none l E) as (n & ->). rewrite strtok_skip by done. unfold strtok_r. rewrite rd_app. by do 2 eexists.
Qed.

(** The last two bytes of the line, looked at from behind. *)
Lemma line_end pre z l rest : behind pre z ->
  match chop l with
  | Some body => l = body ++ crlf
  | None =>
      (exists c, rd (pre ++ l ++ 0 :: rest) (Z.of_nat (length pre) + Z.of_nat (length l) - 1) = Some c /\ c <> LF) \/
      rd (pre ++ l ++ 0 :: rest) (Z.of_nat (length pre) + Z.of_nat (length l) - 1) = Some LF /\
      exists c, rd (pre ++ l ++ 0 :: rest) (Z.of_nat (length pre) + Z.of_nat (length l) - 2) = Some c /\ c <> CR
  end.
Proof.
  intros ((p & y & ->) & Hz1 & Hz2). destruct (chop l) as [body|] eqn:E; [by apply chop_some|].
  assert (Hl : exists a c2 c1, (p ++ [y; z]) ++ l = a ++ [c2; c1] /\ ~ (c2 = CR /\ c1 = LF)).
  { destruct l as [|x l _] using rev_ind; [exists p, y, z; rewrite app_nil_r; split; [done|]; by intros [_ ?]|].
    destruct l as [|x' l _] using rev_ind; [exists (p ++ [y]), z, x; split; [by rewrite <- !app_assoc|]; by intros [? _]|].
    exists ((p ++ [y; z]) ++ l), x', x. split; [by rewrite <- !app_assoc|]. intros [-> ->].
    assert (E' : chop ((l ++ [CR]) ++ [LF]) = Some l) by (apply chop_some; by rewrite <- app_assoc). congruence. }
  destruct Hl as (a & c2 & c1 & Ea & Hne).
  assert (El : Z.of_nat (length (p ++ [y; z])) + Z.of_nat (length l) = Z.of_nat (length a) + 2).
  { rewrite <- Nat2Z.inj_add, <- length_app, Ea, length_app. cbn. lia. }
  rewrite El, app_assoc, Ea.
  replace (Z.of_nat (length a) + 2 - 2) with (Z.of_nat (length a)) by lia.
  replace (Z.of_nat (length a) + 2 - 1) with (Z.of_nat (length (a ++ [c2]))) by (rewrite length_app; cbn; lia).
  assert (E1 : rd ((a ++ [c2; c1]) ++ 0 :: rest) (Z.of_nat (length (a ++ [c2]))) = Some c1).
  { replace ((a ++ [c2; c1]) ++ 0 :: rest) with ((a ++ [c2]) ++ c1 :: 0 :: rest) by by rewrite <- !app_assoc. apply rd_app. }
  assert (E2 : rd ((a ++ [c2; c1]) ++ 0 :: rest) (Z.of_nat (length a)) = Some c2) by (rewrite <- app_assoc; apply rd_app).
  rewrite E1, E2. destruct (decide (c1 = LF)) as [->|H1]; [right; split; [done|]|left]; eexists; (split; [reflexivity|]); [tauto|done].
Qed.

(** ** The commands with one argument *)

Lemma read_crlf pre body rest : let p := Z.of_nat (length pre) + Z.of_nat (length (body ++ crlf)) in
  rd (pre ++ (body ++ crlf) ++ 0 :: rest) (p - 1) = Some LF /\ rd (pre ++ (body ++ crlf) ++ 0 :: rest) (p - 2) = Some CR.
Proof.
  intros p. unfold p. rewrite <- Nat2Z.inj_add, <- length_app. split.
  - replace (pre ++ (body ++ crlf) ++ 0 :: rest) with ((pre ++ body ++ [CR]) ++ LF :: 0 :: rest) by by rewrite <- !app_assoc.
    replace (_ - 1) with (Z.of_nat (length (pre ++ body ++ [CR]))) by (rewrite !length_app; cbn; lia). apply rd_app.
  - replace (pre ++ (body ++ crlf) ++ 0 :: rest) with ((pre ++ body) ++ CR :: LF :: 0 :: rest) by by rewrite <- !app_assoc.
    replace (_ - 2) with (Z.of_nat (length (pre ++ body))) by (rewrite !length_app; cbn; lia). apply rd_app.
Qed.

(** The bytes that [ScanKey] looks at and the one it clears. *)
Lemma scan_cut pre z body rest : nonzero body -> behind pre z ->
  (exists b,
    (c3 ← rd (pre ++ (body ++ crlf) ++ 0 :: rest) (Z.of_nat (length pre) + Z.of_nat (length (body ++ crlf)) - 3);
     b ← wr (pre ++ (body ++ crlf) ++ 0 :: rest) (if c3 =? SP then Z.of_nat (length pre) + Z.of_nat (length (body ++ crlf)) - 3
                                                  else Z.of_nat (length pre) + Z.of_nat (length (body ++ crlf)) - 2) 0;
     s ← cstr b (Z.of_nat (length pre)); Some (b, s)) =
    Some (b, match rev body with c :: r => if c =? SP then rev r else body | [] => if z =? SP then crlf else [] end)).
Proof.
  intros Hb ((p & y & ->) & _). set (q := p ++ [y; z]).
  assert (El : Z.of_nat (length (body ++ crlf)) = Z.of_nat (length body) + 2) by (rewrite length_app; cbn; lia). rewrite El.
  destruct body as [|x body _] using rev_ind.
  - cbn [app length rev].
    replace (Z.of_nat (length q) + (Z.of_nat 0 + 2) - 3) with (Z.of_nat (length (p ++ [y]))) by (unfold q; rewrite !length_app; cbn; lia).
    replace (Z.of_nat (length q) + (Z.of_nat 0 + 2) - 2) with (Z.of_nat (length q)) by lia.
    assert (Eq : q ++ crlf ++ 0 :: rest = (p ++ [y]) ++ z :: crlf ++ 0 :: rest) by (unfold q; by rewrite <- !app_assoc).
    rewrite Eq, rd_app. cbn [mbind option_bind]. destruct (Z.eqb_spec z SP) as [->|Hz].
    + rewrite wr_app. cbn [mbind option_bind].
      replace (Z.of_nat (length q)) with (Z.of_nat (length ((p ++ [y]) ++ [0]))) by (unfold q; rewrite !length_app; cbn; lia).
      replace ((p ++ [y]) ++ 0 :: crlf ++ 0 :: rest) with (((p ++ [y]) ++ [0]) ++ crlf ++ 0 :: rest) by by rewrite <- !app_assoc.
      rewrite cstr_app by by repeat constructor. by eexists.
    + rewrite <- Eq. cbn [crlf app]. rewrite wr_app. cbn [mbind option_bind].
      pose proof (cstr_app q [] (LF :: 0 :: rest) ltac:(constructor)) as Ec. cbn [app] in Ec. rewrite Ec. by eexists.
  - rewrite rev_app_distr. cbn [rev app]. apply Forall_app in Hb as [Hb Hx]. apply Forall_cons in Hx as [Hx _]. rewrite length_app. cbn [length].
    replace (Z.of_nat (length q) + (Z.of_nat (length body + 1) + 2) - 3) with (Z.of_nat (length (q ++ body))) by (rewrite length_app; lia).
    replace (Z.of_nat (length q) + (Z.of_nat (length body + 1) + 2) - 2) with (Z.of_nat (length ((q ++ body) ++ [x]))) by (rewrite !length_app; cbn; lia).
    assert (Eb : q ++ ((body ++ [x]) ++ crlf) ++ 0 :: rest = (q ++ body) ++ x :: crlf ++ 0 :: rest) by by rewrite <- !app_assoc.
    rewrite Eb, rd_app. cbn [mbind option_bind]. destruct (Z.eqb_spec x SP) as [->|Hne].
    + rewrite wr_app. cbn [mbind option_bind]. rewrite <- app_assoc, cstr_app by done. cbn [mbind option_bind].
      rewrite rev_involutive. by eexists.
    + replace ((q ++ body) ++ x :: crlf ++ 0 :: rest) with (((q ++ body) ++ [x]) ++ CR :: LF :: 0 :: rest) by by rewrite <- !app_assoc.
      rewrite wr_app. cbn [mbind option_bind]. rewrite <- !app_assoc. cbn [app].
      replace (body ++ x :: 0 :: LF :: 0 :: rest) with ((body ++ [x]) ++ 0 :: LF :: 0 :: rest) by by rewrite <- app_assoc.
      rewrite cstr_app by (apply Forall_app; split; [done|by constructor]). by eexists.
Qed.

Lemma argument_nonzero l k : nonzero l -> argument l = Some k -> nonzero k.
Proof.
  intros Hl. unfold argument. destruct (skip_sp_spec l) as (n & E & _). intros (body & Hc & [= <-])%bind_Some.
  rewrite E in Hl. apply Forall_app in Hl as [_ Hs]. pose proof Hs as Hs'. apply chop_some in Hc. rewrite Hc in Hs' |- *.
  apply Forall_app in Hs' as [Hb _]. destruct body as [|x body _] using rev_ind; cbn [rev]; [destruct (_ =? _)%nat; by repeat constructor|].
  rewrite rev_app_distr. cbn [rev app]. destruct (x =? SP); [|done]. rewrite rev_involutive. by apply Forall_app in Hb as [].
Qed.

(** [ScanKey] takes the argument. *)
Lemma scan_argument pre z l rest qr : nonzero l -> behind pre z -> z <> SP ->
  exists b p, ScanKey (pre ++ l ++ 0 :: rest) (Z.of_nat (length pre)) qr =
    Some (b, p, (fun k => set_key qr (key_field k)) <$> argument l).
Proof.
  intros Hl Hp Hz. unfold argument. destruct (skip_sp_spec l) as (n & E & Hne). set (s := skip_sp l) in *. rewrite E in Hl |- *.
  apply Forall_app in Hl as [_ Hs].
  assert (Hp' : behind (pre ++ spaces n) (match n with O => z | _ => SP end)).
  { destruct n as [|n]; [cbn; by rewrite app_nil_r|]. destruct Hp as [(p & y & ->) _]. split; [|done].
    destruct n as [|n]; [by exists (p ++ [y]), z; rewrite <- !app_assoc|].
    exists ((p ++ [y; z]) ++ spaces n), SP. unfold spaces. rewrite <- (app_assoc (p ++ [y; z])). f_equal.
    change [SP; SP] with (replicate 2 SP). rewrite <- replicate_add. f_equal. lia. }
  unfold ScanKey. rewrite <- app_assoc, from_app. cbn [mbind option_bind].
  assert (Ec : count_until not_sp (spaces n ++ s ++ 0 :: rest) = Some (Z.of_nat (length (spaces n)))).
  { destruct s as [|c r]; cbn [app]; apply count_until_app; try done; try (by apply Forall_replicate).
    unfold not_sp. by rewrite (proj2 (Z.eqb_neq _ _)) by by eapply Hne. }
  rewrite Ec. cbn [mbind option_bind]. rewrite <- Nat2Z.inj_add, <- length_app, (app_assoc pre).
  rewrite strlen_app by done. cbn [mbind option_bind]. pose proof (line_end (pre ++ spaces n) _ s rest Hp') as Hend.
  destruct (chop s) as [body|] eqn:Eb.
  - pose proof Hend as Es. rewrite Es in *. apply Forall_app in Hs as [Hb _].
    destruct (read_crlf (pre ++ spaces n) body rest) as [E1 E2].
    rewrite E1, E2. cbn [mbind option_bind]. rewrite !Z.eqb_refl. cbn [negb].
    destruct (scan_cut (pre ++ spaces n) _ body rest Hb Hp') as (b & (c3 & -> & (b' & Hw & (k & Hk & [= <- Ek])%bind_Some)%bind_Some)%bind_Some).
    cbn [mbind option_bind]. rewrite Hw. cbn [mbind option_bind]. rewrite Hk. cbn [mbind option_bind]. do 2 eexists.
    cbn [fmap option_fmap option_map]. do 4 f_equal. rewrite Ek. destruct (rev body) as [|c r] eqn:Er; [|done].
    assert (body = []) as -> by (rewrite <- (rev_involutive body), Er; done). cbn [app]. rewrite length_app.
    destruct n as [|n]; cbn [spaces replicate length Nat.add app]; [by rewrite (proj2 (Z.eqb_neq z SP)), Nat.eqb_refl|].
    by rewrite (proj2 (Nat.eqb_neq _ _)) by lia.
  - destruct Hend as [(c & -> & Hc)|(-> & c & -> & Hc)]; cbn [mbind option_bind].
    + rewrite (proj2 (Z.eqb_neq c LF)) by done. by do 2 eexists.
    + rewrite Z.eqb_refl. cbn [negb]. rewrite (proj2 (Z.eqb_neq c CR)) by done. by do 2 eexists.
Qed.

(** ** The set command *)

(** The next turn of [parse_set_cmd] asks for a word. *)
Ltac next_word H :=
  let Hw := fresh in let Hc := fresh in let Hn := fresh in
  cbn [parse_set_loop parse_set_step];
  match goal with |- context [strtok_r (?p ++ ?l ++ 0 :: ?r) _] => pose proof (strtok_word p l r H) as Hw; destruct (word l) as [[? ?]|] end;
  [destruct Hw as (? & ? & ? & -> & Hc & Hn & _ & ? & _)|destruct Hw as (? & ? & ->)]; cbn [mbind option_bind];
  [rewrite ?Hn; cbn [mbind option_bind]; rewrite ?Hc; cbn [mbind option_bind]; clear Hn Hc|by do 4 eexists].

Lemma set_loop_words pre body rest qr : nonzero body ->
  exists b p qr' ok, parse_set_loop 6 s_set_key (pre ++ body ++ 0 :: rest) (Z.of_nat (length pre)) qr true = Some (b, p, qr', ok) /\
    match set_words body with
    | Some (k, f, e, n) => ok = true /\ qr' = set_data_size (set_exptime (set_flag (set_key qr (key_field k)) f) e) n
    | None => ok = false
    end.
Proof.
  intros Hb. unfold set_words. next_word Hb. rename l into k. destruct (Z.leb_spec MAX_KEY_SIZE (Z.of_nat (length k))) as [Hk|Hk]; [by do 4 eexists|].
  assert (Ek : take 251 (k ++ replicate 251 0) = key_field k).
  { unfold key_field. unfold MAX_KEY_SIZE in Hk. by rewrite (take_ge k) by lia. }
  rewrite Ek. cbn [mbind option_bind].
  match goal with H : nonzero ?l |- context [word ?l] => next_word H end.
  match goal with H : nonzero ?l |- context [word ?l] => next_word H end.
  match goal with H : nonzero ?l |- context [word ?l] => next_word H end.
  by do 4 eexists.
Qed.

Lemma set_run pre z l rest qr : nonzero l -> behind pre z ->
  exists b p qr' ok, parse_set_cmd (pre ++ l ++ 0 :: rest) (Z.of_nat (length pre)) qr = Some (b, p, qr', ok) /\
    match (body ← chop l; set_words body) with
    | Some (k, f, e, n) => ok = true /\ qr' = set_data_size (set_exptime (set_flag (set_key qr (key_field k)) f) e) n
    | None => ok = false
    end.
Proof.
  intros Hl Hp. pose proof (line_end pre z l rest Hp) as Hend. destruct (chop l) as [body|] eqn:Eb; cbn [mbind option_bind].
  - subst l. apply Forall_app in Hl as [Hb _]. rewrite parse_set_cut by done. by apply set_loop_words.
  - unfold parse_set_cmd. rewrite strlen_app by done. cbn [mbind option_bind].
    destruct Hend as [(c & -> & Hc)|(-> & c & -> & Hc)]; cbn [mbind option_bind].
    + rewrite (proj2 (Z.eqb_neq c LF)) by done. by do 4 eexists.
    + rewrite Z.eqb_refl. cbn [negb]. rewrite (proj2 (Z.eqb_neq c CR)) by done. by do 4 eexists.
Qed.

(** ** The head *)

(** What the parser returns for a head that stands for [o]. *)
Definition returned (o : option query_request_s) (res : option (query_request_s * Z)) : Prop :=
  match o with
  | Some q => res = Some (q, RET_SUCCESS)
  | None => exists q, res = Some (q, RET_PARSE_REQ_FAILED) /\ parse_status q = ps_failed
  end.

Lemma command_returned st token b p qr c parse b' p' qr' (ok : bool) :
  st <> s_done -> parse_step st token b p qr RET_SUCCESS = ('(s, qr') ← HandleCmd c parse b p qr; Some (s, qr', RET_SUCCESS)) ->
  parse b p qr = Some (b', p', qr', ok) ->
  returned (if ok then Some (set_cmd qr' c ps_succ) else None) (parse_loop 2 st token b p qr RET_SUCCESS).
Proof.
  intros Hst Estep E. unfold HandleCmd in Estep. rewrite E in Estep. cbn [mbind option_bind] in Estep.
  destruct ok, st; try done; cbn [parse_loop]; rewrite Estep; cbn; try done; by eexists.
Qed.

(** A command with one argument. *)
Lemma keyed_returned st token pre z l rest (qr : query_request_s) s c parse acc accept :
  nonzero l -> behind pre z -> z <> SP -> st <> s_done -> parse = scan_then acc ->
  (forall q, acc q = accept (key_str q)) ->
  (forall b p q, parse_step st token b p q RET_SUCCESS = ('(s, q') ← HandleCmd c parse b p q; Some (s, q', RET_SUCCESS))) ->
  returned (keyed qr c accept l)
    (parse_loop 2 st token (pre ++ l ++ 0 :: rest) (Z.of_nat (length pre)) (set_cmd qr cmd_unknown s) RET_SUCCESS).
Proof.
  intros Hl Hp Hz Hst -> Hacc Estep. unfold keyed.
  destruct (scan_argument pre z l rest (set_cmd qr cmd_unknown s) Hl Hp Hz) as (b & p & E).
  destruct (argument l) as [k|] eqn:Ek; cbn [fmap option_fmap option_map mbind option_bind] in *.
  - pose proof (argument_nonzero l k Hl Ek) as Hk.
    assert (Ekey : key_str (set_key (set_cmd qr cmd_unknown s) (key_field k)) = take 250 k)
      by (unfold key_str; cbn [set_key key]; by rewrite key_field_str).
    pose proof (command_returned st token (pre ++ l ++ 0 :: rest) (Z.of_nat (length pre)) (set_cmd qr cmd_unknown s) c (scan_then acc)
      b p (set_key (set_cmd qr cmd_unknown s) (key_field k)) (accept (take 250 k)) Hst (Estep _ _ _)) as H.
    destruct (accept (take 250 k)) eqn:Ea; apply H; unfold scan_then; rewrite E; cbn [mbind option_bind]; by rewrite Hacc, Ekey, Ea.
  - apply (command_returned st token (pre ++ l ++ 0 :: rest) _ _ c (scan_then acc) b p (set_cmd qr cmd_unknown s) false Hst (Estep _ _ _)).
    unfold scan_then. by rewrite E.
Qed.

Lemma set_returned token pre z l rest (qr : query_request_s) s : nonzero l -> behind pre z ->
  returned (body ← chop l; '(k, f, e, n) ← set_words body;
            Some (set_cmd (set_data_size (set_exptime (set_flag (set_key qr (key_field k)) f) e) n) cmd_set ps_succ))
    (parse_loop 2 s_set token (pre ++ l ++ 0 :: rest) (Z.of_nat (length pre)) (set_cmd qr cmd_unknown s) RET_SUCCESS).
Proof.
  intros Hl Hp. destruct (set_run pre z l rest (set_cmd qr cmd_unknown s) Hl Hp) as (b & p & qr' & ok & E & Hres).
  pose proof (command_returned s_set token (pre ++ l ++ 0 :: rest) (Z.of_nat (length pre)) (set_cmd qr cmd_unknown s) cmd_set parse_set_cmd
    b p qr' ok ltac:(done) eq_refl E) as H.
  destruct (chop l) as [body|]; cbn [mbind option_bind] in *; [|by rewrite Hres in H].
  destruct (set_words body) as [[[[k f] e] n]|]; cbn [mbind option_bind]; [destruct Hres as [-> ->]; exact H|by rewrite Hres in H].
Qed.

(** Behind the name of a command the parser finds a byte that is neither a line
    end nor a space. *)
Lemma name_behind x w pre : command_state w <> s_fatal -> pre = x ++ w ++ [0] \/ pre = x ++ w ->
  exists z, behind pre z /\ z <> SP.
Proof.
  intros Hw Hpre. assert (Hlast : exists w' y z, w = w' ++ [y; z] /\ z <> LF /\ z <> CR /\ z <> SP).
  { assert (Hn : exists name a b, tolower <$> w = name ++ [a; b] /\ 97 <= b).
    { unfold command_state, is_word in Hw. repeat (case_bool_decide as Ew; [rewrite Ew; clear|clear Ew]); try done;
        [exists [103], 101, 116|exists [115], 101, 116|exists (str "dele"), 116, 101|exists (str "sy"), 110, 99|exists (str "pow"), 101, 114];
        split; done. }
    destruct Hn as (name & a & b & E & Hb). apply fmap_app_inv in E as (w' & yz & E1 & E2 & ->).
    destruct yz as [|y [|z [|]]]; try done. exists w', y, z. split; [done|]. injection E2 as _ ->.
    revert Hb. unfold tolower, LF, CR, SP. destruct ((65 <=? z) && (z <=? 90)) eqn:Ez; [apply andb_true_iff in Ez as [?%Z.leb_le ?%Z.leb_le]|]; lia. }
  destruct Hlast as (w' & y & z & -> & H1 & H2 & H3). destruct Hpre as [-> | ->].
  - exists 0. split; [|done]. split; [|done]. exists (x ++ w' ++ [y]), z. by rewrite <- !app_assoc.
  - exists z. split; [|done]. split; [|done]. exists (x ++ w'), y. by rewrite <- app_assoc.
Qed.

Lemma c_string_split l : exists rest, l ++ [0] = c_string l ++ 0 :: rest /\ nonzero (c_string l).
Proof.
  induction l as [|c l (rest & E & Hn)]; [by exists []; split; [|constructor]|]. cbn [c_string app]. destruct (Z.eqb_spec c 0) as [->|Hc].
  - exists (l ++ [0]). by split; [|constructor].
  - exists rest. rewrite E. by split; [|constructor].
Qed.

Lemma head_returned (qr : query_request_s) :
  Z.of_nat (length (query_head_buf qr)) = MAX_QUERY_HEADER_SIZE ->
  returned (request_for qr (c_string (take 511 (query_head_buf qr)))) (parse_memcached_string_head qr).
Proof.
  intros Hl. unfold MAX_QUERY_HEADER_SIZE in Hl. set (h := c_string (take 511 (query_head_buf qr))).
  destruct (c_string_split (take 511 (query_head_buf qr))) as (rest & E & Hh). fold h in E, Hh.
  assert (Ew : wr (query_head_buf qr) (MAX_QUERY_HEADER_SIZE - 1) 0 = Some (h ++ 0 :: rest)).
  { rewrite <- E. rewrite <- (take_drop 511 (query_head_buf qr)) at 1.
    destruct (drop 511 (query_head_buf qr)) as [|c [|]] eqn:Ed; apply (f_equal length) in Ed; rewrite length_drop in Ed; cbn in Ed; try lia.
    replace (MAX_QUERY_HEADER_SIZE - 1) with (Z.of_nat (length (take 511 (query_head_buf qr)))) by (rewrite length_take; unfold MAX_QUERY_HEADER_SIZE; lia).
    apply wr_app. }
  unfold parse_memcached_string_head, request_for. cbn [set_cmd query_head_buf]. rewrite Ew. cbn [mbind option_bind].
  pose proof (strtok_word [] h rest Hh) as Hw. destruct (word h) as [[w l]|]; cbn [app length] in Hw; change (Z.of_nat 0) with 0 in Hw.
  - destruct Hw as (pre & t & x & -> & Hc & _ & _ & Hnl & Hpre). cbn [mbind option_bind]. rewrite Hc. cbn [mbind option_bind].
    change (parse_loop 3 s_ready w ?b ?p ?q RET_SUCCESS) with (parse_loop 2 (command_state w) w b p q RET_SUCCESS).
    destruct (decide (command_state w = s_fatal)) as [Ef|Hne].
    + unfold command_state in *. repeat (destruct (is_word _ w); [done|]). by eexists.
    + destruct (name_behind x w pre Hne Hpre) as (z & Hz & Hsp). unfold command_state in *.
      repeat (destruct (is_word _ w); [first [by eapply set_returned|by eapply keyed_returned]|]). done.
  - destruct Hw as (b & s & ->). cbn [mbind option_bind]. by eexists.
Qed.

(** A power command that is accepted says halt. *)
Lemma accepted_power (qr q : query_request_s) :
  Z.of_nat (length (query_head_buf qr)) = MAX_QUERY_HEADER_SIZE ->
  parse_memcached_string_head qr = Some (q, RET_SUCCESS) -> cmd_type q = cmd_power -> is_word (str "halt") (key_str q) = true.
Proof.
  intros Hl E Hc. pose proof (head_returned qr Hl) as H. set (h := c_string (take 511 (query_head_buf qr))) in *.
  assert (Hh : nonzero h) by (destruct (c_string_split (take 511 (query_head_buf qr))) as (? & _ & ?); done).
  destruct (request_for qr h) as [q'|] eqn:Er; cbn [returned] in H; rewrite E in H; [|by destruct H as (? & [=] & _)].
  injection H as <-. unfold request_for in Er. apply bind_Some in Er as ([w l] & Ew & Er).
  destruct (word_some h w l Hh Ew) as (n & _ & Hl' & _).
  assert (Hk : forall c accept, keyed qr c accept l = Some q -> cmd_type q = c /\ accept (key_str q) = true).
  { intros c accept (k & Ek & Hk)%bind_Some. destruct (accept (take 250 k)) eqn:Ea; [|done]. injection Hk as <-. split; [done|].
    unfold key_str. cbn [set_cmd set_key key]. by rewrite (key_field_str k (argument_nonzero l k Hl' Ek)). }
  destruct (is_word (str "get") w); [apply Hk in Er as [Er _]; congruence|].
  destruct (is_word (str "set") w).
  { apply bind_Some in Er as (body & _ & Er). apply bind_Some in Er as ([[[k f] e] m] & _ & Er). injection Er as <-. done. }
  destruct (is_word (str "delete") w); [apply Hk in Er as [Er _]; congruence|].
  destruct (is_word (str "sync") w); [apply Hk in Er as [Er _]; congruence|].
  destruct (is_word (str "power") w); [by apply Hk in Er as [_ Er]|done].
Qed.

(** C31: the parser computes the grammar. For every 512 bytes of a head, the
    parser with its [strtok_r], its saved pointer and its cuts in a copied buffer
    returns what a function on the words of the line gives: the first word,
    in any case, names the command; a set has a key of at most 250 bytes and
    three numbers, read as the C library reads them and stored in the field of
    their place, a negative size as a huge one; get and delete take the
    rest of the line, of which the first 250 bytes are kept; sync takes [index]
    or [all], power takes [halt]; every line ends in CR LF. Everything else is
    refused, and nothing that follows the grammar is. *)
Theorem parser_grammar (qr : query_request_s) :
  Z.of_nat (length (query_head_buf qr)) = MAX_QUERY_HEADER_SIZE ->
  match request_for qr (c_string (take 511 (query_head_buf qr))) with
  | Some q => parse_memcached_string_head qr = Some (q, RET_SUCCESS)
  | None => exists q, parse_memcached_string_head qr = Some (q, RET_PARSE_REQ_FAILED) /\ parse_status q = ps_failed
  end.
Proof. exact (head_returned qr). Qed.

(** Words in any case, spaces between them, a size below zero, a fifth argument. *)
Definition ex_head : query_request_s := request_of (str "  SeT  k 4294967295 -7  -2 more" ++ crlf).

Lemma parser_grammar_witness :
  parse_memcached_string_head ex_head =
  Some (set_cmd (set_data_size (set_exptime (set_flag (set_key ex_head (key_field (str "k"))) (-1)) (-7)) (2 ^ 64 - 2)) cmd_set ps_succ, RET_SUCCESS).
Proof.
  pose proof (parser_grammar ex_head ltac:(vm_compute; reflexivity)) as H.
  assert (E : request_for ex_head (c_string (take 511 (query_head_buf ex_head))) =
    Some (set_cmd (set_data_size (set_exptime (set_flag (set_key ex_head (key_field (str "k"))) (-1)) (-7)) (2 ^ 64 - 2)) cmd_set ps_succ))
    by (vm_compute; reflexivity).
  rewrite E in H. exact H.
Defined.

(** The space of a missing argument. *)
Example missing_argument :
  argument (str " " ++ crlf) = Some crlf /\ argument crlf = Some [] /\ argument (str "key " ++ crlf) = Some (str "key").
Proof. vm_compute. done. Qed.

End Grammar.
