(* ===== verification/Task.v ===== *)
(** The query task of [src/include/query_thread.h], which the assign thread
    fills and a query thread answers, and what both threads do with one: set its
    error text, change its state, give it up.

    A task has one owner at a time (the assign thread until its pointer is
    written to a pipe, then a query thread), so it is passed by value. The
    clock, the peer's address and the log lines are left out. *)

From Stdlib Require Import ZArith Lia String.
From stdpp Require Import base numbers list.
From S2P Require Import Prelude CString Protocol.

Module Task.
Import Protocol.

Inductive query_state_e :=
  | s_recv_req_head | s_parse_req_head | s_recv_req_data | s_dispatch_query_task | s_destroy_recv
  | s_do_sync | s_do_power
  | s_set_success | s_get_success | s_delete_success
  | s_set_failed | s_get_failed | s_delete_failed
  | s_return_resp_head | s_return_resp_data | s_return_failed.
#[export] Instance query_state_eq_dec : EqDecision query_state_e.
Proof. solve_decision. Defined.

Definition MAX_RESP_HEADER_SIZE : Z := 512.

(** [resp_head_buf] is given up to its NUL; buffers are NULL or bytes. *)
Record query_response_s := QueryResponse {
  resp_head_buf : list Z;
  resp_head_buf_size : Z;
  resp_data_buf : option (list Z);
  resp_data_size : Z;
  resp_tailor_buf : option (list Z);
  resp_tailor_size : Z
}.
Definition zero_response : query_response_s := QueryResponse [] 0 None 0 None 0.

(** [error_log]: NULL, or the format of the text. *)
Record query_task_s := QueryTask {
  sock_fd : Z;
  thread_id : Z;
  error_log : option string;
  state : query_state_e;
  have_read : Z;
  need_read : Z;
  io_active : bool;
  timer_active : bool;
  query_request : query_request_s;
  query_response : query_response_s
}.

Definition set_error_log (t : query_task_s) (e : option string) : query_task_s :=
  QueryTask (sock_fd t) (thread_id t) e (state t) (have_read t) (need_read t)
    (io_active t) (timer_active t) (query_request t) (query_response t).
Definition set_state (t : query_task_s) (s : query_state_e) : query_task_s :=
  QueryTask (sock_fd t) (thread_id t) (error_log t) s (have_read t) (need_read t)
    (io_active t) (timer_active t) (query_request t) (query_response t).
Definition set_read (t : query_task_s) (have need : Z) : query_task_s :=
  QueryTask (sock_fd t) (thread_id t) (error_log t) (state t) have need
    (io_active t) (timer_active t) (query_request t) (query_response t).
Definition set_watchers (t : query_task_s) (io timer : bool) : query_task_s :=
  QueryTask (sock_fd t) (thread_id t) (error_log t) (state t) (have_read t) (need_read t)
    io timer (query_request t) (query_response t).
Definition set_request (t : query_task_s) (r : query_request_s) : query_task_s :=
  QueryTask (sock_fd t) (thread_id t) (error_log t) (state t) (have_read t) (need_read t)
    (io_active t) (timer_active t) r (query_response t).
Definition set_response (t : query_task_s) (r : query_response_s) : query_task_s :=
  QueryTask (sock_fd t) (thread_id t) (error_log t) (state t) (have_read t) (need_read t)
    (io_active t) (timer_active t) (query_request t) r.
Definition set_thread_id (t : query_task_s) (i : Z) : query_task_s :=
  QueryTask (sock_fd t) i (error_log t) (state t) (have_read t) (need_read t)
    (io_active t) (timer_active t) (query_request t) (query_response t).

(** What [slab_calloc] gives, with the socket set. *)
Definition zero_task (fd : Z) : query_task_s :=
  QueryTask fd 0 None s_recv_req_head 0 0 false false (request_of []) zero_response.

(** The [Log] macro: the process aborts when a text is set already; without
    memory for it, [snprintf] writes through NULL. *)
Inductive logged := Logged (t : query_task_s) | LogAbort | LogNull.
Definition Log (alloc : bool) (t : query_task_s) (fmt : string) : logged :=
  match error_log t with
  | Some _ => LogAbort
  | None => if alloc then Logged (set_error_log t (Some fmt)) else LogNull
  end.

End Task.
