(* ===== verification/Assign.v ===== *)
(** The assign thread of [src/src/assign_thread.c]: it accepts connections,
    receives requests through the state machine of [query_io_event_handler] and
    writes the pointers of complete tasks to the pipes of the query threads in
    turn.

    The environment answers through queues: [reads] for every [read] of the
    socket (nothing left: [EAGAIN], the socket is non-blocking), [allocs] for
    every allocation (nothing left: success), [writes] for every [write] to a
    pipe (nothing left: complete). *)

From Stdlib Require Import ZArith Lia String.
From stdpp Require Import base numbers list gmap.
From S2P Require Import Prelude CString IndexTypes Bdb Storage Protocol Task.

Module Assign.
Import Protocol Task.

(** One [read]: bytes (as many as asked for at most), end of file, or an error;
    [again]: [EAGAIN] or [EINTR]. *)
Inductive read_ans := Bytes (l : list Z) | Eof | Err (again : bool).

Section Code.
Context {DB : Type} `{BerkeleyDB DB}.

(** [last_fd], the number of query threads, the storage, the tasks sent so far
    with the thread each went to, the tasks destroyed. *)
Record world := World {
  last_fd : Z;
  worker_thread_cnt : Z;
  storage : Storage.state DB;
  sent : list (Z * query_task_s);
  destroyed : list query_task_s;
  reads : list read_ans;
  allocs : list bool;
  writes : list Z
}.

(** ** The monad: the thread goes on, the process aborts or exits, the thread
    waits for a lock or spins forever, or memory is violated: the block of a
    body is written past its end ([Overflow]), or any other access. *)
Inductive outcome (A : Type) := Ret (a : A) (w : world) | Abort | Exit (w : world) | Blocked | Spins | Overflow | Undefined | OutOfFuel.
Arguments Ret {A}. Arguments Abort {A}. Arguments Exit {A}. Arguments Blocked {A}. Arguments Spins {A}. Arguments Overflow {A}.
Arguments Undefined {A}. Arguments OutOfFuel {A}.
Definition M (A : Type) : Type := world -> outcome A.
Definition ret {A} (a : A) : M A := fun w => Ret a w.
Definition bind {A B} (m : M A) (k : A -> M B) : M B := fun w =>
  match m w with
  | Ret a w => k a w | Abort => Abort | Exit w => Exit w | Blocked => Blocked | Spins => Spins
  | Overflow => Overflow | Undefined => Undefined | OutOfFuel => OutOfFuel
  end.
Definition get : M world := fun w => Ret w w.
Definition abort {A} : M A := fun _ => Abort.
Definition undefined {A} : M A := fun _ => Undefined.
Definition assert (b : bool) : M unit := if b then ret tt else abort.
(** A value that is [None] when memory is violated, and the same for a body
    copied into its block. *)
Definition checked {A} (o : option A) : M A := match o with Some a => ret a | None => undefined end.
Definition fill (o : option (list Z)) : M (list Z) := match o with Some a => ret a | None => fun _ => Overflow end.

#[local] Notation "'let*' x := m 'in' k" := (bind m (fun x => k))
  (at level 10, x name, m at level 100, k at level 200).
#[local] Notation "m ;; k" := (bind m (fun _ => k)) (at level 100, k at level 200, right associativity).

Definition next_read : M read_ans := fun w =>
  match reads w with
  | [] => Ret (Err true) w
  | r :: rs => Ret r (World (last_fd w) (worker_thread_cnt w) (storage w) (sent w) (destroyed w) rs (allocs w) (writes w))
  end.
Definition next_alloc : M bool := fun w =>
  match allocs w with
  | [] => Ret true w
  | a :: r => Ret a (World (last_fd w) (worker_thread_cnt w) (storage w) (sent w) (destroyed w) (reads w) r (writes w))
  end.
Definition next_write : M Z := fun w =>
  match writes w with
  | [] => Ret 8 w
  | n :: r => Ret n (World (last_fd w) (worker_thread_cnt w) (storage w) (sent w) (destroyed w) (reads w) (allocs w) r)
  end.
Definition set_last_fd (n : Z) : M unit := fun w =>
  Ret tt (World n (worker_thread_cnt w) (storage w) (sent w) (destroyed w) (reads w) (allocs w) (writes w)).
Definition send (i : Z) (t : query_task_s) : M unit := fun w =>
  Ret tt (World (last_fd w) (worker_thread_cnt w) (storage w) (sent w ++ [(i, t)]) (destroyed w) (reads w) (allocs w) (writes w)).
Definition bury (t : query_task_s) : M unit := fun w =>
  Ret tt (World (last_fd w) (worker_thread_cnt w) (storage w) (sent w) (destroyed w ++ [t]) (reads w) (allocs w) (writes w)).

(** A call into the storage. *)
Definition on_storage {A} (m : Storage.M DB A) : M A := fun w =>
  match m (storage w) with
  | Storage.Ret a s => Ret a (World (last_fd w) (worker_thread_cnt w) s (sent w) (destroyed w) (reads w) (allocs w) (writes w))
  | Storage.Abort => Abort
  | Storage.Blocked => Blocked
  | Storage.Undefined => Undefined
  end.

Definition log (t : query_task_s) (fmt : string) : M query_task_s :=
  match error_log t with
  | Some _ => abort
  | None => let* a := next_alloc in match Log a t fmt with Logged t => ret t | LogAbort => abort | LogNull => undefined end
  end.

(** ** The state of a task *)

Definition change_query_task_state (t : query_task_s) (new_state : query_state_e) : M query_task_s :=
  let t := set_state t new_state in
  match new_state with
  | s_recv_req_head =>
      let t := set_read t (have_read t) (MAX_QUERY_HEADER_SIZE - have_read t) in
      if need_read t =? 0 then
        assert (if error_log t is Some _ then false else true) ;;
        let* t := log t "Request header is longger than expected" in
        ret (set_state t s_destroy_recv)
      else ret (set_state t s_recv_req_head)
  | s_recv_req_data => assert (if error_log t is Some _ then false else true) ;; ret t
  | s_dispatch_query_task =>
      assert (if error_log t is Some _ then false else true) ;;
      ret (set_request t (set_data_size (query_request t) (u64 (data_size (query_request t) - 2))))
  | s_return_failed => assert (if error_log t is Some _ then true else false) ;; ret t
  | _ => ret t
  end.

(** The watchers are stopped, the socket closed, the memory given back. *)
Definition destroy_query_task (t : query_task_s) : M unit := bury (set_watchers t false false).

(** ** Sending a task to a query thread *)

(** [atomic_uint_lte] tests for greater or equal. *)
Definition atomic_uint_lte (p v : Z) : bool := v <=? p.

Definition dispatch_query_task (t : query_task_s) : M bool :=
  let t := set_watchers t false false in
  let* w := get in
  (if atomic_uint_lte (last_fd w) (worker_thread_cnt w) then set_last_fd 0 else ret tt) ;;
  let* w := get in
  let* nwrite := next_write in
  set_last_fd (u64 (last_fd w + 1)) ;;
  if negb (nwrite =? 8) then abort
  else send (last_fd w) t ;; ret false.

(** ** Receiving *)

(** [net_read] of at most [n] bytes: the return value and the bytes. (What it
    counts is in [IoLayer].) *)
Definition net_read (n : Z) (r : read_ans) : Z * list Z :=
  match r with
  | Bytes l => let l := take (Z.to_nat n) l in (Z.of_nat (length l), l)
  | Eof => (0, [])
  | Err _ => (-1, [])
  end.

(** [strlen] of the head, then its last two bytes cut off. *)
Definition truncate_head (qr : query_request_s) : option query_request_s :=
  n ← CString.strlen (head_memory qr) 0;
  mem ← CString.wr (head_memory qr) (n - 2) 0;
  Some (set_head qr (take 512 mem) (le_combine (drop 512 mem))).

(** The block that [slab_alloc] finds for a body of [n] bytes. The allocator adds
    the 8 bytes of its header in 64 bits; when the sum wraps around, to 1 up to 7,
    the chunk is one for less than a header, and no byte of the body has room in
    it. (When the sum is 0 the allocator refuses: the answer to expect is no.) *)
Definition body_block (n : Z) : list Z := if n + 8 <? 2 ^ 64 then replicate (Z.to_nat n) 0 else [].

(** The parsed request [request], with the code [r] of the parser; [tmp_buf]
    holds the [data_len] bytes that came behind the head. *)
Definition act_on_head (t : query_task_s) (data_len : Z) (tmp_buf : list Z) (request : query_request_s) (r : Z)
  : M (bool * query_task_s) :=
  if (r =? RET_SUCCESS) && bool_decide (parse_status request = ps_succ) then
    match cmd_type request with
    | cmd_set =>
        let request := set_data_size request (u64 (data_size request + 2)) in
        let* a := next_alloc in
        assert a ;;
        let* block := fill (CString.write_at (body_block (data_size request)) 0 tmp_buf) in
        let request := set_data request (Some block) in
        let t := set_read (set_request t request) (have_read t) (i64 (data_size request - data_len)) in
        if need_read t =? 0 then let* t := change_query_task_state t s_dispatch_query_task in ret (true, t)
        else if 0 <? need_read t then let* t := change_query_task_state t s_recv_req_data in ret (false, t)
        else let* t := change_query_task_state t s_destroy_recv in ret (true, t)
    | cmd_get => let* t := change_query_task_state (set_request t request) s_dispatch_query_task in ret (true, t)
    | cmd_delete => let* t := change_query_task_state (set_request t request) s_dispatch_query_task in ret (true, t)
    | cmd_sync => let* t := change_query_task_state (set_request t request) s_do_sync in ret (true, t)
    | cmd_power => let* t := change_query_task_state (set_request t request) s_do_power in ret (true, t)
    | cmd_unknown =>
        let* t := log (set_request t request) "Oops! cmd type: %d" in
        let* t := change_query_task_state t s_destroy_recv in ret (true, t)
    end
  else
    let* request := checked (truncate_head request) in
    let* t := log (set_request t request) "parse request failed, cmd type: %d" in
    let* t := change_query_task_state t s_return_failed in ret (true, t).

Definition parse_query_request_head (t : query_task_s) : M (bool * query_task_s) :=
  let request := query_request t in
  let* p := checked (try_parse_memcached_string_head request) in
  match p with
  | None => let* t := change_query_task_state t s_recv_req_head in ret (true, t)
  | Some p =>
      let p := p + 2 in
      let request := set_head request (query_head_buf request) p in
      assert (p <=? have_read t) ;;
      let data_len := have_read t - p in
      let* _ := checked (if have_read t <=? MAX_QUERY_HEADER_SIZE then Some tt else None) in
      let tmp_buf := take (Z.to_nat data_len) (drop (Z.to_nat p) (head_memory request)) in
      let* mem := checked (CString.wr (head_memory request) p 0) in
      let request := set_head request (take 512 mem) (le_combine (drop 512 mem)) in
      let* r := checked (parse_memcached_string_head request) in
      act_on_head t data_len tmp_buf r.1 r.2
  end.

(** The bytes go to [query_head_buf + query_head_buf_size]. *)
Definition recv_req_head (t : query_task_s) : M (bool * query_task_s) :=
  let request := query_request t in
  let* r := next_read in
  let '(nread, l) := net_read (need_read t) r in
  let* buf := checked (CString.write_at (query_head_buf request) (query_head_buf_size request) l) in
  let t := set_request t (set_head request buf (query_head_buf_size request)) in
  if (nread =? 0) && negb (need_read t =? 0) then
    let* t := change_query_task_state t s_destroy_recv in ret (false, t)
  else if (0 <? nread) && (nread <=? need_read t) then
    let t := set_read t (have_read t + nread) 0 in
    let* t := change_query_task_state t s_parse_req_head in ret (true, t)
  else if nread <? 0 then
    let* t := log t "net_read(need_read = %zd, have_read = %zd) return %d - %s" in
    let* t := change_query_task_state t s_destroy_recv in ret (true, t)
  else
    let* t := log t "read request head failed: unknonwn" in
    let* t := change_query_task_state t s_destroy_recv in ret (true, t).

(** The loop from the label [go]: [EAGAIN] and [EINTR] read again at once. *)
Fixpoint recv_data_loop (rs : list read_ans) (t : query_task_s) : M (bool * query_task_s) :=
  match rs with
  | [] => fun _ => Spins
  | _ :: rs =>
      let request := query_request t in
      let data_len := u64 (have_read t - query_head_buf_size request) in
      let* r := next_read in
      let '(nread, l) := net_read (need_read t) r in
      let* block := checked (if 0 <? nread then b ← data request; CString.write_at b data_len l else Some []) in
      let t := if 0 <? nread then set_request t (set_data request (Some block)) else t in
      if (nread =? 0) && negb (need_read t =? 0) then
        let* t := log t "Remote reset connection unexpected, need_read = %zd, have_read = %zd" in
        let* t := change_query_task_state t s_destroy_recv in ret (true, t)
      else if (0 <? nread) && (nread <? need_read t) then
        ret (false, set_read t (have_read t + nread) (need_read t - nread))
      else if nread =? need_read t then
        let* t := change_query_task_state t s_dispatch_query_task in ret (true, t)
      else if nread <? 0 then
        match r with
        | Err true => recv_data_loop rs t
        | _ =>
            let* t := log t "read request data failed: %d - %s" in
            let* t := change_query_task_state t s_destroy_recv in ret (true, t)
        end
      else
        let* t := log t "read request head failed: unknonwn" in
        let* t := change_query_task_state t s_destroy_recv in ret (true, t)
  end.
Definition recv_req_data (t : query_task_s) : M (bool * query_task_s) :=
  if need_read t =? 0 then let* t := change_query_task_state t s_dispatch_query_task in ret (true, t)
  else let* w := get in recv_data_loop (reads w) t.

(** ** The event handler *)

Definition all_word : list Z := [97; 108; 108].

(** One turn: [need_loop] as the turn leaves it, and the task unless it was
    given away; [None] stands for a [need_loop] not assigned yet. *)
Definition handler_turn (t : query_task_s) (need_loop : option bool) : M (option bool * option query_task_s) :=
  match state t with
  | s_recv_req_head => let* r := recv_req_head t in ret (Some r.1, Some r.2)
  | s_parse_req_head => let* r := parse_query_request_head t in ret (Some r.1, Some r.2)
  | s_recv_req_data => let* r := recv_req_data t in ret (Some r.1, Some r.2)
  | s_dispatch_query_task => let* b := dispatch_query_task t in ret (Some b, None)
  | s_return_failed => let* b := dispatch_query_task t in ret (Some b, None)
  | s_destroy_recv => destroy_query_task t ;; ret (Some false, None)
  | s_do_sync =>
      on_storage (Storage.sync_storage (key_str (query_request t))) ;;
      let* t := change_query_task_state t s_destroy_recv in ret (need_loop, Some t)
  | s_do_power =>
      on_storage (Storage.sync_storage all_word) ;;
      destroy_query_task t ;;
      on_storage Storage.close_storage ;;
      fun w => Exit w
  | _ => let* t := change_query_task_state t s_destroy_recv in ret (need_loop, Some t)
  end.

(** The loop, at most [fuel] turns; [None]: the task is gone. A loop that goes
    on without a task would use freed memory. *)
Fixpoint handler_loop (fuel : nat) (t : query_task_s) (need_loop : option bool) : M (option query_task_s) :=
  match fuel with
  | O => fun _ => OutOfFuel
  | S fuel =>
      let* r := handler_turn t need_loop in
      match r with
      | (Some true, Some t) => handler_loop fuel t (Some true)
      | (Some false, o) => ret o
      | _ => undefined
      end
  end.
Definition HANDLER_FUEL : nat := 1030.
Inductive event_t := EV_READ | EV_WRITE | EV_TIMEOUT | EV_OTHER.
Definition query_io_event_handler (t : query_task_s) (event : event_t) : M (option query_task_s) :=
  match event with
  | EV_READ | EV_WRITE => handler_loop HANDLER_FUEL t None
  | _ => ret (Some t)
  end.

Definition query_timer_event_handler (t : query_task_s) (event : event_t) : M (option query_task_s) :=
  match event with
  | EV_TIMEOUT =>
      let* t := log t "read request timeout: have_read = %zd, need_read = %zd" in
      destroy_query_task t ;; ret None
  | _ => ret (Some t)
  end.

(** ** Accepting connections *)

Definition do_accept_connection (accept_fd : Z) : M (option query_task_s) :=
  let* a := next_alloc in
  if negb a then ret None
  else let* t := change_query_task_state (zero_task accept_fd) s_recv_req_head in ret (Some t).

(** [sockfd] is what [accept] returned. *)
Definition accept_connection (sockfd : Z) : M (option query_task_s) :=
  if sockfd <? 0 then ret None
  else
    let* qt := do_accept_connection sockfd in
    match qt with
    | None => ret None
    | Some t => ret (Some (set_watchers t true true))
    end.
Definition accept_event_handler (event : event_t) (sockfd : Z) : M (option query_task_s) :=
  match event with EV_READ => accept_connection sockfd | _ => ret None end.

(** What the system answers to the calls of [init_listen_socket], in order. *)
Record listen_env := ListenEnv { le_socket : Z; le_nonblock : Z; le_bind : bool; le_listen : bool }.
Definition init_listen_socket (e : listen_env) : Z :=
  if le_socket e <? 0 then IndexTypes.RET_FAILED
  else if negb (le_nonblock e =? 0) then IndexTypes.RET_FAILED
  else if negb (le_bind e) then IndexTypes.RET_FAILED
  else if negb (le_listen e) then IndexTypes.RET_FAILED
  else le_socket e.

(** The listening descriptor, or [None] when the thread returns at once. *)
Definition new_assign_thread (e : listen_env) : M (option Z) :=
  set_last_fd 0 ;;
  let listenfd := init_listen_socket e in
  if listenfd =? IndexTypes.RET_FAILED then ret None
  else let* a := next_alloc in if negb a then undefined else ret (Some listenfd).

(** A connection's life: the handler runs on every event until the task is gone. *)
Fixpoint run_events (n : nat) (t : query_task_s) : M (option query_task_s) :=
  match n with
  | O => ret (Some t)
  | S n =>
      let* o := query_io_event_handler t EV_READ in
      match o with None => ret None | Some t => run_events n t end
  end.

End Code.
Arguments world : clear implicits.
Arguments outcome : clear implicits.
Arguments M : clear implicits.
Arguments Ret {DB A}.
Arguments Abort {DB A}.
Arguments Exit {DB A}.
Arguments Blocked {DB A}.
Arguments Spins {DB A}.
Arguments Overflow {DB A}.
Arguments Undefined {DB A}.
Arguments OutOfFuel {DB A}.
End Assign.
