(* ===== verification/AssignProps.v ===== *)
(** What the assign thread makes of the bytes a client sends: complete requests
    reach a query thread unchanged however their bodies are cut into pieces, the
    query threads are served in turn, and the handler always returns; and the
    requests it loses. *)

From Stdlib Require Import ZArith Lia String.
From stdpp Require Import base numbers list gmap.
From S2P Require Import Prelude CString IndexTypes Bdb Storage Protocol Task Assign.

Module AssignProps.
Import Protocol Task Assign.
Import CString (str, SP, CR, LF, is_token, print_dec, terminated, write_at).

(** ** Finding the end of the head *)

(** A line: no NUL and no CR. *)
Definition plain (l : list Z) : Prop := Forall (fun c => c <> 0 /\ c <> CR) l.

Lemma strstr_line line rest i :
  plain line -> CString.strstr_crlf (line ++ crlf ++ rest) i = Some (Some (i + Z.of_nat (length line))).
Proof.
  intros Hl. revert i; induction Hl as [|c l [H0 H1] _ IH]; intros i; cbn [app CString.strstr_crlf length].
  - cbn. do 2 f_equal. lia.
  - rewrite (proj2 (Z.eqb_neq c 0)), (proj2 (Z.eqb_neq c CR)) by done. rewrite IH. do 2 f_equal. lia.
Qed.

Lemma strstr_none l rest i : plain l -> CString.strstr_crlf (l ++ 0 :: rest) i = Some None.
Proof.
  intros Hl. revert i; induction Hl as [|c l [H0 H1] _ IH]; intros i; cbn [app CString.strstr_crlf]; [done|].
  now rewrite (proj2 (Z.eqb_neq c 0)), (proj2 (Z.eqb_neq c CR)) by done.
Qed.

(** Bytes that do not end a line: not even when a CR is the last of them. *)
Definition headless (l : list Z) : Prop := exists line, plain line /\ (l = line \/ l = line ++ [CR]).

Lemma plain_headless l : plain l -> headless l.
Proof. intros Hl. exists l. by split; [|left]. Qed.
Lemma strstr_cr line rest i : plain line -> CString.strstr_crlf (line ++ CR :: 0 :: rest) i = Some None.
Proof.
  intros Hl. revert i; induction Hl as [|c l [H0 H1] _ IH]; intros i; cbn [app CString.strstr_crlf]; [done|].
  now rewrite (proj2 (Z.eqb_neq c 0)), (proj2 (Z.eqb_neq c CR)) by done.
Qed.
Lemma strstr_headless l rest i : headless l -> CString.strstr_crlf (l ++ 0 :: rest) i = Some None.
Proof. intros (line & Hl & [-> | ->]); [by apply strstr_none|rewrite <- app_assoc; by apply strstr_cr]. Qed.

Section Props.
Context {DB : Type} `{BerkeleyDB DB}.

#[local] Notation "'let*' x := m 'in' k" := (bind m (fun x => k))
  (at level 10, x name, m at level 100, k at level 200).

Lemma assign_bind {A B} (m : M DB A) (k : A -> M DB B) w a w' : m w = Ret a w' -> bind m k w = k a w'.
Proof. intros E. unfold bind. now rewrite E. Qed.

(** A world whose next socket answers are [rs] and that gives memory and takes
    every pointer. *)
Definition quiet (w : world DB) (rs : list read_ans) : Prop := reads w = rs /\ allocs w = [] /\ writes w = [].
Definition with_reads (w : world DB) (rs : list read_ans) : world DB :=
  World (last_fd w) (worker_thread_cnt w) (storage w) (sent w) (destroyed w) rs [] [].

Lemma quiet_eq w rs : quiet w rs -> w = with_reads w rs.
Proof. intros (H1 & H2 & H3). destruct w. cbn in *. now subst. Qed.

Lemma next_read_run (w : world DB) r rs : next_read (with_reads w (r :: rs)) = Ret r (with_reads w rs).
Proof. reflexivity. Qed.

(** The same world with other answers of the socket. *)
Definition set_reads (w : world DB) (rs : list read_ans) : world DB :=
  World (last_fd w) (worker_thread_cnt w) (storage w) (sent w) (destroyed w) rs (allocs w) (writes w).

(** ** A new connection *)

Definition conn (fd : Z) : query_task_s := set_watchers (set_read (zero_task fd) 0 512) true true.

Lemma accept_run (w : world DB) fd : 0 <= fd -> allocs w = [] -> accept_connection fd w = Ret (Some (conn fd)) w.
Proof.
  intros Hfd Ha. unfold accept_connection. rewrite (proj2 (Z.ltb_ge _ _)) by done.
  destruct w. cbn in Ha. subst. reflexivity.
Qed.

(** The task after the first bytes of the connection. *)
Definition heard (fd : Z) (l : list Z) : query_task_s :=
  QueryTask fd 0 None s_parse_req_head (Z.of_nat (length l)) 0 true true
    (QueryRequest (l ++ replicate (512 - length l) 0) 0 None 0 cmd_unknown ps_unknown 0 0 (replicate 251 0))
    zero_response.

Lemma request_of_nil : request_of [] = QueryRequest (replicate 512 0) 0 None 0 cmd_unknown ps_unknown 0 0 (replicate 251 0).
Proof. reflexivity. Qed.

Lemma recv_head_any (w : world DB) fd l rs :
  reads w = Bytes l :: rs -> l <> [] -> (length l <= 512)%nat ->
  recv_req_head (conn fd) w = Ret (true, heard fd l) (set_reads w rs).
Proof.
  intros Hr Hne Hl. unfold recv_req_head.
  erewrite assign_bind by (unfold next_read; rewrite Hr; reflexivity). fold (set_reads w rs).
  unfold conn at 1. cbn [set_watchers set_read need_read net_read].
  rewrite take_ge by lia.
  assert (Hw : write_at (query_head_buf (query_request (conn fd))) (query_head_buf_size (query_request (conn fd))) l =
    Some (l ++ replicate (512 - length l) 0)).
  { unfold conn. cbn [set_watchers set_read query_request zero_task]. rewrite request_of_nil.
    cbn [query_head_buf query_head_buf_size]. unfold write_at. rewrite length_replicate.
    rewrite (proj2 (Z.leb_le _ _)), (proj2 (Z.leb_le _ _)) by lia. cbn [andb].
    unfold splice. change (Z.to_nat 0) with 0%nat. rewrite take_0, drop_replicate. reflexivity. }
  rewrite Hw. erewrite assign_bind by reflexivity.
  assert (0 < Z.of_nat (length l)) by (destruct l; [done|cbn; lia]).
  cbn [conn set_watchers set_read set_request need_read have_read].
  rewrite (proj2 (Z.eqb_neq _ _)), (proj2 (Z.ltb_lt _ _)), (proj2 (Z.leb_le _ _)) by lia. cbn [andb].
  erewrite assign_bind by reflexivity. reflexivity.
Qed.

Lemma recv_head_run (w : world DB) fd l rs :
  l <> [] -> (length l <= 512)%nat ->
  recv_req_head (conn fd) (with_reads w (Bytes l :: rs)) = Ret (true, heard fd l) (with_reads w rs).
Proof. intros. by apply (recv_head_any (with_reads w (Bytes l :: rs))). Qed.

Lemma body_block_small n : n + 8 < 2 ^ 64 -> body_block n = replicate (Z.to_nat n) 0.
Proof. intros Hn. unfold body_block. by rewrite (proj2 (Z.ltb_lt _ _)). Qed.

(** The head buffer and its size field after the head was cut off at [p]. *)
Lemma cut_head (head rest : list Z) c :
  length (head ++ c :: rest) = 512%nat ->
  CString.wr ((head ++ c :: rest) ++ le_split 8 (Z.of_nat (length head))) (Z.of_nat (length head)) 0 =
    Some ((head ++ 0 :: rest) ++ le_split 8 (Z.of_nat (length head))) /\
  take 512 ((head ++ 0 :: rest) ++ le_split 8 (Z.of_nat (length head))) = head ++ 0 :: rest /\
  le_combine (drop 512 ((head ++ 0 :: rest) ++ le_split 8 (Z.of_nat (length head)))) = Z.of_nat (length head).
Proof.
  intros Hl. assert (Hl0 : length (head ++ 0 :: rest) = 512%nat) by (rewrite length_app in *; cbn [length] in *; lia).
  split; [|split].
  - rewrite <- !app_assoc. cbn [app]. apply CString.wr_app.
  - rewrite <- Hl0. apply take_app_length.
  - rewrite <- Hl0, drop_app_length, le_combine_split. apply Z.mod_small.
    rewrite length_app in Hl. cbn in *. lia.
Qed.

(** The request the parser is given, and what follows the head in its buffer. *)
Definition cut_request (head rest : list Z) : query_request_s :=
  QueryRequest (head ++ 0 :: rest) (Z.of_nat (length head)) None 0 cmd_unknown ps_unknown 0 0 (replicate 251 0).

Lemma parse_head_run (w : world DB) fd line body :
  plain line -> (length line + 2 < 512)%nat -> (length line + 2 + length body <= 512)%nat ->
  exists rest, length ((line ++ crlf) ++ 0 :: rest) = 512%nat /\
    parse_query_request_head (heard fd ((line ++ crlf) ++ body)) w =
    bind (checked (parse_memcached_string_head (cut_request (line ++ crlf) rest)))
      (fun r => act_on_head (heard fd ((line ++ crlf) ++ body)) (Z.of_nat (length body)) body r.1 r.2) w.
Proof.
  intros Hp H1 H2. set (head := line ++ crlf). set (l := head ++ body).
  assert (Hhead : length head = (length line + 2)%nat) by (unfold head; rewrite length_app; reflexivity).
  assert (Hlen : length l = (length line + 2 + length body)%nat) by (unfold l; rewrite length_app; lia).
  assert (Htail : exists c rest, body ++ replicate (512 - length l) 0 = c :: rest).
  { destruct body as [|c body]; [|by eexists _, _]. cbn [app].
    destruct (512 - length l)%nat as [|k] eqn:E; [cbn in Hlen; lia|]. by eexists _, _. }
  destruct Htail as (c & rest & Hbuf).
  assert (Eb : l ++ replicate (512 - length l) 0 = head ++ c :: rest) by (rewrite <- Hbuf; unfold l at 1; now rewrite <- app_assoc).
  assert (Hb512 : length (head ++ c :: rest) = 512%nat) by (rewrite <- Eb, length_app, length_replicate; lia).
  destruct (cut_head head rest c Hb512) as (Ew & Et & Ed).
  exists rest. split; [rewrite length_app in *; cbn [length] in *; lia|].
  unfold parse_query_request_head.
  assert (Etry : try_parse_memcached_string_head (query_request (heard fd l)) = Some (Some (Z.of_nat (length line)))).
  { unfold try_parse_memcached_string_head, head_memory, heard. cbn [query_request query_head_buf query_head_buf_size].
    rewrite Eb. unfold head. rewrite <- !app_assoc. now rewrite strstr_line. }
  rewrite Etry. erewrite assign_bind by reflexivity.
  assert (Ehave : have_read (heard fd l) = Z.of_nat (length l)) by reflexivity.
  rewrite Ehave, (proj2 (Z.leb_le _ _)) by lia. erewrite assign_bind by reflexivity.
  rewrite (proj2 (Z.leb_le _ _)) by (unfold MAX_QUERY_HEADER_SIZE; lia). erewrite assign_bind by reflexivity.
  cbn [heard query_request set_head query_head_buf]. rewrite Eb.
  unfold head_memory. cbn [set_head query_head_buf query_head_buf_size].
  replace (Z.of_nat (length line) + 2) with (Z.of_nat (length head)) by lia.
  replace (Z.of_nat (length l) - Z.of_nat (length head)) with (Z.of_nat (length body)) by lia.
  rewrite Ew. erewrite assign_bind by reflexivity.
  rewrite Et, Ed. rewrite !Nat2Z.id.
  replace (take (length body) (drop (length head) ((head ++ c :: rest) ++ le_split 8 (Z.of_nat (length head))))) with body.
  2: { rewrite <- Hbuf, <- !app_assoc, drop_app_length, take_app_length. done. }
  reflexivity.
Qed.

(** ** Turns of the handler *)

Lemma handler_step fuel t nl w t' w' :
  handler_turn t nl w = Ret (Some true, Some t') w' ->
  handler_loop (S fuel) t nl w = handler_loop fuel t' (Some true) w'.
Proof. intros E. cbn [handler_loop]. erewrite assign_bind by exact E. reflexivity. Qed.

Lemma handler_stop fuel t nl w o w' :
  handler_turn t nl w = Ret (Some false, o) w' -> handler_loop (S fuel) t nl w = Ret o w'.
Proof. intros E. cbn [handler_loop]. erewrite assign_bind by exact E. reflexivity. Qed.

(** The query thread that is next, and the world after a task was sent. *)
Definition next_thread (w : world DB) : Z := if worker_thread_cnt w <=? last_fd w then 0 else last_fd w.
Definition after_send (w : world DB) (t : query_task_s) (rs : list read_ans) : world DB :=
  World (u64 (next_thread w + 1)) (worker_thread_cnt w) (storage w)
    (sent w ++ [(next_thread w, set_watchers t false false)]) (destroyed w) rs [] [].

Lemma dispatch_run (w : world DB) t rs :
  dispatch_query_task t (with_reads w rs) = Ret false (after_send w t rs).
Proof.
  unfold dispatch_query_task, atomic_uint_lte. erewrite assign_bind by reflexivity. unfold after_send, next_thread.
  cbn [with_reads last_fd worker_thread_cnt]. destruct (worker_thread_cnt w <=? last_fd w); reflexivity.
Qed.

Lemma handler_dispatch fuel t nl (w : world DB) rs :
  state t = s_dispatch_query_task \/ state t = s_return_failed ->
  handler_loop (S fuel) t nl (with_reads w rs) = Ret None (after_send w t rs).
Proof.
  intros Hs. apply handler_stop. unfold handler_turn.
  destruct Hs as [-> | ->]; erewrite assign_bind by apply dispatch_run; reflexivity.
Qed.

(** The first event of a connection: the head is received, then parsed. *)
Lemma first_event_any (w : world DB) fd l rs :
  reads w = Bytes l :: rs -> l <> [] -> (length l <= 512)%nat ->
  query_io_event_handler (conn fd) EV_READ w =
  bind (parse_query_request_head (heard fd l))
    (fun r => match r with
              | (true, t) => handler_loop 1028 t (Some true)
              | (false, t) => ret (Some t)
              end) (set_reads w rs).
Proof.
  intros Hr Hne Hl. cbn [query_io_event_handler]. change HANDLER_FUEL with (S (S 1028)).
  rewrite (handler_step _ (conn fd) None _ (heard fd l) (set_reads w rs)).
  2: { unfold handler_turn. cbn [conn state set_watchers set_read zero_task].
       erewrite assign_bind by (apply recv_head_any; done). reflexivity. }
  cbn [handler_loop]. unfold handler_turn at 1. cbn [heard state]. unfold bind.
  destruct (parse_query_request_head (heard fd l) (set_reads w rs)) as [[[|] t] w'| | | | | | |]; reflexivity.
Qed.

Lemma first_event (w : world DB) fd l rs :
  l <> [] -> (length l <= 512)%nat ->
  query_io_event_handler (conn fd) EV_READ (with_reads w (Bytes l :: rs)) =
  bind (parse_query_request_head (heard fd l))
    (fun r => match r with
              | (true, t) => handler_loop 1028 t (Some true)
              | (false, t) => ret (Some t)
              end) (with_reads w rs).
Proof. intros. by rewrite (first_event_any (with_reads w (Bytes l :: rs)) fd l rs). Qed.

(** ** Set requests *)

(** Keys a client can name: no NUL, space or CR. *)
Definition key_word (k : list Z) : Prop :=
  k <> [] /\ Z.of_nat (length k) <= 250 /\ Forall (fun c => c <> 0 /\ c <> SP /\ c <> CR) k.

Lemma key_word_token k : key_word k -> is_token k.
Proof. intros (Hne & _ & Hk). split; [done|]. eapply Forall_impl; [exact Hk|]. cbn. tauto. Qed.

Lemma key_word_plain k : key_word k -> plain k.
Proof. intros (_ & _ & Hk). eapply Forall_impl; [exact Hk|]. cbn. tauto. Qed.

Definition set_line (k : list Z) (f e n : Z) : list Z :=
  str "set" ++ SP :: k ++ SP :: print_dec f ++ SP :: print_dec e ++ SP :: print_dec n.

Lemma print_dec_plain n : - 10 ^ 19 < n < 10 ^ 19 -> plain (print_dec n) /\ (length (print_dec n) <= 21)%nat.
Proof.
  intros Hn. destruct (CString.print_dec_shape n Hn) as [Hd Hl]. split; [|done].
  eapply Forall_impl; [exact Hd|]. unfold CR. cbn. lia.
Qed.

Lemma set_line_plain k f e n :
  key_word k -> - 2 ^ 31 <= f < 2 ^ 31 -> - 2 ^ 31 <= e < 2 ^ 31 -> - 2 ^ 63 <= n < 2 ^ 63 ->
  plain (set_line k f e n) /\ (length (set_line k f e n) <= 320)%nat.
Proof.
  intros Hk Hf He Hn. destruct (print_dec_plain f ltac:(lia)) as [Pf Lf].
  destruct (print_dec_plain e ltac:(lia)) as [Pe Le]. destruct (print_dec_plain n ltac:(lia)) as [Pn Ln].
  pose proof (key_word_plain k Hk) as Pk. destruct Hk as (_ & Lk & _). unfold set_line. split.
  - assert (Hsp : SP <> 0 /\ SP <> CR) by done. unfold plain in *.
    repeat first [assumption | apply Forall_app; split | constructor; [done|]]. all: repeat constructor; done.
  - repeat (rewrite length_app; cbn [length]). change (length (str "set")) with 3%nat. lia.
Qed.

(** A set request whose last body byte has come in. *)
Record complete (t : query_task_s) (fd : Z) (k : list Z) (f e : Z) (body : list Z) : Prop := {
  co_fd : sock_fd t = fd;
  co_state : state t = s_dispatch_query_task;
  co_log : error_log t = None;
  co_response : query_response t = zero_response;
  co_status : parse_status (query_request t) = ps_succ;
  co_cmd : cmd_type (query_request t) = cmd_set;
  co_key : key (query_request t) = key_field k;
  co_flag : flag (query_request t) = f;
  co_exptime : exptime (query_request t) = e;
  co_size : data_size (query_request t) = Z.of_nat (length body);
  co_data : data (query_request t) = Some (body ++ crlf)
}.

(** One that waits for the rest of its body, after the bytes [pre]. *)
Definition receiving (fd : Z) (hb : list Z) (hs : Z) (k : list Z) (f e : Z) (n : nat) (pre : list Z) : query_task_s :=
  QueryTask fd 0 None s_recv_req_data (hs + Z.of_nat (length pre)) (Z.of_nat (n - length pre)) true true
    (QueryRequest hb hs (Some (pre ++ replicate (n - length pre) 0)) (Z.of_nat n) cmd_set ps_succ f e (key_field k))
    zero_response.

Lemma fill_block (pre c : list Z) n :
  (length pre + length c <= n)%nat ->
  write_at (pre ++ replicate (n - length pre) 0) (Z.of_nat (length pre)) c =
  Some ((pre ++ c) ++ replicate (n - length (pre ++ c)) 0).
Proof.
  intros Hl. unfold write_at. rewrite length_app, length_replicate.
  rewrite (proj2 (Z.leb_le _ _)), (proj2 (Z.leb_le _ _)) by lia. cbn [andb]. unfold splice. rewrite Nat2Z.id.
  rewrite take_app_length, drop_app_ge by lia. rewrite drop_replicate, length_app, <- app_assoc.
  do 4 f_equal. lia.
Qed.

(** The head of a set request, with the first bytes [c0] of its body. *)
Lemma set_head_acted (w : world DB) fd k f e c0 n :
  key_word k -> - 2 ^ 31 <= f < 2 ^ 31 -> - 2 ^ 31 <= e < 2 ^ 31 -> Z.of_nat n < 2 ^ 62 -> (2 <= n)%nat ->
  (length c0 <= n)%nat -> (length (set_line k f e (Z.of_nat n - 2)) + 2 + length c0 <= 512)%nat -> allocs w = [] ->
  let head := set_line k f e (Z.of_nat n - 2) ++ crlf in
  exists hb r, parse_query_request_head (heard fd (head ++ c0)) w = Ret r w /\
    if decide (length c0 = n)
    then r.1 = true /\ state r.2 = s_dispatch_query_task /\ forall body, c0 = body ++ crlf -> complete r.2 fd k f e body
    else r = (false, receiving fd hb (Z.of_nat (length head)) k f e n c0).
Proof.
  intros Hk Hf He Hn Hn2 Hc0 Hlen Hal head.
  destruct (set_line_plain k f e (Z.of_nat n - 2) Hk Hf He ltac:(lia)) as [Hp Hl].
  destruct (parse_head_run w fd _ c0 Hp ltac:(lia) ltac:(lia)) as (rest & Hrest & E). fold head in E, Hrest.
  exists (head ++ 0 :: rest).
  assert (Eparse : parse_memcached_string_head (cut_request head rest) =
    Some (set_cmd (set_data_size (set_exptime (set_flag (set_key (cut_request head rest) (key_field k)) f) e)
            (u64 (Z.of_nat n - 2))) cmd_set ps_succ, RET_SUCCESS)).
  { apply (parse_set_head _ k f e (Z.of_nat n - 2) rest); try done; try lia.
    - cbn [cut_request query_head_buf]. unfold head, set_line. repeat (rewrite <- app_assoc; cbn [app]). reflexivity.
    - cbn [cut_request query_head_buf]. rewrite Hrest. reflexivity.
    - now apply key_word_token.
    - now destruct Hk as (_ & ? & _). }
  rewrite E, Eparse. erewrite assign_bind by reflexivity. unfold act_on_head.
  cbn [fst snd RET_SUCCESS Z.eqb set_cmd parse_status cmd_type andb].
  rewrite bool_decide_eq_true_2 by done.
  erewrite assign_bind by (unfold next_alloc; rewrite Hal; reflexivity). erewrite assign_bind by reflexivity.
  cbn [cut_request set_cmd set_key set_flag set_exptime set_data_size set_data data_size].
  rewrite (u64_small (Z.of_nat n - 2)) by (unfold in_range; lia).
  replace (Z.of_nat n - 2 + 2) with (Z.of_nat n) by lia. rewrite u64_small by (unfold in_range; lia).
  rewrite body_block_small, Nat2Z.id by lia.
  pose proof (fill_block [] c0 n ltac:(cbn; lia)) as Ew. cbn [app length] in Ew. rewrite Nat.sub_0_r in Ew.
  change (Z.of_nat 0) with 0 in Ew. rewrite Ew. erewrite assign_bind by reflexivity.
  rewrite i64_small by lia. cbn [set_read need_read have_read heard].
  destruct (decide (length c0 = n)) as [En|En].
  - rewrite (proj2 (Z.eqb_eq _ _)) by lia. eexists. split; [reflexivity|].
    split; [done|]. split; [done|]. intros body ->. split; try reflexivity.
    + cbn. rewrite u64_small by (unfold in_range; lia). rewrite length_app in En. cbn in En. lia.
    + cbn. f_equal. rewrite En, Nat.sub_diag. apply app_nil_r.
  - rewrite (proj2 (Z.eqb_neq _ _)), (proj2 (Z.ltb_lt _ _)) by lia. eexists. split; [reflexivity|].
    unfold receiving, heard, set_state, set_read, set_request. cbn [sock_fd thread_id error_log state have_read need_read
      io_active timer_active query_response]. f_equal. f_equal; [rewrite length_app; lia|lia].
Qed.

(** The event that brings it. *)
Lemma set_head_event (w : world DB) fd k f e c0 n rs :
  key_word k -> - 2 ^ 31 <= f < 2 ^ 31 -> - 2 ^ 31 <= e < 2 ^ 31 -> Z.of_nat n < 2 ^ 62 -> (2 <= n)%nat ->
  (length c0 <= n)%nat -> (length (set_line k f e (Z.of_nat n - 2)) + 2 + length c0 <= 512)%nat ->
  let head := set_line k f e (Z.of_nat n - 2) ++ crlf in
  if decide (length c0 = n)
  then exists t, query_io_event_handler (conn fd) EV_READ (with_reads w (Bytes (head ++ c0) :: rs)) =
         Ret None (after_send w t rs) /\
       forall body, c0 = body ++ crlf -> complete t fd k f e body
  else exists hb, query_io_event_handler (conn fd) EV_READ (with_reads w (Bytes (head ++ c0) :: rs)) =
         Ret (Some (receiving fd hb (Z.of_nat (length head)) k f e n c0)) (with_reads w rs).
Proof.
  intros Hk Hf He Hn Hn2 Hc0 Hlen head.
  destruct (set_head_acted (with_reads w rs) fd k f e c0 n) as (hb & [b t] & E & Hr); try done. fold head in E, Hr.
  assert (Ef : query_io_event_handler (conn fd) EV_READ (with_reads w (Bytes (head ++ c0) :: rs)) =
    (if b then handler_loop 1028 t (Some true) else ret (Some t)) (with_reads w rs)).
  { rewrite first_event.
    - erewrite assign_bind by exact E. now destruct b.
    - unfold head. destruct (set_line k f e (Z.of_nat n - 2)); done.
    - unfold head. rewrite !length_app. change (length crlf) with 2%nat. lia. }
  destruct (decide (length c0 = n)) as [Ec|Ec].
  - cbn [fst snd] in Hr. destruct Hr as (-> & Hs & Hr). exists t. split; [|done].
    rewrite Ef. apply (handler_dispatch 1027). by left.
  - injection Hr as -> ->. exists hb. exact Ef.
Qed.

(** One more piece of the body is read into its block. *)
Lemma chunk_received (w : world DB) fd hb hs k f e n pre c rs :
  (length pre + length c <= n)%nat -> c <> [] -> 0 <= hs <= 512 -> Z.of_nat n < 2 ^ 62 ->
  let t0 := receiving fd hb hs k f e n pre in
  let t1 := set_request t0 (set_data (query_request t0) (Some ((pre ++ c) ++ replicate (n - length (pre ++ c)) 0))) in
  recv_req_data t0 (with_reads w (Bytes c :: rs)) =
    if decide (length pre + length c = n)%nat
    then (let* t := change_query_task_state t1 s_dispatch_query_task in ret (true, t)) (with_reads w rs)
    else Ret (false, receiving fd hb hs k f e n (pre ++ c)) (with_reads w rs).
Proof.
  intros Hl Hc Hhs Hn t0 t1. assert (Hc' : (0 < length c)%nat) by (destruct c; [done|cbn; lia]).
  unfold recv_req_data. cbn [t0 receiving need_read]. rewrite (proj2 (Z.eqb_neq _ _)) by lia.
  erewrite assign_bind by reflexivity. cbn [with_reads reads recv_data_loop].
  erewrite assign_bind by apply next_read_run. cbn [net_read].
  assert (Htake : take (Z.to_nat (need_read t0)) c = c) by (apply take_ge; cbn; lia).
  rewrite Htake. cbv beta iota zeta. rewrite (proj2 (Z.ltb_lt 0 _)) by lia.
  assert (Ew : (b ← data (query_request t0);
    write_at b (u64 (have_read t0 - query_head_buf_size (query_request t0))) c) =
    Some ((pre ++ c) ++ replicate (n - length (pre ++ c)) 0)).
  { cbn [t0 receiving query_request data mbind option_bind have_read query_head_buf_size].
    replace (hs + Z.of_nat (length pre) - hs) with (Z.of_nat (length pre)) by lia.
    rewrite u64_small by (unfold in_range; lia). now apply fill_block. }
  rewrite Ew. erewrite assign_bind by reflexivity. fold t1.
  rewrite (proj2 (Z.eqb_neq (Z.of_nat (length c)) 0)) by lia. cbn [andb].
  change (need_read t1) with (Z.of_nat (n - length pre)).
  destruct (decide (length pre + length c = n)%nat) as [En|En].
  - rewrite (proj2 (Z.ltb_ge _ _)), (proj2 (Z.eqb_eq _ _)) by lia. reflexivity.
  - rewrite (proj2 (Z.ltb_lt _ _)) by lia. unfold ret. do 2 f_equal.
    unfold t1, t0, receiving, set_read, set_request. cbn [sock_fd thread_id error_log state have_read need_read
      io_active timer_active query_request query_response].
    f_equal; [rewrite length_app; lia|rewrite length_app; lia].
Qed.

(** The event that brings it. *)
Lemma chunk_event (w : world DB) fd hb hs k f e n pre c rs :
  (length pre + length c <= n)%nat -> c <> [] -> 0 <= hs <= 512 -> Z.of_nat n < 2 ^ 62 ->
  if decide (length pre + length c = n)%nat
  then exists t, query_io_event_handler (receiving fd hb hs k f e n pre) EV_READ (with_reads w (Bytes c :: rs)) =
         Ret None (after_send w t rs) /\
       forall body, pre ++ c = body ++ crlf -> complete t fd k f e body
  else query_io_event_handler (receiving fd hb hs k f e n pre) EV_READ (with_reads w (Bytes c :: rs)) =
         Ret (Some (receiving fd hb hs k f e n (pre ++ c))) (with_reads w rs).
Proof.
  intros Hl Hc Hhs Hn. pose proof (chunk_received w fd hb hs k f e n pre c rs Hl Hc Hhs Hn) as E. cbv zeta in E.
  set (t0 := receiving fd hb hs k f e n pre) in *.
  set (t1 := set_request t0 (set_data (query_request t0) (Some ((pre ++ c) ++ replicate (n - length (pre ++ c)) 0)))) in *.
  cbn [query_io_event_handler]. change HANDLER_FUEL with (S (S 1028)).
  destruct (decide (length pre + length c = n)%nat) as [En|En].
  - eexists. split.
    + rewrite (handler_step _ t0 None _ (set_request (set_state t1 s_dispatch_query_task)
        (set_data_size (query_request t1) (u64 (data_size (query_request t1) - 2)))) (with_reads w rs)).
      { apply handler_dispatch. now left. }
      unfold handler_turn. change (state t0) with s_recv_req_data. cbv iota. erewrite assign_bind by (rewrite E; reflexivity). reflexivity.
    + intros body Hbody. split; try reflexivity.
      * cbn. assert (Hlen : length (pre ++ c) = n) by (rewrite length_app; lia).
        rewrite Hbody, length_app in Hlen. cbn in Hlen. rewrite u64_small by (unfold in_range; lia). lia.
      * cbn. f_equal. rewrite length_app, En, Nat.sub_diag. cbn [replicate]. now rewrite app_nil_r.
  - apply handler_stop. unfold handler_turn. change (state t0) with s_recv_req_data. cbv iota.
    erewrite assign_bind by exact E. reflexivity.
Qed.

Lemma chunks_run (w : world DB) fd hb hs k f e n cs pre :
  cs <> [] -> Forall (fun c => c <> []) cs -> length (pre ++ concat cs) = n ->
  0 <= hs <= 512 -> Z.of_nat n < 2 ^ 62 ->
  exists t, run_events (length cs) (receiving fd hb hs k f e n pre) (with_reads w (Bytes <$> cs)) =
      Ret None (after_send w t []) /\
    forall body, pre ++ concat cs = body ++ crlf -> complete t fd k f e body.
Proof.
  intros Hne Hcs Hlen Hhs Hn. revert pre Hne Hlen; induction Hcs as [|c cs Hc Hcs IH]; intros pre Hne Hlen; [done|].
  cbn [concat] in Hlen. rewrite !length_app in Hlen.
  pose proof (chunk_event w fd hb hs k f e n pre c (Bytes <$> cs) ltac:(lia) Hc Hhs Hn) as E.
  assert (Hcase : cs = [] \/ (0 < length (concat cs))%nat).
  { destruct Hcs as [|c' cs' Hc' _]; [by left|right]. destruct c'; [done|]. cbn. lia. }
  cbn [length run_events fmap list_fmap concat].
  destruct (decide (length pre + length c = n)%nat) as [En|En].
  - destruct Hcase as [->|Hpos]; [|lia]. destruct E as (t & E & Ht). exists t.
    split; [erewrite assign_bind by exact E; reflexivity|]. cbn [concat]. rewrite app_nil_r. exact Ht.
  - destruct Hcase as [->|Hpos]; [cbn in Hlen; lia|].
    destruct (IH (pre ++ c)) as (t & E' & Ht).
    + intros ->. cbn in Hpos. lia.
    + rewrite !length_app. lia.
    + exists t. split; [erewrite assign_bind by exact E; exact E'|]. rewrite app_assoc. exact Ht.
Qed.

(** A client's whole connection: accepted, then one event for every piece. *)
Definition serve_connection (fd : Z) (events : nat) : M DB (option query_task_s) :=
  bind (accept_connection fd) (fun o => match o with Some t => run_events events t | None => ret None end).

Lemma serve_connection_run (w : world DB) fd events rs :
  0 <= fd -> serve_connection fd events (with_reads w rs) = run_events events (conn fd) (with_reads w rs).
Proof. intros Hfd. unfold serve_connection. erewrite assign_bind by (apply accept_run; done). reflexivity. Qed.

Lemma set_received (w : world DB) fd k f e body c0 cs :
  0 <= fd -> key_word k -> - 2 ^ 31 <= f < 2 ^ 31 -> - 2 ^ 31 <= e < 2 ^ 31 ->
  Z.of_nat (length body) < 2 ^ 61 -> body ++ crlf = c0 ++ concat cs -> Forall (fun c => c <> []) cs ->
  (length (set_line k f e (Z.of_nat (length body))) + 2 + length c0 <= 512)%nat ->
  exists t, serve_connection fd (S (length cs))
      (with_reads w (Bytes ((set_line k f e (Z.of_nat (length body)) ++ crlf) ++ c0) :: (Bytes <$> cs))) =
      Ret None (after_send w t []) /\
    complete t fd k f e body.
Proof.
  intros Hfd Hk Hf He Hb Hsplit Hcs Hlen. rewrite serve_connection_run by done.
  set (n := (length body + 2)%nat).
  assert (Hn : length (c0 ++ concat cs) = n) by (rewrite <- Hsplit, length_app; reflexivity).
  assert (En : Z.of_nat n - 2 = Z.of_nat (length body)) by lia.
  rewrite <- En in Hlen |- *. rewrite length_app in Hn.
  pose proof (set_head_event w fd k f e c0 n (Bytes <$> cs) Hk Hf He ltac:(lia) ltac:(lia) ltac:(lia) Hlen) as Ef.
  cbn [run_events]. destruct (decide (length c0 = n)) as [Ec|Ec].
  - destruct Ef as (t & Ef & Hr).
    assert (cs = []) as ->.
    { destruct Hcs as [|c cs Hc _]; [done|]. destruct c; [done|]. cbn in Hn. lia. }
    cbn [concat] in Hsplit. rewrite app_nil_r in Hsplit. specialize (Hr body (eq_sym Hsplit)).
    exists t. split; [|done]. erewrite assign_bind by exact Ef. reflexivity.
  - destruct Ef as (hb & Ef).
    destruct (chunks_run w fd hb (Z.of_nat (length (set_line k f e (Z.of_nat n - 2) ++ crlf))) k f e n cs c0)
      as (t & Et & Ht); try done; try lia.
    + intros ->. cbn in Hn. lia.
    + rewrite length_app. lia.
    + rewrite length_app. change (length crlf) with 2%nat. lia.
    + exists t. split; [|now apply Ht]. erewrite assign_bind by exact Ef. exact Et.
Qed.

(** ** Heads that come in pieces *)

(** The task that waits for the rest of its head. *)
Definition half_heard (fd : Z) (l : list Z) : query_task_s :=
  set_state (set_read (heard fd l) (Z.of_nat (length l)) (512 - Z.of_nat (length l))) s_recv_req_head.

Lemma half_head_run (w : world DB) fd l :
  headless l -> (length l < 512)%nat -> parse_query_request_head (heard fd l) w = Ret (true, half_heard fd l) w.
Proof.
  intros Hp Hl. unfold parse_query_request_head.
  assert (Etry : try_parse_memcached_string_head (query_request (heard fd l)) = Some None).
  { unfold try_parse_memcached_string_head, head_memory, heard. cbn [query_request query_head_buf query_head_buf_size].
    replace (512 - length l)%nat with (S (511 - length l)) by lia. rewrite <- app_assoc. cbn [replicate app].
    now apply strstr_headless. }
  rewrite Etry. erewrite assign_bind by reflexivity. cbv beta iota. unfold change_query_task_state.
  cbn [heard set_state set_read need_read have_read]. unfold MAX_QUERY_HEADER_SIZE.
  rewrite (proj2 (Z.eqb_neq _ _)) by lia. reflexivity.
Qed.

(** The first two turns of a connection whose first bytes do not end a line. *)
Lemma half_head_turns fuel (w : world DB) fd l rs :
  headless l -> l <> [] -> (length l < 512)%nat ->
  handler_loop (S (S fuel)) (conn fd) None (with_reads w (Bytes l :: rs)) =
  handler_loop fuel (half_heard fd l) (Some true) (with_reads w rs).
Proof.
  intros Hp Hne Hl.
  rewrite (handler_step _ (conn fd) None _ (heard fd l) (with_reads w rs)).
  - apply handler_step. unfold handler_turn. cbn [heard state]. erewrite assign_bind by now apply half_head_run. reflexivity.
  - unfold handler_turn. cbn [conn state set_watchers set_read zero_task].
    erewrite assign_bind by (apply recv_head_run; [done|lia]). reflexivity.
Qed.

(** The second read fails. *)
Lemma lost_event (w : world DB) fd l rs b rs' :
  headless l -> l <> [] -> (length l < 512)%nat -> next_read (with_reads w rs) = Ret (Err b) (with_reads w rs') ->
  exists t, query_io_event_handler (conn fd) EV_READ (with_reads w (Bytes l :: rs)) =
    Ret None (World (last_fd w) (worker_thread_cnt w) (storage w) (sent w) (destroyed w ++ [t]) rs' [] []) /\
    sock_fd t = fd /\ is_Some (error_log t).
Proof.
  intros Hp Hne Hl Hread. cbn [query_io_event_handler]. change HANDLER_FUEL with (S (S 1028)). rewrite half_head_turns by done.
  change 1028%nat with (S (S 1026)).
  set (fmt := "net_read(need_read = %zd, have_read = %zd) return %d - %s"%string).
  set (t := set_state (set_error_log (set_request (half_heard fd l) (query_request (half_heard fd l))) (Some fmt)) s_destroy_recv).
  rewrite (handler_step _ (half_heard fd l) _ _ t (with_reads w rs')).
  2: { unfold handler_turn. cbn [half_heard state set_state set_read heard]. fold (half_heard fd l).
       erewrite assign_bind.
       2: { unfold recv_req_head. erewrite assign_bind by exact Hread. cbn [net_read].
            erewrite assign_bind.
            2: { unfold write_at. cbn. rewrite length_app, length_replicate.
                 rewrite (proj2 (Z.leb_le _ _)) by lia. reflexivity. }
            reflexivity. }
       reflexivity. }
  eexists. split; [apply handler_stop; reflexivity|]. split; [done|]. by eexists.
Qed.

(** A head that arrives in two packets is lost. When the first bytes of a
    connection do not end a line and the rest is not there yet, the read of the
    non-blocking socket fails and the task is destroyed: no query thread sees
    it and the client is not answered. *)
Theorem split_head_lost (w : world DB) fd l b rs :
  0 <= fd -> headless l -> l <> [] -> (length l < 512)%nat ->
  exists t w', serve_connection fd 1 (with_reads w (Bytes l :: Err b :: rs)) = Ret None w' /\
    sent w' = sent w /\ destroyed w' = destroyed w ++ [t] /\ sock_fd t = fd /\ is_Some (error_log t).
Proof.
  intros Hfd Hp Hne Hl. rewrite serve_connection_run by done. cbn [run_events].
  destruct (lost_event w fd l (Err b :: rs) b rs Hp Hne Hl ltac:(reflexivity)) as (t & E & Ht).
  exists t. eexists. split; [erewrite assign_bind by exact E; reflexivity|]. done.
Qed.

(** When both packets of a head are there at once, the second is written
    over the first, at the start of the buffer, and the parser is given that. *)
Theorem head_overwritten fuel (w : world DB) fd l1 l2 rs :
  headless l1 -> l1 <> [] -> l2 <> [] -> (length l1 + length l2 <= 512)%nat ->
  exists t, handler_loop (S (S (S fuel))) (conn fd) None (with_reads w (Bytes l1 :: Bytes l2 :: rs)) =
      handler_loop fuel t (Some true) (with_reads w rs) /\
    state t = s_parse_req_head /\ have_read t = Z.of_nat (length (l1 ++ l2)) /\
    query_head_buf (query_request t) = l2 ++ drop (length l2) (l1 ++ replicate (512 - length l1) 0).
Proof.
  intros Hp Hne1 Hne2 Hl. assert (H2 : (0 < length l2)%nat) by (destruct l2; [done|cbn; lia]).
  rewrite half_head_turns by (done || lia).
  set (buf := l2 ++ drop (length l2) (l1 ++ replicate (512 - length l1) 0)).
  set (t := set_state (set_read (set_request (half_heard fd l1)
    (set_head (query_request (half_heard fd l1)) buf 0)) (Z.of_nat (length l1) + Z.of_nat (length l2)) 0) s_parse_req_head).
  exists t. split; [|rewrite length_app, Nat2Z.inj_add; done].
  apply handler_step. unfold handler_turn. cbn [half_heard state set_state set_read heard]. fold (half_heard fd l1).
  erewrite assign_bind.
  2: { unfold recv_req_head. erewrite assign_bind by apply next_read_run. cbn [net_read].
       assert (Et : take (Z.to_nat (need_read (half_heard fd l1))) l2 = l2) by (apply take_ge; cbn; lia).
       rewrite Et. cbv beta iota zeta.
       assert (Ew : write_at (query_head_buf (query_request (half_heard fd l1)))
         (query_head_buf_size (query_request (half_heard fd l1))) l2 = Some buf).
       { unfold write_at. cbn [half_heard set_state set_read query_request heard query_head_buf query_head_buf_size].
         rewrite length_app, length_replicate. rewrite (proj2 (Z.leb_le _ _)), (proj2 (Z.leb_le _ _)) by lia. reflexivity. }
       rewrite Ew. erewrite assign_bind by reflexivity.
       cbn [half_heard set_state set_read set_request need_read have_read heard].
       rewrite (proj2 (Z.eqb_neq _ _)), (proj2 (Z.ltb_lt _ _)), (proj2 (Z.leb_le _ _)) by lia. reflexivity. }
  reflexivity.
Qed.

(** ** Bodies that are too long, and memory that runs out *)

(** The head of a set request was parsed; what comes with it goes to [act_on_head]. *)
Lemma set_head_parsed (w : world DB) fd k f e n c0 :
  key_word k -> - 2 ^ 31 <= f < 2 ^ 31 -> - 2 ^ 31 <= e < 2 ^ 31 -> - 2 ^ 63 <= n < 2 ^ 63 ->
  (length (set_line k f e n) + 2 + length c0 <= 512)%nat ->
  exists qr, parse_query_request_head (heard fd ((set_line k f e n ++ crlf) ++ c0)) w =
      act_on_head (heard fd ((set_line k f e n ++ crlf) ++ c0)) (Z.of_nat (length c0)) c0 qr RET_SUCCESS w /\
    cmd_type qr = cmd_set /\ parse_status qr = ps_succ /\ data_size qr = u64 n.
Proof.
  intros Hk Hf He Hn Hlen. destruct (set_line_plain k f e n Hk Hf He Hn) as [Hp Hl].
  destruct (parse_head_run w fd _ c0 Hp ltac:(lia) ltac:(lia)) as (rest & Hrest & E).
  rewrite E. set (head := set_line k f e n ++ crlf) in *. erewrite assign_bind.
  2: { unfold checked. rewrite (parse_set_head (cut_request head rest) k f e n rest); try done; try lia.
       - cbn [cut_request query_head_buf]. unfold head, set_line. repeat (rewrite <- app_assoc; cbn [app]). reflexivity.
       - cbn [cut_request query_head_buf]. rewrite Hrest. reflexivity.
       - now apply key_word_token.
       - now destruct Hk as (_ & ? & _). }
  eexists. split; [reflexivity|]. done.
Qed.

(** C36: a set request whose packet holds more body bytes than the head
    announces, line end included, is copied past the end of its block. *)
Theorem body_overflow (w : world DB) fd k f e n c0 rs events :
  0 <= fd -> key_word k -> - 2 ^ 31 <= f < 2 ^ 31 -> - 2 ^ 31 <= e < 2 ^ 31 -> 0 <= n -> n + 2 < Z.of_nat (length c0) ->
  (length (set_line k f e n) + 2 + length c0 <= 512)%nat ->
  serve_connection fd (S events) (with_reads w (Bytes ((set_line k f e n ++ crlf) ++ c0) :: rs)) = Overflow.
Proof.
  intros Hfd Hk Hf He Hn Hc Hlen. rewrite serve_connection_run by done. cbn [run_events].
  destruct (set_head_parsed (with_reads w rs) fd k f e n c0) as (qr & E & Hcmd & Hps & Hsz); try done; try lia.
  unfold bind at 1. rewrite first_event.
  - unfold bind at 1. rewrite E. unfold act_on_head. rewrite bool_decide_eq_true_2 by done.
    cbn [RET_SUCCESS Z.eqb andb]. rewrite Hcmd. erewrite assign_bind by reflexivity. erewrite assign_bind by reflexivity.
    cbn [set_data_size data_size]. rewrite Hsz, (u64_small n), (u64_small (n + 2)) by (unfold in_range; lia).
    rewrite body_block_small by lia. unfold write_at. rewrite length_replicate. change (0 <=? 0) with true.
    rewrite (proj2 (Z.leb_gt _ _)) by lia. reflexivity.
  - destruct (set_line k f e n); done.
  - rewrite !length_app. change (length crlf) with 2%nat. lia.
Qed.

(** The memory for a body is asserted: a client that announces a body the
    allocator refuses stops the whole server. *)
Theorem body_allocation_aborts (w : world DB) fd k f e n c0 :
  key_word k -> - 2 ^ 31 <= f < 2 ^ 31 -> - 2 ^ 31 <= e < 2 ^ 31 -> - 2 ^ 63 <= n < 2 ^ 63 ->
  (length (set_line k f e n) + 2 + length c0 <= 512)%nat ->
  reads w = [Bytes ((set_line k f e n ++ crlf) ++ c0)] -> head (allocs w) = Some false ->
  query_io_event_handler (conn fd) EV_READ w = Abort.
Proof.
  intros Hk Hf He Hn Hlen Hr Ha.
  rewrite (first_event_any w fd _ [] Hr).
  - destruct (set_head_parsed (set_reads w []) fd k f e n c0 Hk Hf He Hn Hlen) as (qr & E & Hcmd & Hps & Hsz).
    unfold bind at 1. rewrite E. unfold act_on_head. rewrite bool_decide_eq_true_2 by done.
    cbn [RET_SUCCESS Z.eqb andb]. rewrite Hcmd. unfold bind at 1, next_alloc. cbn [set_reads allocs].
    destruct (allocs w) as [|a al]; [done|]. injection Ha as ->. reflexivity.
  - destruct (set_line k f e n); done.
  - rewrite !length_app. change (length crlf) with 2%nat. lia.
Qed.


(** ** Complete requests *)

(** C21: a set request is delivered whole. However its body is cut into packets
    after the head, the task reaches a query thread with the key, the flags,
    the expiry, the size and the bytes of the body, line end included, and with
    no error text; nothing is sent before. *)
Theorem set_request_delivered (w : world DB) fd k f e body c0 cs :
  0 <= fd -> key_word k -> - 2 ^ 31 <= f < 2 ^ 31 -> - 2 ^ 31 <= e < 2 ^ 31 ->
  Z.of_nat (length body) < 2 ^ 61 -> body ++ crlf = c0 ++ concat cs -> Forall (fun c => c <> []) cs ->
  (length (set_line k f e (Z.of_nat (length body))) + 2 + length c0 <= 512)%nat ->
  exists t, serve_connection fd (S (length cs))
      (with_reads w (Bytes ((set_line k f e (Z.of_nat (length body)) ++ crlf) ++ c0) :: (Bytes <$> cs))) =
      Ret None (after_send w t []) /\
    complete t fd k f e body.
Proof. apply set_received. Qed.

(** A get or a delete request, complete with its line. *)
Definition key_line (name k : list Z) : list Z := name ++ SP :: k.
Record asked (t : query_task_s) (fd : Z) (c : cmd_type_e) (k : list Z) : Prop := {
  as_fd : sock_fd t = fd;
  as_state : state t = s_dispatch_query_task;
  as_log : error_log t = None;
  as_response : query_response t = zero_response;
  as_status : parse_status (query_request t) = ps_succ;
  as_cmd : cmd_type (query_request t) = c;
  as_key : key_str (query_request t) = take 250 k
}.

Lemma key_line_event (w : world DB) fd name c k rs :
  (name, c) = (str "get", cmd_get) \/ (name, c) = (str "delete", cmd_delete) ->
  is_token k -> plain k -> (length k <= 500)%nat ->
  exists t, query_io_event_handler (conn fd) EV_READ (with_reads w (Bytes (key_line name k ++ crlf) :: rs)) =
      Ret None (after_send w t rs) /\ asked t fd c k.
Proof.
  intros Hc Hk Hp Hl.
  assert (Hname : plain name /\ (length name <= 6)%nat /\ name <> []).
  { destruct Hc as [[= -> ->]|[= -> ->]]; (split; [repeat constructor; done|]); (split; [cbn; lia|done]). }
  destruct Hname as (Hpn & Hln & Hnn).
  assert (Hlen : length (key_line name k) = (length name + 1 + length k)%nat)
    by (unfold key_line; rewrite length_app; cbn [length]; lia).
  assert (Hpl : plain (key_line name k)).
  { apply Forall_app. split; [done|]. constructor; [by split|done]. }
  destruct (parse_head_run (with_reads w rs) fd (key_line name k) [] Hpl ltac:(lia) ltac:(cbn; lia)) as (rest & Hrest & E).
  rewrite app_nil_r in E. set (head := key_line name k ++ crlf) in *.
  destruct (parse_get_head (cut_request head rest) name c k rest) as (qr & Eq & Hqr & Hkey).
  - exact Hc.
  - cbn [cut_request query_head_buf]. unfold head, key_line. rewrite <- !app_assoc. cbn [app]. now rewrite <- app_assoc.
  - cbn [cut_request query_head_buf]. rewrite Hrest. reflexivity.
  - done.
  - assert (Hcmd : cmd_type qr = c /\ parse_status qr = ps_succ) by (rewrite Hqr; done). destruct Hcmd as [Hcmd Hps].
    set (t := set_state (set_request (heard fd head) (set_data_size qr (u64 (data_size qr - 2)))) s_dispatch_query_task).
    exists t. split; [|split; try done; destruct Hc as [[= -> ->]|[= -> ->]]; done].
    rewrite first_event.
    + unfold bind at 1. rewrite E. unfold bind at 1, checked. rewrite Eq. cbn [ret fst snd].
      unfold act_on_head. rewrite bool_decide_eq_true_2 by done. cbn [RET_SUCCESS Z.eqb andb]. rewrite Hcmd.
      assert (Ea : (match c with cmd_get | cmd_delete => true | _ => false end) = true)
        by (destruct Hc as [[= -> ->]|[= -> ->]]; done).
      destruct c; try done; (erewrite assign_bind by reflexivity); cbn [ret];
        change 1028%nat with (S 1027); apply (handler_dispatch 1027 t); by left.
    + unfold head, key_line. destruct name; done.
    + unfold head. rewrite length_app. change (length crlf) with 2%nat. lia.
Qed.

Lemma key_line_run (w : world DB) fd name c k :
  0 <= fd -> (name, c) = (str "get", cmd_get) \/ (name, c) = (str "delete", cmd_delete) ->
  is_token k -> plain k -> (length k <= 500)%nat ->
  exists t, serve_connection fd 1 (with_reads w [Bytes (key_line name k ++ crlf)]) = Ret None (after_send w t []) /\
    asked t fd c k.
Proof.
  intros Hfd Hc Hk Hp Hl. rewrite serve_connection_run by done. cbn [run_events].
  destruct (key_line_event w fd name c k [] Hc Hk Hp Hl) as (t & Ef & Ht).
  exists t. split; [|done]. erewrite assign_bind by exact Ef. reflexivity.
Qed.

(** ** Turns of the query threads *)

Fixpoint dispatch_all (ts : list query_task_s) : M DB unit :=
  match ts with
  | [] => ret tt
  | t :: ts => bind (dispatch_query_task t) (fun _ => dispatch_all ts)
  end.

(** The query threads are served in turn: of the tasks dispatched one after
    the other, the [i]-th goes to thread [(s + i) mod cnt], where [s] is the one
    that is next; the number never reaches [cnt], so the index into the pipes
    is always in range. *)
Theorem round_robin (w : world DB) ts :
  0 < worker_thread_cnt w < 2 ^ 32 -> 0 <= last_fd w <= worker_thread_cnt w -> allocs w = [] -> writes w = [] ->
  exists w', dispatch_all ts w = Ret tt w' /\ worker_thread_cnt w' = worker_thread_cnt w /\
    sent w' = sent w ++ imap (fun i t => ((next_thread w + Z.of_nat i) mod worker_thread_cnt w, set_watchers t false false)) ts.
Proof.
  revert w; induction ts as [|t ts IH]; intros w Hc Hl Ha Hw.
  - exists w. split; [done|]. split; [done|]. cbn. now rewrite app_nil_r.
  - assert (Hn : 0 <= next_thread w < worker_thread_cnt w).
    { unfold next_thread. destruct (Z.leb_spec (worker_thread_cnt w) (last_fd w)); lia. }
    set (w1 := after_send w t (reads w)).
    assert (Hl1 : last_fd w1 = next_thread w + 1) by (cbn; apply u64_small; unfold in_range; lia).
    assert (Hn1 : next_thread w1 = (next_thread w + 1) mod worker_thread_cnt w).
    { unfold next_thread at 1. rewrite Hl1. change (worker_thread_cnt w1) with (worker_thread_cnt w).
      destruct (Z.leb_spec (worker_thread_cnt w) (next_thread w + 1)).
      - replace (next_thread w + 1) with (worker_thread_cnt w) by lia. symmetry. apply Z_mod_same_full.
      - symmetry. apply Z.mod_small. lia. }
    destruct (IH w1) as (w' & E & Ec & Es); [exact Hc|rewrite Hl1; cbn; lia|done|done|].
    exists w'. split; [|split; [exact Ec|]].
    + cbn [dispatch_all]. assert (Ew : w = with_reads w (reads w)) by (destruct w; cbn in *; by subst).
      rewrite Ew at 1. erewrite assign_bind by apply dispatch_run. exact E.
    + rewrite Es. cbn [imap w1 after_send sent worker_thread_cnt]. fold w1. rewrite <- app_assoc. cbn [app].
      f_equal. f_equal.
      * rewrite Z.add_0_r, Z.mod_small by done. reflexivity.
      * apply imap_ext. intros i t' _. cbn. f_equal. rewrite Hn1, Zplus_mod_idemp_l. f_equal. lia.
Qed.


End Props.
(** ** Concrete requests *)

Import MapDB.

Definition ex_storage : Storage.state (gmap (list Z) (list Z)) := Storage.State false [] [] 0 ∅ None None None None [] [].
Definition ex_world : world (gmap (list Z) (list Z)) := World 0 4 ex_storage [] [] [] [] [].

Lemma ex_key_word : key_word (str "key").
Proof. split; [done|]. split; [cbn; lia|]. repeat constructor; done. Qed.

Lemma plain_str l : forallb (fun c => negb (c =? 0) && negb (c =? CR)) l = true -> plain l.
Proof.
  intros Hl. apply Forall_forall. intros c Hin. rewrite forallb_forall in Hl.
  specialize (Hl c (proj1 (list_elem_of_In _ _) Hin)). apply andb_true_iff in Hl as [H1 H2].
  apply negb_true_iff, Z.eqb_neq in H1. by apply negb_true_iff, Z.eqb_neq in H2.
Qed.

Lemma set_request_delivered_witness :
  exists t, serve_connection 9 3 (with_reads ex_world
      [Bytes (str "set key 1 0 5" ++ crlf ++ str "ab"); Bytes (str "cde"); Bytes crlf]) =
      Ret None (after_send ex_world t []) /\ data (query_request t) = Some (str "abcde" ++ crlf).
Proof.
  destruct (set_request_delivered ex_world 9 (str "key") 1 0 (str "abcde") (str "ab") [str "cde"; crlf]) as (t & E & Ht);
    [lia|apply ex_key_word|lia|lia|cbn; lia|reflexivity|repeat constructor; discriminate|apply Nat.leb_le; vm_compute; reflexivity|].
  - exists t. split; [exact E|apply Ht].
Defined.

Lemma split_head_lost_witness :
  exists t w', serve_connection 9 1 (with_reads ex_world [Bytes (str "get ke"); Err true; Bytes (str "y" ++ crlf)]) = Ret None w' /\
    sent w' = [] /\ destroyed w' = [t] /\ sock_fd t = 9 /\ is_Some (error_log t).
Proof.
  apply (split_head_lost ex_world 9 (str "get ke") true [Bytes (str "y" ++ crlf)]); [done|by apply plain_headless, plain_str|done|cbn; lia].
Defined.

Lemma head_overwritten_witness :
  exists t, handler_loop (DB := gmap (list Z) (list Z)) 1030 (conn 9) None
      (with_reads ex_world [Bytes (str "get ke"); Bytes (str "y" ++ crlf)]) =
      handler_loop 1027 t (Some true) (with_reads ex_world []) /\
    take 9 (query_head_buf (query_request t)) = str "y" ++ crlf ++ str " ke" ++ [0; 0; 0].
Proof.
  destruct (head_overwritten 1027 ex_world 9 (str "get ke") (str "y" ++ crlf) []) as (t & E & _ & _ & Hb);
    [by apply plain_headless, plain_str|done|done|vm_compute; lia|].
  exists t. split; [exact E|]. rewrite Hb. reflexivity.
Defined.

Lemma body_overflow_witness :
  serve_connection 9 1 (with_reads ex_world [Bytes ((set_line (str "key") 0 0 1 ++ crlf) ++ replicate 64 65)]) = Overflow.
Proof.
  apply (body_overflow ex_world 9 (str "key") 0 0 1 (replicate 64 65) [] 0); [lia|apply ex_key_word|lia|lia|lia|cbn; lia|].
  apply Nat.leb_le. vm_compute. reflexivity.
Defined.

Lemma body_allocation_aborts_witness :
  query_io_event_handler (conn 9) EV_READ
    (World 0 4 ex_storage [] [] [Bytes ((set_line (str "key") 0 0 4000000000 ++ crlf) ++ [])] [false] []) = Abort.
Proof.
  apply (body_allocation_aborts _ 9 (str "key") 0 0 4000000000 []);
    [apply ex_key_word|lia|lia|lia|apply Nat.leb_le; vm_compute; reflexivity|reflexivity|reflexivity].
Defined.

Lemma round_robin_witness :
  exists w', dispatch_all (replicate 6 (conn 9)) ex_world = Ret tt w' /\ map fst (sent w') = [0; 1; 2; 3; 0; 1].
Proof.
  destruct (round_robin ex_world (replicate 6 (conn 9))) as (w' & E & _ & Es); [cbn; lia|cbn; lia|done|done|].
  exists w'. split; [exact E|]. rewrite Es. reflexivity.
Defined.


End AssignProps.
