(* ===== verification/AssignSafety.v ===== *)
(** The event handler of the assign thread on arbitrary bytes: it returns after
    every event, aborts nowhere, leaves the stored data alone, and gives a task
    to one query thread or destroys it, once; the only memory it can damage is
    the block of a body that is longer than announced. *)

From Stdlib Require Import ZArith Lia String.
From stdpp Require Import base numbers list gmap.
From S2P Require Import Prelude CString IndexTypes Bdb Storage StorageRefine StorageProps Protocol Grammar Task Assign AssignProps.

Module AssignSafety.
Import Protocol Task Assign AssignProps.
Import CString (terminated, write_at, write_at_some).

(** ** Well-formed tasks *)

(** The head buffer, whose bytes from [have] on are still zero. *)
Definition head_ok (qr : query_request_s) (have : Z) : Prop :=
  Z.of_nat (length (query_head_buf qr)) = 512 /\ query_head_buf_size qr = 0 /\
  drop (Z.to_nat have) (query_head_buf qr) = replicate (512 - Z.to_nat have) 0.

(** What the handler relies on in every state it can meet. *)
Definition task_ok (t : query_task_s) : Prop :=
  match state t with
  | s_recv_req_head =>
      error_log t = None /\ 0 <= have_read t < 512 /\ need_read t = 512 - have_read t /\ head_ok (query_request t) (have_read t)
  | s_parse_req_head =>
      error_log t = None /\ 1 <= have_read t <= 512 /\ head_ok (query_request t) (have_read t)
  | s_recv_req_data =>
      error_log t = None /\ exists block, data (query_request t) = Some block /\
        0 <= have_read t - query_head_buf_size (query_request t) /\ 0 < need_read t /\
        have_read t - query_head_buf_size (query_request t) + need_read t = Z.of_nat (length block) /\
        Z.of_nat (length block) < 2 ^ 64
  | s_dispatch_query_task | s_return_failed | s_destroy_recv | s_do_power => True
  | s_do_sync => sync_object (query_request t) = true
  | _ => False
  end.

(** The states a task is left in when the handler returns. *)
Definition waiting (t : query_task_s) : Prop :=
  state t = s_recv_req_head \/ state t = s_recv_req_data \/ state t = s_destroy_recv.

(** A bound on the turns that are left. *)
Definition turns (t : query_task_s) : Z :=
  match state t with
  | s_recv_req_head => 2 * (512 - have_read t) + 3
  | s_parse_req_head => 2 * (512 - have_read t) + 4
  | s_recv_req_data | s_do_sync => 2
  | _ => 1
  end.

(** ** Heads that end more than a request *)

(** What the parser makes of the head in the buffer, when it accepts it: the
    length of the head, its line end included, and the request. *)
Definition accepted_head (t : query_task_s) : option (Z * query_request_s) :=
  let qr := query_request t in
  p ← mjoin (try_parse_memcached_string_head qr);
  let p := p + 2 in
  mem ← CString.wr (head_memory (set_head qr (query_head_buf qr) p)) p 0;
  '(qr, r) ← parse_memcached_string_head (set_head qr (take 512 mem) (le_combine (drop 512 mem)));
  if (r =? RET_SUCCESS) && bool_decide (parse_status qr = ps_succ) then Some (p, qr) else None.

(** The head says [power halt]. *)
Definition halts (t : query_task_s) : Prop :=
  state t = s_parse_req_head /\ exists p qr, accepted_head t = Some (p, qr) /\
    cmd_type qr = cmd_power /\ CString.is_word (CString.str "halt") (key_str qr) = true.
(** More bytes [k] behind a head than the [n] it announces, line end included; or
    any byte, when [n] is so near to 2^64 that the allocator wraps it around (the
    sizes -10 to -3). *)
Definition too_many (n k : Z) : Prop := n < k \/ 2 ^ 64 - 8 <= n /\ 0 < k.
(** The head is a set with too many bytes behind it. *)
Definition overlong (t : query_task_s) : Prop :=
  state t = s_parse_req_head /\ exists p qr, accepted_head t = Some (p, qr) /\ cmd_type qr = cmd_set /\
    too_many (u64 (data_size qr + 2)) (have_read t - p).

Section Safety.
Context {DB : Type} `{BerkeleyDBLaws DB}.

#[local] Notation "'let*' x := m 'in' k" := (bind m (fun x => k))
  (at level 10, x name, m at level 100, k at level 200).

(** Memory does not run out, pipes take every pointer, and the storage means [m]. *)
Record calm (m : gmap (list Z) (list Z)) (w : world DB) : Prop := {
  ca_allocs : allocs w = [];
  ca_writes : writes w = [];
  ca_threads : 0 < worker_thread_cnt w < 2 ^ 32;
  ca_last : 0 <= last_fd w <= worker_thread_cnt w;
  ca_storage : StorageRefine.represents (storage w) m
}.

(** [w'] differs from [w] in its reads and its storage only. *)
Record same_tasks (w w' : world DB) : Prop := {
  st_sent : sent w' = sent w;
  st_destroyed : destroyed w' = destroyed w;
  st_last : last_fd w' = last_fd w;
  st_count : worker_thread_cnt w' = worker_thread_cnt w
}.

(** How a turn or a whole event may end for a task in world [w]. *)
Inductive ending (m : gmap (list Z) (list Z)) (w : world DB) : option query_task_s -> world DB -> Prop :=
  | end_waits t' w' : task_ok t' -> waiting t' -> calm m w' -> same_tasks w w' -> ending m w (Some t') w'
  | end_sent t' w' : 0 <= next_thread w < worker_thread_cnt w -> calm m w' ->
      sent w' = sent w ++ [(next_thread w, t')] -> destroyed w' = destroyed w ->
      worker_thread_cnt w' = worker_thread_cnt w -> ending m w None w'
  | end_destroyed t' w' : calm m w' -> sent w' = sent w -> destroyed w' = destroyed w ++ [t'] ->
      worker_thread_cnt w' = worker_thread_cnt w -> ending m w None w'.

Inductive turn_ok (m : gmap (list Z) (list Z)) (t : query_task_s) (w : world DB) :
  outcome DB (option bool * option query_task_s) -> Prop :=
  | turn_more t' w' : task_ok t' -> turns t' < turns t -> state t' <> s_recv_req_data ->
      ~ overlong t -> (state t' = s_do_power <-> halts t) ->
      calm m w' -> same_tasks w w' -> turn_ok m t w (Ret (Some true, Some t') w')
  | turn_end o w' : ~ overlong t -> ~ halts t -> state t <> s_do_power -> ending m w o w' -> turn_ok m t w (Ret (Some false, o) w')
  | turn_exit w' : state t = s_do_power -> turn_ok m t w (Exit w')
  | turn_spins : state t = s_recv_req_data -> Forall (fun r => r = Err true) (reads w) -> turn_ok m t w Spins
  | turn_overflow : overlong t -> turn_ok m t w Overflow.

(** Only a head that is parsed says anything. *)
Lemma not_parsing t : state t <> s_parse_req_head -> ~ overlong t /\ ~ halts t.
Proof. intros Hs. split; by intros [? _]. Qed.

Lemma same_tasks_refl w : same_tasks w w.
Proof. by split. Qed.

Lemma same_tasks_trans w1 w2 w3 : same_tasks w1 w2 -> same_tasks w2 w3 -> same_tasks w1 w3.
Proof. intros [] []. split; congruence. Qed.

Lemma ending_same m w w' o w'' : same_tasks w w' -> ending m w' o w'' -> ending m w o w''.
Proof.
  intros Hs He. pose proof Hs as [Es Ed El Ec]. inversion He as [t' ? Hok Hw Hc Hst|t' ? Hn Hc E1 E2 E3|t' ? Hc E1 E2 E3]; subst.
  - apply end_waits; try done. by eapply same_tasks_trans.
  - assert (En : next_thread w' = next_thread w) by (unfold next_thread; now rewrite El, Ec).
    rewrite En, Ec in *. apply (end_sent _ _ t'); try done; congruence.
  - apply (end_destroyed _ _ t'); try done; congruence.
Qed.

(** The world after reads are taken from it. *)
Lemma calm_reads m w rs : calm m w -> calm m (with_reads w rs) /\ same_tasks w (with_reads w rs).
Proof. intros [Ha Hw Ht Hl Hs]. split; by split. Qed.

Lemma calm_eq m w : calm m w -> w = with_reads w (reads w).
Proof. intros [Ha Hw _ _ _]. destruct w. cbn in *. by subst. Qed.

Lemma log_run m t fmt w : calm m w -> error_log t = None -> log t fmt w = Ret (set_error_log t (Some fmt)) w.
Proof.
  intros Hc Hn. unfold log. rewrite Hn. unfold bind, next_alloc. rewrite (ca_allocs _ _ Hc). unfold Log. now rewrite Hn.
Qed.

(** ** The turns *)

Lemma dispatch_turn m t nl w :
  calm m w -> state t = s_dispatch_query_task \/ state t = s_return_failed -> turn_ok m t w (handler_turn t nl w).
Proof.
  intros Hc Hs. assert (E : handler_turn t nl w = Ret (Some false, None) (after_send w t (reads w))).
  { unfold handler_turn. rewrite (calm_eq _ _ Hc) at 1.
    destruct Hs as [-> | ->]; erewrite assign_bind by apply dispatch_run; reflexivity. }
  rewrite E. destruct (not_parsing t) as [N1 N2]; [by destruct Hs as [-> | ->]|].
  apply turn_end; [done|done|by destruct Hs as [-> | ->]|]. pose proof Hc as [Ha Hw Ht Hl Hr].
  assert (Hn : 0 <= next_thread w < worker_thread_cnt w) by (unfold next_thread; destruct (Z.leb_spec (worker_thread_cnt w) (last_fd w)); lia).
  eapply end_sent; try done. unfold after_send. split; cbn; try done. rewrite u64_small by (unfold in_range; lia). lia.
Qed.

Lemma destroy_turn m t nl w : calm m w -> state t = s_destroy_recv -> turn_ok m t w (handler_turn t nl w).
Proof.
  intros [Ha Hw Ht Hl Hr] Hs. unfold handler_turn. rewrite Hs. cbn. destruct (not_parsing t) as [N1 N2]; [by rewrite Hs|].
  apply turn_end; [done|done|by rewrite Hs|]. by eapply end_destroyed; [split|..].
Qed.

(** A task put into [s_destroy_recv] with the loop going on. *)
Lemma doomed_turn m t w t' w' :
  calm m w' -> same_tasks w w' -> state t' = s_destroy_recv -> 1 < turns t -> state t <> s_parse_req_head ->
  turn_ok m t w (Ret (Some true, Some t') w').
Proof.
  intros Hc Hw Hs Ht Hne. destruct (not_parsing t Hne) as [N1 N2]. unfold turns in *. apply turn_more; try done.
  - unfold task_ok. by rewrite Hs.
  - unfold turns. rewrite Hs. done.
  - by rewrite Hs.
  - rewrite Hs. by split.
Qed.

Lemma next_read_calm m w :
  calm m w -> next_read w = Ret (default (Err true) (head (reads w))) (with_reads w (tail (reads w))).
Proof. intros Hc. rewrite (calm_eq _ _ Hc) at 1. unfold next_read. cbn. by destruct (reads w). Qed.

Lemma write_head (buf l : list Z) :
  Z.of_nat (length l) <= Z.of_nat (length buf) -> write_at buf 0 l = Some (l ++ drop (length l) buf).
Proof.
  intros Hl. unfold write_at. rewrite (proj2 (Z.leb_le _ _)), (proj2 (Z.leb_le _ _)) by lia. cbn [andb].
  unfold splice. change (Z.to_nat 0) with 0%nat. reflexivity.
Qed.

(** The head buffer after [l] was read over its beginning. *)
Lemma head_ok_read qr have (l : list Z) :
  head_ok qr have -> 0 <= have -> have + Z.of_nat (length l) <= 512 ->
  write_at (query_head_buf qr) (query_head_buf_size qr) l = Some (l ++ drop (length l) (query_head_buf qr)) /\
  head_ok (set_head qr (l ++ drop (length l) (query_head_buf qr)) (query_head_buf_size qr)) (have + Z.of_nat (length l)).
Proof.
  intros (Hb & Hs & Hz) H1 H2. split; [rewrite Hs; apply write_head; lia|].
  split; [|split]; cbn [set_head query_head_buf query_head_buf_size].
  - rewrite length_app, length_drop. lia.
  - done.
  - rewrite drop_app_ge by lia. rewrite drop_drop.
    replace (length l + (Z.to_nat (have + Z.of_nat (length l)) - length l))%nat with (Z.to_nat have + length l)%nat by lia.
    rewrite <- drop_drop, Hz, drop_replicate. f_equal. lia.
Qed.

(** What one read brings: nothing at the end, nothing with an error, or bytes. *)
Lemma net_read_cases n r : 0 < n ->
  (net_read n r = (0, []) /\ r <> Err true /\ r <> Err false) \/
  (exists b, r = Err b /\ net_read n r = (-1, [])) \/
  exists l, net_read n r = (Z.of_nat (length l), l) /\ 0 < Z.of_nat (length l) <= n.
Proof.
  intros Hn. destruct r as [l| |b]; [|by left|right; left; by exists b].
  unfold net_read. destruct l as [|c l].
  - left. rewrite take_nil. done.
  - right. right. exists (take (Z.to_nat n) (c :: l)). split; [done|]. rewrite length_take. cbn [length]. lia.
Qed.

(** A task in a state that needs nothing. *)
Definition ends (t : query_task_s) : Prop := state t = s_destroy_recv.

Lemma recv_head_result m t w :
  calm m w -> task_ok t -> state t = s_recv_req_head ->
  exists b t', recv_req_head t w = Ret (b, t') (with_reads w (tail (reads w))) /\
    (ends t' \/ b = true /\ state t' = s_parse_req_head /\ task_ok t' /\ have_read t < have_read t').
Proof.
  intros Hc Hok Hs. unfold task_ok in Hok. rewrite Hs in Hok. destruct Hok as (Hlog & Hhave & Hneed & Hhead).
  destruct (calm_reads m w (tail (reads w)) Hc) as [Hc' _].
  unfold recv_req_head. erewrite assign_bind by apply (next_read_calm m w Hc).
  destruct (net_read_cases (need_read t) (default (Err true) (head (reads w))) ltac:(lia))
    as [(-> & _)|[(b & _ & ->)|(l & -> & Hl)]].
  1: destruct (head_ok_read _ _ [] Hhead ltac:(lia) ltac:(cbn; lia)) as [-> _].
  2: destruct (head_ok_read _ _ [] Hhead ltac:(lia) ltac:(cbn; lia)) as [-> _].
  3: destruct (head_ok_read _ _ l Hhead ltac:(lia) ltac:(lia)) as [-> Hhead'].
  all: erewrite assign_bind by reflexivity; cbn [set_request need_read have_read].
  - rewrite (proj2 (Z.eqb_neq (need_read t) 0)) by lia. cbn [Z.eqb andb negb].
    erewrite assign_bind by reflexivity. do 2 eexists. split; [reflexivity|]. by left.
  - cbn [Z.eqb andb Z.ltb Z.compare]. erewrite assign_bind by (eapply log_run; [exact Hc'|exact Hlog]).
    erewrite assign_bind by reflexivity. do 2 eexists. split; [reflexivity|]. by left.
  - rewrite (proj2 (Z.eqb_neq _ 0)), (proj2 (Z.ltb_lt 0 _)), (proj2 (Z.leb_le _ _)) by lia. cbn [andb].
    erewrite assign_bind by reflexivity. do 2 eexists. split; [reflexivity|]. right.
    split; [done|]. split; [done|]. split; [|cbn; lia]. cbn. split; [done|]. split; [lia|exact Hhead'].
Qed.

Lemma recv_head_turn m t nl w :
  calm m w -> task_ok t -> state t = s_recv_req_head -> turn_ok m t w (handler_turn t nl w).
Proof.
  intros Hc Hok Hs. destruct (calm_reads m w (tail (reads w)) Hc) as [Hc' Hst].
  destruct (recv_head_result m t w Hc Hok Hs) as (b & t' & E & Hcase).
  unfold handler_turn. rewrite Hs. erewrite assign_bind by exact E. cbn [fst snd ret].
  assert (Hhave : 0 <= have_read t < 512) by (unfold task_ok in Hok; rewrite Hs in Hok; tauto).
  destruct (not_parsing t) as [N1 N2]; [by rewrite Hs|]. destruct Hcase as [He|(-> & Hs' & Hok' & Hlt)].
  - destruct b.
    + apply doomed_turn; try done; [|by rewrite Hs]. unfold turns. rewrite Hs. lia.
    + apply turn_end; [done|done|by rewrite Hs|]. apply end_waits; try done; [unfold task_ok; by rewrite He|by right; right].
  - apply turn_more; try done.
    + unfold turns. rewrite Hs, Hs'. lia.
    + by rewrite Hs'.
    + rewrite Hs'. by split.
Qed.


Lemma to_dispatch t (w : world DB) : error_log t = None ->
  exists t', change_query_task_state t s_dispatch_query_task w = Ret t' w /\ state t' = s_dispatch_query_task.
Proof.
  intros Hlog. unfold change_query_task_state, bind, assert. cbn [set_state error_log]. rewrite Hlog.
  eexists. split; reflexivity.
Qed.

Lemma to_recv_data t (w : world DB) : error_log t = None ->
  change_query_task_state t s_recv_req_data w = Ret (set_state t s_recv_req_data) w.
Proof. intros Hlog. unfold change_query_task_state, bind, assert. cbn [set_state error_log]. now rewrite Hlog. Qed.

(** What the loop over the body may return. *)
Definition data_result (m : gmap (list Z) (list Z)) (w : world DB) (rs : list read_ans) (o : outcome DB (bool * query_task_s)) : Prop :=
  match o with
  | Ret (b, t') w' => calm m w' /\ same_tasks w w' /\
      if b then ends t' \/ state t' = s_dispatch_query_task else task_ok t' /\ state t' = s_recv_req_data
  | Spins => Forall (fun r => r = Err true) rs
  | _ => False
  end.

Lemma recv_data_result m rs t w :
  calm m w -> reads w = rs -> task_ok t -> state t = s_recv_req_data ->
  data_result m w rs (recv_data_loop rs t w).
Proof.
  revert w; induction rs as [|r rs IH]; intros w Hc Hr Hok Hs; [constructor|].
  pose proof Hok as Hok'. unfold task_ok in Hok. rewrite Hs in Hok.
  destruct Hok as (Hlog & block & Hd & H1 & Hneed & H2 & H3).
  destruct (calm_reads m w rs Hc) as [Hc' Hst].
  assert (Er : next_read w = Ret r (with_reads w rs)) by (rewrite (next_read_calm m w Hc), Hr; reflexivity).
  cbn [recv_data_loop]. erewrite assign_bind by exact Er.
  assert (Hdoom : forall fmt, data_result m w (r :: rs)
    ((let* t := log t fmt in let* t := change_query_task_state t s_destroy_recv in ret (true, t)) (with_reads w rs))).
  { intros fmt. erewrite assign_bind by (eapply log_run; [exact Hc'|exact Hlog]). cbn. split; [done|]. split; [done|]. by left. }
  destruct (net_read_cases (need_read t) r Hneed) as [(-> & Hr1 & Hr2)|[(b & -> & ->)|(l & -> & Hl)]].
  - cbn [Z.ltb Z.compare Z.eqb]. erewrite assign_bind by reflexivity.
    rewrite (proj2 (Z.eqb_neq (need_read t) 0)) by lia. cbn [andb negb]. apply Hdoom.
  - change (0 <? -1) with false. erewrite assign_bind by reflexivity. change (-1 =? 0) with false. cbn [andb].
    rewrite (proj2 (Z.eqb_neq (-1) _)) by lia. change (-1 <? 0) with true. destruct b; [|apply Hdoom].
    pose proof (IH (with_reads w rs) Hc' eq_refl Hok' Hs) as Hi.
    destruct (recv_data_loop rs t (with_reads w rs)) as [[b' t'] w'| | | | | | |]; try exact Hi.
    + cbn in Hi |- *. destruct Hi as (Hi1 & Hi2 & Hi3). split; [done|]. split; [|done]. by eapply same_tasks_trans.
    + constructor; [done|exact Hi].
  - rewrite (proj2 (Z.ltb_lt 0 _)) by lia. rewrite Hd. cbn [mbind option_bind].
    rewrite u64_small by (unfold in_range; lia).
    destruct (write_at_some block (have_read t - query_head_buf_size (query_request t)) l) as (b' & -> & Hb'); [lia|lia|].
    erewrite assign_bind by reflexivity. cbn [set_request need_read have_read].
    rewrite (proj2 (Z.eqb_neq _ 0)) by lia. cbn [andb].
    destruct (Z.ltb_spec (Z.of_nat (length l)) (need_read t)) as [Hlt|Hge].
    + cbn. split; [done|]. split; [done|]. split; [|exact Hs]. unfold task_ok. cbn. rewrite Hs.
      split; [done|]. exists b'. rewrite Hb'. split; [done|]. lia.
    + rewrite (proj2 (Z.eqb_eq _ _)) by lia. destruct (to_dispatch (set_request t (set_data (query_request t) (Some b'))) (with_reads w rs) Hlog) as (t' & E & Hs').
      erewrite assign_bind by exact E. cbn. split; [done|]. split; [done|]. by right.
Qed.

Lemma recv_data_turn m t nl w :
  calm m w -> task_ok t -> state t = s_recv_req_data -> turn_ok m t w (handler_turn t nl w).
Proof.
  intros Hc Hok Hs. unfold handler_turn. rewrite Hs. unfold recv_req_data.
  assert (Hneed : need_read t <> 0) by (unfold task_ok in Hok; rewrite Hs in Hok; destruct Hok as (_ & b & ?); lia).
  rewrite (proj2 (Z.eqb_neq _ _)) by done.
  pose proof (recv_data_result m (reads w) t w Hc eq_refl Hok Hs) as Hr.
  destruct (not_parsing t) as [N1 N2]; [by rewrite Hs|].
  unfold bind, get, ret. destruct (recv_data_loop (reads w) t w) as [[b t'] w'| | | | | | |]; try done; cbn [fst snd].
  - destruct Hr as (Hc' & Hst & Hcase). destruct b.
    + destruct Hcase as [He|Hd]; [apply doomed_turn; try done; [unfold turns; rewrite Hs; lia|by rewrite Hs]|].
      cbn [fst snd]. apply turn_more; try done.
      * unfold task_ok. by rewrite Hd.
      * unfold turns. rewrite Hs, Hd. lia.
      * by rewrite Hd.
      * rewrite Hd. by split.
    + apply turn_end; [done|done|by rewrite Hs|]. apply end_waits; try done; [tauto|]. right. left. tauto.
  - by apply turn_spins.
Qed.


(** ** Parsing *)

Lemma strstr_cases l i : Forall (fun c => c <> 0) l ->
  forall rest, CString.strstr_crlf (l ++ 0 :: rest) i = Some None \/
  exists line more, l = line ++ crlf ++ more /\
    CString.strstr_crlf (l ++ 0 :: rest) i = Some (Some (i + Z.of_nat (length line))).
Proof.
  intros Hl. revert i; induction Hl as [|c l Hc Hl IH]; intros i rest; [by left|].
  cbn [app CString.strstr_crlf]. rewrite (proj2 (Z.eqb_neq c 0)) by done.
  assert (Hmore : CString.strstr_crlf (l ++ 0 :: rest) (i + 1) = Some None \/
    exists line more, c :: l = line ++ crlf ++ more /\
      CString.strstr_crlf (l ++ 0 :: rest) (i + 1) = Some (Some (i + Z.of_nat (length line)))).
  { destruct (IH (i + 1) rest) as [E|(line & more & -> & E)]; [by left|right].
    exists (c :: line), more. split; [done|]. rewrite E. do 2 f_equal. cbn [length]. lia. }
  destruct (Z.eqb_spec c CString.CR) as [->|Hcr]; [|exact Hmore].
  destruct l as [|c' l]; cbn [app]; [exact Hmore|].
  destruct (Z.eqb_spec c' CString.LF) as [->|Hlf]; [|exact Hmore].
  right. exists [], l. split; [done|]. do 2 f_equal. cbn. lia.
Qed.

(** A buffer up to its first NUL. *)
Lemma first_nul l : 0 ∈ l -> exists s rest, l = s ++ 0 :: rest /\ Forall (fun c => c <> 0) s.
Proof.
  induction l as [|c l IH]; intros Hin; [by apply elem_of_nil in Hin|].
  destruct (decide (c = 0)) as [->|Hc]; [by exists [], l|].
  apply elem_of_cons in Hin as [|Hin]; [done|]. destruct (IH Hin) as (s & rest & -> & Hs).
  exists (c :: s), rest. by split; [|constructor].
Qed.

(** The head ends where the bytes received end, or before. *)
Lemma try_parse_cases qr have : head_ok qr have -> 0 <= have <= 512 ->
  try_parse_memcached_string_head qr = Some None \/
  exists line rest, query_head_buf qr = (line ++ crlf) ++ rest /\ Forall (fun c => c <> 0) (line ++ crlf) /\
    Z.of_nat (length (line ++ crlf)) <= have /\
    try_parse_memcached_string_head qr = Some (Some (Z.of_nat (length line))).
Proof.
  intros (Hb & Hsz & Hz) Hh. unfold try_parse_memcached_string_head, head_memory. rewrite Hsz.
  change (le_split 8 0) with (replicate 8 0).
  set (mem := query_head_buf qr ++ replicate 8 0).
  assert (Htail : drop (Z.to_nat have) mem = replicate (520 - Z.to_nat have) 0).
  { unfold mem. rewrite drop_app_le by lia. rewrite Hz, <- replicate_add. f_equal. lia. }
  destruct (first_nul mem) as (s & rest & Em & Hs).
  { unfold mem. apply elem_of_app. right. cbn. apply list_elem_of_here. }
  destruct (strstr_cases s 0 Hs rest) as [E|(line & more & Es & E)]; rewrite Em, E; [by left|right].
  assert (Hlen : Z.of_nat (length (line ++ crlf)) <= have).
  { destruct (decide (Z.of_nat (length (line ++ crlf)) <= have)) as [|Hgt]; [done|exfalso].
    assert (Hlf : mem !! (length line + 1)%nat = Some CString.LF).
    { rewrite Em, Es, <- !app_assoc, lookup_app_r by lia.
      replace (length line + 1 - length line)%nat with 1%nat by lia. reflexivity. }
    rewrite length_app in Hgt. cbn in Hgt.
    replace (length line + 1)%nat with (Z.to_nat have + (length line + 1 - Z.to_nat have))%nat in Hlf by lia.
    rewrite <- lookup_drop, Htail in Hlf. apply lookup_replicate in Hlf as [Hlf _]. done. }
  exists line, (drop (length (line ++ crlf)) (query_head_buf qr)). split; [|split; [|by split]].
  - rewrite <- (take_drop (length (line ++ crlf)) (query_head_buf qr)) at 1. f_equal.
    rewrite <- (take_app_le _ (replicate 8 0)) by lia. fold mem. rewrite Em, Es, <- !app_assoc, app_assoc.
    apply take_app_length.
  - rewrite Es, app_assoc in Hs. by apply Forall_app in Hs as [].
Qed.

(** The head buffer and its size after the head was cut off at its end. *)
Lemma cut_any (h rest : list Z) :
  Z.of_nat (length (h ++ rest)) = 512 ->
  exists mem tl, CString.wr ((h ++ rest) ++ le_split 8 (Z.of_nat (length h))) (Z.of_nat (length h)) 0 = Some mem /\
    mem = h ++ 0 :: tl /\ Z.of_nat (length (take 512 mem)) = 512 /\
    le_combine (drop 512 mem) = Z.of_nat (length h) /\ mem = take 512 mem ++ le_split 8 (Z.of_nat (length h)).
Proof.
  intros Hl. destruct rest as [|c rest].
  - rewrite app_nil_r in *. replace (length h) with 512%nat by lia.
    exists (h ++ le_split 8 512), (tail (le_split 8 512)).
    assert (Hh : 512 = Z.of_nat (length h)) by lia. split; [|split; [|split; [|split]]].
    + change (Z.of_nat 512) with 512. rewrite Hh at 2. change (le_split 8 512) with (0 :: tail (le_split 8 512)).
      apply CString.wr_app.
    + reflexivity.
    + rewrite take_app_length' by lia. lia.
    + rewrite drop_app_length' by lia. reflexivity.
    + rewrite take_app_length' by lia. reflexivity.
  - destruct (cut_head h rest c ltac:(lia)) as (E & Et & Ed). eexists _, _. split; [exact E|].
    split; [rewrite <- app_assoc; reflexivity|]. rewrite Et. split; [rewrite length_app in *; cbn [length] in *; lia|].
    by split.
Qed.


(** A request whose head failed to parse is cut and answered. *)
Lemma truncate_run qr h tl :
  head_memory qr = h ++ 0 :: tl -> Forall (fun c => c <> 0) h -> 2 <= Z.of_nat (length h) ->
  exists qr', truncate_head qr = Some qr'.
Proof.
  intros Em Hh Hl. unfold truncate_head. rewrite Em.
  pose proof (CString.strlen_app [] h tl Hh) as Es. cbn [app length] in Es. change (Z.of_nat 0) with 0 in Es.
  rewrite Es. cbn [mbind option_bind]. unfold CString.wr. rewrite length_app. cbn [length].
  rewrite (proj2 (Z.ltb_ge _ _)), (proj2 (Z.leb_gt _ _)) by lia. cbn [orb mbind option_bind]. by eexists.
Qed.

Lemma i64_neg x : 2 ^ 63 <= x < 2 ^ 64 -> i64 x < 0.
Proof. intros Hx. unfold i64. rewrite <- (Z.mod_unique (x + 2 ^ 63) (2 ^ 64) 1 (x - 2 ^ 63)) by lia. lia. Qed.
Lemma i64_pos x : 0 <= x < 2 ^ 64 -> 0 < i64 x -> i64 x = x.
Proof.
  intros Hx Hp. apply i64_small. destruct (decide (x < 2 ^ 63)) as [|Hge]; [lia|]. pose proof (i64_neg x ltac:(lia)). lia.
Qed.

(** What [parse_query_request_head] may return, [pw] and [ov] telling whether the
    head is a power command and whether it has too many bytes behind it. *)
Definition parse_result (pw ov : Prop) (t : query_task_s) (w : world DB) (o : outcome DB (bool * query_task_s)) : Prop :=
  match o with
  | Ret (true, t') w' => w' = w /\ task_ok t' /\ state t' <> s_recv_req_data /\ state t' <> s_parse_req_head /\
      (state t' = s_recv_req_head -> have_read t' = have_read t) /\ (state t' = s_do_power <-> pw) /\ ~ ov
  | Ret (false, t') w' => w' = w /\ task_ok t' /\ state t' = s_recv_req_data /\ ~ pw /\ ~ ov
  | Overflow => ov
  | _ => False
  end.

(** A task whose new state asks nothing of it. *)
Lemma parse_result_end (pw ov : Prop) t w t' : task_ok t' -> state t' <> s_recv_req_data -> state t' <> s_parse_req_head ->
  state t' <> s_recv_req_head -> (state t' = s_do_power <-> pw) -> ~ ov -> parse_result pw ov t w (Ret (true, t') w).
Proof.
  intros H1 H2 H3 H4 H5 H6. cbn. split; [done|]. split; [done|]. split; [done|]. split; [done|]. split; [|by split]. intros E. by destruct (H4 E).
Qed.

Lemma dispatch_result (pw ov : Prop) t w t0 :
  error_log t0 = None -> ~ pw -> ~ ov ->
  parse_result pw ov t w ((let* t0 := change_query_task_state t0 s_dispatch_query_task in ret (true, t0)) w).
Proof.
  intros Hlog Hpw Hov. destruct (to_dispatch t0 w Hlog) as (t' & E & Hs). erewrite assign_bind by exact E.
  apply parse_result_end; [unfold task_ok; by rewrite Hs|by rewrite Hs..|rewrite Hs; by split|done].
Qed.

Lemma body_block_room n (tmp : list Z) : 0 <= n < 2 ^ 64 ->
  (exists block, write_at (body_block n) 0 tmp = Some block /\ ~ too_many n (Z.of_nat (length tmp)) /\
     (n + 8 < 2 ^ 64 -> Z.of_nat (length block) = n) /\ (2 ^ 64 - 8 <= n -> tmp = [])) \/
  (write_at (body_block n) 0 tmp = None /\ too_many n (Z.of_nat (length tmp))).
Proof.
  intros Hn. unfold body_block, too_many. destruct (Z.ltb_spec (n + 8) (2 ^ 64)) as [Hs|Hw].
  - unfold write_at. rewrite length_replicate. cbn [Z.leb Z.compare andb].
    destruct (Z.leb_spec (0 + Z.of_nat (length tmp)) (Z.of_nat (Z.to_nat n))) as [Hfit|Hover]; [left|right; split; [done|lia]].
    eexists. split; [reflexivity|]. split; [lia|]. split; [|lia]. intros _. rewrite splice_length; rewrite length_replicate; lia.
  - destruct tmp as [|c tmp]; [left|right; split; [done|cbn [length]; lia]].
    eexists. split; [reflexivity|]. split; [cbn [length]; lia|]. split; [lia|done].
Qed.

(** Acting on a set request. *)
Lemma act_set_result (pw ov : Prop) m t w tmp request :
  calm m w -> error_log t = None -> cmd_type request = cmd_set -> parse_status request = ps_succ ->
  0 <= query_head_buf_size request -> have_read t = query_head_buf_size request + Z.of_nat (length tmp) ->
  ~ pw -> (ov <-> too_many (u64 (data_size request + 2)) (Z.of_nat (length tmp))) ->
  parse_result pw ov t w (act_on_head t (Z.of_nat (length tmp)) tmp request RET_SUCCESS w).
Proof.
  intros Hc Hlog Hcmd Hps Hsz Hhave Hpw Hov. unfold act_on_head. rewrite bool_decide_eq_true_2 by done.
  cbn [RET_SUCCESS Z.eqb andb]. rewrite Hcmd.
  erewrite assign_bind by (unfold next_alloc; rewrite (ca_allocs _ _ Hc); reflexivity).
  erewrite assign_bind by reflexivity. cbn [set_data_size data_size].
  set (ds := u64 (data_size request + 2)) in *.
  assert (Hds : 0 <= ds < 2 ^ 64) by apply u64_range.
  destruct (body_block_room ds tmp Hds) as [(block & Ew & Hfit & Hblock & Hnil)|[Ew Hover]]; rewrite Ew; [|by apply Hov].
  assert (Hno : ~ ov) by by rewrite Hov.
  erewrite assign_bind by reflexivity. cbn [set_data set_request set_read need_read data_size].
  change (data_size (set_data_size request ds)) with ds.
  set (need := i64 (ds - Z.of_nat (length tmp))).
  destruct (Z.eqb_spec need 0) as [Hz|Hz]; cbv iota.
  { by apply dispatch_result. }
  destruct (Z.ltb_spec 0 need) as [Hpos|Hneg]; cbv iota.
  - erewrite assign_bind by (apply to_recv_data; exact Hlog).
    assert (Hle : Z.of_nat (length tmp) <= ds) by (unfold too_many in Hfit; lia).
    assert (En : need = ds - Z.of_nat (length tmp)) by (apply i64_pos; [lia|exact Hpos]).
    assert (Hsmall : ds + 8 < 2 ^ 64).
    { destruct (Z.lt_ge_cases (ds + 8) (2 ^ 64)) as [|Hbig]; [done|exfalso]. assert (Etmp : tmp = []) by (apply Hnil; lia).
      pose proof (i64_neg (ds - Z.of_nat (length tmp)) ltac:(rewrite Etmp; cbn [length]; lia)). unfold need in Hpos. lia. }
    split; [done|]. split; [|done]. cbn. split; [done|]. eexists. split; [reflexivity|]. rewrite (Hblock Hsmall). lia.
  - erewrite assign_bind by reflexivity. by apply parse_result_end.
Qed.

Lemma act_result (pw ov : Prop) m t w tmp request r :
  calm m w -> error_log t = None ->
  (r = RET_SUCCESS /\ parse_status request = ps_succ /\ cmd_type request <> cmd_unknown /\
     (cmd_type request = cmd_sync -> sync_object request = true)) \/
  (r = RET_PARSE_REQ_FAILED /\ parse_status request = ps_failed) ->
  0 <= query_head_buf_size request -> have_read t = query_head_buf_size request + Z.of_nat (length tmp) ->
  (exists request', truncate_head request = Some request') ->
  (pw <-> r = RET_SUCCESS /\ cmd_type request = cmd_power) ->
  (ov <-> r = RET_SUCCESS /\ cmd_type request = cmd_set /\ too_many (u64 (data_size request + 2)) (Z.of_nat (length tmp))) ->
  parse_result pw ov t w (act_on_head t (Z.of_nat (length tmp)) tmp request r w).
Proof.
  intros Hc Hlog Hres Hsz Hhave [request' Htr] Hpw Hov.
  destruct Hres as [(-> & Hps & Hcmd & Hobj)|(-> & Hps)].
  - destruct (cmd_type request) eqn:Ec; [done|eapply act_set_result; try done; [by rewrite Hpw; intros [_ ?]|rewrite Hov; tauto]|..];
      (assert (Hno : ~ ov) by (rewrite Hov; by intros (_ & ? & _))); unfold act_on_head;
      rewrite bool_decide_eq_true_2 by done; cbn [RET_SUCCESS Z.eqb andb]; rewrite Ec.
    1,2: apply dispatch_result; try done; by rewrite Hpw; intros [_ ?].
    all: erewrite assign_bind by reflexivity; apply parse_result_end; try done; try (by rewrite Hpw; cbn; tauto).
    + cbn. by apply Hobj.
    + cbn. rewrite Hpw. split; [done|]. by intros [_ ?].
  - unfold act_on_head. change (RET_PARSE_REQ_FAILED =? RET_SUCCESS) with false. cbn [andb]. rewrite Htr. erewrite assign_bind by reflexivity.
    erewrite assign_bind by (eapply log_run; [exact Hc|exact Hlog]). erewrite assign_bind by reflexivity.
    apply parse_result_end; try done; [rewrite Hpw; split; [done|by intros [? _]]|rewrite Hov; by intros [? _]].
Qed.


Lemma to_recv_head m t w : calm m w -> error_log t = None ->
  change_query_task_state t s_recv_req_head w =
  Ret (if have_read t =? 512
       then set_state (set_error_log (set_read (set_state t s_recv_req_head) 512 0) (Some "Request header is longger than expected"%string)) s_destroy_recv
       else set_state (set_read (set_state t s_recv_req_head) (have_read t) (512 - have_read t)) s_recv_req_head) w.
Proof.
  intros Hc Hlog. unfold change_query_task_state. cbn [set_state set_read need_read have_read].
  unfold MAX_QUERY_HEADER_SIZE. destruct (Z.eqb_spec (have_read t) 512) as [E|Hne].
  - rewrite E. change (512 - 512) with 0. cbn [Z.eqb]. unfold bind at 1, assert. cbn [set_read set_state error_log].
    rewrite Hlog. cbn [ret]. erewrite assign_bind by (eapply log_run; [exact Hc|exact Hlog]). reflexivity.
  - rewrite (proj2 (Z.eqb_neq _ _)) by lia. reflexivity.
Qed.

Lemma nothing_accepted t : accepted_head t = None -> ~ halts t /\ ~ overlong t.
Proof. intros E. split; intros (_ & p & qr & E' & _); congruence. Qed.

(** What the head says, in terms of what the parser returned. *)
Lemma accepted_says t p qr r : state t = s_parse_req_head ->
  accepted_head t = (if (r =? RET_SUCCESS) && bool_decide (parse_status qr = ps_succ) then Some (p, qr) else None) ->
  r = RET_SUCCESS /\ parse_status qr = ps_succ \/ r = RET_PARSE_REQ_FAILED ->
  (r = RET_SUCCESS -> cmd_type qr = cmd_power -> CString.is_word (CString.str "halt") (key_str qr) = true) ->
  (halts t <-> r = RET_SUCCESS /\ cmd_type qr = cmd_power) /\
  (overlong t <-> r = RET_SUCCESS /\ cmd_type qr = cmd_set /\ too_many (u64 (data_size qr + 2)) (have_read t - p)).
Proof.
  intros Hs E Hr Hkey. destruct Hr as [[-> Hps]| ->].
  - rewrite bool_decide_eq_true_2 in E by done. cbn [RET_SUCCESS Z.eqb andb] in E. unfold halts, overlong. rewrite E. split; split.
    + by intros (_ & ? & ? & [= <- <-] & ? & _).
    + intros [_ Hc]. split; [done|]. exists p, qr. auto.
    + by intros (_ & ? & ? & [= <- <-] & ? & ?).
    + intros (_ & Hc & Hm). split; [done|]. by exists p, qr.
  - destruct (nothing_accepted t E) as [N1 N2]. split; split; try done; by intros [? _].
Qed.

Lemma parse_head_result m t w :
  calm m w -> task_ok t -> state t = s_parse_req_head -> parse_result (halts t) (overlong t) t w (parse_query_request_head t w).
Proof.
  intros Hc Hok Hs. unfold task_ok in Hok. rewrite Hs in Hok. destruct Hok as (Hlog & Hhave & Hhead).
  unfold parse_query_request_head.
  destruct (try_parse_cases _ _ Hhead ltac:(lia)) as [Etry|(line & rest & Hbuf & Hnz & Hle & Etry)]; rewrite Etry;
    erewrite assign_bind by reflexivity.
  - assert (Ea : accepted_head t = None) by (unfold accepted_head; by rewrite Etry). destruct (nothing_accepted t Ea) as [N1 N2].
    cbv beta iota. erewrite assign_bind by (eapply to_recv_head; [exact Hc|exact Hlog]).
    destruct (Z.eqb_spec (have_read t) 512) as [E|Hne]; [by apply parse_result_end|].
    cbn. split; [done|]. split; [|done]. split; [done|]. split; [lia|]. split; [lia|exact Hhead].
  - assert (Hh : Z.of_nat (length (line ++ crlf)) = Z.of_nat (length line) + 2) by (rewrite length_app; cbn; lia).
    cbv beta iota zeta. rewrite <- Hh. destruct Hhead as (Hlen & _ & _). rewrite Hbuf in Hlen.
    destruct (cut_any (line ++ crlf) rest Hlen) as (mem & tl & Ew & Em & Et & Ed & Emem).
    rewrite (proj2 (Z.leb_le _ _)) by done. erewrite assign_bind by reflexivity.
    rewrite (proj2 (Z.leb_le _ _)) by (unfold MAX_QUERY_HEADER_SIZE; lia). erewrite assign_bind by reflexivity.
    set (cut := set_head (query_request t) (query_head_buf (query_request t)) (Z.of_nat (length (line ++ crlf)))).
    assert (Ecut : head_memory cut = ((line ++ crlf) ++ rest) ++ le_split 8 (Z.of_nat (length (line ++ crlf)))).
    { unfold head_memory, cut. cbn [set_head query_head_buf query_head_buf_size]. now rewrite Hbuf. }
    rewrite !Ecut, Ew. erewrite assign_bind by reflexivity. rewrite Ed.
    set (request := set_head cut (take 512 mem) (Z.of_nat (length (line ++ crlf)))).
    destruct (parser_run request Et) as (qr & r & Eparse & Hfr & Hres). rewrite Eparse. erewrite assign_bind by reflexivity. cbn [fst snd].
    assert (Ea : accepted_head t = if (r =? RET_SUCCESS) && bool_decide (parse_status qr = ps_succ)
      then Some (Z.of_nat (length (line ++ crlf)), qr) else None).
    { unfold accepted_head. rewrite Etry. cbn [mjoin option_join mbind option_bind]. rewrite <- Hh. fold cut. rewrite Ecut, Ew.
      cbn [mbind option_bind]. rewrite Ed.
      change (set_head (query_request t) (take 512 mem) (Z.of_nat (length (line ++ crlf)))) with request. by rewrite Eparse. }
    destruct (accepted_says t (Z.of_nat (length (line ++ crlf))) qr r Hs Ea) as [Hpw Hov];
      [destruct Hres as [(-> & -> & _)|(-> & _)]; auto|by intros ->; apply (Grammar.accepted_power request)|].
    pose proof (fr_head_size _ _ Hfr) as Hsz. pose proof (fr_head _ _ Hfr) as Hhd. cbn [request set_head query_head_buf_size query_head_buf] in Hsz, Hhd.
    match goal with |- context [act_on_head t _ ?x] => set (tmp := x) end.
    assert (Htmp : Z.of_nat (length tmp) = have_read t - Z.of_nat (length (line ++ crlf))).
    { unfold tmp. rewrite length_take, length_drop, (length_app (_ ++ rest)). change (length (le_split 8 _)) with 8%nat. lia. }
    rewrite <- Htmp in *. apply (act_result _ _ m); try done; try lia.
    apply (truncate_run qr (line ++ crlf) tl); [|done|lia].
    unfold head_memory. rewrite Hhd, Hsz, <- Em. symmetry. exact Emem.
Qed.

Lemma parse_turn m t nl w :
  calm m w -> task_ok t -> state t = s_parse_req_head -> turn_ok m t w (handler_turn t nl w).
Proof.
  intros Hc Hok Hs. pose proof (parse_head_result m t w Hc Hok Hs) as Hr. unfold handler_turn. rewrite Hs.
  assert (Hhave : 1 <= have_read t <= 512) by (unfold task_ok in Hok; rewrite Hs in Hok; tauto).
  assert (Hturn : turns t = 2 * (512 - have_read t) + 4) by (unfold turns; by rewrite Hs).
  unfold bind, ret. destruct (parse_query_request_head t w) as [[[|] t'] w'| | | | | | |]; try done; cbn [fst snd].
  - destruct Hr as (-> & Hok' & H1 & H2 & H3 & H4 & H5). apply turn_more; try done.
    + rewrite Hturn. unfold turns. destruct (state t') eqn:E'; try lia; [rewrite H3 by done; lia|done].
  - destruct Hr as (-> & Hok' & Hs' & H1 & H2). apply turn_end; [done|done|by rewrite Hs|]. apply end_waits; try done. by right; left.
  - by apply turn_overflow.
Qed.

Lemma sync_turn m t w :
  calm m w -> task_ok t -> state t = s_do_sync -> turn_ok m t w (handler_turn t (Some true) w).
Proof.
  intros [Ha Hw Ht Hl Hr] Hok Hs. unfold task_ok in Hok. rewrite Hs in Hok.
  destruct Hr as (sizes & hs & n & dk & b & il & j & idx & Es & Hinv).
  destruct (StorageRefine.sync_run sizes hs n dk b il j idx m (key_str (query_request t)) Hinv)
    as (dk' & b' & il' & E & Hinv').
  { apply orb_true_iff. exact Hok. }
  unfold handler_turn. rewrite Hs. erewrite assign_bind.
  2: { unfold on_storage. rewrite Es, E. reflexivity. }
  erewrite assign_bind by reflexivity. apply doomed_turn; try done; [|unfold turns; by rewrite Hs|by rewrite Hs].
  split; try done. eapply StorageRefine.represents_intro, Hinv'.
Qed.

(** The process leaves with the storage synced and closed. *)
Lemma power_exit m t nl w n c :
  StorageRefine.represents (storage w) m -> Storage.block_type_count (storage w) = n -> StorageRefine.room (storage w) c ->
  state t = s_do_power ->
  exists w' b, handler_turn t nl w = Exit w' /\ Storage.indexdb (storage w) = Some b /\
    StorageRefine.durable n c (storage w') (contents (Bdb.dbp b)) m.
Proof.
  intros Hr Hn Hroom Hs. destruct Hr as (sizes & hs & n' & dk & b & il & j & idx & Es & Hinv).
  rewrite Es in Hn, Hroom. cbn in Hn. subst n'.
  destruct (StorageRefine.sync_run sizes hs n dk b il j idx m Assign.all_word Hinv) as (dk' & b' & il' & E & Hinv').
  { right. vm_compute. reflexivity. }
  destruct (StorageRefine.close_durable _ _ _ _ _ _ j _ _ c Hinv' Hroom) as (s1 & Ec & Hdur).
  eexists _, b. split; [|split].
  - unfold handler_turn. rewrite Hs. erewrite assign_bind by (unfold on_storage; rewrite Es, E; reflexivity).
    erewrite assign_bind by reflexivity. erewrite assign_bind by (unfold on_storage; cbn [storage]; rewrite Ec; reflexivity).
    reflexivity.
  - rewrite Es. reflexivity.
  - cbn [storage]. rewrite (proj2 (StorageRefine.si_db _ _ _ _ _ _ _ _ Hinv)).
    rewrite <- (proj2 (StorageRefine.si_db _ _ _ _ _ _ _ _ Hinv')). exact Hdur.
Qed.

Lemma power_turn m t nl w : calm m w -> state t = s_do_power -> exists w', handler_turn t nl w = Exit w'.
Proof.
  intros [Ha Hw Ht Hl Hr] Hs.
  assert (Hroom : exists c, StorageRefine.room (storage w) c).
  { destruct Hr as (sizes & hs & n & dk & b & il & j & idx & -> & Hinv). exists 0. intros i fh Hi Hf.
    destruct (proj2 (StorageRefine.si_files _ _ _ _ _ _ _ _ Hinv) i Hi) as (fh' & f & Hf' & _ & Hfi). cbn in Hf.
    rewrite Hf in Hf'. injection Hf' as <-. pose proof (StorageRefine.fi_high _ _ _ Hfi). lia. }
  destruct Hroom as [c Hroom]. destruct (power_exit m t nl w _ c Hr eq_refl Hroom Hs) as (w' & b & E & _). by exists w'.
Qed.

Lemma turn_run m t nl w :
  calm m w -> task_ok t -> nl = Some true \/ waiting t -> turn_ok m t w (handler_turn t nl w).
Proof.
  intros Hc Hok Hnl. destruct (state t) eqn:Hs.
  - by apply recv_head_turn.
  - by apply parse_turn.
  - by apply recv_data_turn.
  - apply dispatch_turn; auto.
  - by apply destroy_turn.
  - destruct Hnl as [-> |Hw]; [by apply sync_turn|]. unfold waiting in Hw. rewrite Hs in Hw. by destruct Hw as [|[|]].
  - destruct (power_turn m t nl w Hc Hs) as (w' & ->). by apply turn_exit.
  - unfold task_ok in Hok. by rewrite Hs in Hok.
  - unfold task_ok in Hok. by rewrite Hs in Hok.
  - unfold task_ok in Hok. by rewrite Hs in Hok.
  - unfold task_ok in Hok. by rewrite Hs in Hok.
  - unfold task_ok in Hok. by rewrite Hs in Hok.
  - unfold task_ok in Hok. by rewrite Hs in Hok.
  - unfold task_ok in Hok. by rewrite Hs in Hok.
  - unfold task_ok in Hok. by rewrite Hs in Hok.
  - apply dispatch_turn; auto.
Qed.


(** ** Events *)

(** The tasks the handler comes to within one event, turn by turn. *)
Inductive comes_to : query_task_s -> world DB -> query_task_s -> world DB -> Prop :=
  | comes_here t w : comes_to t w t w
  | comes_next t w t1 w1 t' w' :
      handler_turn t (Some true) w = Ret (Some true, Some t1) w1 -> comes_to t1 w1 t' w' -> comes_to t w t' w'.
Definition says (P : query_task_s -> Prop) (t : query_task_s) (w : world DB) : Prop :=
  exists t' w', comes_to t w t' w' /\ P t'.

(** How the handler ends an event for a task [t] in world [w]. *)
Definition event_ok (m : gmap (list Z) (list Z)) (t : query_task_s) (w : world DB) (o : outcome DB (option query_task_s)) : Prop :=
  match o with
  | Ret o w' => ending m w o w' /\ ~ says halts t w /\ ~ says overlong t w
  | Exit _ => says halts t w
  | Spins => state t = s_recv_req_data /\ Forall (fun r => r = Err true) (reads w)
  | Overflow => says overlong t w
  | Abort | Blocked | Undefined | OutOfFuel => False
  end.

(** The same from the middle of an event. *)
Definition loop_ok (m : gmap (list Z) (list Z)) (t : query_task_s) (w : world DB) (o : outcome DB (option query_task_s)) : Prop :=
  match o with
  | Ret _ _ => state t <> s_do_power /\ event_ok m t w o
  | Exit _ => state t = s_do_power \/ event_ok m t w o
  | _ => event_ok m t w o
  end.

Lemma says_next P t w t1 w1 : handler_turn t (Some true) w = Ret (Some true, Some t1) w1 ->
  says P t w <-> P t \/ says P t1 w1.
Proof.
  intros E. split.
  - intros (t' & w' & Hc & HP). destruct Hc as [|t w t2 w2 t' w' E' Hc]; [by left|right]. rewrite E in E'. injection E' as <- <-. by exists t', w'.
  - intros [HP|(t' & w' & Hc & HP)]; [exists t, w|exists t', w']; (split; [|done]); [apply comes_here|by eapply comes_next].
Qed.
Lemma says_last P t w : (forall t1 w1, handler_turn t (Some true) w <> Ret (Some true, Some t1) w1) -> says P t w <-> P t.
Proof.
  intros E. split.
  - intros (t' & w' & Hc & HP). destruct Hc as [|t w t2 w2 t' w' E' Hc]; [done|by destruct (E t2 w2)].
  - intros HP. exists t, w. split; [apply comes_here|done].
Qed.

(** The waiting states do not look at [need_loop]. *)
Lemma turn_flag t nl (w : world DB) : nl = Some true \/ waiting t -> handler_turn t nl w = handler_turn t (Some true) w.
Proof. intros [-> |[Hs|[Hs|Hs]]]; [done|..]; unfold handler_turn; by rewrite Hs. Qed.

Lemma loop_run m fuel t nl w :
  calm m w -> task_ok t -> nl = Some true \/ waiting t -> turns t <= Z.of_nat fuel ->
  loop_ok m t w (handler_loop fuel t nl w).
Proof.
  revert t nl w; induction fuel as [|fuel IH]; intros t nl w Hc Hok Hnl Hf.
  - exfalso. revert Hok Hf. unfold task_ok, turns. destruct (state t); try lia; intros [_ ?]; lia.
  - cbn [handler_loop]. unfold bind. pose proof (turn_run m t nl w Hc Hok Hnl) as Hr. rewrite turn_flag in * by done.
    assert (Hp : state t = s_do_power -> exists w', handler_turn t (Some true) w = Exit w') by by apply (power_turn m).
    destruct (handler_turn t (Some true) w) as [r w0| |w0| | | | |] eqn:Et; inversion Hr as [t' w' Hok' Hlt Hnd Hno Hpw Hc' Hst|o w' Hno Hnh Hns He|w' Hs|Hs Hre|Hov]; subst.
    + pose proof (IH t' (Some true) w0 Hc' Hok' (or_introl eq_refl) ltac:(lia)) as Hev.
      pose proof (fun P => says_next P t w t' w0 Et) as Hsay.
      destruct (handler_loop fuel t' (Some true) w0) as [o w''| | | | | | |]; try exact Hev; cbn in *; try (by rewrite Hsay; right).
      * destruct Hev as (Hns & He & Hnh & Hno'). split; [by intros (? & [=])%Hp|]. rewrite !Hsay. split; [by eapply ending_same|].
        split; intros [?|?]; [by apply Hns, Hpw|done..].
      * right. rewrite Hsay. destruct Hev as [Hs|Hs]; [left; by apply Hpw|by right].
      * by destruct Hev.
    + cbn. split; [done|]. split; [done|]. by rewrite !says_last by (intros ? ?; rewrite Et; by intros [=]).
    + cbn. by left.
    + by split.
    + cbn. by rewrite says_last by (intros ? ?; rewrite Et; by intros [=]).
Qed.

Lemma turns_bound t : task_ok t -> turns t <= Z.of_nat HANDLER_FUEL.
Proof.
  change (Z.of_nat HANDLER_FUEL) with 1030. unfold task_ok, turns.
  destruct (state t); try lia; intros (_ & Hh & _); lia.
Qed.

Lemma event_run m t w :
  calm m w -> task_ok t -> waiting t -> event_ok m t w (query_io_event_handler t EV_READ w).
Proof.
  intros Hc Hok Hw. pose proof (loop_run m HANDLER_FUEL t None w Hc Hok (or_intror Hw) (turns_bound t Hok)) as Hl.
  cbn [query_io_event_handler]. destruct (handler_loop HANDLER_FUEL t None w); try exact Hl; cbn in Hl; [exact (proj2 Hl)|].
  destruct Hl as [Hs|]; [|done]. destruct Hw as [E|[E|E]]; congruence.
Qed.

(** The command [power halt]. *)
Definition power_line : list Z := CString.str "power halt" ++ crlf.

Lemma power_parsed (w : world DB) fd :
  exists t, parse_query_request_head (heard fd power_line) w = Ret (true, t) w /\ state t = s_do_power.
Proof.
  destruct (parse_head_run w fd (CString.str "power halt") []) as (rest & Hrest & E);
    [repeat constructor; done|cbn; lia|cbn; lia|].
  rewrite app_nil_r in E. unfold power_line. rewrite E. erewrite assign_bind.
  2: { unfold checked. rewrite (parse_power_head (cut_request (CString.str "power halt" ++ crlf) rest) rest); [reflexivity|reflexivity|].
       cbn [cut_request query_head_buf]. rewrite Hrest. reflexivity. }
  eexists. split; reflexivity.
Qed.

(** A line whose first word is no command, with a second word behind it. *)
Definition unknown_line (name tail : list Z) : list Z := name ++ CString.SP :: tail.

(** The task that tells a client so. *)
Record rejected (t : query_task_s) (fd : Z) : Prop := {
  re_fd : sock_fd t = fd;
  re_state : state t = s_return_failed;
  re_status : parse_status (query_request t) = ps_failed;
  re_response : query_response t = zero_response
}.

(** The parser failed: the head is logged and the task goes to a query thread. *)
Lemma reject_run (w : world DB) t len tmp request h tl :
  head_memory request = h ++ 0 :: tl -> Forall (fun c => c <> 0) h -> 2 <= Z.of_nat (length h) ->
  allocs w = [] -> error_log t = None -> query_response t = zero_response ->
  exists t', act_on_head t len tmp (set_cmd request cmd_unknown ps_failed) RET_PARSE_REQ_FAILED w = Ret (true, t') w /\
    rejected t' (sock_fd t).
Proof.
  intros Em Hh Hl Ha Hn Hr. destruct (truncate_run (set_cmd request cmd_unknown ps_failed) h tl Em Hh Hl) as (qr' & Et).
  assert (Hst : parse_status qr' = ps_failed).
  { unfold truncate_head in Et. destruct (CString.strlen _ _) as [n|]; [|done]. cbn [mbind option_bind] in Et.
    destruct (CString.wr _ _ _) as [mem|]; [|done]. cbn [mbind option_bind] in Et. apply (inj Some) in Et. by subst qr'. }
  unfold act_on_head. change (RET_PARSE_REQ_FAILED =? RET_SUCCESS) with false. cbn [andb]. rewrite Et.
  erewrite assign_bind by reflexivity. unfold log. cbn [set_request error_log]. rewrite Hn.
  unfold bind at 1. unfold bind at 1, next_alloc. rewrite Ha. unfold Log. cbn [set_request error_log]. rewrite Hn.
  eexists. split; [reflexivity|]. by split.
Qed.

Lemma unknown_event (w : world DB) fd name tail rest rs :
  CString.is_token name -> command_state name = s_fatal -> plain (unknown_line name tail) ->
  (length (unknown_line name tail) + 2 < 512)%nat -> (length (unknown_line name tail) + 2 + length rest <= 512)%nat ->
  exists t, query_io_event_handler (conn fd) EV_READ (with_reads w (Bytes ((unknown_line name tail ++ crlf) ++ rest) :: rs)) =
      Ret None (after_send w t rs) /\ rejected t fd.
Proof.
  intros Hname Hcmd Hp Hl1 Hl2. set (line := unknown_line name tail) in *.
  destruct (parse_head_run (with_reads w rs) fd line rest Hp Hl1 Hl2) as (buf & Hbuf & E).
  set (head := line ++ crlf) in *.
  assert (Eparse : parse_memcached_string_head (cut_request head buf) =
    Some (set_cmd (cut_request head buf) cmd_unknown ps_failed, RET_PARSE_REQ_FAILED)).
  { apply (parse_unknown_head _ name (tail ++ crlf) buf); try done; cbn [cut_request query_head_buf].
    - unfold head, line, unknown_line. by rewrite <- !app_assoc.
    - rewrite Hbuf. reflexivity. }
  destruct (reject_run (with_reads w rs) (heard fd (head ++ rest)) (Z.of_nat (length rest)) rest (cut_request head buf)
    head (buf ++ le_split 8 (Z.of_nat (length head)))) as (t & Ea & Ht); try done.
  - unfold head_memory. cbn [cut_request query_head_buf query_head_buf_size]. by rewrite <- app_assoc.
  - apply Forall_app. split; [|by repeat constructor]. eapply Forall_impl; [exact Hp|]. by intros c [? _].
  - unfold head. rewrite length_app. change (length crlf) with 2%nat. lia.
  - exists t. split; [|exact Ht]. rewrite first_event.
    + unfold bind at 1. rewrite E, Eparse. unfold bind at 1, checked, ret at 1. cbn [fst snd]. rewrite Ea.
      apply (handler_dispatch 1027). right. apply Ht.
    + unfold head, line, unknown_line. by destruct name.
    + unfold head. rewrite !length_app. change (length crlf) with 2%nat. lia.
Qed.

Lemma power_halt_run m w fd n c :
  StorageRefine.represents (storage w) m -> Storage.block_type_count (storage w) = n -> StorageRefine.room (storage w) c ->
  0 <= fd ->
  exists w' b, serve_connection fd 1 (with_reads w [Bytes power_line]) = Exit w' /\ Storage.indexdb (storage w) = Some b /\
    StorageRefine.durable n c (storage w') (contents (Bdb.dbp b)) m.
Proof.
  intros Hr Hn Hroom Hfd. destruct (power_parsed (with_reads w []) fd) as (t & E & Hs).
  destruct (power_exit m t (Some true) (with_reads w []) n c Hr Hn Hroom Hs) as (w' & b & Ex & Hb & Hd).
  exists w', b. split; [|by split]. rewrite serve_connection_run by done. cbn [run_events]. unfold bind at 1.
  rewrite first_event by (done || (cbn; lia)). unfold bind at 1. rewrite E.
  change 1028%nat with (S 1027). cbn [handler_loop]. unfold bind at 1. rewrite Ex. reflexivity.
Qed.

Lemma conn_ok fd : task_ok (conn fd) /\ waiting (conn fd).
Proof.
  split; [|by left]. unfold task_ok, conn. cbn [set_watchers set_read state zero_task error_log have_read need_read query_request].
  rewrite request_of_nil. split; [done|]. split; [lia|]. split; [lia|]. by split.
Qed.

(** C15: one event of the handler on any bytes, ends of file and errors of the
    socket, when every allocation is granted, the pipes take every pointer and
    the storage represents a map. The handler returns within its fuel, never
    aborts, never waits for a lock, and leaves the map as it is. It returns
    only when the bytes say neither [power halt] nor a set with too many bytes
    behind its head, and spins only while a body is due and every read is
    interrupted or finds nothing. When it returns, the task waits for more in a
    well-formed state, or it was given to exactly one query thread, whose number
    is in range, or it was destroyed, once. The process exits only when a head
    was accepted as [power halt]. A block is written past its end only when a
    head was accepted as a set and more bytes came with it than the size it
    announces and a line end; or any byte at all, for the seven sizes -9 to -3
    that the allocator's 64-bit sum wraps around (-10 is never granted). *)
Theorem handler_total m t w :
  calm m w -> task_ok t -> waiting t -> event_ok m t w (query_io_event_handler t EV_READ w).
Proof. apply event_run. Qed.

(** C16: the whole life of a connection, from [accept] through any number of
    events, when every allocation is granted, the pipes take every pointer and
    the storage represents a map: unless the process leaves through [power halt],
    the busy loop or the overlong body, the task is still waiting and nothing happened to the tasks
    of others, or it was sent to one query thread, or destroyed, exactly once. *)
Theorem connection_life m fd n w :
  calm m w -> 0 <= fd ->
  match serve_connection fd n w with
  | Ret o w' => ending m w o w'
  | Exit _ | Spins | Overflow => True
  | Abort | Blocked | Undefined | OutOfFuel => False
  end.
Proof.
  intros Hc Hfd. unfold serve_connection. erewrite assign_bind by (apply accept_run; [done|apply Hc]).
  destruct (conn_ok fd) as [Hok Hw]. generalize dependent (conn fd). revert w Hc.
  induction n as [|n IH]; intros w Hc t Hok Hw; cbn [run_events].
  - by apply end_waits.
  - pose proof (event_run m t w Hc Hok Hw) as He. unfold bind at 1.
    destruct (query_io_event_handler t EV_READ w) as [o w'| | | | | | |]; try done.
    destruct He as [He _]. destruct He as [t' w' Hok' Hw' Hc' Hst|t' w' Hn Hc' E1 E2 E3|t' w' Hc' E1 E2 E3].
    + pose proof (IH w' Hc' t' Hok' Hw') as Hi.
      destruct (run_events n t' w') as [o w''| | | | | | |]; try done. by eapply ending_same.
    + by eapply end_sent.
    + by eapply end_destroyed.
Qed.


End Safety.
(** ** A concrete server *)

Import MapDB.

Lemma ex_calm : exists w : world (gmap (list Z) (list Z)), calm ∅ w.
Proof.
  destruct StorageProps.ex_empty as (s & Hr & _ & _). exists (World 0 4 s [] [] [] [] []).
  split; cbn; try done; lia.
Qed.

Lemma handler_total_witness : exists w : world (gmap (list Z) (list Z)),
  event_ok ∅ (conn 9) (with_reads w [Bytes (replicate 300 255); Eof])
    (query_io_event_handler (conn 9) EV_READ (with_reads w [Bytes (replicate 300 255); Eof])).
Proof.
  destruct ex_calm as [w Hc]. exists w.
  apply (handler_total ∅ (conn 9)); [apply calm_reads; exact Hc|apply conn_ok|apply conn_ok].
Defined.

Lemma connection_life_witness : exists w : world (gmap (list Z) (list Z)),
  match serve_connection 9 2 (with_reads w [Bytes (replicate 300 255); Eof; Eof]) with
  | Ret o w' => ending ∅ (with_reads w [Bytes (replicate 300 255); Eof; Eof]) o w'
  | Exit _ | Spins | Overflow => True
  | Abort | Blocked | Undefined | OutOfFuel => False
  end.
Proof.
  destruct ex_calm as [w Hc]. exists w.
  apply (connection_life ∅ 9 2); [apply calm_reads; exact Hc|lia].
Defined.


End AssignSafety.
