(* ===== verification/Query.v ===== *)
(** The query threads of [src/src/query_thread.c]: a thread reads task pointers
    from its pipe, calls the storage, builds the response and writes it to the
    client's socket.

    The environment answers through queues: [blocking] for [set_block] (nothing
    left: success), [allocs] for every allocation (nothing left: success),
    [io] for every write to the socket ([None] or nothing left: complete). *)

From Stdlib Require Import ZArith Lia String.
From stdpp Require Import base numbers list gmap.
From S2P Require Import Prelude CString IndexTypes Bdb Storage Protocol Task.

Module Query.
Import Protocol Task.

(** ** The strings of the protocol *)

Definition MC_TERM_STR : list Z := crlf.
Definition MC_ERR_STR : list Z := CString.str "ERROR" ++ crlf.
Definition MC_SET_DONE_STR : list Z := CString.str "STORED" ++ crlf.
Definition MC_GET_DONE_STR : list Z := CString.str "END" ++ crlf.
Definition MC_DEL_DONE_STR : list Z := CString.str "DELETED" ++ crlf.
(** [MC_GET_HEADER_PATTERN], filled in. *)
Definition get_header (key : list Z) (flags size : Z) : list Z :=
  CString.str "VALUE " ++ key ++ CString.SP :: CString.print_dec flags ++ CString.SP :: CString.print_dec size ++ crlf.

Section Code.
Context {DB : Type} `{BerkeleyDB DB}.

(** The storage, what the client of the current task was sent, the tasks
    destroyed. *)
Record world := World {
  storage : Storage.state DB;
  output : list Z;
  destroyed : list query_task_s;
  blocking : list Z;
  allocs : list bool;
  io : list (option Z)
}.

Inductive outcome (A : Type) := Ret (a : A) (w : world) | Abort | Blocked | Undefined.
Arguments Ret {A}. Arguments Abort {A}. Arguments Blocked {A}. Arguments Undefined {A}.
Definition M (A : Type) : Type := world -> outcome A.
Definition ret {A} (a : A) : M A := fun w => Ret a w.
Definition bind {A B} (m : M A) (k : A -> M B) : M B := fun w =>
  match m w with Ret a w => k a w | Abort => Abort | Blocked => Blocked | Undefined => Undefined end.
Definition abort {A} : M A := fun _ => Abort.
Definition undefined {A} : M A := fun _ => Undefined.
Definition assert (b : bool) : M unit := if b then ret tt else abort.

#[local] Notation "'let*' x := m 'in' k" := (bind m (fun x => k))
  (at level 10, x name, m at level 100, k at level 200).
#[local] Notation "m ;; k" := (bind m (fun _ => k)) (at level 100, k at level 200, right associativity).

Definition set_block : M Z := fun w =>
  match blocking w with
  | [] => Ret 0 w
  | r :: rs => Ret r (World (storage w) (output w) (destroyed w) rs (allocs w) (io w))
  end.
Definition next_alloc : M bool := fun w =>
  match allocs w with
  | [] => Ret true w
  | a :: r => Ret a (World (storage w) (output w) (destroyed w) (blocking w) r (io w))
  end.
(** [net_write] and [net_writev]: the count returned. (What they add to the
    counters is in [IoLayer].) *)
Definition net_write (l : list Z) : M Z := fun w =>
  match io w with
  | None :: r => Ret (Z.of_nat (length l)) (World (storage w) (output w ++ l) (destroyed w) (blocking w) (allocs w) r)
  | Some n :: r => Ret n (World (storage w) (output w ++ take (Z.to_nat n) l) (destroyed w) (blocking w) (allocs w) r)
  | [] => Ret (Z.of_nat (length l)) (World (storage w) (output w ++ l) (destroyed w) (blocking w) (allocs w) [])
  end.
Definition bury (t : query_task_s) : M unit := fun w =>
  Ret tt (World (storage w) (output w) (destroyed w ++ [t]) (blocking w) (allocs w) (io w)).
Definition on_storage {A} (m : Storage.M DB A) : M A := fun w =>
  match m (storage w) with
  | Storage.Ret a s => Ret a (World s (output w) (destroyed w) (blocking w) (allocs w) (io w))
  | Storage.Abort => Abort
  | Storage.Blocked => Blocked
  | Storage.Undefined => Undefined
  end.
Definition log (t : query_task_s) (fmt : string) : M query_task_s :=
  match error_log t with
  | Some _ => abort
  | None => let* a := next_alloc in match Log a t fmt with Logged t => ret t | LogAbort => abort | LogNull => undefined end
  end.

(** ** Responses *)

Definition is_null {A} (o : option A) : bool := match o with None => true | Some _ => false end.

(** [n] bytes from a block; [behind] is the memory after its end. *)
Definition read_block (behind : Z -> Z) (block : list Z) (n : Z) : list Z :=
  (fun i => default (behind i) (block !! Z.to_nat i)) <$> seqZ 0 n.

Definition send_response (behind : Z -> Z) (t : query_task_s) : M (query_task_s * Z) :=
  let r := query_response t in
  let* b := set_block in
  assert (b =? 0) ;;
  let* n := net_write (take (Z.to_nat (resp_head_buf_size r)) (resp_head_buf r)) in
  if negb (n =? resp_head_buf_size r) then
    let* t := log t "send header failed(fd = %d): %d - %s" in ret (t, IndexTypes.RET_FAILED)
  else
    match resp_data_buf r with
    | None => ret (t, IndexTypes.RET_SUCCESS)
    | Some block =>
        let data := read_block behind block (resp_data_size r) in
        match resp_tailor_buf r with
        | None =>
            assert (resp_tailor_size r =? 0) ;;
            let* n := net_write data in
            if negb (n =? i64 (resp_data_size r)) then
              let* t := log t "send data failed" in ret (t, IndexTypes.RET_FAILED)
            else ret (t, IndexTypes.RET_SUCCESS)
        | Some tailor =>
            assert (negb (resp_tailor_size r =? 0)) ;;
            let* n := net_write (data ++ take (Z.to_nat (resp_tailor_size r)) tailor) in
            if negb (n =? i64 (i64 (resp_data_size r) + i64 (resp_tailor_size r))) then
              let* t := log t "send data failed" in ret (t, IndexTypes.RET_FAILED)
            else ret (t, IndexTypes.RET_SUCCESS)
        end
    end.

(** A response that is one line. *)
Definition line_response (t : query_task_s) (line : list Z) : M query_task_s :=
  let r := query_response t in
  assert (resp_data_size r =? 0) ;;
  assert (is_null (resp_data_buf r)) ;;
  ret (set_response t (QueryResponse line (Z.of_nat (length line)) None 0 (resp_tailor_buf r) (resp_tailor_size r))).

(** [snprintf] cuts the header to the 511 characters that fit. *)
Definition build_response (t : query_task_s) : M query_task_s :=
  let r := query_response t in
  match state t with
  | s_set_success => line_response t MC_SET_DONE_STR
  | s_set_failed => let* t := log t "set cmd failed" in line_response t MC_ERR_STR
  | s_get_success =>
      let head := take 511 (get_header (key_str (query_request t)) 0 (resp_data_size r)) in
      ret (set_response t (QueryResponse head (Z.of_nat (length head)) (resp_data_buf r) (resp_data_size r)
             (Some MC_TERM_STR) (Z.of_nat (length MC_TERM_STR))))
  | s_get_failed => let* t := log t "get cmd failed" in line_response t MC_GET_DONE_STR
  | s_delete_success => line_response t MC_DEL_DONE_STR
  | s_delete_failed => let* t := log t "delete cmd failed" in line_response t MC_ERR_STR
  | s_return_failed => line_response t MC_ERR_STR
  | _ => ret t
  end.

Definition handle_request (behind : Z -> Z) (t : query_task_s) : M (query_task_s * Z) :=
  let q := query_request t in
  if negb (bool_decide (parse_status q = ps_succ)) then
    assert (bool_decide (state t = s_return_failed)) ;;
    let* t := build_response (set_state t s_return_failed) in ret (t, IndexTypes.RET_SUCCESS)
  else
    match cmd_type q with
    | cmd_set =>
        let* r := on_storage (Storage.update_block (key_str q) (read_block behind (default [] (data q)) (data_size q))) in
        let* t' := build_response (set_state t (if r =? 0 then s_set_success else s_set_failed)) in
        ret (t', if r =? 0 then IndexTypes.RET_SUCCESS else IndexTypes.RET_FAILED)
    | cmd_get =>
        assert (is_null (resp_data_buf (query_response t))) ;;
        let* f := on_storage (Storage.find_block (key_str q)) in
        let '(r, value, value_len) := f in
        let p := query_response t in
        let p := QueryResponse (resp_head_buf p) (resp_head_buf_size p)
                   value value_len (resp_tailor_buf p) (resp_tailor_size p) in
        let* t' := build_response (set_state (set_response t p) (if r =? 0 then s_get_success else s_get_failed)) in
        ret (t', if r =? 0 then IndexTypes.RET_SUCCESS else IndexTypes.RET_FAILED)
    | cmd_delete =>
        let* r := on_storage (Storage.delete_block (key_str q)) in
        let* t' := build_response (set_state t (if r =? 0 then s_delete_success else s_delete_failed)) in
        ret (t', if r =? 0 then IndexTypes.RET_SUCCESS else IndexTypes.RET_FAILED)
    | _ => ret (t, IndexTypes.RET_FAILED)
    end.

(** [task]: the pointer read from the pipe, [None] when the read failed. *)
Definition pipe_event_handler (behind : Z -> Z) (thread_id : Z) (ev_read : bool) (task : option query_task_s) : M unit :=
  if negb ev_read then ret tt
  else
    match task with
    | None => ret tt
    | Some t =>
        let* r := handle_request behind (set_thread_id t thread_id) in
        let* s := send_response behind r.1 in
        bury (set_watchers s.1 false false)
    end.

(** The thread's own record: its number and its pipe. *)
Record worker_task_s := WorkerTask { wt_thread_id : Z; wt_pipe_fd : Z }.
Definition new_worker_thread (thread_id pipe_fd : Z) : M worker_task_s :=
  let* a := next_alloc in
  if negb a then abort else ret (WorkerTask thread_id pipe_fd).

End Code.
Arguments world : clear implicits.
Arguments outcome : clear implicits.
Arguments M : clear implicits.
Arguments Ret {DB A}.
Arguments Abort {DB A}.
Arguments Blocked {DB A}.
Arguments Undefined {DB A}.
End Query.
