(* ===== verification/QueryProps.v ===== *)
(** What a query thread answers: the storage is a map, every command answers as
    the map says, and whole exchanges over the wire, from the packets a client
    sends to the bytes it gets back; and the ways a query thread fails. *)

From Stdlib Require Import ZArith Lia String.
From stdpp Require Import base numbers list gmap.
From S2P Require Import Prelude CString IndexTypes Bdb Storage StorageRefine StorageProps Protocol Task Assign AssignProps AssignSafety Query.

Module QueryProps.
Import Protocol Task Query.
Import CString (str).

(** ** Requests and answers *)

Inductive request :=
  | Set_ (k : list Z) (f e : Z) (body : list Z)
  | Get (k : list Z)
  | Delete (k : list Z)
  | Malformed.

(** A task that carries a request, as the assign thread sends it. *)
Definition carries (t : query_task_s) (r : request) : Prop :=
  match r with
  | Set_ k f e body => exists fd, AssignProps.complete t fd k f e body
  | Get k => exists fd, AssignProps.asked t fd cmd_get k
  | Delete k => exists fd, AssignProps.asked t fd cmd_delete k
  | Malformed => parse_status (query_request t) <> ps_succ /\ state t = s_return_failed /\ query_response t = zero_response
  end.

(** The specification: the bytes of the answer, and the map afterwards. *)
Definition answer (r : request) (m : gmap (list Z) (list Z)) : list Z * gmap (list Z) (list Z) :=
  match r with
  | Set_ k _ _ body => (MC_SET_DONE_STR, <[Storage.fixed_key k := body]> m)
  | Get k => (match m !! Storage.fixed_key k with
              | Some d => get_header k 0 (Z.of_nat (length d)) ++ d ++ MC_TERM_STR
              | None => MC_GET_DONE_STR
              end, m)
  | Delete k => (match m !! Storage.fixed_key k with
                 | Some _ => MC_DEL_DONE_STR
                 | None => MC_ERR_STR
                 end, delete (Storage.fixed_key k) m)
  | Malformed => (MC_ERR_STR, m)
  end.

(** Keys the protocol carries and bodies the largest of [n] blocks holds. *)
Definition request_ok (n : Z) (r : request) : Prop :=
  match r with
  | Set_ k f e body => AssignProps.key_word k /\ bytes_ok k /\ bytes_ok body /\
      - 2 ^ 31 <= f < 2 ^ 31 /\ - 2 ^ 31 <= e < 2 ^ 31 /\ Z.of_nat (length body) <= StorageRefine.type_size (n - 1)
  | Get k | Delete k => AssignProps.key_word k /\ bytes_ok k
  | Malformed => True
  end.

Section Props.
Context {DB : Type} `{BerkeleyDBLaws DB}.

Lemma reply_bind {A B} (m : M DB A) (k : A -> M DB B) w a w' : m w = Ret a w' -> bind m k w = k a w'.
Proof. intros E. unfold bind. now rewrite E. Qed.

(** ** The storage between requests *)

(** It means [m], has [n] block sizes and room for [c] more blocks. *)
Definition ready (n c : Z) (st : Storage.state DB) (m : gmap (list Z) (list Z)) : Prop :=
  StorageRefine.represents st m /\ Storage.block_type_count st = n /\ StorageRefine.room st c.

Lemma sizes_for_type n : 1 <= n <= Storage.MAX_BLOCK_CNT -> StorageRefine.sizes_for n (StorageRefine.type_size (n - 1)).
Proof.
  intros Hn. split; [done|]. split; [lia|]. unfold StorageRefine.type_size, Storage.BEGINNING_SIZE.
  apply Z.mul_lt_mono_pos_l; [lia|]. apply Z.pow_lt_mono_r; lia.
Qed.

Lemma ready_count n c st m : ready n c st m -> 1 <= n <= Storage.MAX_BLOCK_CNT.
Proof.
  intros ((sizes & hs & n' & dk & b & il & j & idx & -> & Hinv) & <- & _).
  exact (StorageRefine.si_count _ _ _ _ _ _ _ _ Hinv).
Qed.

Lemma ready_op n c st m o :
  ready n c st m -> StorageRefine.op_ok n o -> 1 <= c ->
  exists st', StorageRefine.run_op (StorageRefine.type_size (n - 1)) o st = Storage.Ret (StorageRefine.spec_op o m).1 st' /\
    ready n (c - 1) st' (StorageRefine.spec_op o m).2.
Proof.
  intros Hr Hok Hc. pose proof (ready_count _ _ _ _ Hr) as Hn. destruct Hr as (Hrep & Hcnt & Hroom).
  destruct (StorageRefine.op_run n _ o st m c Hrep Hcnt (sizes_for_type n Hn) Hok Hc Hroom) as (st' & E & H1 & H2 & H3).
  exists st'. by split.
Qed.

(** Undoing the last step of a storage call. *)
Lemma storage_bind_inv {A B} (m : Storage.M DB A) (f : A -> B) s b s' :
  Storage.bind m (fun a => Storage.ret (f a)) s = Storage.Ret b s' -> exists a, m s = Storage.Ret a s' /\ b = f a.
Proof. unfold Storage.bind, Storage.ret. destruct (m s) as [a s1| | |]; try done. intros [= <- <-]. by exists a. Qed.

Lemma update_ready n c st m key data :
  ready n c st m -> bytes_ok key -> bytes_ok data -> Z.of_nat (length data) <= StorageRefine.type_size (n - 1) -> 1 <= c ->
  exists st', Storage.update_block key data st = Storage.Ret 0 st' /\ ready n (c - 1) st' (<[Storage.fixed_key key := data]> m).
Proof.
  intros Hr Hk Hd Hl Hc. destruct (ready_op n c st m (StorageRefine.Update key data) Hr ltac:(by split) Hc) as (st' & E & Hr').
  apply storage_bind_inv in E as (a & E & [= <-]). by exists st'.
Qed.

Lemma find_ready n c st m key :
  ready n c st m -> bytes_ok key -> 1 <= c ->
  exists st', Storage.find_block key st =
      Storage.Ret (match m !! Storage.fixed_key key with
                   | Some d => (0, Some d, Z.of_nat (length d))
                   | None => (DB_NOTFOUND, None, 0)
                   end) st' /\ ready n (c - 1) st' m.
Proof.
  intros Hr Hk Hc. destruct (ready_op n c st m (StorageRefine.Find key) Hr Hk Hc) as (st' & E & Hr').
  apply storage_bind_inv in E as ([[r v] l] & E & Ea). exists st'. split; [|exact Hr']. rewrite E. cbn in Ea.
  destruct (m !! Storage.fixed_key key); by injection Ea as -> -> ->.
Qed.

Lemma delete_ready n c st m key :
  ready n c st m -> bytes_ok key -> 1 <= c ->
  exists st', Storage.delete_block key st =
      Storage.Ret (if decide (is_Some (m !! Storage.fixed_key key)) then 0 else DB_NOTFOUND) st' /\
    ready n (c - 1) st' (delete (Storage.fixed_key key) m).
Proof.
  intros Hr Hk Hc. destruct (ready_op n c st m (StorageRefine.Delete key) Hr Hk Hc) as (st' & E & Hr').
  apply storage_bind_inv in E as (a & E & [= <-]). by exists st'.
Qed.

(** ** Responses in a world where nothing fails *)

Definition calm (st : Storage.state DB) (out : list Z) (de : list query_task_s) : world DB := World st out de [] [] [].

(** [t'] answers with one line. *)
Definition one_line (t' : query_task_s) (line : list Z) : Prop :=
  resp_head_buf (query_response t') = line /\ resp_head_buf_size (query_response t') = Z.of_nat (length line) /\
  resp_data_buf (query_response t') = None.

Lemma net_write_run l st out de : net_write l (calm st out de) = Ret (Z.of_nat (length l)) (calm st (out ++ l) de).
Proof. reflexivity. Qed.

Lemma send_line behind t line st out de :
  one_line t line -> send_response behind t (calm st out de) = Ret (t, IndexTypes.RET_SUCCESS) (calm st (out ++ line) de).
Proof.
  intros (Hb & Hs & Hd). unfold send_response. erewrite reply_bind by reflexivity. erewrite reply_bind by reflexivity.
  rewrite Hb, Hs, Nat2Z.id, take_ge by lia. erewrite reply_bind by apply net_write_run.
  rewrite Z.eqb_refl. cbn [negb]. now rewrite Hd.
Qed.

Lemma line_run t line (w : world DB) :
  query_response t = zero_response -> exists t', line_response t line w = Ret t' w /\ one_line t' line.
Proof. intros Hr. unfold line_response. rewrite Hr. eexists. split; [reflexivity|]. by split. Qed.

Lemma logged_line_run t fmt line st out de :
  query_response t = zero_response -> error_log t = None ->
  exists t', bind (log t fmt) (fun t => line_response t line) (calm st out de) = Ret t' (calm st out de) /\ one_line t' line.
Proof.
  intros Hr Hn. destruct (line_run (set_error_log t (Some fmt)) line (calm st out de) Hr) as (t' & E & Hl).
  assert (El : log t fmt (calm st out de) = Ret (set_error_log t (Some fmt)) (calm st out de))
    by (unfold log, Log; rewrite Hn; reflexivity).
  exists t'. split; [|done]. erewrite reply_bind by exact El. exact E.
Qed.

(** A request that is answered with one line. *)
Lemma pipe_line behind id t line t' r st st' out de :
  handle_request behind (set_thread_id t id) (calm st out de) = Ret (t', r) (calm st' out de) -> one_line t' line ->
  pipe_event_handler behind id true (Some t) (calm st out de) =
  Ret tt (calm st' (out ++ line) (de ++ [set_watchers t' false false])).
Proof.
  intros E Hl. unfold pipe_event_handler. cbn [negb]. erewrite reply_bind by exact E. cbn [fst snd].
  erewrite reply_bind by (apply send_line; exact Hl). reflexivity.
Qed.

(** Bytes of a block. *)
Lemma read_block_app behind (d rest : list Z) : read_block behind (d ++ rest) (Z.of_nat (length d)) = d.
Proof.
  apply list_eq. intros i. unfold read_block. rewrite list_lookup_fmap.
  destruct (decide (i < length d)%nat) as [Hi|Hi].
  - rewrite lookup_seqZ_lt by lia. cbn [option_map fmap option_fmap].
    replace (Z.to_nat (0 + Z.of_nat i)) with i by lia. rewrite lookup_app_l by done.
    destruct (lookup_lt_is_Some_2 d i Hi) as [x ->]. reflexivity.
  - rewrite lookup_seqZ_ge by lia. symmetry. apply lookup_ge_None_2. lia.
Qed.

Lemma read_block_all behind (d : list Z) : read_block behind d (Z.of_nat (length d)) = d.
Proof. rewrite <- (app_nil_r d) at 1. apply read_block_app. Qed.

Lemma key_word_str k qr : AssignProps.key_word k -> key qr = key_field k -> key_str qr = k.
Proof.
  intros Hk E. pose proof (AssignProps.key_word_token k Hk) as Ht. destruct Hk as (_ & Hl & _).
  unfold key_str. rewrite E, key_field_str by now apply CString.token_nonzero. cbn. apply take_ge. lia.
Qed.

Lemma on_storage_run {A} (m : Storage.M DB A) a st st' out de :
  m st = Storage.Ret a st' -> on_storage m (calm st out de) = Ret a (calm st' out de).
Proof. intros E. unfold on_storage, calm. cbn [storage]. now rewrite E. Qed.


Lemma stored_bound n c st m k d : ready n c st m -> m !! k = Some d -> Z.of_nat (length d) <= 2 ^ 26.
Proof.
  intros ((sizes & hs & n' & dk & b & il & j & idx & -> & Hinv) & _ & _) Hk.
  destruct (StorageRefine.si_dom _ _ _ _ _ _ _ _ Hinv k ltac:(by exists d)) as [iv Hiv].
  destruct (StorageRefine.si_entries _ _ _ _ _ _ _ _ Hinv k iv Hiv) as (_ & Hid & d' & fh & f & Hd & _ & _ & He).
  rewrite Hk in Hd. injection Hd as <-. rewrite <- (StorageRefine.ei_size _ _ _ _ _ He).
  etransitivity; [apply (StorageRefine.ei_fits _ _ _ _ _ He)|]. apply StorageRefine.type_size_bound.
  pose proof (StorageRefine.si_count _ _ _ _ _ _ _ _ Hinv). lia.
Qed.

Lemma get_header_length k n : (length k <= 250)%nat -> 0 <= n <= 2 ^ 26 -> (length (get_header k 0 n) <= 511)%nat.
Proof.
  intros Hk Hn. unfold get_header. pose proof (proj2 (CString.print_dec_shape n ltac:(lia))) as Hl.
  repeat (rewrite length_app; cbn [length]). change (length (str "VALUE ")) with 6%nat.
  change (length (CString.print_dec 0)) with 1%nat. change (length crlf) with 2%nat. lia.
Qed.

(** The answer with a value. *)
Lemma send_value behind t head d st out de :
  query_response t = QueryResponse head (Z.of_nat (length head)) (Some d) (Z.of_nat (length d)) (Some MC_TERM_STR) 2 ->
  Z.of_nat (length d) <= 2 ^ 26 ->
  send_response behind t (calm st out de) = Ret (t, IndexTypes.RET_SUCCESS) (calm st (out ++ head ++ d ++ MC_TERM_STR) de).
Proof.
  intros Hr Hd. unfold send_response. rewrite Hr. cbn [resp_head_buf resp_head_buf_size resp_data_buf resp_data_size
    resp_tailor_buf resp_tailor_size].
  erewrite reply_bind by reflexivity. erewrite reply_bind by reflexivity.
  rewrite Nat2Z.id, take_ge by lia. erewrite reply_bind by apply net_write_run. rewrite Z.eqb_refl. cbn [negb].
  erewrite reply_bind by reflexivity. rewrite read_block_all. erewrite reply_bind by apply net_write_run.
  change (take (Z.to_nat 2) MC_TERM_STR) with MC_TERM_STR. rewrite length_app. change (length MC_TERM_STR) with 2%nat.
  rewrite (i64_small (Z.of_nat (length d))), (i64_small 2), i64_small by lia.
  rewrite (proj2 (Z.eqb_eq _ _)) by lia. cbn [negb]. unfold ret. do 2 f_equal. now rewrite <- app_assoc.
Qed.

(** ** Every request *)

(** What the tasks of all commands share: the key, and nothing answered yet. *)
Record parsed (t : query_task_s) (c : cmd_type_e) (k : list Z) : Prop := {
  pa_status : parse_status (query_request t) = ps_succ;
  pa_cmd : cmd_type (query_request t) = c;
  pa_key : key_str (query_request t) = k;
  pa_log : error_log t = None;
  pa_response : query_response t = zero_response
}.

Lemma complete_parsed t fd k f e body :
  AssignProps.key_word k -> AssignProps.complete t fd k f e body -> parsed t cmd_set k.
Proof. intros Hk []. split; auto using key_word_str. Qed.

Lemma asked_parsed t fd c k : AssignProps.key_word k -> AssignProps.asked t fd c k -> parsed t c k.
Proof. intros (_ & Hl & _) []. split; auto. rewrite as_key. apply take_ge. lia. Qed.

Lemma serve_set behind id t k body st st' r out de :
  parsed t cmd_set k -> data (query_request t) = Some (body ++ crlf) ->
  data_size (query_request t) = Z.of_nat (length body) -> Storage.update_block k body st = Storage.Ret r st' ->
  exists t', pipe_event_handler behind id true (Some t) (calm st out de) =
    Ret tt (calm st' (out ++ if r =? 0 then MC_SET_DONE_STR else MC_ERR_STR) (de ++ [t'])).
Proof.
  intros [Hs Hc Hk Hl Hr] Hd Hn E.
  set (t1 := set_state (set_thread_id t id) (if r =? 0 then s_set_success else s_set_failed)).
  assert (Eb : exists t', build_response t1 (calm st' out de) = Ret t' (calm st' out de) /\
    one_line t' (if r =? 0 then MC_SET_DONE_STR else MC_ERR_STR)).
  { unfold t1, build_response. destruct (r =? 0); cbn [set_state state].
    - apply line_run. exact Hr.
    - apply logged_line_run; [exact Hr|exact Hl]. }
  destruct Eb as (t' & Eb & H1). exists (set_watchers t' false false).
  eapply (pipe_line _ _ _ _ t'); [|exact H1]. unfold handle_request. cbn [set_thread_id query_request].
  rewrite Hs, bool_decide_eq_true_2 by done. cbn [negb]. rewrite Hc, Hk, Hd, Hn.
  change (default [] (Some (body ++ crlf))) with (body ++ crlf). rewrite read_block_app. erewrite reply_bind by (apply on_storage_run; exact E).
  erewrite reply_bind by exact Eb. reflexivity.
Qed.

Lemma serve_get behind id t k d st st' out de :
  parsed t cmd_get k -> (length k <= 250)%nat -> (forall v, d = Some v -> Z.of_nat (length v) <= 2 ^ 26) ->
  Storage.find_block k st =
    Storage.Ret (match d with Some d => (0, Some d, Z.of_nat (length d)) | None => (DB_NOTFOUND, None, 0) end) st' ->
  exists t', pipe_event_handler behind id true (Some t) (calm st out de) =
    Ret tt (calm st' (out ++ match d with
                             | Some d => get_header k 0 (Z.of_nat (length d)) ++ d ++ MC_TERM_STR
                             | None => MC_GET_DONE_STR
                             end) (de ++ [t'])).
Proof.
  intros [Hs Hc Hk Hl Hr] Hkl Hd E.
  assert (Eh : handle_request behind (set_thread_id t id) (calm st out de) =
    bind (build_response (set_state (set_response (set_thread_id t id)
            (QueryResponse [] 0 d (match d with Some v => Z.of_nat (length v) | None => 0 end) None 0))
            (if d is Some _ then s_get_success else s_get_failed)))
      (fun t' => ret (t', if d is Some _ then IndexTypes.RET_SUCCESS else IndexTypes.RET_FAILED)) (calm st' out de)).
  { unfold handle_request. cbn [set_thread_id query_request query_response].
    rewrite Hs, bool_decide_eq_true_2 by done. cbn [negb]. rewrite Hc, Hk, Hr. erewrite reply_bind by reflexivity.
    erewrite reply_bind by (apply on_storage_run; exact E). assert (Hnf : (DB_NOTFOUND =? 0) = false) by (apply Z.eqb_neq, notfound_nonzero). destruct d; [reflexivity|]. cbv beta iota zeta. now rewrite Hnf. }
  destruct d as [d|].
  - set (head := get_header k 0 (Z.of_nat (length d))).
    assert (Hh : (length head <= 511)%nat) by (apply get_header_length; [done|specialize (Hd d eq_refl); lia]).
    set (t' := set_response (set_state (set_thread_id t id) s_get_success)
      (QueryResponse head (Z.of_nat (length head)) (Some d) (Z.of_nat (length d)) (Some MC_TERM_STR) 2)).
    assert (Eb : build_response (set_state (set_response (set_thread_id t id)
        (QueryResponse [] 0 (Some d) (Z.of_nat (length d)) None 0)) s_get_success) (calm st' out de) = Ret t' (calm st' out de)).
    { unfold build_response. cbn [set_state state set_response query_request set_thread_id query_response resp_data_size].
      rewrite Hk. fold head. rewrite take_ge by exact Hh. reflexivity. }
    exists (set_watchers t' false false). unfold pipe_event_handler. cbn [negb].
    erewrite reply_bind by (rewrite Eh; erewrite reply_bind by exact Eb; reflexivity). cbn [fst snd].
    erewrite reply_bind by (apply (send_value behind t' head d); [reflexivity|by apply Hd]). reflexivity.
  - destruct (logged_line_run (set_state (set_response (set_thread_id t id) (QueryResponse [] 0 None 0 None 0)) s_get_failed)
      "get cmd failed"%string MC_GET_DONE_STR st' out de eq_refl Hl) as (t' & Eb & H1).
    exists (set_watchers t' false false). eapply (pipe_line _ _ _ _ t'); [|exact H1].
    rewrite Eh. unfold build_response. cbn [set_state state]. erewrite reply_bind by exact Eb. reflexivity.
Qed.

Lemma serve_delete behind id t k st st' r out de :
  parsed t cmd_delete k -> Storage.delete_block k st = Storage.Ret r st' ->
  exists t', pipe_event_handler behind id true (Some t) (calm st out de) =
    Ret tt (calm st' (out ++ if r =? 0 then MC_DEL_DONE_STR else MC_ERR_STR) (de ++ [t'])).
Proof.
  intros [Hs Hc Hk Hl Hr] E.
  set (t1 := set_state (set_thread_id t id) (if r =? 0 then s_delete_success else s_delete_failed)).
  assert (Eb : exists t', build_response t1 (calm st' out de) = Ret t' (calm st' out de) /\
    one_line t' (if r =? 0 then MC_DEL_DONE_STR else MC_ERR_STR)).
  { unfold t1, build_response. destruct (r =? 0); cbn [set_state state].
    - apply line_run. exact Hr.
    - apply logged_line_run; [exact Hr|exact Hl]. }
  destruct Eb as (t' & Eb & H1). exists (set_watchers t' false false).
  eapply (pipe_line _ _ _ _ t'); [|exact H1]. unfold handle_request. cbn [set_thread_id query_request].
  rewrite Hs, bool_decide_eq_true_2 by done. cbn [negb]. rewrite Hc, Hk.
  erewrite reply_bind by (apply on_storage_run; exact E). erewrite reply_bind by exact Eb. reflexivity.
Qed.

Lemma serve_malformed behind id t st out de :
  carries t Malformed -> exists t', pipe_event_handler behind id true (Some t) (calm st out de) =
    Ret tt (calm st (out ++ MC_ERR_STR) (de ++ [t'])).
Proof.
  intros (Hs & Hst & Hr).
  destruct (line_run (set_state (set_thread_id t id) s_return_failed) MC_ERR_STR (calm st out de) Hr) as (t' & Eb & H1).
  exists (set_watchers t' false false). eapply (pipe_line _ _ _ _ t'); [|exact H1].
  unfold handle_request. cbn [set_thread_id query_request state]. rewrite (bool_decide_eq_false_2 _ Hs). cbn [negb].
  rewrite Hst, bool_decide_eq_true_2 by done. erewrite reply_bind by reflexivity.
  unfold build_response. cbn [set_state state]. erewrite reply_bind by exact Eb. reflexivity.
Qed.

Lemma serve_run behind id t r n c st m out de :
  carries t r -> request_ok n r -> ready n c st m -> 1 <= c ->
  exists st' t' c', c - 1 <= c' /\ pipe_event_handler behind id true (Some t) (calm st out de) =
      Ret tt (calm st' (out ++ (answer r m).1) (de ++ [t'])) /\
    ready n c' st' (answer r m).2.
Proof.
  intros Hcar Hok Hr Hc. destruct r as [k f e body|k|k|]; cbn [carries request_ok answer fst snd] in *.
  - destruct Hcar as [fd Ht]. destruct Hok as (Hk & Hkb & Hbb & _ & _ & Hl).
    destruct (update_ready n c st m k body Hr Hkb Hbb Hl Hc) as (st' & E & Hr').
    destruct (serve_set behind id t k body st st' 0 out de) as (t' & Es); try done;
      [by eapply complete_parsed|apply Ht|apply Ht|]. exists st', t', (c - 1). split; [lia|]. by split.
  - destruct Hcar as [fd Ht]. destruct Hok as (Hk & Hkb).
    destruct (find_ready n c st m k Hr Hkb Hc) as (st' & E & Hr').
    destruct (serve_get behind id t k (m !! Storage.fixed_key k) st st' out de) as (t' & Es); try done;
      [by eapply asked_parsed|destruct Hk as (_ & ? & _); lia|intros v Hv; by eapply stored_bound|].
    exists st', t', (c - 1). split; [lia|]. by split.
  - destruct Hcar as [fd Ht]. destruct Hok as (Hk & Hkb).
    destruct (delete_ready n c st m k Hr Hkb Hc) as (st' & E & Hr').
    destruct (serve_delete behind id t k st st' _ out de ltac:(by eapply asked_parsed) E) as (t' & Es).
    exists st', t', (c - 1). split; [lia|]. split; [|exact Hr']. rewrite Es.
    pose proof (proj2 (Z.eqb_neq _ _) (proj1 notfound_nonzero)) as Hnf. destruct (m !! Storage.fixed_key k).
    + rewrite decide_True by (by eexists). reflexivity.
    + rewrite decide_False by (by intros [? ?]). now rewrite Hnf.
  - destruct (serve_malformed behind id t st out de Hcar) as (t' & Es). exists st, t', c. split; [lia|]. by split.
Qed.


(** ** Over the wire *)

(** The packets in which a client may send a request: a set request with its
    head whole in the first packet and its body cut anywhere, the others in one
    packet; and a line that is no command, with anything behind it. *)
Inductive encodes : request -> list (list Z) -> Prop :=
  | enc_set k f e body c0 cs :
      body ++ crlf = c0 ++ concat cs -> Forall (fun c => c <> []) cs ->
      (length (AssignProps.set_line k f e (Z.of_nat (length body))) + 2 + length c0 <= 512)%nat ->
      encodes (Set_ k f e body) (((AssignProps.set_line k f e (Z.of_nat (length body)) ++ crlf) ++ c0) :: cs)
  | enc_get k : encodes (Get k) [AssignProps.key_line (str "get") k ++ crlf]
  | enc_delete k : encodes (Delete k) [AssignProps.key_line (str "delete") k ++ crlf]
  | enc_unknown name tail rest :
      CString.is_token name -> command_state name = s_fatal -> AssignProps.plain (AssignSafety.unknown_line name tail) ->
      (length (AssignSafety.unknown_line name tail) + 2 < 512)%nat ->
      (length (AssignSafety.unknown_line name tail) + 2 + length rest <= 512)%nat ->
      encodes Malformed [(AssignSafety.unknown_line name tail ++ crlf) ++ rest].

(** One connection through both threads: the assign thread receives the packets
    and sends the task to a pipe, a query thread takes it from there. The state
    is the next query thread and the storage; the result is what the client of
    [fd] gets. *)
Definition exchange (behind : Z -> Z) (cnt fd : Z) (packets : list (list Z)) (s : Z * Storage.state DB)
  : option (list Z * (Z * Storage.state DB)) :=
  match AssignProps.serve_connection fd (length packets)
          (Assign.World s.1 cnt s.2 [] [] (Assign.Bytes <$> packets) [] []) with
  | Assign.Ret None w =>
      match Assign.sent w with
      | [(i, t)] =>
          match pipe_event_handler behind i true (Some t) (calm (Assign.storage w) [] []) with
          | Ret tt q => Some (output q, (Assign.last_fd w, storage q))
          | _ => None
          end
      | _ => None
      end
  | _ => None
  end.
Fixpoint exchanges (behind : Z -> Z) (cnt : Z) (cs : list (Z * list (list Z))) (s : Z * Storage.state DB)
  : option (list (list Z) * (Z * Storage.state DB)) :=
  match cs with
  | [] => Some ([], s)
  | (fd, packets) :: cs =>
      '(a, s) ← exchange behind cnt fd packets s; '(r, s) ← exchanges behind cnt cs s; Some (a :: r, s)
  end.
Fixpoint answers (rs : list request) (m : gmap (list Z) (list Z)) : list (list Z) * gmap (list Z) (list Z) :=
  match rs with
  | [] => ([], m)
  | r :: rs => let '(a, m) := answer r m in let '(l, m) := answers rs m in (a :: l, m)
  end.

Lemma complete_watchers t fd k f e body a b :
  AssignProps.complete t fd k f e body -> AssignProps.complete (set_watchers t a b) fd k f e body.
Proof. intros []. by split. Qed.

Lemma asked_watchers t fd c k a b : AssignProps.asked t fd c k -> AssignProps.asked (set_watchers t a b) fd c k.
Proof. intros []. by split. Qed.

Lemma rejected_carries t fd a b : AssignSafety.rejected t fd -> carries (set_watchers t a b) Malformed.
Proof. intros [_ Hs Hp Hr]. split; [|done]. cbn [set_watchers query_request]. by rewrite Hp. Qed.

Lemma received r packets n c fd cnt lf (st : Storage.state DB) m :
  encodes r packets -> request_ok n r -> ready n c st m -> 0 <= fd ->
  let w := Assign.World lf cnt st [] [] (Assign.Bytes <$> packets) [] [] in
  exists t, AssignProps.serve_connection fd (length packets) w = Assign.Ret None (AssignProps.after_send w t []) /\
    carries (set_watchers t false false) r.
Proof.
  intros He Hok Hr Hfd. pose proof (ready_count _ _ _ _ Hr) as Hn. inversion He as [k f e body c0 cs E1 E2 E3|k|k|name tail rest H1 H2 H3 H4 H5]; subst.
  - destruct Hok as (Hk & _ & _ & Hf & He' & Hl).
    pose proof (StorageRefine.type_size_bound (n - 1) ltac:(lia)) as Hb.
    destruct (AssignProps.set_received (Assign.World lf cnt st [] [] [] [] []) fd k f e body c0 cs) as (t & E & Ht);
      try done; try lia.
    exists t. split; [exact E|]. exists fd. by apply complete_watchers.
  - destruct Hok as (Hk & _).
    destruct (AssignProps.key_line_run (Assign.World lf cnt st [] [] [] [] []) fd (str "get") cmd_get k) as (t & E & Ht);
      [done|by left|by apply AssignProps.key_word_token|by apply AssignProps.key_word_plain|destruct Hk as (_ & ? & _); lia|].
    exists t. split; [exact E|]. exists fd. by apply asked_watchers.
  - destruct Hok as (Hk & _).
    destruct (AssignProps.key_line_run (Assign.World lf cnt st [] [] [] [] []) fd (str "delete") cmd_delete k) as (t & E & Ht);
      [done|by right|by apply AssignProps.key_word_token|by apply AssignProps.key_word_plain|destruct Hk as (_ & ? & _); lia|].
    exists t. split; [exact E|]. exists fd. by apply asked_watchers.
  - destruct (AssignSafety.unknown_event (Assign.World lf cnt st [] [] [] [] []) fd name tail rest [] H1 H2 H3 H4 H5) as (t & E & Ht).
    exists t. split; [|by apply (rejected_carries t fd)].
    etransitivity; [apply (AssignProps.serve_connection_run (Assign.World lf cnt st [] [] [] [] [])); exact Hfd|].
    cbn [length Assign.run_events]. erewrite AssignProps.assign_bind by exact E. reflexivity.
Qed.

Lemma exchange_run behind cnt fd r packets n c lf st m :
  encodes r packets -> request_ok n r -> ready n c st m -> 1 <= c -> 0 <= fd ->
  exists lf' st' c', exchange behind cnt fd packets (lf, st) = Some ((answer r m).1, (lf', st')) /\
    c - 1 <= c' /\ ready n c' st' (answer r m).2.
Proof.
  intros He Hok Hr Hc Hfd. destruct (received r packets n c fd cnt lf st m He Hok Hr Hfd) as (t & E & Hcar).
  set (w := Assign.World lf cnt st [] [] (Assign.Bytes <$> packets) [] []) in E.
  destruct (serve_run behind (AssignProps.next_thread w) _ r n c st m [] [] Hcar Hok Hr Hc) as (st' & t' & c' & Hc' & Ep & Hr').
  exists (u64 (AssignProps.next_thread w + 1)), st', c'. split; [|by split].
  unfold exchange. cbn [fst snd]. fold w. rewrite E. cbn [AssignProps.after_send Assign.sent Assign.storage app w].
  fold w. rewrite Ep. reflexivity.
Qed.


Lemma exchanges_run behind cnt conns rs n c lf st m :
  Forall2 (fun conn r => 0 <= conn.1 /\ encodes r conn.2) conns rs -> Forall (request_ok n) rs ->
  ready n c st m -> Z.of_nat (length rs) <= c ->
  exists lf' st', exchanges behind cnt conns (lf, st) = Some ((answers rs m).1, (lf', st')) /\
    StorageRefine.represents st' (answers rs m).2.
Proof.
  intros Hen. revert lf st m c; induction Hen as [|[fd packets] r conns rs [Hfd He] _ IH]; intros lf st m c Hok Hr Hc.
  - exists lf, st. split; [done|apply Hr].
  - inversion Hok as [|? ? Hok1 Hoks]; subst. cbn [length] in Hc. cbn [fst snd] in *.
    destruct (exchange_run behind cnt fd r packets n c lf st m He Hok1 Hr ltac:(lia) Hfd) as (lf1 & st1 & c1 & E1 & Hc1 & Hr1).
    destruct (IH lf1 st1 (answer r m).2 c1 Hoks Hr1 ltac:(lia)) as (lf' & st' & E2 & Hr2).
    exists lf', st'. cbn [exchanges answers]. rewrite E1. cbn [mbind option_bind].
    destruct (answer r m) as [a m1]. cbn [fst snd] in *. rewrite E2. cbn [mbind option_bind].
    destruct (answers rs m1) as [l m2]. by split.
Qed.

(** ** The theorems *)

(** C17: a query thread implements the map. Given a task that carries a request,
    it calls the storage and writes exactly the answer the map gives: [STORED]
    and the new binding; [VALUE] with the key, flags 0 and the size, the data and
    a line end, or [END] for a key that is not there; [DELETED] or [ERROR];
    [ERROR] for a request that was not understood. The task is destroyed once,
    and the storage means the map of the specification. *)
Theorem serve_answers behind id t r n c st m out de :
  carries t r -> request_ok n r -> ready n c st m -> 1 <= c ->
  exists st' t', pipe_event_handler behind id true (Some t) (World st out de [] [] []) =
      Ret tt (World st' (out ++ (answer r m).1) (de ++ [t']) [] [] []) /\
    StorageRefine.represents st' (answer r m).2.
Proof.
  intros Hcar Hok Hr Hc. destruct (serve_run behind id t r n c st m out de Hcar Hok Hr Hc) as (st' & t' & c' & _ & E & Hr').
  exists st', t'. split; [exact E|apply Hr'].
Qed.

(** C7: the server is a map over the wire. For any sequence of connections, each
    with one request, whose head is whole in the first packet and whose body is
    cut into packets in any way, every client gets the answer the map gives after
    the requests before it, and the storage finally means the final map: both
    threads, the parser and the storage together, with memory and a quiet system. *)
Theorem server_history behind cnt conns rs n c lf st m :
  Forall2 (fun conn r => 0 <= conn.1 /\ encodes r conn.2) conns rs -> Forall (request_ok n) rs ->
  ready n c st m -> Z.of_nat (length rs) <= c ->
  exists lf' st', exchanges behind cnt conns (lf, st) = Some ((answers rs m).1, (lf', st')) /\
    StorageRefine.represents st' (answers rs m).2.
Proof. apply exchanges_run. Qed.

(** A lookup that fails after the size is known stops the server: when there
    is no memory for a stored value, the size stays in the response and the
    assertion in [build_response] fails. *)
Theorem get_failure_aborts behind id t k n c st m d out de :
  carries t (Get k) -> request_ok n (Get k) -> ready n c st m -> m !! Storage.fixed_key k = Some d -> d <> [] ->
  pipe_event_handler behind id true (Some t) (World (StorageProps.with_allocs st [true; false]) out de [] [] []) = Abort.
Proof.
  intros [fd Ht] [Hk Hkb] Hr Hm Hd. destruct (asked_parsed t fd cmd_get k Hk Ht) as [Hs Hc Ek Hl Hres].
  destruct (StorageProps.find_no_memory st m k d (proj1 Hr) Hkb Hm) as (st' & E & _).
  unfold pipe_event_handler. cbn [negb]. unfold bind at 1, handle_request. cbn [set_thread_id query_request query_response].
  rewrite Hs, bool_decide_eq_true_2 by done. cbn [negb]. rewrite Hc, Ek, Hres. erewrite reply_bind by reflexivity.
  erewrite reply_bind by (apply (on_storage_run _ _ _ st'); exact E). change (-1 =? 0) with false. cbv beta iota zeta.
  unfold build_response. cbn [set_state state set_response query_response].
  unfold log. cbn [set_state set_response set_thread_id error_log]. rewrite Hl. unfold Log.
  cbn [set_state set_response set_thread_id error_log]. rewrite Hl.
  unfold bind, next_alloc, line_response, assert. cbn. destruct d as [|x d]; [done|]. reflexivity.
Qed.

(** C37: a client that is gone can stop the server: when a request was answered
    with an error, the task has a text already, and a failing write of the answer
    sets another one, which is asserted against. *)
Theorem lost_client_aborts behind id t st out de nw :
  carries t Malformed -> is_Some (error_log t) -> nw <> Z.of_nat (length MC_ERR_STR) ->
  pipe_event_handler behind id true (Some t) (World st out de [] [] [Some nw]) = Abort.
Proof.
  intros (Hs & Hst & Hr) [e Hl] Hn. unfold pipe_event_handler. cbn [negb]. unfold bind at 1, handle_request.
  cbn [set_thread_id query_request state]. rewrite (bool_decide_eq_false_2 _ Hs). cbn [negb].
  rewrite Hst, bool_decide_eq_true_2 by done. erewrite reply_bind by reflexivity.
  unfold build_response. cbn [set_state state].
  assert (Eb : line_response (set_state (set_thread_id t id) s_return_failed) MC_ERR_STR (World st out de [] [] [Some nw]) =
    Ret (set_response (set_state (set_thread_id t id) s_return_failed)
           (QueryResponse MC_ERR_STR (Z.of_nat (length MC_ERR_STR)) None 0 None 0)) (World st out de [] [] [Some nw])).
  { unfold line_response. cbn [set_state set_thread_id query_response]. rewrite Hr. reflexivity. }
  erewrite reply_bind by exact Eb. cbn [ret fst snd]. unfold send_response.
  unfold bind. cbn [set_block blocking assert ret set_response query_response resp_head_buf resp_head_buf_size].
  change (0 =? 0) with true. unfold assert, ret, net_write. cbn [io]. cbv beta iota.
  rewrite (proj2 (Z.eqb_neq nw _)) by exact Hn. cbn [negb]. unfold log. cbn [set_response set_state set_thread_id error_log].
  rewrite Hl. reflexivity.
Qed.


End Props.
(** ** A concrete server *)

Import MapDB.

Definition ex_task (c : cmd_type_e) (k : list Z) : query_task_s :=
  QueryTask 9 0 None s_dispatch_query_task 0 0 false false
    (QueryRequest [] 0 None 0 c ps_succ 0 0 (key_field k)) zero_response.
Definition ex_bad_task : query_task_s :=
  QueryTask 9 0 (Some "parse request failed, cmd type: %d"%string) s_return_failed 0 0 false false
    (QueryRequest [] 0 None 0 cmd_unknown ps_failed 0 0 (key_field [])) zero_response.

Lemma ex_ready : exists st : Storage.state (gmap (list Z) (list Z)), ready 1 100 st ∅.
Proof.
  destruct (StorageRefine.open_fresh_run StorageProps.ex_env 1 ∅ 128 StorageProps.ex_pristine) as (s & _ & Hr & Hn & Hroom);
    [apply StorageProps.ex_opens|done|done|by split|apply StorageProps.ex_pristine_ok|].
  exists s. split; [done|]. split; [done|]. intros i fh Hi Hl. specialize (Hroom i fh Hi Hl). lia.
Qed.

Lemma ex_key_bytes : bytes_ok (str "key").
Proof. repeat constructor; done. Qed.

Lemma ex_get_ok n : request_ok n (Get (str "key")).
Proof. split; [apply AssignProps.ex_key_word|apply ex_key_bytes]. Qed.

Lemma ex_carries : carries (ex_task cmd_get (str "key")) (Get (str "key")).
Proof. exists 9. split; vm_compute; reflexivity. Qed.

Lemma serve_answers_witness : exists (st st' : Storage.state (gmap (list Z) (list Z))) t',
  pipe_event_handler (fun _ => 0) 3 true (Some (ex_task cmd_get (str "key"))) (World st [] [] [] [] []) =
    Ret tt (World st' (str "VALUE key 0 3" ++ crlf ++ [1; 2; 3] ++ crlf) [t'] [] [] []).
Proof.
  destruct StorageProps.ex_stored as (st & Hr & Hn & Hroom).
  destruct (serve_answers (fun _ => 0) 3 (ex_task cmd_get (str "key")) (Get (str "key")) 1 1 st _ [] []
    ex_carries (ex_get_ok 1) (conj Hr (conj Hn Hroom)) ltac:(lia)) as (st' & t' & E & _).
  exists st, st', t'. exact E.
Defined.

Lemma server_history_witness : exists (st st' : Storage.state (gmap (list Z) (list Z))) lf',
  exchanges (fun _ => 0) 4
    [(9, [str "set key 1 0 5" ++ crlf ++ str "ab"; str "cde"; crlf]); (10, [str "get key" ++ crlf]);
     (9, [str "delete key" ++ crlf]); (11, [str "get key" ++ crlf])] (0, st) =
  Some ([str "STORED" ++ crlf; str "VALUE key 0 5" ++ crlf ++ str "abcde" ++ crlf; str "DELETED" ++ crlf; str "END" ++ crlf],
        (lf', st')).
Proof.
  destruct ex_ready as [st Hr].
  destruct (server_history (fun _ => 0) 4
    [(9, [str "set key 1 0 5" ++ crlf ++ str "ab"; str "cde"; crlf]); (10, [str "get key" ++ crlf]);
     (9, [str "delete key" ++ crlf]); (11, [str "get key" ++ crlf])]
    [Set_ (str "key") 1 0 (str "abcde"); Get (str "key"); Delete (str "key"); Get (str "key")] 1 100 0 st ∅)
    as (lf' & st' & E & _).
  - repeat constructor; cbn [fst snd]; try lia.
    apply (enc_set (str "key") 1 0 (str "abcde") (str "ab") [str "cde"; crlf]);
      [reflexivity|repeat constructor; discriminate|apply Nat.leb_le; vm_compute; reflexivity].
  - repeat constructor; try apply AssignProps.ex_key_word; try apply ex_key_bytes; try (cbn; lia); vm_compute; congruence.
  - exact Hr.
  - cbn. lia.
  - exists st, st', lf'. exact E.
Defined.

Lemma get_failure_aborts_witness : exists st : Storage.state (gmap (list Z) (list Z)),
  pipe_event_handler (fun _ => 0) 3 true (Some (ex_task cmd_get (str "key")))
    (World (StorageProps.with_allocs st [true; false]) [] [] [] [] []) = Abort.
Proof.
  destruct StorageProps.ex_stored as (st & Hr & Hn & Hroom). exists st.
  apply (get_failure_aborts (fun _ => 0) 3 (ex_task cmd_get (str "key")) (str "key") 1 1 st _ [1; 2; 3] [] []
    ex_carries (ex_get_ok 1) (conj Hr (conj Hn Hroom))); [reflexivity|done].
Defined.

Lemma lost_client_aborts_witness :
  pipe_event_handler (fun _ => 0) 3 true (Some ex_bad_task) (World AssignProps.ex_storage [] [] [] [] [Some (-1)]) = Abort.
Proof.
  apply (lost_client_aborts (fun _ => 0) 3 ex_bad_task AssignProps.ex_storage [] [] (-1)); [|by eexists|done].
  split; [discriminate|]. by split.
Defined.


End QueryProps.
