(* ===== verification/Pool.v ===== *)
(** The query threads of [src/src/query_thread.c] at work together: each takes
    tasks from its pipe, in order, and serves one at a time; their storage
    operations interleave as in [Interleave]. What the handler does around its
    one call of the storage is the code of [Query], cut at that call. The
    specification is a server that lets every request take effect on a map at
    one moment between its dispatch and its answer. *)

From Stdlib Require Import ZArith Lia String.
From stdpp Require Import base numbers list gmap.
From S2P Require Import Prelude CString IndexTypes Bdb Storage StorageRefine StorageThreads Interleave.
From S2P Require Import Protocol Task Query QueryProps.

Module Pool.
Import Protocol Task Query.
Import QueryProps (carries, request_ok, answer).

Section Handler.
Context {DB : Type} `{BerkeleyDB DB}.
#[local] Notation "'let*' x := m 'in' k" := (Query.bind m (fun x => k))
  (at level 10, x name, m at level 100, k at level 200).

(** ** The handler around its call of the storage *)

(** What [handle_request] asks of the storage. *)
Definition storage_request (behind : Z -> Z) (t : query_task_s) : option Interleave.request :=
  let q := query_request t in
  if negb (bool_decide (parse_status q = ps_succ)) then None
  else
    match cmd_type q with
    | cmd_set => Some (Interleave.Put (key_str q) (read_block behind (default [] (data q)) (data_size q)))
    | cmd_get => if is_null (resp_data_buf (query_response t)) then Some (Interleave.Get (key_str q)) else None
    | cmd_delete => Some (Interleave.Del (key_str q))
    | _ => None
    end.

(** The call by a thread that runs alone. *)
Definition storage_call (r : Interleave.request) : Storage.M DB StorageRefine.reply :=
  match r with
  | Interleave.Put key data => Storage.bind (Storage.update_block key data) (fun v => Storage.ret (StorageRefine.Code v))
  | Interleave.Get key => Storage.bind (Storage.find_block key) (fun v => Storage.ret (StorageRefine.Found v.1.1 v.1.2 v.2))
  | Interleave.Del key => Storage.bind (Storage.delete_block key) (fun v => Storage.ret (StorageRefine.Code v))
  end.

(** [handle_request] from the return of the storage on. *)
Definition after_storage (t : query_task_s) (v : StorageRefine.reply) : Query.M DB (query_task_s * Z) :=
  match cmd_type (query_request t), v with
  | cmd_set, StorageRefine.Code r =>
      let* t' := build_response (set_state t (if r =? 0 then s_set_success else s_set_failed)) in
      ret (t', if r =? 0 then IndexTypes.RET_SUCCESS else IndexTypes.RET_FAILED)
  | cmd_get, StorageRefine.Found r value value_len =>
      let p := query_response t in
      let p := QueryResponse (resp_head_buf p) (resp_head_buf_size p)
                 value value_len (resp_tailor_buf p) (resp_tailor_size p) in
      let* t' := build_response (set_state (set_response t p) (if r =? 0 then s_get_success else s_get_failed)) in
      ret (t', if r =? 0 then IndexTypes.RET_SUCCESS else IndexTypes.RET_FAILED)
  | cmd_delete, StorageRefine.Code r =>
      let* t' := build_response (set_state t (if r =? 0 then s_delete_success else s_delete_failed)) in
      ret (t', if r =? 0 then IndexTypes.RET_SUCCESS else IndexTypes.RET_FAILED)
  | _, _ => undefined
  end.
(** [pipe_event_handler] from there on. *)
Definition finish (behind : Z -> Z) (i : Z) (t : query_task_s) (v : StorageRefine.reply) : Query.M DB unit :=
  let* r := after_storage (set_thread_id t i) v in
  let* s := send_response behind r.1 in
  bury (set_watchers s.1 false false).

Lemma on_storage_bind {A B} (m : Storage.M DB A) (f : A -> B) (w : world DB) :
  on_storage (Storage.bind m (fun a => Storage.ret (f a))) w =
  match on_storage m w with Ret a w => Ret (f a) w | Abort => Abort | Blocked => Blocked | Undefined => Undefined end.
Proof. unfold on_storage, Storage.bind, Storage.ret. by destruct (m (storage w)). Qed.

(** The two halves and the call are the handler, whatever the environment. *)
Lemma handler_split behind i t rq (w : world DB) :
  storage_request behind t = Some rq ->
  pipe_event_handler behind i true (Some t) w = Query.bind (on_storage (storage_call rq)) (finish behind i t) w.
Proof.
  unfold storage_request. destruct (bool_decide_reflect (parse_status (query_request t) = ps_succ)) as [Hs|]; [|done]. cbn [negb].
  intros Hrq. unfold pipe_event_handler, handle_request. cbn [negb set_thread_id query_request query_response].
  rewrite bool_decide_eq_true_2 by done. cbn [negb].
  destruct (cmd_type (query_request t)) eqn:Ec; try done; [| |].
  - injection Hrq as <-. unfold Query.bind. cbn [storage_call]. rewrite on_storage_bind.
    destruct (on_storage _ w) as [r w'| | |]; try done. unfold finish, after_storage, Query.bind.
    cbn [set_thread_id query_request]. by rewrite Ec.
  - destruct (is_null (resp_data_buf (query_response t))) eqn:En; [|done]. injection Hrq as <-.
    unfold Query.bind. cbn [storage_call assert]. rewrite on_storage_bind. unfold ret at 1.
    destruct (on_storage _ w) as [[[r v] l] w'| | |]; try done. unfold finish, after_storage, Query.bind.
    cbn [set_thread_id query_request query_response fst snd]. by rewrite Ec.
  - injection Hrq as <-. unfold Query.bind. cbn [storage_call]. rewrite on_storage_bind.
    destruct (on_storage _ w) as [r w'| | |]; try done. unfold finish, after_storage, Query.bind.
    cbn [set_thread_id query_request]. by rewrite Ec.
Qed.

(** ** Threads, pipes and the storage *)

(** Written to pipe [i] by the assign thread: a task with a request of the client
    at [fd]; sent to a client: bytes. *)
Inductive wire := Dispatched (i : nat) (fd : Z) (r : QueryProps.request) | Sent (fd : Z) (bytes : list Z).

(** The tasks in each pipe, the task each thread serves, and the storage with the
    threads inside of it. *)
Record pool := Threads {
  pipes : list (list query_task_s);
  serving : list (option query_task_s);
  inner : Interleave.config DB
}.

(** A world in which memory is there and clients take what they are sent. *)
Definition quiet (s : Storage.state DB) : world DB := World s [] [] [] [] [].

(** The relation [R] says how the threads move inside of the storage: with spurious
    wake-ups ([Interleave.moves]) or without ([Interleave.step]). *)
Inductive pool_step (R : option Interleave.event -> Interleave.config DB -> Interleave.config DB -> Prop) (behind : Z -> Z) : option wire -> pool -> pool -> Prop :=
  | pool_dispatch ps ts c i q t fd r :
      ps !! i = Some q -> carries t r -> sock_fd t = fd ->
      pool_step R behind (Some (Dispatched i fd r)) (Threads ps ts c) (Threads (<[i := q ++ [t]]> ps) ts c)
  | pool_take ps ts c c' i t q rq :
      ps !! i = Some (t :: q) -> ts !! i = Some None -> storage_request behind t = Some rq ->
      R (Some (Interleave.Called i rq)) c c' ->
      pool_step R behind None (Threads ps ts c) (Threads (<[i := q]> ps) (<[i := Some t]> ts) c')
  | pool_refuse ps ts c i t q w :
      ps !! i = Some (t :: q) -> ts !! i = Some None -> storage_request behind t = None ->
      pipe_event_handler behind (Z.of_nat i) true (Some t) (quiet (Interleave.store c)) = Ret tt w ->
      pool_step R behind (Some (Sent (sock_fd t) (output w))) (Threads ps ts c) (Threads (<[i := q]> ps) ts c)
  | pool_access ps ts c c' :
      R None c c' -> pool_step R behind None (Threads ps ts c) (Threads ps ts c')
  | pool_answer ps ts c c' i t v w :
      ts !! i = Some (Some t) -> R (Some (Interleave.Returned i v)) c c' ->
      finish behind (Z.of_nat i) t v (quiet (Interleave.store c')) = Ret tt w ->
      pool_step R behind (Some (Sent (sock_fd t) (output w))) (Threads ps ts c) (Threads ps (<[i := None]> ts) c').

Definition pool_start (k : nat) (s : Storage.state DB) : pool :=
  Threads (replicate k []) (replicate k None) (Interleave.start k s).

(** No request is under way. *)
Definition pool_done (c : pool) : Prop := Forall (eq []) (pipes c) /\ Forall (eq None) (serving c).

End Handler.
Arguments pool : clear implicits.

(** ** The server that it looks like *)

(** What a thread serves: the client, the request, and its answer once it took
    effect. *)
Record service := Service { client : Z; asked : QueryProps.request; answered : option (list Z) }.
Record server := Server {
  content : gmap (list Z) (list Z);
  queued : list (list (Z * QueryProps.request));
  current : list (option service)
}.

Inductive serve_step : option wire -> server -> server -> Prop :=
  | serve_dispatch m qs cs i q fd r :
      qs !! i = Some q -> serve_step (Some (Dispatched i fd r)) (Server m qs cs) (Server m (<[i := q ++ [(fd, r)]]> qs) cs)
  | serve_take m qs cs i fd r q :
      qs !! i = Some ((fd, r) :: q) -> cs !! i = Some None ->
      serve_step None (Server m qs cs) (Server m (<[i := q]> qs) (<[i := Some (Service fd r None)]> cs))
  | serve_act m qs cs i fd r :
      cs !! i = Some (Some (Service fd r None)) ->
      serve_step None (Server m qs cs) (Server (answer r m).2 qs (<[i := Some (Service fd r (Some (answer r m).1))]> cs))
  | serve_send m qs cs i fd r bytes :
      cs !! i = Some (Some (Service fd r (Some bytes))) ->
      serve_step (Some (Sent fd bytes)) (Server m qs cs) (Server m qs (<[i := None]> cs)).

Definition serve_start (k : nat) (m : gmap (list Z) (list Z)) : server :=
  Server m (replicate k []) (replicate k None).

Definition wire_ok (n : Z) (e : wire) : Prop :=
  match e with Dispatched _ _ r => request_ok n r | Sent _ _ => True end.
Definition is_sent (e : wire) : Prop := match e with Sent _ _ => True | Dispatched _ _ _ => False end.

End Pool.
