(* ===== verification/PoolProps.v ===== *)
(** The pool of query threads is linearizable up to the bytes on the sockets:
    every history of dispatched tasks and answers is one of a server that lets
    each request take effect at one moment; and every dispatched request can be
    answered. *)

From Stdlib Require Import ZArith Lia String.
From stdpp Require Import base numbers list gmap.
From S2P Require Import Prelude CString IndexTypes Bdb Storage StorageRefine StorageProps StorageThreads Interleave.
From S2P Require Import Linear Progress Concurrent Protocol Task AssignProps Query QueryProps Pool.

Module PoolProps.
Import Protocol Task Query Pool.
Import QueryProps (carries, request_ok, answer, parsed, one_line).
Import Interleave (runs, runs_nil, runs_silent, runs_event, runs_trans, runs_one).

Section Answers.
Context {DB : Type} `{BerkeleyDBLaws DB}.

(** ** The bytes that the second half of the handler sends *)

(** The handler sends [bytes], in any state of the storage. *)
Definition sends (behind : Z -> Z) (t : query_task_s) (v : StorageRefine.reply) (bytes : list Z) : Prop :=
  forall i (st : Storage.state DB), exists w, finish behind i t v (quiet st) = Ret tt w /\ output w = bytes.

Lemma sends_line behind t v line :
  (forall i (st : Storage.state DB), exists t' r, after_storage (set_thread_id t i) v (quiet st) = Ret (t', r) (quiet st) /\ one_line t' line) ->
  sends behind t v line.
Proof.
  intros Ha i st. destruct (Ha i st) as (t' & r & E & Hl). unfold finish. erewrite QueryProps.reply_bind by exact E.
  erewrite QueryProps.reply_bind by exact (QueryProps.send_line behind t' line st [] [] Hl). by eexists.
Qed.

Lemma key_of t c k : parsed t c k -> key_str (query_request t) = k.
Proof. intros []. done. Qed.

(** A state for success and one for failure, each answered with a line. *)
Lemma built_line (good bad : query_state_e) line1 line2 fmt :
  (forall t, state t = good -> build_response (DB := DB) t = line_response t line1) ->
  (forall t, state t = bad -> build_response (DB := DB) t = Query.bind (log t fmt) (fun t => line_response t line2)) ->
  forall t (r : Z) (st : Storage.state DB), query_response t = zero_response -> error_log t = None ->
  exists t', build_response (set_state t (if r =? 0 then good else bad)) (quiet st) = Ret t' (quiet st) /\
    one_line t' (if r =? 0 then line1 else line2).
Proof.
  intros Hg Hb t r st Hr Hl. destruct (r =? 0).
  - rewrite Hg by done. by apply QueryProps.line_run.
  - rewrite Hb by done. by apply (QueryProps.logged_line_run _ _ _ st [] []).
Qed.

Lemma sends_set behind t k r :
  parsed t cmd_set k -> sends behind t (StorageRefine.Code r) (if r =? 0 then MC_SET_DONE_STR else MC_ERR_STR).
Proof.
  intros [_ Hc _ Hl Hr]. apply sends_line. intros i st. unfold after_storage. cbn [set_thread_id query_request]. rewrite Hc.
  destruct (built_line s_set_success s_set_failed MC_SET_DONE_STR MC_ERR_STR "set cmd failed"
    ltac:(by intros [] [= ->]) ltac:(by intros [] [= ->]) (set_thread_id t i) r st Hr Hl) as (t' & Eb & H1).
  exists t'. eexists. split; [erewrite QueryProps.reply_bind by exact Eb; reflexivity|done].
Qed.

Lemma sends_delete behind t k r :
  parsed t cmd_delete k -> sends behind t (StorageRefine.Code r) (if r =? 0 then MC_DEL_DONE_STR else MC_ERR_STR).
Proof.
  intros [_ Hc _ Hl Hr]. apply sends_line. intros i st. unfold after_storage. cbn [set_thread_id query_request]. rewrite Hc.
  destruct (built_line s_delete_success s_delete_failed MC_DEL_DONE_STR MC_ERR_STR "delete cmd failed"
    ltac:(by intros [] [= ->]) ltac:(by intros [] [= ->]) (set_thread_id t i) r st Hr Hl) as (t' & Eb & H1).
  exists t'. eexists. split; [erewrite QueryProps.reply_bind by exact Eb; reflexivity|done].
Qed.

Lemma sends_missing behind t k :
  parsed t cmd_get k -> sends behind t (StorageRefine.Found Bdb.DB_NOTFOUND None 0) MC_GET_DONE_STR.
Proof.
  intros [_ Hc _ Hl Hr]. apply sends_line. intros i st. unfold after_storage. cbn [set_thread_id query_request query_response].
  rewrite Hc, Hr. rewrite (proj2 (Z.eqb_neq _ _)) by apply notfound_nonzero.
  destruct (QueryProps.logged_line_run (set_state (set_response (set_thread_id t i) (QueryResponse [] 0 None 0 None 0)) s_get_failed)
    "get cmd failed"%string MC_GET_DONE_STR st [] [] eq_refl Hl) as (t' & Eb & H1).
  exists t'. eexists. split; [|exact H1]. unfold build_response. cbn [set_state state]. erewrite QueryProps.reply_bind by exact Eb. reflexivity.
Qed.

Lemma sends_value behind t k d :
  parsed t cmd_get k -> (length k <= 250)%nat -> Z.of_nat (length d) <= 2 ^ 26 ->
  sends behind t (StorageRefine.Found 0 (Some d) (Z.of_nat (length d))) (get_header k 0 (Z.of_nat (length d)) ++ d ++ MC_TERM_STR).
Proof.
  intros [_ Hc Hk Hl Hr] Hkl Hd i st. unfold finish, after_storage. cbn [set_thread_id query_request query_response].
  rewrite Hc, Hr. cbn [Z.eqb]. set (head := get_header k 0 (Z.of_nat (length d))).
  assert (Hh : (length head <= 511)%nat) by (apply QueryProps.get_header_length; [done|lia]).
  set (t' := set_response (set_state (set_thread_id t i) s_get_success)
    (QueryResponse head (Z.of_nat (length head)) (Some d) (Z.of_nat (length d)) (Some MC_TERM_STR) 2)).
  assert (Eb : build_response (set_state (set_response (set_thread_id t i)
      (QueryResponse [] 0 (Some d) (Z.of_nat (length d)) None 0)) s_get_success) (quiet st) = Ret t' (quiet st)).
  { unfold build_response. cbn [set_state state set_response query_request set_thread_id query_response resp_data_size].
    rewrite Hk. fold head. rewrite take_ge by exact Hh. reflexivity. }
  erewrite QueryProps.reply_bind by (erewrite QueryProps.reply_bind by exact Eb; reflexivity). cbn [fst snd].
  erewrite QueryProps.reply_bind by (apply (QueryProps.send_value behind t' head d st [] []); [reflexivity|done]). by eexists.
Qed.

(** Values small enough for their header. *)
Definition bounded (m : gmap (list Z) (list Z)) : Prop := forall k d, m !! k = Some d -> Z.of_nat (length d) <= 2 ^ 26.

(** A task asks the storage for its request, and answers as the map does. *)
Lemma task_asks behind n t r rq :
  carries t r -> request_ok n r -> storage_request behind t = Some rq ->
  StorageRefine.op_ok n (Interleave.request_op rq) /\
  forall m, (StorageRefine.spec_op (Interleave.request_op rq) m).2 = (answer r m).2 /\
    (bounded m -> sends behind t (StorageRefine.spec_op (Interleave.request_op rq) m).1 (answer r m).1).
Proof.
  intros Hc Hok Hrq. unfold storage_request in Hrq. destruct r as [k f e body|k|k|]; cbn [carries request_ok answer] in *.
  - destruct Hc as [fd Hc]. destruct Hok as (Hk & Hkb & Hbb & _ & _ & Hlen).
    pose proof (QueryProps.complete_parsed t fd k f e body Hk Hc) as Hp.
    rewrite (QueryProps.pa_status _ _ _ Hp), bool_decide_eq_true_2, (QueryProps.pa_cmd _ _ _ Hp), (key_of _ _ _ Hp) in Hrq by done.
    rewrite (AssignProps.co_data _ _ _ _ _ _ Hc), (AssignProps.co_size _ _ _ _ _ _ Hc) in Hrq.
    change (default [] (Some (body ++ crlf))) with (body ++ crlf) in Hrq. rewrite QueryProps.read_block_app in Hrq.
    injection Hrq as <-. split; [done|]. intros m. split; [done|]. intros _. by apply (sends_set behind t k 0).
  - destruct Hc as [fd Hc]. destruct Hok as (Hk & Hkb). pose proof (QueryProps.asked_parsed t fd cmd_get k Hk Hc) as Hp.
    rewrite (QueryProps.pa_status _ _ _ Hp), bool_decide_eq_true_2, (QueryProps.pa_cmd _ _ _ Hp), (key_of _ _ _ Hp),
      (QueryProps.pa_response _ _ _ Hp) in Hrq by done.
    injection Hrq as <-. split; [done|]. intros m. split; [done|]. intros Hb. cbn [Interleave.request_op StorageRefine.spec_op fst].
    destruct (m !! Storage.fixed_key k) as [d|] eqn:Em; [|by apply (sends_missing behind t k)].
    apply (sends_value behind t k d Hp); [destruct Hk as (_ & ? & _); lia|by apply (Hb (Storage.fixed_key k))].
  - destruct Hc as [fd Hc]. destruct Hok as (Hk & Hkb). pose proof (QueryProps.asked_parsed t fd cmd_delete k Hk Hc) as Hp.
    rewrite (QueryProps.pa_status _ _ _ Hp), bool_decide_eq_true_2, (QueryProps.pa_cmd _ _ _ Hp), (key_of _ _ _ Hp) in Hrq by done.
    injection Hrq as <-. split; [done|]. intros m. split; [done|]. intros _. cbn [Interleave.request_op StorageRefine.spec_op fst].
    pose proof (sends_delete behind t k (if decide (is_Some (m !! Storage.fixed_key k)) then 0 else Bdb.DB_NOTFOUND) Hp) as Hs.
    destruct (m !! Storage.fixed_key k) as [d|]; [by rewrite decide_True in * by eauto|].
    rewrite decide_False in * by (by intros []). rewrite (proj2 (Z.eqb_neq _ _)) in Hs by apply notfound_nonzero. exact Hs.
  - destruct Hc as [Hs _]. by rewrite bool_decide_eq_false_2 in Hrq.
Qed.

Lemma task_refused behind t r : carries t r -> storage_request behind t = None -> r = QueryProps.Malformed.
Proof.
  intros Hc Hrq. unfold storage_request in Hrq. destruct r as [k f e body|k|k|]; [| | |done]; destruct Hc as [fd [? ? ? Hr Hs Hcmd]];
    rewrite Hs, bool_decide_eq_true_2, Hcmd in Hrq by done; try done. by rewrite Hr in Hrq.
Qed.

(** ** Threads, tasks and services *)

Inductive slot (behind : Z -> Z) (n : Z) : option query_task_s -> Interleave.pending -> option service -> Prop :=
  | slot_idle : slot behind n None Interleave.Quiet None
  | slot_asked t rq r : carries t r -> request_ok n r -> storage_request behind t = Some rq ->
      slot behind n (Some t) (Interleave.Asked rq) (Some (Service (sock_fd t) r None))
  | slot_answered t v r bytes : sends behind t v bytes ->
      slot behind n (Some t) (Interleave.Answered v) (Some (Service (sock_fd t) r (Some bytes))).

(** The tasks of the threads, against the map's clients and the server's services. *)
Definition slots (behind : Z -> Z) (n : Z) (ts : list (option query_task_s)) (qs : list Interleave.pending) (cs : list (option service)) : Prop :=
  length ts = length qs /\ length cs = length qs /\
  forall i t q x, ts !! i = Some t -> qs !! i = Some q -> cs !! i = Some x -> slot behind n t q x.

Lemma slots_at behind n ts qs cs i q :
  slots behind n ts qs cs -> qs !! i = Some q -> exists t x, ts !! i = Some t /\ cs !! i = Some x /\ slot behind n t q x.
Proof.
  intros (H1 & H2 & Hs) Hi. pose proof (lookup_lt_Some _ _ _ Hi) as Hl.
  destruct (lookup_lt_is_Some_2 ts i ltac:(lia)) as [t Ht]. destruct (lookup_lt_is_Some_2 cs i ltac:(lia)) as [x Hx].
  exists t, x. split; [done|]. split; [done|]. by apply (Hs i).
Qed.

Lemma slots_set behind n ts qs cs i t q x :
  slots behind n ts qs cs -> slot behind n t q x -> slots behind n (<[i := t]> ts) (<[i := q]> qs) (<[i := x]> cs).
Proof.
  intros (H1 & H2 & Hs) Hn. unfold slots. rewrite !length_insert. split; [done|]. split; [done|]. intros j t' q' x' Ht Hq Hx.
  destruct (decide (j = i)) as [->|Hne].
  - apply list_lookup_insert_Some in Ht as [(_ & <- & _)|(? & _)]; [|done].
    apply list_lookup_insert_Some in Hq as [(_ & <- & _)|(? & _)]; [|done].
    by apply list_lookup_insert_Some in Hx as [(_ & <- & _)|(? & _)].
  - rewrite !list_lookup_insert_ne in * by done. by apply (Hs j).
Qed.

Lemma slots_same behind n ts qs cs i t q x :
  slots behind n ts qs cs -> ts !! i = Some t -> slot behind n t q x -> slots behind n ts (<[i := q]> qs) (<[i := x]> cs).
Proof. intros Hs Ht Hn. rewrite <- (list_insert_id ts i t Ht). by apply slots_set. Qed.

(** The map takes a step, and the server with it. *)
Lemma bounded_answer n r m : request_ok n r -> 1 <= n <= Storage.MAX_BLOCK_CNT -> bounded m -> bounded (answer r m).2.
Proof.
  intros Hok Hn Hb. destruct r as [k f e body|k|k|]; cbn [answer snd]; try done.
  - intros k' d. rewrite lookup_insert_Some. intros [[_ <-]|[_ Hd]]; [|by apply (Hb k')].
    destruct Hok as (_ & _ & _ & _ & _ & Hl). etransitivity; [exact Hl|]. apply StorageRefine.type_size_bound. lia.
  - intros k' d [_ Hd]%lookup_delete_Some. by apply (Hb k').
Qed.

Lemma act_served behind n ts (a a' : Interleave.atomic) ps cs :
  1 <= n <= Storage.MAX_BLOCK_CNT -> Interleave.atomic_step None a a' -> slots behind n ts (Interleave.clients a) cs -> bounded (Interleave.content a) ->
  exists cs', serve_step None (Server (Interleave.content a) ps cs) (Server (Interleave.content a') ps cs') /\
    slots behind n ts (Interleave.clients a') cs' /\ bounded (Interleave.content a').
Proof.
  intros Hn Hst Hs Hb. inversion Hst as [|m qs i rq Hi|]; subst. cbn [Interleave.clients Interleave.content] in *.
  destruct (slots_at behind n ts qs cs i _ Hs Hi) as (t & x & Ht & Hx & Hslot).
  inversion Hslot as [|t' rq' r Hc Hok Hrq|]; subst.
  destruct (task_asks behind n t' r rq Hc Hok Hrq) as (_ & Hspec). destruct (Hspec m) as [Em Hsend].
  exists (<[i := Some (Service (sock_fd t') r (Some (answer r m).1))]> cs). rewrite Em. split; [by constructor|].
  split; [|by apply (bounded_answer n)]. apply (slots_same _ _ _ _ _ _ (Some t')); [done|done|]. apply slot_answered. by apply Hsend.
Qed.

Lemma acts_served behind n ts (a a' : Interleave.atomic) ps cs :
  1 <= n <= Storage.MAX_BLOCK_CNT -> runs Interleave.atomic_step a [] a' -> slots behind n ts (Interleave.clients a) cs -> bounded (Interleave.content a) ->
  exists cs', runs serve_step (Server (Interleave.content a) ps cs) [] (Server (Interleave.content a') ps cs') /\
    slots behind n ts (Interleave.clients a') cs' /\ bounded (Interleave.content a').
Proof.
  intros Hn Hr. remember (@nil Interleave.event) as h eqn:Eh. revert cs. induction Hr as [a|a a1 h a' Hst Hr IH|]; intros cs Hs Hb; [| |done].
  - exists cs. split; [apply runs_nil|done].
  - destruct (act_served behind n ts a a1 ps cs Hn Hst Hs Hb) as (cs1 & H1 & Hs1 & Hb1).
    destruct (IH Eh cs1 Hs1 Hb1) as (cs' & H' & Hs' & Hb'). exists cs'. split; [|done]. by eapply runs_silent.
Qed.

(** ** The simulation *)

Lemma runs_event_split {C E} (R : option E -> C -> C -> Prop) c e c' :
  runs R c [e] c' -> exists c1 c2, runs R c [] c1 /\ R (Some e) c1 c2 /\ runs R c2 [] c'.
Proof.
  remember [e] as h eqn:Eh. intros Hr. induction Hr as [|c c1 h c' Hs Hr IH|e' c c1 h c' Hs Hr IH]; [done| |].
  - destruct (IH Eh) as (c2 & c3 & H1 & H2 & H3). exists c2, c3. split; [by eapply runs_silent|done].
  - injection Eh as -> ->. exists c, c1. split; [apply runs_nil|done].
Qed.

Lemma linked_less n k b b' (c : Interleave.config DB) a : (b' <= b)%nat -> Linear.linked n k b c a -> Linear.linked n k b' c a.
Proof.
  intros Hb [H1 H2 H3 H4 H5]. split; try done.
  - intros i t q Ht Hq. destruct (H4 i t q Ht Hq) as (v & Hv & Hok). exists v. split; [done|].
    revert Hok. apply Linear.thread_ok_same; [lia|by right].
  - intros Hn. eapply Linear.settled_less, H5, Hn. lia.
Qed.

(** The tasks still in the pipes. *)
Definition waiting (ps : list (list query_task_s)) : nat := length (concat ps).
Lemma waiting_insert ps i q q' : ps !! i = Some q -> (waiting (<[i := q']> ps) + length q = waiting ps + length q')%nat.
Proof.
  unfold waiting. revert i; induction ps as [|p ps IH]; intros [|i] Hi; try done.
  - injection Hi as ->. change (<[0%nat := q']> (q :: ps)) with (q' :: ps). cbn [concat]. rewrite !length_app. lia.
  - change (<[S i := q']> (p :: ps)) with (p :: <[i := q']> ps). cbn [concat]. rewrite !length_app. specialize (IH i Hi). lia.
Qed.

Lemma waiting_none k : waiting (replicate k []) = 0%nat.
Proof. induction k as [|k IH]; [done|exact IH]. Qed.

Definition queue_ok (n : Z) (t : query_task_s) (x : Z * QueryProps.request) : Prop :=
  sock_fd t = x.1 /\ carries t x.2 /\ request_ok n x.2.

Section Simulation.
Context (behind : Z -> Z) (n : Z) (k : nat) (Hn : 1 <= n <= Storage.MAX_BLOCK_CNT).

Record pooled (b : nat) (c : pool DB) (s : server) (a : Interleave.atomic) : Prop := {
  po_linked : Linear.linked n k (b + waiting (pipes c)) (inner c) a;
  po_content : content s = Interleave.content a;
  po_bounded : bounded (Interleave.content a);
  po_slots : slots behind n (serving c) (Interleave.clients a) (current s);
  po_queues : Forall2 (Forall2 (queue_ok n)) (pipes c) (queued s)
}.

(** The pipe of thread [i], in front. *)
Lemma queue_front ps qs i t q :
  Forall2 (Forall2 (queue_ok n)) ps qs -> ps !! i = Some (t :: q) ->
  exists r q', qs !! i = Some ((sock_fd t, r) :: q') /\ carries t r /\ request_ok n r /\
    Forall2 (Forall2 (queue_ok n)) (<[i := q]> ps) (<[i := q']> qs).
Proof.
  intros Hq Hi. destruct (Forall2_lookup_l _ _ _ _ _ Hq Hi) as (l & Hl & Hf).
  inversion Hf as [|? [fd r] ? q' (E & Hc & Hok) Hf']; subst. cbn in E, Hc, Hok. subst fd.
  exists r, q'. split; [done|]. split; [done|]. split; [done|]. by apply Forall2_insert.
Qed.

Lemma dispatch_simulated b ps ts c i q t fd r s a :
  pooled (S b) (Threads ps ts c) s a -> request_ok n r -> ps !! i = Some q -> carries t r -> sock_fd t = fd ->
  exists s', runs serve_step s [Dispatched i fd r] s' /\ pooled b (Threads (<[i := q ++ [t]]> ps) ts c) s' a.
Proof.
  intros [Hlk Hc Hb Hs Hq] Hok Hi Hcar Hfd. destruct s as [m qs cs]. cbn [pipes serving inner content current queued] in *.
  destruct (Forall2_lookup_l _ _ _ _ _ Hq Hi) as (l & Hl & Hf).
  exists (Server m (<[i := l ++ [(fd, r)]]> qs) cs). split; [apply (runs_one _ (Some _)); by constructor|].
  pose proof (waiting_insert ps i q (q ++ [t]) Hi) as Hw. rewrite length_app in Hw. cbn [length] in Hw.
  split; cbn [pipes serving inner content current queued]; try done.
  - revert Hlk. apply linked_less. lia.
  - apply Forall2_insert; [done|]. apply Forall2_app; [done|]. by repeat constructor.
Qed.

Lemma take_simulated b ps ts c c' i t q rq s a :
  pooled b (Threads ps ts c) s a -> ps !! i = Some (t :: q) -> ts !! i = Some None -> storage_request behind t = Some rq ->
  Interleave.moves (Some (Interleave.Called i rq)) c c' ->
  exists s' a', runs serve_step s [] s' /\ pooled b (Threads (<[i := q]> ps) (<[i := Some t]> ts) c') s' a'.
Proof.
  intros [Hlk Hc Hb Hs Hq] Hi Ht Hrq Hm. destruct s as [m qs cs]. cbn [pipes serving inner content current queued] in *. subst m.
  destruct (queue_front ps qs i t q Hq Hi) as (r & q' & Hl & Hcar & Hok & Hq').
  destruct (task_asks behind n t r rq Hcar Hok Hrq) as (Hop & _).
  pose proof (waiting_insert ps i (t :: q) q Hi) as Hw. cbn [length] in Hw.
  destruct (Linear.moves_simulated n k (b + waiting (<[i := q]> ps)) _ c c' a Hm) as (a' & Hr & Hlk').
  { by intros e [= <-]. }
  { revert Hlk. apply linked_less. change (length (option_list (Some (Interleave.Called i rq)))) with 1%nat. lia. }
  apply runs_event_split in Hr as (a1 & a2 & Hr1 & Hcall & Hr2).
  destruct (acts_served behind n ts a a1 qs cs Hn Hr1 Hs Hb) as (cs1 & Hv1 & Hs1 & Hb1).
  inversion Hcall as [m1 ql i' r' Hqi| |]; subst. cbn in *.
  destruct (slots_at behind n ts ql cs1 i _ Hs1 Hqi) as (t1 & x & Ht1 & Hx & Hslot). rewrite Ht in Ht1. injection Ht1 as <-.
  inversion Hslot; subst.
  pose proof (slots_set behind n ts ql cs1 i (Some t) _ _ Hs1 (slot_asked behind n t rq r Hcar Hok Hrq)) as Hs2.
  destruct (acts_served behind n _ _ a' (<[i := q']> qs) _ Hn Hr2 Hs2 Hb1) as (cs' & Hv2 & Hs' & Hb').
  exists (Server (Interleave.content a') (<[i := q']> qs) cs'), a'. split; [|by split].
  eapply (runs_trans _ _ [] _ []); [exact Hv1|]. eapply runs_silent; [by apply (serve_take _ _ _ i (sock_fd t) r q')|exact Hv2].
Qed.

Lemma refuse_simulated b ps ts c i t q w s a :
  pooled b (Threads ps ts c) s a -> ps !! i = Some (t :: q) -> ts !! i = Some None -> storage_request behind t = None ->
  pipe_event_handler behind (Z.of_nat i) true (Some t) (quiet (Interleave.store c)) = Ret tt w ->
  exists s', runs serve_step s [Sent (sock_fd t) (output w)] s' /\ pooled b (Threads (<[i := q]> ps) ts c) s' a.
Proof.
  intros [Hlk Hc Hb Hs Hq] Hi Ht Hrq Hw. destruct s as [m qs cs]. cbn [pipes serving inner content current queued] in *. subst m.
  destruct (queue_front ps qs i t q Hq Hi) as (r & q' & Hl & Hcar & Hok & Hq').
  pose proof (task_refused behind t r Hcar Hrq) as ->.
  destruct (QueryProps.serve_malformed behind (Z.of_nat i) t (Interleave.store c) [] [] Hcar) as (t' & E).
  change (QueryProps.calm (Interleave.store c) [] []) with (quiet (Interleave.store c)) in E. rewrite E in Hw. injection Hw as <-.
  pose proof (waiting_insert ps i (t :: q) q Hi) as Hwt. cbn [length] in Hwt.
  assert (Hcs : cs !! i = Some None).
  { destruct Hs as (H1 & H2 & Hsl). pose proof (lookup_lt_Some _ _ _ Ht) as Hlt.
    destruct (lookup_lt_is_Some_2 (Interleave.clients a) i ltac:(lia)) as [p Hp].
    destruct (lookup_lt_is_Some_2 cs i ltac:(lia)) as [x Hx]. pose proof (Hsl i _ _ _ Ht Hp Hx) as Hslot. by inversion Hslot; subst. }
  pose proof (lookup_lt_Some _ _ _ Hcs) as Hlt.
  exists (Server (Interleave.content a) (<[i := q']> qs) cs). split.
  - eapply runs_silent; [by apply (serve_take _ _ _ i (sock_fd t) QueryProps.Malformed q')|].
    eapply runs_silent; [apply (serve_act _ _ _ i (sock_fd t) QueryProps.Malformed), list_lookup_insert_eq; done|].
    eapply runs_event; [apply (serve_send _ _ _ i (sock_fd t) QueryProps.Malformed), list_lookup_insert_eq; by rewrite length_insert|].
    rewrite !list_insert_insert_eq, (list_insert_id cs) by done. apply runs_nil.
  - split; cbn [pipes serving inner content current queued]; try done. revert Hlk. apply linked_less. lia.
Qed.

Lemma access_simulated b ps ts c c' s a :
  pooled b (Threads ps ts c) s a -> Interleave.moves None c c' ->
  exists s' a', runs serve_step s [] s' /\ pooled b (Threads ps ts c') s' a'.
Proof.
  intros [Hlk Hc Hb Hs Hq] Hm. destruct s as [m qs cs]. cbn [pipes serving inner content current queued] in *. subst m.
  destruct (Linear.moves_simulated n k (b + waiting ps) None c c' a Hm) as (a' & Hr & Hlk'); [done|exact Hlk|].
  destruct (acts_served behind n ts a a' qs cs Hn Hr Hs Hb) as (cs' & Hv & Hs' & Hb'). exists (Server (Interleave.content a') qs cs'), a'. split; [exact Hv|by split].
Qed.

(** A return costs nothing: it takes no room in the storage. *)
Lemma return_simulated b c c' a i v :
  Interleave.moves (DB := DB) (Some (Interleave.Returned i v)) c c' -> Linear.linked n k b c a ->
  exists a', runs Interleave.atomic_step a [Interleave.Returned i v] a' /\ Linear.linked n k b c' a'.
Proof.
  intros [Hs|[Hs _]] Hlk; [|done]. inversion Hs as [|st L ts i' v' Hi| | |]; subst.
  by apply (Linear.sim_return n k b b st L ts i v a).
Qed.

(** A thread whose storage operation returns has a task, and its answer can be sent. *)
Lemma answer_ready b ps ts c c' i v s a :
  pooled b (Threads ps ts c) s a -> Interleave.moves (Some (Interleave.Returned i v)) c c' ->
  exists t w, ts !! i = Some (Some t) /\ finish behind (Z.of_nat i) t v (quiet (Interleave.store c')) = Ret tt w.
Proof.
  intros [Hlk Hc Hb Hs Hq] Hm. destruct (return_simulated _ c c' a i v Hm Hlk) as (a' & Hr & _).
  apply runs_event_split in Hr as (a1 & a2 & Hr1 & Hret & _).
  destruct (acts_served behind n ts a a1 (queued s) (current s) Hn Hr1 Hs Hb) as (cs1 & _ & Hs1 & _).
  inversion Hret as [| |m1 ql i' v' Hqi]; subst. cbn in *.
  destruct (slots_at behind n ts ql cs1 i _ Hs1 Hqi) as (t & x & Ht & _ & Hslot).
  inversion Hslot as [| |t' v' r bytes Hsend]; subst. destruct (Hsend (Z.of_nat i) (Interleave.store c')) as (w & Ew & _). by exists t', w.
Qed.

Lemma answer_simulated b ps ts c c' i t v w s a :
  pooled b (Threads ps ts c) s a -> ts !! i = Some (Some t) -> Interleave.moves (Some (Interleave.Returned i v)) c c' ->
  finish behind (Z.of_nat i) t v (quiet (Interleave.store c')) = Ret tt w ->
  exists s' a', runs serve_step s [Sent (sock_fd t) (output w)] s' /\ pooled b (Threads ps (<[i := None]> ts) c') s' a'.
Proof.
  intros [Hlk Hc Hb Hs Hq] Ht Hm Hw. destruct s as [m qs cs]. cbn [pipes serving inner content current queued] in *. subst m.
  destruct (return_simulated (b + waiting ps) c c' a i v Hm Hlk) as (a' & Hr & Hlk').
  apply runs_event_split in Hr as (a1 & a2 & Hr1 & Hret & Hr2).
  destruct (acts_served behind n ts a a1 qs cs Hn Hr1 Hs Hb) as (cs1 & Hv1 & Hs1 & Hb1).
  inversion Hret as [| |m1 ql i' v' Hqi]; subst. cbn in *.
  destruct (slots_at behind n ts ql cs1 i _ Hs1 Hqi) as (t1 & x & Ht1 & Hx & Hslot). rewrite Ht in Ht1. injection Ht1 as <-.
  inversion Hslot as [| |t' v' r bytes Hsend]; subst.
  destruct (Hsend (Z.of_nat i) (Interleave.store c')) as (w' & Ew & Eb). rewrite Ew in Hw. injection Hw as ->. subst bytes.
  pose proof (slots_set behind n ts ql cs1 i None _ _ Hs1 (slot_idle behind n)) as Hs2.
  destruct (acts_served behind n _ _ a' qs _ Hn Hr2 Hs2 Hb1) as (cs' & Hv2 & Hs' & Hb').
  exists (Server (Interleave.content a') qs cs'), a'. split; [|by split].
  eapply (runs_trans _ _ [] _ [_]); [exact Hv1|]. eapply runs_event; [by apply (serve_send _ _ _ i (sock_fd t) r)|exact Hv2].
Qed.

Lemma pooled_less b b' c s a : (b' <= b)%nat -> pooled b c s a -> pooled b' c s a.
Proof. intros Hb [Hlk H1 H2 H3 H4]. split; try done. revert Hlk. apply linked_less. lia. Qed.

Lemma pool_simulated b o c c' s :
  pool_step Interleave.moves behind o c c' -> (forall e, o = Some e -> wire_ok n e) -> (exists a, pooled (length (option_list o) + b) c s a) ->
  exists s', runs serve_step s (option_list o) s' /\ exists a', pooled b c' s' a'.
Proof.
  intros Hst Hok (a & Hp). pose proof (pooled_less (length (option_list o) + b) b c s a ltac:(lia) Hp) as Hp'. destruct Hst.
  - destruct (dispatch_simulated b ps ts c i q t fd r s a) as (s' & Hr & Hp2); eauto. by apply (Hok _ eq_refl).
  - destruct (take_simulated b ps ts c c' i t q rq s a) as (s' & a' & Hr & Hp2); eauto.
  - destruct (refuse_simulated b ps ts c i t q w s a) as (s' & Hr & Hp2); eauto.
  - destruct (access_simulated b ps ts c c' s a) as (s' & a' & Hr & Hp2); eauto.
  - destruct (answer_simulated b ps ts c c' i t v w s a) as (s' & a' & Hr & Hp2); eauto.
Qed.

Lemma pool_start_pooled b (st : Storage.state DB) m :
  QueryProps.ready n (Z.of_nat b) st m -> StorageThreads.free st = st -> Z.of_nat k + 1 < 2 ^ 64 ->
  pooled b (pool_start k st) (serve_start k m) (Interleave.atomic_start k m).
Proof.
  intros Hr Hf Hk. pose proof (waiting_none k) as Hw.
  split; cbn [pipes serving inner content current queued pool_start serve_start Interleave.atomic_start Interleave.content Interleave.clients].
  - rewrite Hw, Nat.add_0_r. apply Linear.start_linked; [|done]. destruct Hr as (H1 & H2 & H3). by split.
  - done.
  - intros key d. by apply (QueryProps.stored_bound n (Z.of_nat b) st m).
  - split; [by rewrite !length_replicate|]. split; [by rewrite !length_replicate|]. intros i t q x Ht Hq Hx.
    apply lookup_replicate in Ht as [-> _]. apply lookup_replicate in Hq as [-> _]. apply lookup_replicate in Hx as [-> _]. constructor.
  - apply Forall2_replicate. constructor.
Qed.

(** ** Every dispatched request can be answered *)

(** When no thread serves, nobody is inside of the storage. *)
Lemma idle_resting b c s a : pooled b c s a -> Forall (eq None) (serving c) -> Interleave.resting (inner c).
Proof.
  intros [Hlk _ _ Hs _] Hn0. apply Forall_lookup. intros i t Ht. destruct (Linear.lk_threads _ _ _ _ _ Hlk) as (H1 & H2 & _).
  destruct (lookup_lt_is_Some_2 (Interleave.clients a) i) as [q Hq]; [apply lookup_lt_Some in Ht; lia|].
  destruct (slots_at behind n _ _ _ i q Hs Hq) as (t' & x & Ht' & _ & Hslot).
  rewrite <- (proj1 (Forall_lookup _ _) Hn0 i t' Ht') in Hslot. inversion Hslot; subst.
  destruct (Linear.lk_thread _ _ _ _ _ Hlk i t _ Ht Hq) as (v & _ & Hok). by inversion Hok.
Qed.
Lemma resting_idle b c s a : pooled b c s a -> Interleave.resting (inner c) -> Forall (eq None) (serving c).
Proof.
  intros [Hlk _ _ Hs _] Hr. apply Forall_lookup. intros i t Ht. destruct (Linear.lk_threads _ _ _ _ _ Hlk) as (H1 & H2 & _).
  destruct Hs as (H3 & H4 & Hs).
  destruct (lookup_lt_is_Some_2 (Interleave.clients a) i) as [q Hq]; [apply lookup_lt_Some in Ht; lia|].
  destruct (lookup_lt_is_Some_2 (current s) i) as [x Hx]; [apply lookup_lt_Some in Hq; lia|].
  destruct (lookup_lt_is_Some_2 (Interleave.threads (inner c)) i) as [th Hth]; [apply lookup_lt_Some in Hq; lia|].
  rewrite <- (proj1 (Forall_lookup _ _) Hr i th Hth) in Hth.
  destruct (Linear.lk_thread _ _ _ _ _ Hlk i _ q Hth Hq) as (v & _ & Hok). inversion Hok; subst.
  pose proof (Hs i t _ x Ht Hq Hx) as Hslot. by inversion Hslot.
Qed.

(** The storage operations under way return, and their answers are sent. *)
Lemma returns_sent b ci h ci' : runs Interleave.step ci h ci' -> Forall Progress.is_return h ->
  forall ps ts s a, pooled b (Threads ps ts ci) s a ->
  exists h' ts' s' a', runs (pool_step Interleave.step behind) (Threads ps ts ci) h' (Threads ps ts' ci') /\
    pooled b (Threads ps ts' ci') s' a' /\ Forall is_sent h'.
Proof.
  induction 1 as [ci|ci c1 h ci' Hst Hr IH|e ci c1 h ci' Hst Hr IH]; intros Hh ps ts s a Hp.
  - exists [], ts, s, a. split; [apply runs_nil|done].
  - destruct (access_simulated b ps ts ci c1 s a Hp ltac:(by left)) as (s1 & a1 & _ & Hp1).
    destruct (IH Hh ps ts s1 a1 Hp1) as (h' & ts' & s' & a' & Hr' & Hrest). exists h', ts', s', a'. split; [|done].
    eapply runs_silent; [|exact Hr']. by apply pool_access.
  - apply Forall_cons in Hh as [He Hh]. destruct e as [|i v]; [done|].
    destruct (answer_ready b ps ts ci c1 i v s a Hp ltac:(by left)) as (t & w & Ht & Ew).
    destruct (answer_simulated b ps ts ci c1 i t v w s a Hp Ht ltac:(by left) Ew) as (s1 & a1 & _ & Hp1).
    destruct (IH Hh ps _ s1 a1 Hp1) as (h' & ts' & s' & a' & Hr' & Hp' & Hs').
    exists (Sent (sock_fd t) (output w) :: h'), ts', s', a'. split; [|split; [done|by constructor]].
    eapply runs_event; [|exact Hr']. by apply (pool_answer _ _ _ _ _ _ i t v w Ht).
Qed.

(** One more task leaves its pipe, when nobody serves. *)
Lemma next_task b c s a i t q :
  pooled b c s a -> length (pipes c) = length (serving c) -> Forall (eq None) (serving c) -> pipes c !! i = Some (t :: q) ->
  exists h c' s' a', runs (pool_step Interleave.step behind) c h c' /\ pooled b c' s' a' /\ Forall is_sent h /\ pipes c' = <[i := q]> (pipes c).
Proof.
  intros Hp Hw Hidle Hi. pose proof (idle_resting b c s a Hp Hidle) as Hrest. destruct c as [ps ts [st L ths]].
  cbn [pipes serving inner] in *. unfold Interleave.resting in Hrest. cbn [Interleave.threads] in Hrest.
  destruct (queue_front ps (queued s) i t q (po_queues _ _ _ _ Hp) Hi) as (r & q' & _ & Hcar & Hok & _).
  assert (Ht : ts !! i = Some None).
  { destruct (lookup_lt_is_Some_2 ts i) as [x Hx]; [rewrite <- Hw; by eapply lookup_lt_Some|].
    by rewrite Hx, <- (proj1 (Forall_lookup _ _) Hidle i x Hx). }
  destruct (storage_request behind t) as [rq|] eqn:Hrq.
  - assert (Hth : ths !! i = Some Interleave.Resting).
    { destruct (po_slots _ _ _ _ Hp) as (H1 & _). destruct (Linear.lk_threads _ _ _ _ _ (po_linked _ _ _ _ Hp)) as (H2 & H3 & _).
      cbn in H1, H2, H3. destruct (lookup_lt_is_Some_2 ths i) as [x Hx]; [apply lookup_lt_Some in Ht; lia|].
      by rewrite Hx, <- (proj1 (Forall_lookup _ _) Hrest i x Hx). }
    assert (Hm : Interleave.step (Some (Interleave.Called i rq)) (Interleave.Config st L ths)
      (Interleave.Config st L (<[i := Interleave.Serving (Interleave.body rq)]> ths))) by (by constructor).
    destruct (take_simulated b ps ts _ _ i t q rq s a Hp Hi Ht Hrq (or_introl Hm)) as (s' & a' & _ & Hp').
    eexists [], _, s', a'. split; [|split; [exact Hp'|done]]. eapply runs_silent; [by eapply pool_take|apply runs_nil].
  - pose proof (task_refused behind t r Hcar Hrq) as ->.
    destruct (QueryProps.serve_malformed behind (Z.of_nat i) t st [] [] Hcar) as (t' & E).
    destruct (refuse_simulated b ps ts _ i t q _ s a Hp Hi Ht Hrq E) as (s' & _ & Hp').
    eexists [Sent (sock_fd t) _], _, s', a. split; [|split; [exact Hp'|split; [apply Forall_singleton; exact I|done]]].
    eapply runs_event; [by eapply (pool_refuse _ behind ps ts (Interleave.Config st L ths) i t q)|apply runs_nil].
Qed.

End Simulation.

(** ** Counting *)

(** Dispatched and not yet answered. *)
Definition outstanding (c : pool DB) : nat := (waiting (pipes c) + length (omap id (serving c)))%nat.

Lemma serving_insert {A} (ts : list (option A)) i x y : ts !! i = Some x ->
  (length (omap id (<[i := y]> ts)) + length (option_list x) = length (omap id ts) + length (option_list y))%nat.
Proof.
  revert i; induction ts as [|z ts IH]; intros [|i] Hi; try done.
  - injection Hi as ->. change (<[0%nat := y]> (x :: ts)) with (y :: ts). destruct x, y; cbn; lia.
  - change (<[S i := y]> (z :: ts)) with (z :: <[i := y]> ts). specialize (IH i Hi). destruct z; cbn in *; lia.
Qed.

Lemma step_counts R behind o c c' : pool_step (DB := DB) R behind o c c' -> length (pipes c) = length (serving c) ->
  length (pipes c') = length (serving c') /\
  (outstanding c + match o with Some (Dispatched _ _ _) => 1 | _ => 0 end = outstanding c' + match o with Some (Sent _ _) => 1 | _ => 0 end)%nat.
Proof.
  intros Hst Hw. destruct Hst as [ps ts ci i q t fd r Hi|ps ts ci ci' i t q rq Hi Ht|ps ts ci i t q w Hi Ht|ps ts ci ci'|ps ts ci ci' i t v w Ht];
    cbn [pipes serving] in *; rewrite ?length_insert; (split; [done|]); unfold outstanding; cbn [pipes serving].
  - pose proof (waiting_insert ps i q (q ++ [t]) Hi) as E. rewrite length_app in E. cbn [length] in E. lia.
  - pose proof (waiting_insert ps i (t :: q) q Hi) as E. pose proof (serving_insert ts i None (Some t) Ht) as E'. cbn in E, E'. lia.
  - pose proof (waiting_insert ps i (t :: q) q Hi) as E. cbn [length] in E. lia.
  - lia.
  - pose proof (serving_insert ts i (Some t) None Ht) as E'. cbn in E'. lia.
Qed.

Lemma runs_width R behind c h c' : runs (pool_step (DB := DB) R behind) c h c' -> length (pipes c) = length (serving c) ->
  length (pipes c') = length (serving c').
Proof. induction 1 as [|c c1 h c' Hs _ IH|e c c1 h c' Hs _ IH]; intros Hw; [done|apply IH, (step_counts R behind _ c c1 Hs Hw)..]. Qed.

Lemma sent_counts R behind c h c' : runs (pool_step (DB := DB) R behind) c h c' -> Forall is_sent h -> length (pipes c) = length (serving c) ->
  outstanding c = (length h + outstanding c')%nat.
Proof.
  induction 1 as [|c c1 h c' Hs _ IH|e c c1 h c' Hs _ IH]; intros Hh Hw; [done|..].
  - destruct (step_counts _ _ _ _ _ Hs Hw) as [Hw1 E]. rewrite <- (IH Hh Hw1). lia.
  - apply Forall_cons in Hh as [He Hh]. destruct e as [|fd bytes]; [done|].
    destruct (step_counts _ _ _ _ _ Hs Hw) as [Hw1 E]. cbn [length]. specialize (IH Hh Hw1). lia.
Qed.

Lemma pool_done_outstanding (c : pool DB) : pool_done c -> outstanding c = 0%nat.
Proof.
  intros [Hp Hs]. unfold outstanding, waiting. destruct c as [ps ts ci]. cbn [pipes serving] in *.
  assert (E : length (concat ps) = 0%nat) by (induction Hp as [|p ps <- _ IH]; done).
  assert (E' : length (omap id ts) = 0%nat) by (induction Hs as [|t ts <- _ IH]; done). lia.
Qed.

(** A pipe that is not empty, if there is one. *)
Lemma some_waiting (ps : list (list query_task_s)) : Forall (eq []) ps \/ exists i t q, ps !! i = Some (t :: q).
Proof.
  induction ps as [|[|t q] ps [IH|(i & t' & q' & Hi)]]; [by left|left; by constructor|right; by exists (S i), t', q'|right; by exists 0%nat, t, q..].
Qed.

Lemma drain behind n k b m c s a : 1 <= n <= Storage.MAX_BLOCK_CNT ->
  waiting (pipes c) = m -> pooled behind n k b c s a -> length (pipes c) = length (serving c) ->
  exists h c', runs (pool_step Interleave.step behind) c h c' /\ Forall is_sent h /\ pool_done c'.
Proof.
  intros Hn. revert c s a. induction m as [m IH] using lt_wf_ind. intros c s a Hm Hp Hw. destruct c as [ps ts ci].
  destruct (Progress.all_return _ _ _ _ _ (po_linked _ _ _ _ _ _ _ Hp)) as (hr & ci' & a0 & Hr & _ & Hh & _ & Hrest). cbn [inner] in Hr.
  destruct (returns_sent behind n k Hn b ci hr ci' Hr Hh ps ts s a Hp) as (h1 & ts1 & s1 & a1 & Hr1 & Hp1 & Hs1).
  pose proof (resting_idle behind n k b _ s1 a1 Hp1 Hrest) as Hidle. pose proof (runs_width _ _ _ _ _ Hr1 Hw) as Hw1.
  destruct (some_waiting ps) as [Hno|(i & t & q & Hi)]; [by exists h1, (Threads ps ts1 ci')|].
  destruct (next_task behind n k Hn b _ s1 a1 i t q Hp1 Hw1 Hidle Hi) as (h2 & c2 & s2 & a2 & Hr2 & Hp2 & Hs2 & Eps).
  pose proof (waiting_insert ps i (t :: q) q Hi) as Ew. cbn [length pipes] in *.
  destruct (IH (waiting (pipes c2))) with (c := c2) (s := s2) (a := a2) as (h3 & c3 & Hr3 & Hs3 & Hd); try done.
  { rewrite Eps. lia. }
  { exact (runs_width _ _ _ _ _ Hr2 Hw1). }
  exists (h1 ++ h2 ++ h3), c3. split; [|split; [by repeat (apply Forall_app; split)|done]].
  eapply runs_trans; [exact Hr1|]. by eapply runs_trans.
Qed.

Lemma stepped_moves behind c h c' : runs (pool_step (DB := DB) Interleave.step behind) c h c' -> runs (pool_step Interleave.moves behind) c h c'.
Proof.
  assert (Hst : forall o c c', pool_step (DB := DB) Interleave.step behind o c c' -> pool_step Interleave.moves behind o c c').
  { intros o c1 c2 Hs. destruct Hs; [econstructor 1|econstructor 2|econstructor 3|econstructor 4|econstructor 5]; eauto; by left. }
  induction 1; [apply runs_nil|eapply runs_silent|eapply runs_event]; eauto.
Qed.

Lemma history_pooled behind n k (st : Storage.state DB) m h c :
  QueryProps.ready n (Z.of_nat (length h)) st m -> StorageThreads.free st = st -> Z.of_nat k + 1 < 2 ^ 64 ->
  Forall (wire_ok n) h -> runs (pool_step Interleave.moves behind) (pool_start k st) h c ->
  length (pipes c) = length (serving c) /\
  exists s, runs serve_step (serve_start k m) h s /\ exists a, pooled behind n k 0 c s a.
Proof.
  intros Hr Hf Hk Hok Hrun. pose proof (QueryProps.ready_count _ _ _ _ Hr) as Hn. split.
  { apply (runs_width _ _ _ _ _ Hrun). cbn. by rewrite !length_replicate. }
  refine (Interleave.runs_simulation (pool_step Interleave.moves behind) serve_step (wire_ok n) (fun b c s => exists a, pooled behind n k b c s a)
    _ _ h c Hrun Hok 0%nat (serve_start k m) _).
  - intros b o c1 c2 s Hst Ho Hp. by apply (pool_simulated behind n k Hn b o c1).
  - exists (Interleave.atomic_start k m). apply pool_start_pooled; try done. by rewrite Nat.add_0_r.
Qed.

(** C6: the whole pool of query threads is linearizable up to the bytes on the
    sockets. Tasks of requests that arrived complete are written to the pipes
    at any time; each thread takes them in order and serves one at a time,
    while the accesses to the storage of all threads interleave in any way.
    Then the history of dispatched requests and of the bytes sent is one of a
    server that lets each request take effect on a map at one moment between
    its dispatch and its answer; and when every request was answered the
    storage represents the map of that server. *)
Theorem server_linearizable behind n k (st : Storage.state DB) m h c :
  QueryProps.ready n (Z.of_nat (length h)) st m -> StorageThreads.free st = st -> Z.of_nat k + 1 < 2 ^ 64 ->
  Forall (wire_ok n) h -> runs (pool_step Interleave.moves behind) (pool_start k st) h c ->
  exists s, runs serve_step (serve_start k m) h s /\
    (pool_done c -> StorageRefine.represents (Interleave.store (inner c)) (content s)).
Proof.
  intros Hr Hf Hk Hok Hrun. destruct (history_pooled behind n k st m h c Hr Hf Hk Hok Hrun) as (_ & s & Hs & a & Hp).
  exists s. split; [done|]. intros [_ Hd]. rewrite (po_content _ _ _ _ _ _ _ Hp).
  apply (Linear.resting_settled _ _ _ _ _ (po_linked _ _ _ _ _ _ _ Hp) (idle_resting _ _ _ _ _ _ _ Hp Hd)).
Qed.

(** C11: no request is lost: wherever the threads stand, they can go on, with
    nothing more arriving and without a spurious wake-up, until every request that
    was dispatched has had its answer sent, one answer each; memory is there, the
    system is quiet and the clients take their answers. *)
Theorem server_progress behind n k (st : Storage.state DB) m h c :
  QueryProps.ready n (Z.of_nat (length h)) st m -> StorageThreads.free st = st -> Z.of_nat k + 1 < 2 ^ 64 ->
  Forall (wire_ok n) h -> runs (pool_step Interleave.moves behind) (pool_start k st) h c ->
  exists h' c', runs (pool_step Interleave.step behind) c h' c' /\ Forall is_sent h' /\ length h' = outstanding c /\ pool_done c'.
Proof.
  intros Hr Hf Hk Hok Hrun. destruct (history_pooled behind n k st m h c Hr Hf Hk Hok Hrun) as (Hw & s & _ & a & Hp).
  destruct (drain behind n k 0 _ c s a (QueryProps.ready_count _ _ _ _ Hr) eq_refl Hp Hw) as (h' & c' & Hr' & Hs' & Hd).
  exists h', c'. split; [done|]. split; [done|]. split; [|done].
  rewrite (sent_counts _ behind c h' c' Hr' Hs' Hw), (pool_done_outstanding c' Hd). lia.
Qed.

End Answers.
(** ** Two threads: a value is stored while the same key is looked up *)

Import MapDB.
Import CString (str).

Definition ex_set : QueryProps.request := QueryProps.Set_ (str "key") 0 0 [1; 2; 3].
Definition ex_set_task : query_task_s :=
  QueryTask 8 0 None s_dispatch_query_task 0 0 false false
    (QueryRequest [] 0 (Some ([1; 2; 3] ++ crlf)) 3 cmd_set ps_succ 0 0 (key_field (str "key"))) zero_response.
Definition ex_get_task : query_task_s := QueryProps.ex_task cmd_get (str "key").

Definition ex_wires : list wire := [Dispatched 0 8 ex_set; Dispatched 1 9 (QueryProps.Get (str "key"))].
Definition ex_waiting (st : Storage.state (gmap (list Z) (list Z))) : pool (gmap (list Z) (list Z)) :=
  Threads [[ex_set_task]; [ex_get_task]] [None; None] (Interleave.start 2 st).

Lemma ex_set_carries : carries ex_set_task ex_set.
Proof. exists 8. split; vm_compute; reflexivity. Qed.

Lemma ex_dispatch st : runs (pool_step Interleave.moves (fun _ => 0)) (pool_start 2 st) ex_wires (ex_waiting st).
Proof.
  eapply runs_event; [apply (pool_dispatch _ _ _ _ _ 0 [] ex_set_task); [done|apply ex_set_carries|done]|].
  eapply runs_event; [apply (pool_dispatch _ _ _ _ _ 1 [] ex_get_task); [done|apply QueryProps.ex_carries|done]|].
  apply runs_nil.
Qed.

Lemma ex_wires_ok n : 1 <= n -> Forall (wire_ok n) ex_wires.
Proof.
  intros Hn. constructor; [|constructor; [apply QueryProps.ex_get_ok|constructor]].
  split; [apply AssignProps.ex_key_word|]. split; [apply QueryProps.ex_key_bytes|]. split; [by repeat constructor|].
  split; [lia|]. split; [lia|]. unfold StorageRefine.type_size, Storage.BEGINNING_SIZE.
  pose proof (Z.pow_pos_nonneg 2 (n - 1) ltac:(lia) ltac:(lia)). cbn. lia.
Qed.

Lemma ex_ready_free c : c <= 2 ^ 32 -> exists st : Storage.state (gmap (list Z) (list Z)),
  QueryProps.ready 1 c st ∅ /\ StorageThreads.free st = st.
Proof.
  intros Hc. destruct Concurrent.ex_storage as (st & Hr & Hf & Hn & Hroom). exists st. split; [|done].
  split; [done|]. split; [done|]. by apply (Linear.room_less st c (2 ^ 32)).
Qed.

Lemma server_progress_witness : exists (st : Storage.state (gmap (list Z) (list Z))) h c,
  runs (pool_step Interleave.moves (fun _ => 0)) (pool_start 2 st) ex_wires (ex_waiting st) /\
  runs (pool_step Interleave.step (fun _ => 0)) (ex_waiting st) h c /\ Forall is_sent h /\ length h = 2%nat /\ pool_done c.
Proof.
  destruct (ex_ready_free 2 ltac:(lia)) as (st & Hr & Hf).
  destruct (server_progress (fun _ => 0) 1 2 st ∅ ex_wires (ex_waiting st) Hr Hf ltac:(lia) (ex_wires_ok 1 ltac:(lia)) (ex_dispatch st))
    as (h & c & Hrun & Hh & Hlen & Hd).
  exists st, h, c. split; [apply ex_dispatch|]. by split.
Defined.

Lemma ex_served : exists (st : Storage.state (gmap (list Z) (list Z))) h c,
  QueryProps.ready 1 (Z.of_nat (length h)) st ∅ /\ StorageThreads.free st = st /\ Forall (wire_ok 1) h /\
  runs (pool_step Interleave.moves (fun _ => 0)) (pool_start 2 st) h c /\ length h = 4%nat /\ pool_done c.
Proof.
  destruct (ex_ready_free 4 ltac:(lia)) as (st & Hr & Hf).
  assert (Hr2 : QueryProps.ready 1 2 st ∅).
  { destruct Hr as (H1 & H2 & H3). split; [done|]. split; [done|]. by apply (Linear.room_less st 2 4). }
  destruct (history_pooled (fun _ => 0) 1 2 st ∅ ex_wires (ex_waiting st) Hr2 Hf ltac:(lia) (ex_wires_ok 1 ltac:(lia)) (ex_dispatch st))
    as (Hw & s & _ & a & Hp).
  destruct (drain (fun _ => 0) 1 2 0 _ _ s a ltac:(split; [lia|vm_compute; discriminate]) eq_refl Hp Hw) as (h & c & Hrun & Hh & Hd).
  pose proof (sent_counts _ _ _ _ _ Hrun Hh Hw) as Hlen. rewrite (pool_done_outstanding c Hd) in Hlen.
  change (outstanding (ex_waiting st)) with 2%nat in Hlen.
  exists st, (ex_wires ++ h), c. rewrite length_app. replace (length h) with 2%nat by lia.
  split; [done|]. split; [done|]. split; [|split; [by eapply runs_trans; [apply ex_dispatch|apply stepped_moves]|done]].
  apply Forall_app. split; [apply ex_wires_ok; lia|]. eapply Forall_impl; [exact Hh|]. by intros [].
Qed.

Lemma server_linearizable_witness : exists (st : Storage.state (gmap (list Z) (list Z))) h c s,
  runs (pool_step Interleave.moves (fun _ => 0)) (pool_start 2 st) h c /\ length h = 4%nat /\ pool_done c /\
  runs serve_step (serve_start 2 ∅) h s /\ StorageRefine.represents (Interleave.store (inner c)) (content s).
Proof.
  destruct ex_served as (st & h & c & Hr & Hf & Hok & Hrun & Hlen & Hd).
  destruct (server_linearizable (fun _ => 0) 1 2 st ∅ h c Hr Hf ltac:(lia) Hok Hrun) as (s & Hs & Hq).
  exists st, h, c, s. split; [exact Hrun|]. split; [exact Hlen|]. split; [exact Hd|]. split; [exact Hs|]. exact (Hq Hd).
Defined.

End PoolProps.
