(* ===== verification/IoLayer.v ===== *)
(** The descriptors and counters of [src/src/iolayer.c] and [src/src/utils.c]:
    which sockets a connection attempt leaves open and in which mode, and what the
    byte counters hold after any sequence of transfers.

    The system's answers are arguments: every attempt takes a record of them in
    the order of the calls. *)

From Stdlib Require Import ZArith Lia.
From stdpp Require Import base numbers list gmap.
From S2P Require Import Prelude IndexTypes.

Module IoLayer.
Import IndexTypes.

(** ** Descriptors *)

(** The open descriptors with their status flags. *)
Abbreviation descriptors := (gmap Z Z).
Definition O_NONBLOCK : Z := 2048.
Definition nonblocking (flags : Z) : Prop := Z.testbit flags 11 = true.

(** What [fcntl] answers: the error of [F_GETFL] or of [F_SETFL], if any. *)
Record fcntl_env := FcntlEnv { getfl_errno : option Z; setfl_errno : option Z }.
Definition fcntl_ok : fcntl_env := FcntlEnv None None.

(** Read the flags, change them, write them back. *)
Definition change_flags (e : fcntl_env) (change : Z -> Z) (fd : Z) (d : descriptors) : descriptors * Z :=
  match getfl_errno e with
  | Some err => (d, err)
  | None =>
      match setfl_errno e with
      | Some err => (d, err)
      | None => (alter change fd d, 0)
      end
  end.
Definition set_nonblock (e : fcntl_env) (fd : Z) (d : descriptors) : descriptors * Z :=
  change_flags e (fun flag => Z.lor flag O_NONBLOCK) fd d.
Definition set_block (e : fcntl_env) (fd : Z) (d : descriptors) : descriptors * Z :=
  change_flags e (fun flag => Z.land flag (Z.lnot O_NONBLOCK)) fd d.

(** ** Connecting *)

(** [socket] answers with a new descriptor or fails. *)
Definition socket (new : option Z) (d : descriptors) : descriptors * Z :=
  match new with Some fd => (<[fd := 0]> d, fd) | None => (d, -1) end.
Definition close (fd : Z) (d : descriptors) : descriptors := delete fd d.

Definition tcp_pton (inet_pton : list Z -> option Z) (presentation_ip : list Z) : Z :=
  default 0 (inet_pton presentation_ip).

(** [connected]: [connect] returned 0. *)
Definition blocked_connect (new : option Z) (connected : bool) (d : descriptors) : descriptors * Z :=
  let '(d, sockfd) := socket new d in
  if sockfd <? 0 then (d, RET_FAILED)
  else if connected then (d, sockfd)
  else (d, RET_FAILED).

(** [connect] succeeds, goes on in the background, or fails; then [select],
    whether it marked the socket, and [SO_ERROR] unless [getsockopt] fails. *)
Inductive connect_ans := Connected | InProgress | Refused.
Record connect_env := ConnectEnv {
  ce_socket : option Z;
  ce_nonblock : fcntl_env;
  ce_connect : connect_ans;
  ce_select : Z;
  ce_marked : bool;
  ce_so_error : option Z;
  ce_block : fcntl_env
}.
Definition timed_connect (e : connect_env) (d : descriptors) : descriptors * Z :=
  let '(d, sockfd) := socket (ce_socket e) d in
  if sockfd <? 0 then (d, RET_FAILED)
  else
    let d := (set_nonblock (ce_nonblock e) sockfd d).1 in
    match ce_connect e with
    | Refused => (close sockfd d, RET_FAILED)
    | Connected => ((set_block (ce_block e) sockfd d).1, sockfd)
    | InProgress =>
        if ce_select e <=? 0 then (close sockfd d, RET_FAILED)
        else if ce_marked e then
          match ce_so_error e with
          | None => (close sockfd d, RET_FAILED)
          | Some err =>
              if negb (err =? 0) then (close sockfd d, RET_FAILED)
              else ((set_block (ce_block e) sockfd d).1, sockfd)
          end
        else ((set_block (ce_block e) sockfd d).1, sockfd)
    end.

(** ** Counters *)

Record io_stat_s := IoStat {
  curr_query_queue_len : Z;
  total_read_requests : Z;
  total_write_requests : Z;
  disk_read_bytes : Z;
  disk_write_bytes : Z;
  net_read_bytes : Z;
  net_write_bytes : Z
}.

(** [atomic_uint_add], and the counting that every transfer does: [n] is what
    the system call returned. *)
Definition atomic_uint_add (p i : Z) : Z := u64 (p + i).
Definition count (p n : Z) : Z := if 0 <? n then atomic_uint_add p (u64 n) else p.
Definition set_disk (s : io_stat_s) (r w : Z) : io_stat_s :=
  IoStat (curr_query_queue_len s) (total_read_requests s) (total_write_requests s) r w (net_read_bytes s) (net_write_bytes s).
Definition set_net (s : io_stat_s) (r w : Z) : io_stat_s :=
  IoStat (curr_query_queue_len s) (total_read_requests s) (total_write_requests s) (disk_read_bytes s) (disk_write_bytes s) r w.
Definition disk_read (n : Z) (s : io_stat_s) : io_stat_s * Z :=
  (set_disk s (count (disk_read_bytes s) n) (disk_write_bytes s), n).
Definition disk_write (n : Z) (s : io_stat_s) : io_stat_s * Z :=
  (set_disk s (disk_read_bytes s) (count (disk_write_bytes s) n), n).
Definition net_read (n : Z) (s : io_stat_s) : io_stat_s * Z :=
  (set_net s (count (net_read_bytes s) n) (net_write_bytes s), n).
Definition net_write (n : Z) (s : io_stat_s) : io_stat_s * Z :=
  (set_net s (net_read_bytes s) (count (net_write_bytes s) n), n).
Definition net_writev (n : Z) (s : io_stat_s) : io_stat_s * Z :=
  (set_net s (net_read_bytes s) (count (net_write_bytes s) n), n).

(** ** Flags *)

Lemma nonblock_bit n : 0 <= n -> Z.testbit O_NONBLOCK n = bool_decide (n = 11).
Proof.
  intros Hn. change O_NONBLOCK with (2 ^ 11). destruct (decide (n = 11)) as [->|Hne].
  - now rewrite bool_decide_eq_true_2, Z.pow2_bits_true by lia.
  - now rewrite bool_decide_eq_false_2, Z.pow2_bits_false by lia.
Qed.

Lemma block_after_nonblock flags :
  Z.land (Z.lor flags O_NONBLOCK) (Z.lnot O_NONBLOCK) = Z.land flags (Z.lnot O_NONBLOCK).
Proof.
  apply Z.bits_inj'. intros n Hn. rewrite !Z.land_spec, Z.lor_spec, Z.lnot_spec by done.
  destruct (Z.testbit flags n), (Z.testbit O_NONBLOCK n); reflexivity.
Qed.

(** The mode of a socket: after [set_nonblock] it is non-blocking, after
    [set_block] it is not, in either order; every other flag and every other
    descriptor keeps its value, and an [fcntl] that fails changes nothing and
    its error is returned. *)
Theorem set_mode_flags e fd flags (d : descriptors) :
  d !! fd = Some flags -> e = fcntl_ok ->
  exists f1 f2, (set_nonblock e fd d).1 !! fd = Some f1 /\ (set_block e fd d).1 !! fd = Some f2 /\
    nonblocking f1 /\ ~ nonblocking f2 /\
    (forall n, 0 <= n -> n <> 11 -> Z.testbit f1 n = Z.testbit flags n /\ Z.testbit f2 n = Z.testbit flags n) /\
    (set_block e fd (set_nonblock e fd d).1).1 = (set_block e fd d).1 /\
    (forall fd', fd' <> fd -> (set_nonblock e fd d).1 !! fd' = d !! fd' /\ (set_block e fd d).1 !! fd' = d !! fd') /\
    forall err e', getfl_errno e' = Some err \/ (getfl_errno e' = None /\ setfl_errno e' = Some err) ->
      set_nonblock e' fd d = (d, err) /\ set_block e' fd d = (d, err).
Proof.
  intros Hd ->. exists (Z.lor flags O_NONBLOCK), (Z.land flags (Z.lnot O_NONBLOCK)).
  unfold set_nonblock, set_block, change_flags. cbn [fcntl_ok getfl_errno setfl_errno fst].
  rewrite !lookup_alter_eq, Hd. split; [done|]. split; [done|]. unfold nonblocking.
  rewrite Z.lor_spec, Z.land_spec, Z.lnot_spec, nonblock_bit by lia. cbn [negb].
  split; [apply orb_true_r|]. split; [now rewrite andb_false_r|]. split; [|split; [|split]].
  - intros n Hn Hne. rewrite Z.lor_spec, Z.land_spec, Z.lnot_spec, nonblock_bit by lia.
    rewrite bool_decide_eq_false_2 by done. now rewrite orb_false_r, andb_true_r.
  - apply map_eq. intros i. destruct (decide (i = fd)) as [->|Hne].
    + rewrite !lookup_alter_eq, Hd. cbn. f_equal. apply block_after_nonblock.
    + by rewrite !lookup_alter_ne.
  - intros fd' Hne. by rewrite !lookup_alter_ne.
  - intros err e' [-> | [-> ->]]; done.
Qed.

(** ** Leaks *)

(** A timed connection leaves no descriptor behind when it fails: the
    descriptors are the ones from before. When it succeeds there is one more,
    the one returned, in blocking mode if [fcntl] works. *)
Theorem timed_connect_descriptors e (d : descriptors) :
  (forall fd, ce_socket e = Some fd -> 0 <= fd /\ d !! fd = None) ->
  let r := timed_connect e d in
  (r.2 = RET_FAILED /\ r.1 = d) \/
  (0 <= r.2 /\ ce_socket e = Some r.2 /\ delete r.2 r.1 = d /\
   exists flags, r.1 !! r.2 = Some flags /\ (ce_block e = fcntl_ok -> ~ nonblocking flags)).
Proof.
  intros Hnew. unfold timed_connect. destruct (ce_socket e) as [fd|]; [|by left].
  destruct (Hnew fd eq_refl) as [Hfd Hfresh]. unfold socket. rewrite (proj2 (Z.ltb_ge _ _)) by done.
  set (d1 := (set_nonblock (ce_nonblock e) fd (<[fd:=0]> d)).1).
  assert (Hdel : forall d', (forall fd', fd' <> fd -> d' !! fd' = d !! fd') -> close fd d' = d).
  { intros d' Hd'. apply map_eq. intros fd'. unfold close. destruct (decide (fd' = fd)) as [->|Hne].
    - by rewrite lookup_delete_eq.
    - rewrite lookup_delete_ne by done. by apply Hd'. }
  assert (Hflags : forall env change d' fd', fd' <> fd -> (change_flags env change fd d').1 !! fd' = d' !! fd').
  { intros env change d' fd' Hne. unfold change_flags.
    destruct (getfl_errno env), (setfl_errno env); try done. cbn [fst]. by rewrite lookup_alter_ne. }
  assert (H1 : forall fd', fd' <> fd -> d1 !! fd' = d !! fd').
  { intros fd' Hne. unfold d1, set_nonblock. rewrite Hflags by done. by rewrite lookup_insert_ne. }
  assert (Hsome : exists f, d1 !! fd = Some f).
  { unfold d1, set_nonblock, change_flags. destruct (getfl_errno (ce_nonblock e)), (setfl_errno (ce_nonblock e)); cbn [fst];
      rewrite ?lookup_alter_eq, lookup_insert_eq; by eexists. }
  assert (Hok : let d2 := (set_block (ce_block e) fd d1).1 in
    0 <= fd /\ Some fd = Some fd /\ delete fd d2 = d /\
    exists flags, d2 !! fd = Some flags /\ (ce_block e = fcntl_ok -> ~ nonblocking flags)).
  { split; [done|]. split; [done|]. split.
    - apply Hdel. intros fd' Hne. unfold set_block. rewrite Hflags by done. by apply H1.
    - destruct Hsome as [f Hf]. unfold set_block, change_flags.
      destruct (getfl_errno (ce_block e)) eqn:E1; [exists f; split; [done|intros Hb; by rewrite Hb in *]|].
      destruct (setfl_errno (ce_block e)) eqn:E2; [exists f; split; [done|intros Hb; by rewrite Hb in *]|].
      cbn [fst]. rewrite lookup_alter_eq, Hf. eexists. split; [reflexivity|]. intros _. unfold nonblocking.
      rewrite Z.land_spec, Z.lnot_spec, nonblock_bit by lia. cbn. now rewrite andb_false_r. }
  destruct (ce_connect e); [by right| |left; split; [done|by apply Hdel]].
  destruct (ce_select e <=? 0); [left; split; [done|by apply Hdel]|].
  destruct (ce_marked e); [|by right]. destruct (ce_so_error e) as [err|]; [|left; split; [done|by apply Hdel]].
  destruct (negb (err =? 0)); [left; split; [done|by apply Hdel]|by right].
Qed.

(** A blocking connection that fails keeps its socket open: the caller gets
    no descriptor to close. *)
Theorem blocked_connect_leaks fd (d : descriptors) :
  0 <= fd -> d !! fd = None ->
  (blocked_connect (Some fd) false d).2 = RET_FAILED /\
  size (blocked_connect (Some fd) false d).1 = S (size d).
Proof.
  intros Hfd Hd. unfold blocked_connect, socket. rewrite (proj2 (Z.ltb_ge _ _)) by done.
  split; [done|]. now apply map_size_insert_None.
Qed.

(** ** What the counters hold *)

Inductive transfer := DiskRead | DiskWrite | NetRead | NetWrite | NetWritev.
Definition transfer_run (t : transfer) (n : Z) (s : io_stat_s) : io_stat_s * Z :=
  match t with
  | DiskRead => disk_read n s | DiskWrite => disk_write n s | NetRead => net_read n s
  | NetWrite => net_write n s | NetWritev => net_writev n s
  end.
Fixpoint transfers_run (l : list (transfer * Z)) (s : io_stat_s) : io_stat_s :=
  match l with [] => s | (t, n) :: l => transfers_run l (transfer_run t n s).1 end.
(** The bytes of the transfers that [which] selects. *)
Fixpoint moved (which : transfer -> bool) (l : list (transfer * Z)) : Z :=
  match l with [] => 0 | (t, n) :: l => (if which t then Z.max 0 n else 0) + moved which l end.
Definition is_disk_read (t : transfer) : bool := match t with DiskRead => true | _ => false end.
Definition is_disk_write (t : transfer) : bool := match t with DiskWrite => true | _ => false end.
Definition is_net_read (t : transfer) : bool := match t with NetRead => true | _ => false end.
Definition is_net_write (t : transfer) : bool := match t with NetWrite | NetWritev => true | _ => false end.

Lemma count_mod p n x : n < 2 ^ 63 -> (count p n + x) mod 2 ^ 64 = (p + Z.max 0 n + x) mod 2 ^ 64.
Proof.
  intros Hn. unfold count, atomic_uint_add. destruct (Z.ltb_spec 0 n).
  - rewrite (u64_small n) by (unfold in_range; lia). unfold u64. rewrite Zplus_mod_idemp_l. f_equal. lia.
  - f_equal. lia.
Qed.

(** The counters count: after any sequence of reads and writes, failed ones
    included, each counter holds its old value plus the bytes that were moved,
    modulo 2^64. *)
Theorem counters_exact l s :
  Forall (fun r => r.2 < 2 ^ 63) l ->
  let s' := transfers_run l s in
  u64 (disk_read_bytes s') = u64 (disk_read_bytes s + moved is_disk_read l) /\
  u64 (disk_write_bytes s') = u64 (disk_write_bytes s + moved is_disk_write l) /\
  u64 (net_read_bytes s') = u64 (net_read_bytes s + moved is_net_read l) /\
  u64 (net_write_bytes s') = u64 (net_write_bytes s + moved is_net_write l).
Proof.
  intros Hl. revert s; induction Hl as [|[t n] l Hn _ IH]; intros s; cbn [transfers_run moved].
  - rewrite !Z.add_0_r. auto.
  - specialize (IH (transfer_run t n s).1). cbn zeta in IH. destruct IH as (-> & -> & -> & ->). unfold u64.
    destruct t; cbn [transfer_run disk_read disk_write net_read net_write net_writev set_disk set_net fst snd disk_read_bytes disk_write_bytes
      net_read_bytes net_write_bytes is_disk_read is_disk_write is_net_read is_net_write];
      rewrite ?Z.add_0_l, ?count_mod, ?Z.add_assoc by exact Hn; auto.
Qed.

(** ** Concrete runs *)

Lemma set_mode_flags_witness : exists f1 f2,
  (set_nonblock fcntl_ok 5 {[5 := 2]}).1 !! 5 = Some f1 /\ (set_block fcntl_ok 5 {[5 := 2]}).1 !! 5 = Some f2 /\
  nonblocking f1 /\ ~ nonblocking f2.
Proof.
  destruct (set_mode_flags fcntl_ok 5 2 {[5 := 2]}) as (f1 & f2 & H1 & H2 & H3 & H4 & _); [reflexivity|reflexivity|].
  exists f1, f2. auto.
Defined.

Definition ex_refused : connect_env := ConnectEnv (Some 7) fcntl_ok InProgress 1 true (Some 111) fcntl_ok.
Lemma timed_connect_descriptors_witness : timed_connect ex_refused {[5 := 2]} = ({[5 := 2]}, RET_FAILED).
Proof.
  destruct (timed_connect_descriptors ex_refused {[5 := 2]}) as [[H1 H2]|(H1 & _)].
  - intros fd [= <-]. split; [lia|reflexivity].
  - apply injective_projections; assumption.
  - exfalso. vm_compute in H1. by apply H1.
Defined.

Lemma blocked_connect_leaks_witness :
  (blocked_connect (Some 7) false {[5 := 2]}).2 = RET_FAILED /\ size (blocked_connect (Some 7) false {[5 := 2]}).1 = S (size ({[5 := 2]} : descriptors)).
Proof. apply (blocked_connect_leaks 7 {[5 := 2]}); [lia|reflexivity]. Defined.

Lemma counters_exact_witness :
  u64 (net_write_bytes (transfers_run [(NetWrite, 10); (NetRead, -1); (NetWritev, 20)] (IoStat 0 0 0 0 0 0 (2 ^ 64 - 5)))) = 25.
Proof.
  destruct (counters_exact [(NetWrite, 10); (NetRead, -1); (NetWritev, 20)] (IoStat 0 0 0 0 0 0 (2 ^ 64 - 5))) as (_ & _ & _ & E).
  - repeat constructor; cbn; lia.
  - exact E.
Defined.

End IoLayer.
