(* ===== verification/Log.v ===== *)
(** The log of [src/src/log.c]: the line that [log_mesg] builds in its buffer of
    [BUFSIZ] bytes and writes, the time stamps, and the descriptor of the log
    file.

    The message is given with its format applied; the clock and the process id
    are arguments. *)

From Stdlib Require Import ZArith Lia String.
From stdpp Require Import base numbers list.
From S2P Require Import Prelude CString.

Module Log.
Import CString.

Definition LOG_LEVEL_DEBUG : Z := 1.
Definition LOG_LEVEL_WARN : Z := 2.
Definition LOG_LEVEL_ERROR : Z := 4.
Definition LOG_LEVEL_NOTICE : Z := 8.
Definition BUFSIZ : Z := 8192.

(** [struct tm], the fields that are printed. *)
Record tm := Tm { tm_year : Z; tm_mon : Z; tm_mday : Z; tm_hour : Z; tm_min : Z; tm_sec : Z }.

(** [%02d]. *)
Definition pad2 (n : Z) : list Z := let s := print_dec n in if (length s <? 2)%nat then 48 :: s else s.
Definition time_fields (t : tm) : list Z :=
  print_dec (tm_year t + 1900) ++ 45 :: pad2 (tm_mon t + 1) ++ 45 :: pad2 (tm_mday t) ++ SP ::
  pad2 (tm_hour t) ++ 58 :: pad2 (tm_min t) ++ 58 :: pad2 (tm_sec t).

(** [snprintf(buf + off, size, "%s", s)]; it returns the length of [s]. *)
Definition snprintf (buf : list Z) (off size : Z) (s : list Z) : option (list Z) :=
  if size =? 0 then Some buf else write_at buf off (take (Z.to_nat (size - 1)) s ++ [0]).

(** The string in a buffer of [size] bytes after [snprintf]. *)
Definition printed (size : Z) (s : list Z) : list Z := take (Z.to_nat (size - 1)) s.

(** [string] has 20 bytes at least. *)
Definition get_time_string (string : list Z) (t : tm) : option (list Z) :=
  string ← snprintf string 0 20 (time_fields t); wr string 19 0.

Definition level_name (mesg_level : Z) : list Z :=
  if mesg_level =? LOG_LEVEL_DEBUG then str "debug"
  else if mesg_level =? LOG_LEVEL_WARN then str "warn "
  else if mesg_level =? LOG_LEVEL_ERROR then str "error"
  else if mesg_level =? LOG_LEVEL_NOTICE then str "info "
  else str "what's this".

(** What comes before the message. *)
Definition log_prefix (t : tm) (process_id : Z) (codefile func : list Z) (linenum mesg_level : Z) : list Z :=
  91 :: printed 30 (time_fields t) ++ str "] [" ++ level_name mesg_level ++ str "] (#" ++ print_dec process_id ++
  SP :: func ++ SP :: codefile ++ 58 :: print_dec linenum ++ str ") ".

(** The bytes written to the log, or [None] when the buffer is left. [line] is
    what the stack holds; [sizeof(line) - printed_len] is unsigned. *)
Definition log_mesg (line : list Z) (t : tm) (process_id : Z) (codefile func : list Z) (linenum mesg_level : Z) (mesg : list Z)
  : option (list Z) :=
  let prefix := log_prefix t process_id codefile func linenum mesg_level in
  line ← snprintf line 0 BUFSIZ prefix;
  let printed_len := Z.of_nat (length prefix) in
  line ← snprintf line printed_len (u64 (BUFSIZ - printed_len)) mesg;
  let printed_len := printed_len + Z.of_nat (length mesg) in
  line ← wr line printed_len LF;
  line ← wr line (printed_len + 1) 0;
  n ← strlen line 0;
  Some (take (Z.to_nat n) line).

(** What [stat] answers; [opened] is what [open] returns. *)
Inductive stat_ans := Missing | RegularFile | CharDevice | OtherFile.
Definition log_open (fd : Z) (sb : stat_ans) (opened : Z) : Z * Z :=
  match sb with
  | OtherFile => (fd, -1)
  | _ => (opened, if 0 <=? opened then 0 else -1)
  end.
(** The descriptor after [log_close], and what it returns. *)
Definition log_close (fd : Z) : Z * Z := (-1, 0).

(** ** Printing into buffers *)

Definition nul_free (l : list Z) : Prop := Forall (fun c => c <> 0) l.

Lemma nul_free_app l1 l2 : nul_free (l1 ++ l2) <-> nul_free l1 /\ nul_free l2.
Proof. apply Forall_app. Qed.

Lemma print_dec_nul_free n : - 10 ^ 19 < n < 10 ^ 19 -> nul_free (print_dec n).
Proof. intros Hn. apply token_nonzero, print_dec_token, Hn. Qed.

Lemma pad2_nul_free n : - 10 ^ 19 < n < 10 ^ 19 -> nul_free (pad2 n).
Proof.
  intros Hn. unfold pad2. pose proof (print_dec_nul_free n Hn).
  destruct (length (print_dec n) <? 2)%nat; [by constructor|done].
Qed.

(** A clock that the C library can give: the fields are ints. *)
Definition tm_ok (t : tm) : Prop :=
  Forall (fun f => - 2 ^ 31 <= f < 2 ^ 31) [tm_year t; tm_mon t; tm_mday t; tm_hour t; tm_min t; tm_sec t].

Lemma time_fields_nul_free t : tm_ok t -> nul_free (time_fields t).
Proof.
  intros Ht. unfold tm_ok in Ht. repeat match goal with H : Forall _ (_ :: _) |- _ => inversion H; clear H; subst end.
  unfold time_fields. repeat (apply nul_free_app; split; [first [apply print_dec_nul_free | apply pad2_nul_free]; lia|];
    constructor; [done|]). apply pad2_nul_free. lia.
Qed.

Lemma level_name_nul_free lv : nul_free (level_name lv).
Proof. unfold level_name. repeat case_match; repeat constructor; done. Qed.

Lemma log_prefix_nul_free t pid file func n lv :
  tm_ok t -> - 2 ^ 31 <= pid < 2 ^ 31 -> nul_free file -> nul_free func -> - 2 ^ 31 <= n < 2 ^ 31 ->
  nul_free (log_prefix t pid file func n lv).
Proof.
  intros Ht Hp Hf Hg Hn. unfold log_prefix, printed. constructor; [done|].
  apply nul_free_app; split; [apply Forall_take, time_fields_nul_free, Ht|].
  apply nul_free_app; split; [repeat constructor; done|]. apply nul_free_app; split; [apply level_name_nul_free|].
  apply nul_free_app; split; [repeat constructor; done|]. apply nul_free_app; split; [apply print_dec_nul_free; lia|].
  constructor; [done|]. apply nul_free_app; split; [done|]. constructor; [done|]. apply nul_free_app; split; [done|].
  constructor; [done|]. apply nul_free_app; split; [apply print_dec_nul_free; lia|]. repeat constructor; done.
Qed.

(** Printing behind what is there already. *)
Lemma snprintf_behind pre junk size s :
  1 <= size -> Z.of_nat (length s) < size -> Z.of_nat (length s) < Z.of_nat (length junk) ->
  exists junk', snprintf (pre ++ junk) (Z.of_nat (length pre)) size s = Some (pre ++ s ++ 0 :: junk') /\
    length junk' = (length junk - length s - 1)%nat.
Proof.
  intros Hs Hl Hj. unfold snprintf. rewrite (proj2 (Z.eqb_neq _ _)) by lia. rewrite take_ge by lia.
  unfold write_at. rewrite !length_app. cbn [length]. rewrite (proj2 (Z.leb_le 0 _)), (proj2 (Z.leb_le _ _)) by lia. cbn [andb].
  unfold splice. rewrite Nat2Z.id, take_app_length, length_app. cbn [length].
  rewrite drop_app_ge by lia. eexists. split; [do 2 f_equal; rewrite <- app_assoc; reflexivity|].
  rewrite length_drop. lia.
Qed.

(** C33: [log_mesg] writes its line whole and stays inside its buffer when the
    prefix and the message have at most [BUFSIZ - 2] characters together; with
    any more, the line end or the NUL is written outside of the buffer (the
    "TODO: buffer may be not enough" of the code). *)
Theorem log_mesg_bounds line t pid file func n lv mesg :
  Z.of_nat (length line) = BUFSIZ -> tm_ok t -> - 2 ^ 31 <= pid < 2 ^ 31 -> - 2 ^ 31 <= n < 2 ^ 31 ->
  nul_free file -> nul_free func -> nul_free mesg ->
  let prefix := log_prefix t pid file func n lv in
  log_mesg line t pid file func n lv mesg =
  if Z.of_nat (length prefix) + Z.of_nat (length mesg) <=? BUFSIZ - 2 then Some (prefix ++ mesg ++ [LF]) else None.
Proof.
  intros Hline Ht Hpid Hn Hfile Hfunc Hm prefix.
  assert (Hp : nul_free prefix) by now apply log_prefix_nul_free.
  unfold log_mesg. fold prefix. cbv zeta. unfold BUFSIZ in *.
  destruct (Z.leb_spec (Z.of_nat (length prefix) + Z.of_nat (length mesg)) (8192 - 2)) as [Hfit|Hlong].
  - destruct (snprintf_behind [] line 8192 prefix ltac:(lia) ltac:(lia) ltac:(lia)) as (j1 & E1 & L1).
    cbn [app length] in E1. change (Z.of_nat 0) with 0 in E1. rewrite E1. cbn [mbind option_bind].
    rewrite u64_small by (unfold in_range; lia).
    destruct (snprintf_behind prefix (0 :: j1) (8192 - Z.of_nat (length prefix)) mesg ltac:(lia) ltac:(lia)) as (j2 & E2 & L2);
      [cbn [length]; lia|].
    rewrite E2. cbn [mbind option_bind].
    cbn [length] in L2. destruct j2 as [|c j2]; [cbn in L2; lia|].
    replace (prefix ++ mesg ++ 0 :: c :: j2) with ((prefix ++ mesg) ++ 0 :: c :: j2) by now rewrite <- app_assoc.
    replace (Z.of_nat (length prefix) + Z.of_nat (length mesg)) with (Z.of_nat (length (prefix ++ mesg))) by (rewrite length_app; lia).
    rewrite wr_app. cbn [mbind option_bind].
    replace ((prefix ++ mesg) ++ LF :: c :: j2) with ((prefix ++ mesg ++ [LF]) ++ c :: j2)
      by (rewrite <- !app_assoc; reflexivity).
    replace (Z.of_nat (length (prefix ++ mesg)) + 1) with (Z.of_nat (length (prefix ++ mesg ++ [LF])))
      by (rewrite !length_app; cbn [length]; lia).
    rewrite wr_app. cbn [mbind option_bind].
    assert (Hnf : nul_free (prefix ++ mesg ++ [LF])).
    { apply nul_free_app. split; [done|]. apply nul_free_app. split; [done|]. repeat constructor; done. }
    pose proof (strlen_app [] (prefix ++ mesg ++ [LF]) j2 Hnf) as El. cbn [app length] in El. change (Z.of_nat 0) with 0 in El.
    rewrite El. cbn [mbind option_bind]. now rewrite Nat2Z.id, take_app_length.
  - destruct (snprintf line 0 8192 prefix) as [line1|] eqn:E1; [|done]. cbn [mbind option_bind].
    destruct (snprintf line1 (Z.of_nat (length prefix)) (u64 (8192 - Z.of_nat (length prefix))) mesg) as [line2|] eqn:E2; [|done].
    cbn [mbind option_bind].
    assert (Hlen : forall buf off size s buf', snprintf buf off size s = Some buf' -> length buf' = length buf).
    { intros buf off size s buf'. unfold snprintf, write_at. destruct (size =? 0); [by intros [= <-]|].
      destruct (Z.leb_spec 0 off); [|done]. cbn [andb]. destruct (Z.leb_spec (off + Z.of_nat (length (take (Z.to_nat (size - 1)) s ++ [0])))
        (Z.of_nat (length buf))); [|done]. intros [= <-]. apply splice_length. lia. }
    apply Hlen in E1, E2. assert (Hl2 : Z.of_nat (length line2) = 8192) by lia.
    set (p := Z.of_nat (length prefix) + Z.of_nat (length mesg)) in *.
    destruct (wr line2 p LF) as [line3|] eqn:E3; [|done]. cbn [mbind option_bind].
    assert (Hl3 : Z.of_nat (length line3) = 8192).
    { revert E3. unfold wr. destruct ((p <? 0) || (Z.of_nat (length line2) <=? p)); [done|]. intros [= <-].
      now rewrite length_insert. }
    unfold wr at 1. rewrite Hl3, (proj2 (Z.leb_le 8192 (p + 1))) by lia. now rewrite orb_true_r.
Qed.

(** ** Time stamps *)

(** A date and a time as [localtime_r] gives them between the years 1000 and 9999. *)
Definition tm_usual (t : tm) : Prop :=
  - 900 <= tm_year t <= 8099 /\ 0 <= tm_mon t < 12 /\ 1 <= tm_mday t <= 31 /\
  0 <= tm_hour t < 24 /\ 0 <= tm_min t < 60 /\ 0 <= tm_sec t <= 60.

Lemma pad2_length n : 0 <= n < 100 -> length (pad2 n) = 2%nat.
Proof.
  intros Hn. assert (Hall : forallb (fun n => (length (pad2 n) =? 2)%nat) (seqZ 0 100) = true) by (vm_compute; reflexivity).
  rewrite forallb_forall in Hall. apply Nat.eqb_eq, Hall, list_elem_of_In, elem_of_seqZ. lia.
Qed.

Lemma year_length n : 1000 <= n < 10000 -> length (print_dec n) = 4%nat.
Proof.
  intros Hn. assert (Hall : forallb (fun n => (length (print_dec n) =? 4)%nat) (seqZ 1000 9000) = true) by (vm_compute; reflexivity).
  rewrite forallb_forall in Hall. apply Nat.eqb_eq, Hall, list_elem_of_In, elem_of_seqZ. lia.
Qed.

(** A time stamp fits its 20 bytes: for every usual date the string is
    [YYYY-MM-DD hh:mm:ss], 19 characters and the NUL, and nothing behind the 20
    bytes is touched; for any other clock it is cut there. *)
Theorem time_string_fits string t :
  (20 <= length string)%nat -> tm_ok t ->
  exists s, get_time_string string t = Some s /\ length s = length string /\ drop 20 s = drop 20 string /\
    s !! 19%nat = Some 0 /\ (tm_usual t -> cstr s 0 = Some (time_fields t) /\ length (time_fields t) = 19%nat).
Proof.
  intros Hl Ht. unfold get_time_string, snprintf. change (20 =? 0) with false. cbv iota.
  change (Z.to_nat (20 - 1)) with 19%nat. set (body := take 19 (time_fields t) ++ [0]).
  assert (Hb : (length body <= 20)%nat) by (unfold body; rewrite length_app, length_take; cbn [length]; lia).
  unfold write_at. rewrite (proj2 (Z.leb_le 0 0)), (proj2 (Z.leb_le _ _)) by lia. cbn [andb mbind option_bind].
  change (Z.to_nat 0) with 0%nat. set (s := splice string 0 body).
  assert (Hs : length s = length string) by (apply splice_length; lia).
  unfold wr. rewrite Hs. rewrite (proj2 (Z.ltb_ge _ _)), (proj2 (Z.leb_gt _ _)) by lia. cbn [orb].
  change (Z.to_nat 19) with 19%nat. eexists. split; [reflexivity|]. split; [by rewrite length_insert|]. split; [|split].
  - rewrite drop_insert_lt by lia. unfold s, splice. rewrite take_0. cbn [app].
    rewrite drop_app_ge by lia. rewrite drop_drop. f_equal. lia.
  - apply list_lookup_insert_eq. lia.
  - intros (Hy & Hmo & Hd & Hh & Hmi & Hse).
    assert (Hlen : length (time_fields t) = 19%nat).
    { unfold time_fields. repeat (rewrite length_app; cbn [length]).
      rewrite year_length, !pad2_length by lia. reflexivity. }
    split; [|done]. unfold s, splice, body. rewrite take_0, take_ge by lia. cbn [app].
    rewrite <- app_assoc, insert_app_r_alt by lia. rewrite Hlen, Nat.sub_diag. cbn [app].
    pose proof (cstr_app [] (time_fields t) (drop (0 + length (time_fields t ++ [0])) string) (time_fields_nul_free t Ht)) as Ec.
    exact Ec.
Qed.

(** ** Concrete lines *)

Definition ex_tm : tm := Tm 111 10 29 21 2 5.

Definition ex_line : list Z := replicate (Z.to_nat BUFSIZ) 7.

Lemma ex_tm_ok : tm_ok ex_tm.
Proof. repeat constructor; cbn; lia. Qed.

Lemma log_mesg_bounds_witness :
  log_mesg ex_line ex_tm 42 (str "log.c") (str "main") 12 LOG_LEVEL_WARN (str "hello") =
  Some (str "[2011-11-29 21:02:05] [warn ] (#42 main log.c:12) hello" ++ [LF]).
Proof.
  rewrite (log_mesg_bounds ex_line ex_tm 42 (str "log.c") (str "main") 12 LOG_LEVEL_WARN (str "hello"));
    [vm_compute; reflexivity|vm_compute; reflexivity|apply ex_tm_ok|lia|lia|repeat constructor; done..].
Defined.

Lemma time_string_fits_witness :
  exists s, get_time_string (replicate 20 7) ex_tm = Some s /\ cstr s 0 = Some (str "2011-11-29 21:02:05").
Proof.
  destruct (time_string_fits (replicate 20 7) ex_tm) as (s & E & _ & _ & _ & H);
    [rewrite length_replicate; lia|apply ex_tm_ok|].
  exists s. split; [exact E|]. apply H. repeat split; cbn; lia.
Defined.

End Log.
