(* ===== verification/Datanode.v ===== *)
(** The data node as a whole: the settings of [src/include/global.h], the
    start-up of [src/src/global.c] and the threads that [src/src/datanode.c]
    creates; and the history of a server from its start, over the wire. *)

From Stdlib Require Import ZArith Lia String.
From stdpp Require Import base numbers list gmap.
From S2P Require Import Prelude CString IndexTypes Slab IndexLog Bdb Storage StorageRefine StorageProps.
From S2P Require Import Protocol Task Assign AssignProps AssignSafety Query QueryProps Log.

Module Datanode.
Import IndexTypes.
Import CString (str).

(** ** Settings *)

Definition BIND_IP : Z := 0.
Definition ACCEPT_PORT : Z := 5000.
Definition READ_TIMEOUT : Z := 1000 * 60.
Definition WRITE_TIMEOUT : Z := 1000 * 10.
Definition MEMPOOL_SIZE : Z := 1024 * 1024 * 1024 * 4.
Definition CACHE_SIZE : Z := 1024 * 1024 * 1024 * 1.
Definition WORKER_THREAD_CNT : Z := 8.
Definition INDEX_PATH : list Z := str "./data/".
Definition DATA_PATH : list Z := str "./data/".
Definition LOG_PATH : list Z := str "./log/sos.log".

(** [bind_ip] is what [inet_addr] makes of [BIND_IP], 0.0.0.0. *)
Record settings_s := Settings {
  bind_ip : Z;
  accept_port : Z;
  read_timeout : Z;
  write_timeout : Z;
  mempool_size : Z;
  cache_size : Z;
  worker_thread_cnt : Z;
  index_path : list Z;
  data_path : list Z;
  log_path : list Z
}.
Definition default_settings : settings_s :=
  Settings BIND_IP ACCEPT_PORT READ_TIMEOUT WRITE_TIMEOUT MEMPOOL_SIZE CACHE_SIZE WORKER_THREAD_CNT INDEX_PATH DATA_PATH LOG_PATH.

(** [timeval_sub]: seconds and microseconds. *)
Definition timeval_sub (a b : Z * Z) : Z * Z :=
  let c := (a.1 - b.1, a.2 - b.2) in
  if c.2 <? 0 then (c.1 - 1, c.2 + 1000000) else c.

(** ** Start-up *)

Section Start.
Context {DB : Type} `{BerkeleyDB DB}.

(** The system's answers: memory for the descriptors, every [pipe] (the two
    ends, [None]: it fails), the log file, and the calls of [open_storage]. *)
Record init_env := InitEnv {
  ie_calloc : bool;
  ie_pipes : list (option (Z * Z));
  ie_log : Log.stat_ans * Z;
  ie_storage : Storage.open_env (DB := DB)
}.

(** What the start leaves beside the storage: the settings, the allocator,
    [g_pipe_fd] (zero where no pipe was made) and the descriptor of the log. *)
Record start_state := StartState {
  settings : settings_s;
  slab : option Slab.slab_t;
  pipe_fd : list Z;
  log_fd : Z
}.

(** [pipe(&g_pipe_fd[i * 2])] for the [n] threads from [i] on; without memory the
    address is bad and [pipe] fails. *)
Fixpoint open_pipes (n : nat) (i : nat) (calloc : bool) (answers : list (option (Z * Z))) (fds : list Z) : list Z * bool :=
  match n with
  | O => (fds, true)
  | S n =>
      match answers with
      | Some (r, w) :: answers =>
          if calloc then open_pipes n (S i) calloc answers (<[i * 2 := r]> (<[i * 2 + 1 := w]> fds))%nat
          else (fds, false)
      | _ => (fds, false)
      end
  end.

Definition init_datanode_vars (e : init_env) : Storage.M DB (start_state * Z) :=
  let s := default_settings in
  let slab := Slab.slab_init (Slab.Slab [] 0 0 (-1) (fun _ => 0)) MEMPOOL_SIZE Slab.factor_1_125 in
  let fds := if ie_calloc e then replicate (Z.to_nat (worker_thread_cnt s * 2)) 0 else [] in
  let '(fds, ok) := open_pipes (Z.to_nat (worker_thread_cnt s)) 0 (ie_calloc e) (ie_pipes e) fds in
  if negb ok then Storage.ret (StartState s slab fds (-1), RET_FAILED)
  else
    let log_fd := (Log.log_open (-1) (ie_log e).1 (ie_log e).2).1 in
    Storage.bind (Storage.open_storage (ie_storage e) (1024 * 1024 * 16)) (fun r =>
      Storage.ret (StartState s slab fds log_fd, if negb (r =? 0) then RET_FAILED else RET_SUCCESS)).

(** The argument of every query thread: its number and the end it reads. *)
Definition query_thread_args (v : start_state) : option (list (Z * Z)) :=
  mapM (fun i => fd ← pipe_fd v !! (i * 2)%nat; Some (Z.of_nat i, fd)) (seq 0 (Z.to_nat (worker_thread_cnt (settings v)))).

(** The end that [dispatch_query_task] writes to for thread [i]. *)
Definition dispatch_fd (v : start_state) (i : Z) : option Z := pipe_fd v !! Z.to_nat (i * 2 + 1).

(** [main] goes on whatever [init_datanode_vars] returned: the arguments of the
    query threads, [None] when the descriptors are not there. *)
Definition main (e : init_env) : Storage.M DB (start_state * option (list (Z * Z))) :=
  Storage.bind (init_datanode_vars e) (fun r => Storage.ret (r.1, query_thread_args r.1)).

End Start.
Arguments init_env : clear implicits.

(** ** Pipes *)

Lemma open_pipes_run n i ps fds :
  length ps = n -> (2 * (i + n) <= length fds)%nat ->
  exists fds', open_pipes n i true (Some <$> ps) fds = (fds', true) /\ length fds' = length fds /\
    (forall j, (j < 2 * i)%nat -> fds' !! j = fds !! j) /\
    (forall k r w, ps !! k = Some (r, w) -> fds' !! ((i + k) * 2)%nat = Some r /\ fds' !! ((i + k) * 2 + 1)%nat = Some w).
Proof.
  revert i ps fds; induction n as [|n IH]; intros i ps fds Hn Hl; destruct ps as [|[r w] ps]; try done.
  - exists fds. split; [done|]. split; [done|]. split; [done|]. intros k r w Hk. by rewrite lookup_nil in Hk.
  - cbn [length] in Hn. cbn [fmap list_fmap open_pipes].
    set (fds1 := <[(i * 2)%nat := r]> (<[(i * 2 + 1)%nat := w]> fds)).
    assert (Hl1 : length fds1 = length fds) by (unfold fds1; by rewrite !length_insert).
    destruct (IH (S i) ps fds1) as (fds' & E & Hl' & Hlow & Hhigh); [lia|lia|].
    exists fds'. split; [exact E|]. split; [congruence|]. split.
    + intros j Hj. rewrite Hlow by lia. unfold fds1. rewrite !list_lookup_insert_ne by lia. done.
    + intros [|k] r' w' Hk.
      * cbn in Hk. injection Hk as <- <-. rewrite !Nat.add_0_r, !Hlow by lia. unfold fds1. split.
        -- apply list_lookup_insert_eq. rewrite length_insert. lia.
        -- rewrite list_lookup_insert_ne by lia. apply list_lookup_insert_eq. lia.
      * cbn in Hk. replace (i + S k)%nat with (S i + k)%nat by lia. by apply Hhigh.
Qed.

(** ** The theorems *)

Section Props.
Context {DB : Type} `{BerkeleyDBLaws DB}.

(** An environment in which the threads can be connected: memory and the eight
    pipes [ps]. *)
Record boots (e : init_env DB) (ps : list (Z * Z)) : Prop := {
  boo_calloc : ie_calloc e = true;
  boo_pipes : ie_pipes e = Some <$> ps;
  boo_count : length ps = Z.to_nat WORKER_THREAD_CNT
}.

(** One in which the data node starts on an empty directory. *)
Record starts (e : init_env DB) (ps : list (Z * Z)) (d : DB) (s : Storage.state DB) : Prop := {
  sta_boots : boots e ps;
  sta_storage : StorageRefine.opens (ie_storage e) 18 false d;
  sta_healthy : healthy d;
  sta_empty : contents d = ∅;
  sta_pristine : StorageRefine.pristine s 18
}.

Lemma sizes_production : StorageRefine.sizes_for 18 (1024 * 1024 * 16).
Proof. by vm_compute. Qed.

(** The start, once the storage opens. *)
Lemma init_opened e ps s s' :
  boots e ps -> Storage.open_storage (ie_storage e) (1024 * 1024 * 16) s = Storage.Ret 0 s' ->
  exists v, init_datanode_vars e s = Storage.Ret (v, RET_SUCCESS) s' /\
    settings v = default_settings /\ is_Some (slab v) /\
    forall i r w, ps !! i = Some (r, w) -> pipe_fd v !! (i * 2)%nat = Some r /\ pipe_fd v !! (i * 2 + 1)%nat = Some w.
Proof.
  intros [Hc Hp Hn] E. unfold init_datanode_vars. rewrite Hc, Hp.
  change (worker_thread_cnt default_settings) with WORKER_THREAD_CNT.
  destruct (open_pipes_run (Z.to_nat WORKER_THREAD_CNT) 0 ps (replicate (Z.to_nat (WORKER_THREAD_CNT * 2)) 0) Hn)
    as (fds & -> & _ & _ & Hfds); [by apply Nat.leb_le|].
  cbn [negb]. erewrite StorageRefine.bind_ret by exact E. cbn [Z.eqb negb].
  eexists. split; [reflexivity|]. split; [done|]. split.
  - cbn [slab]. pose proof (Slab.production_eq MEMPOOL_SIZE) as Ep. unfold Slab.production in Ep. rewrite Ep. by eexists.
  - intros i r w Hi. exact (Hfds i r w Hi).
Qed.

Lemma init_run e ps d s :
  starts e ps d s ->
  exists v s', init_datanode_vars e s = Storage.Ret (v, RET_SUCCESS) s' /\ QueryProps.ready 18 (2 ^ 32) s' ∅ /\
    settings v = default_settings /\
    forall i r w, ps !! i = Some (r, w) -> pipe_fd v !! (i * 2)%nat = Some r /\ pipe_fd v !! (i * 2 + 1)%nat = Some w.
Proof.
  intros [Hb Ho Hh Hd Hs].
  destruct (StorageRefine.open_fresh_run (ie_storage e) 18 d _ s Ho Hh Hd sizes_production Hs) as (s' & E & Hr & Hcnt & Hroom).
  destruct (init_opened e ps s s' Hb E) as (v & Ev & Hset & _ & Hfds). exists v, s'. split; [exact Ev|]. by split.
Qed.

(** C32: the start of the data node connects its threads: with eight pipes made,
    query thread [i] is handed the reading end of the pipe whose writing end the
    assign thread uses for index [i], for every index that the round-robin
    dispatch can reach. *)
Theorem pipes_connected e ps d s :
  starts e ps d s ->
  exists v args s', main e s = Storage.Ret (v, Some args) s' /\ length args = Z.to_nat WORKER_THREAD_CNT /\
    forall i, 0 <= i < WORKER_THREAD_CNT -> exists r w, ps !! Z.to_nat i = Some (r, w) /\
      args !! Z.to_nat i = Some (i, r) /\ dispatch_fd v i = Some w.
Proof.
  intros Hst. destruct (init_run e ps d s Hst) as (v & s' & E & _ & Hset & Hfds).
  assert (Hcount : length ps = 8%nat) by apply (boo_count _ _ (sta_boots _ _ _ _ Hst)).
  assert (Hargs : exists args, query_thread_args v = Some args).
  { unfold query_thread_args. rewrite Hset. apply mapM_is_Some. apply Forall_forall. intros i Hi.
    apply elem_of_seq in Hi. change (0 + Z.to_nat (worker_thread_cnt default_settings))%nat with 8%nat in Hi.
    destruct (lookup_lt_is_Some_2 ps i ltac:(lia)) as [[r w] Hps]. destruct (Hfds i r w Hps) as [E1 _]. unfold compose. rewrite E1. by eexists. }
  destruct Hargs as [args Eargs]. exists v, args, s'. split; [|split].
  - unfold main. erewrite StorageRefine.bind_ret by exact E. cbn [fst]. by rewrite Eargs.
  - pose proof (length_mapM _ _ _ Eargs) as El. rewrite <- El, length_seq, Hset. reflexivity.
  - intros i Hi. unfold WORKER_THREAD_CNT in Hi.
    destruct (lookup_lt_is_Some_2 ps (Z.to_nat i) ltac:(lia)) as [[r w] Hps]. exists r, w. split; [done|].
    destruct (Hfds _ r w Hps) as [H1 H2]. split.
    + unfold query_thread_args in Eargs. apply mapM_Some in Eargs. 
      assert (Hsq : seq 0 (Z.to_nat (worker_thread_cnt (settings v))) !! Z.to_nat i = Some (Z.to_nat i)).
      { rewrite Hset. apply lookup_seq. change (Z.to_nat (worker_thread_cnt default_settings)) with 8%nat. lia. }
      destruct (Forall2_lookup_l _ _ _ _ _ Eargs Hsq) as (a & Ha & Ea). rewrite Ha. rewrite H1 in Ea. cbn in Ea.
      rewrite Z2Nat.id in Ea by lia. by rewrite Ea.
    + unfold dispatch_fd. replace (Z.to_nat (i * 2 + 1)) with (Z.to_nat i * 2 + 1)%nat by lia. exact H2.
Qed.

(** C4: a data node from its start: on an empty directory, with memory and a
    quiet system, [init_datanode_vars] succeeds, and then, for any sequence of up
    to 2^32 connections with one request each, whose head is whole in the first
    packet and whose body is cut into packets in any way, every client gets the
    answer that a map of 16-byte keys gives after the requests before it. *)
Theorem datanode_history behind e ps d s conns rs :
  starts e ps d s ->
  Forall2 (fun conn r => 0 <= conn.1 /\ QueryProps.encodes r conn.2) conns rs ->
  Forall (QueryProps.request_ok 18) rs -> Z.of_nat (length rs) <= 2 ^ 32 ->
  exists v s' lf' st', init_datanode_vars e s = Storage.Ret (v, RET_SUCCESS) s' /\
    QueryProps.exchanges behind (worker_thread_cnt (settings v)) conns (0, s') =
      Some ((QueryProps.answers rs ∅).1, (lf', st')) /\
    StorageRefine.represents st' (QueryProps.answers rs ∅).2.
Proof.
  intros Hst Hen Hok Hlen. destruct (init_run e ps d s Hst) as (v & s' & E & Hready & _).
  destruct (QueryProps.exchanges_run behind (worker_thread_cnt (settings v)) conns rs 18 (2 ^ 32) 0 s' ∅ Hen Hok Hready Hlen)
    as (lf' & st' & E' & Hr').
  exists v, s', lf', st'. by split.
Qed.

(** What a new process finds: its own variables, and the files of [old]. *)
Definition inherits (old s : Storage.state DB) : Prop :=
  Storage.inited_global_vars s = false /\ Storage.io s = [] /\ Storage.allocs s = [] /\ Storage.disk s = Storage.disk old.

(** C8: the data survive a restart over the wire. [power halt] makes the process
    exit with the storage closed; a new process that opens the same files, and a
    database that holds what the index held, starts, and then answers every
    sequence of connections, with requests as in C4, as the same map would; the
    system is quiet throughout. *)
Theorem power_cycle fd lf cnt c st m :
  QueryProps.ready 18 c st m -> 0 <= fd ->
  exists w b, AssignProps.serve_connection fd 1 (Assign.World lf cnt st [] [] [Assign.Bytes AssignSafety.power_line] [] []) = Assign.Exit w /\
    Storage.indexdb st = Some b /\
    forall e ps d s, boots e ps -> StorageRefine.opens (ie_storage e) 18 true d -> healthy d ->
      contents d = contents (Bdb.dbp b) -> inherits (Assign.storage w) s ->
      exists v s', init_datanode_vars e s = Storage.Ret (v, RET_SUCCESS) s' /\
        forall behind conns rs,
          Forall2 (fun conn r => 0 <= conn.1 /\ QueryProps.encodes r conn.2) conns rs ->
          Forall (QueryProps.request_ok 18) rs -> Z.of_nat (length rs) <= c ->
          exists lf' st', QueryProps.exchanges behind (worker_thread_cnt (settings v)) conns (0, s') =
              Some ((QueryProps.answers rs m).1, (lf', st')) /\
            StorageRefine.represents st' (QueryProps.answers rs m).2.
Proof.
  intros (Hr & Hn & Hroom) Hfd.
  destruct (AssignSafety.power_halt_run m (Assign.World lf cnt st [] [] [] [] []) fd 18 c Hr Hn Hroom Hfd) as (w & b & E & Hb & Hd).
  exists w, b. split; [exact E|]. split; [exact Hb|]. intros e ps d s Hboot Ho Hh Hc (H1 & H2 & H3 & H4).
  destruct (Hd (ie_storage e) d _ s sizes_production Ho Hh Hc H1 H2 H3 H4) as (s' & Eo & Hr' & Hn' & Hroom').
  destruct (init_opened e ps s s' Hboot Eo) as (v & Ev & _). exists v, s'. split; [exact Ev|].
  intros behind conns rs Hen Hok Hl. apply (QueryProps.exchanges_run behind _ conns rs 18 c 0 s' m Hen Hok); [by split|exact Hl].
Qed.

End Props.

(** [timeval_sub] subtracts: for times with proper microseconds the result
    has proper microseconds and is the exact difference, also when it is
    negative. *)
Theorem timeval_sub_exact a b :
  0 <= a.2 < 1000000 -> 0 <= b.2 < 1000000 ->
  let c := timeval_sub a b in
  0 <= c.2 < 1000000 /\ c.1 * 1000000 + c.2 = (a.1 * 1000000 + a.2) - (b.1 * 1000000 + b.2).
Proof.
  intros Ha Hb. unfold timeval_sub. cbn [fst snd]. destruct (Z.ltb_spec (a.2 - b.2) 0); cbn [fst snd]; lia.
Qed.

(** ** A concrete data node *)

Import MapDB.

Definition ex_pipes : list (Z * Z) := [(10, 11); (12, 13); (14, 15); (16, 17); (18, 19); (20, 21); (22, 23); (24, 25)].
Definition ex_init : init_env (gmap (list Z) (list Z)) :=
  InitEnv true (Some <$> ex_pipes) (Log.Missing, 3) StorageProps.ex_env.

Lemma ex_starts : starts ex_init ex_pipes ∅ StorageProps.ex_pristine.
Proof. split; [by split|apply StorageProps.ex_opens|done|reflexivity|apply StorageProps.ex_pristine_ok]. Qed.

Lemma pipes_connected_witness : exists v args s',
  main ex_init StorageProps.ex_pristine = Storage.Ret (v, Some args) s' /\ args !! 3%nat = Some (3, 16) /\ dispatch_fd v 3 = Some 17.
Proof.
  destruct (pipes_connected ex_init ex_pipes ∅ StorageProps.ex_pristine ex_starts) as (v & args & s' & E & _ & Hi).
  exists v, args, s'. split; [exact E|]. destruct (Hi 3) as (r & w & Hp & Ha & Hd); [unfold WORKER_THREAD_CNT; lia|].
  cbn in Hp. injection Hp as <- <-. split; [exact Ha|exact Hd].
Defined.

Lemma datanode_history_witness : exists v s' lf' st',
  init_datanode_vars ex_init StorageProps.ex_pristine = Storage.Ret (v, RET_SUCCESS) s' /\
  QueryProps.exchanges (fun _ => 0) (worker_thread_cnt (settings v))
    [(9, [str "set key 1 0 5" ++ Protocol.crlf ++ str "ab"; str "cde"; Protocol.crlf]);
     (10, [str "get key" ++ Protocol.crlf])] (0, s') =
  Some ([str "STORED" ++ Protocol.crlf; str "VALUE key 0 5" ++ Protocol.crlf ++ str "abcde" ++ Protocol.crlf], (lf', st')).
Proof.
  destruct (datanode_history (fun _ => 0) ex_init ex_pipes ∅ StorageProps.ex_pristine
    [(9, [str "set key 1 0 5" ++ Protocol.crlf ++ str "ab"; str "cde"; Protocol.crlf]);
     (10, [str "get key" ++ Protocol.crlf])]
    [QueryProps.Set_ (str "key") 1 0 (str "abcde"); QueryProps.Get (str "key")] ex_starts) as (v & s' & lf' & st' & E1 & E2 & _).
  - repeat constructor; cbn [fst snd]; try lia.
    apply (QueryProps.enc_set (str "key") 1 0 (str "abcde") (str "ab") [str "cde"; Protocol.crlf]);
      [reflexivity|repeat constructor; discriminate|apply Nat.leb_le; vm_compute; reflexivity].
  - repeat constructor; try apply AssignProps.ex_key_word; try apply QueryProps.ex_key_bytes; try (cbn; lia);
      vm_compute; congruence.
  - cbn. lia.
  - exists v, s', lf', st'. split; [exact E1|exact E2].
Defined.

Definition ex_reborn (old : Storage.state (gmap (list Z) (list Z))) : Storage.state (gmap (list Z) (list Z)) :=
  Storage.State false (replicate 20 0) (replicate 20 Storage.zero_block_file) 0 (Storage.disk old) None None None None [] [].
Definition ex_reinit (d : gmap (list Z) (list Z)) : init_env (gmap (list Z) (list Z)) :=
  InitEnv true (Some <$> ex_pipes) (Log.RegularFile, 3) (StorageRefine.reopen_env d).

Lemma power_cycle_witness : exists st w d v s' lf' st',
  AssignProps.serve_connection 9 1 (Assign.World 0 8 st [] [] [Assign.Bytes AssignSafety.power_line] [] []) = Assign.Exit w /\
  init_datanode_vars (ex_reinit d) (ex_reborn (Assign.storage w)) = Storage.Ret (v, RET_SUCCESS) s' /\
  QueryProps.exchanges (fun _ => 0) (worker_thread_cnt (settings v)) [(9, [str "get key" ++ Protocol.crlf])] (0, s') =
  Some ([str "VALUE key 0 3" ++ Protocol.crlf ++ [1; 2; 3] ++ Protocol.crlf], (lf', st')).
Proof.
  destruct (init_run ex_init ex_pipes ∅ StorageProps.ex_pristine ex_starts) as (v0 & st0 & _ & Hr0 & _).
  destruct (QueryProps.update_ready 18 (2 ^ 32) st0 ∅ (str "key") [1; 2; 3] Hr0) as (st & _ & Hr);
    [apply QueryProps.ex_key_bytes|repeat constructor; lia|vm_compute; discriminate|lia|].
  destruct (power_cycle 9 0 8 (2 ^ 32 - 1) st _ Hr ltac:(lia)) as (w & b & E & _ & Hboot).
  destruct (Hboot (ex_reinit (Bdb.dbp b)) ex_pipes (Bdb.dbp b) (ex_reborn (Assign.storage w))) as (v & s' & Ev & Hex);
    [by split|apply StorageRefine.reopen_opens|exact I|reflexivity|by split|].
  destruct (Hex (fun _ => 0) [(9, [str "get key" ++ Protocol.crlf])] [QueryProps.Get (str "key")]) as (lf' & st' & Ea & _);
    [constructor; [split; [cbn; lia|apply (QueryProps.enc_get (str "key"))]|constructor]|constructor; [apply QueryProps.ex_get_ok|constructor]|cbn; lia|].
  exists st, w, (Bdb.dbp b), v, s', lf', st'. split; [exact E|]. split; [exact Ev|exact Ea].
Defined.


Lemma timeval_sub_exact_witness : 0 <= (timeval_sub (5, 100) (4, 900000)).2 < 1000000 /\ (timeval_sub (5, 100) (4, 900000)).1 = 0.
Proof.
  destruct (timeval_sub_exact (5, 100) (4, 900000)) as [H _]; [cbn; lia|cbn; lia|]. split; [exact H|reflexivity].
Defined.

End Datanode.
