(* ===== verification/Startup.v ===== *)
(** The start of the data node's threads: [main] of [src/src/datanode.c], with
    [new_assign_thread] and [new_worker_thread] up to their event loops. [main]
    creates one thread at a time and waits for it at a semaphore, [sem_barrier];
    every thread is its own process here, and they interleave. *)

From Stdlib Require Import ZArith Lia.
From stdpp Require Import base numbers list relations.
From S2P Require Import Prelude.

Module Startup.

(** ** The threads *)

(** [Posted]: behind its [sem_post] and not yet in [ev_run]; [Looping]: in
    [ev_run]; [Ended]: returned before it. *)
Inductive thread := Absent | Created | Posted | Looping | Ended.
#[export] Instance thread_eq_dec : EqDecision thread.
Proof. solve_decision. Defined.

(** Where [main] is: before a [pthread_create], before the [sem_wait] behind it,
    or before the joins. *)
Inductive main_at := CreateAssign | AwaitAssign | CreateWorker (i : nat) | AwaitWorker (i : nat) | Joining.

Record config := Config {
  main : main_at;
  sem_barrier : Z;
  assign : thread;
  workers : list thread;
  aborted : bool
}.

Section Steps.
(** The number of query threads; whether [init_listen_socket] gives a socket;
    whether the query thread gets memory for its record. (The assign thread does
    not look whether it got any; here it did.) *)
Context (query_thread_cnt : nat) (listens : bool) (alloc : nat -> bool).

(** The head of [main]'s loop. *)
Definition loop_at (i : nat) : main_at := if (i <? query_thread_cnt)%nat then CreateWorker i else Joining.

(** What the thread does next: up to its [sem_post], then into [ev_run]. Between
    the two the others may run. *)
Definition new_assign_thread (c : config) : option config :=
  match assign c with
  | Created =>
      Some (if listens then Config (main c) (sem_barrier c + 1) Posted (workers c) (aborted c)
            else Config (main c) (sem_barrier c) Ended (workers c) (aborted c))
  | Posted => Some (Config (main c) (sem_barrier c) Looping (workers c) (aborted c))
  | _ => None
  end.
Definition new_worker_thread (i : nat) (c : config) : option config :=
  match workers c !! i with
  | Some Created =>
      Some (if alloc i then Config (main c) (sem_barrier c + 1) (assign c) (<[i := Posted]> (workers c)) (aborted c)
            else Config (main c) (sem_barrier c) (assign c) (workers c) true)
  | Some Posted => Some (Config (main c) (sem_barrier c) (assign c) (<[i := Looping]> (workers c)) (aborted c))
  | _ => None
  end.

(** What [main] does next, [None]: it waits. *)
Definition main_next (c : config) : option config :=
  match main c with
  | CreateAssign => Some (Config AwaitAssign (sem_barrier c) Created (workers c) (aborted c))
  | AwaitAssign =>
      if 0 <? sem_barrier c then Some (Config (loop_at 0) (sem_barrier c - 1) (assign c) (workers c) (aborted c)) else None
  | CreateWorker i => Some (Config (AwaitWorker i) (sem_barrier c) (assign c) (<[i := Created]> (workers c)) (aborted c))
  | AwaitWorker i =>
      if 0 <? sem_barrier c then Some (Config (loop_at (S i)) (sem_barrier c - 1) (assign c) (workers c) (aborted c)) else None
  | Joining => None
  end.

Inductive step : config -> config -> Prop :=
  | step_main c c' : aborted c = false -> main_next c = Some c' -> step c c'
  | step_assign c c' : aborted c = false -> new_assign_thread c = Some c' -> step c c'
  | step_worker c c' i : aborted c = false -> new_worker_thread i c = Some c' -> step c c'.

Definition start : config := Config CreateAssign 0 Absent (replicate query_thread_cnt Absent) false.

End Steps.

(** ** A start without failures *)

(** The thread has told [main] that it is ready. *)
Definition up (t : thread) : Prop := t = Posted \/ t = Looping.

(** The first [i] query threads are up, the next one is [t], the others are to come. *)
Definition row (n i : nat) (t : option thread) (ws : list thread) : Prop :=
  exists us, Forall up us /\ length us = i /\ ws = us ++ option_list t ++ replicate (n - i - length (option_list t)) Absent.
Definition creating (c : config) (t : thread) : Prop :=
  t = Created /\ sem_barrier c = 0 \/ up t /\ sem_barrier c = 1.

Definition phase (n : nat) (c : config) : Prop :=
  aborted c = false /\
  match main c with
  | CreateAssign => sem_barrier c = 0 /\ assign c = Absent /\ row n 0 None (workers c)
  | AwaitAssign => row n 0 None (workers c) /\ creating c (assign c)
  | CreateWorker i => (i < n)%nat /\ sem_barrier c = 0 /\ up (assign c) /\ row n i None (workers c)
  | AwaitWorker i => (i < n)%nat /\ up (assign c) /\ exists t, row n i (Some t) (workers c) /\ creating c t
  | Joining => sem_barrier c = 0 /\ up (assign c) /\ row n n None (workers c)
  end.

(** The steps left to a thread, to [main], and to all. *)
Definition weight (t : thread) : nat := match t with Absent | Created => 2 | Posted => 1 | Looping | Ended => 0 end.
Definition main_left (n : nat) (m : main_at) : nat :=
  match m with
  | CreateAssign => 2 + 2 * n
  | AwaitAssign => 1 + 2 * n
  | CreateWorker i => 2 * (n - i)
  | AwaitWorker i => 2 * (n - i) - 1
  | Joining => 0
  end.
Definition left (n : nat) (c : config) : nat := main_left n (main c) + weight (assign c) + sum_list (weight <$> workers c).

Lemma weight_insert ws j x y : ws !! j = Some x ->
  (sum_list (weight <$> <[j := y]> ws) + weight x = sum_list (weight <$> ws) + weight y)%nat.
Proof.
  revert j; induction ws as [|w ws IH]; intros [|j] Hj; try done.
  - injection Hj as ->. change (<[0%nat := y]> (x :: ws)) with (y :: ws). rewrite !fmap_cons. cbn [sum_list_with id]. lia.
  - change (<[S j := y]> (w :: ws)) with (w :: <[j := y]> ws). rewrite !fmap_cons. cbn [sum_list_with id]. specialize (IH j Hj). lia.
Qed.
Lemma row_start n : row n 0 None (replicate n Absent).
Proof. exists []. split; [done|]. split; [done|]. cbn. by rewrite !Nat.sub_0_r. Qed.
Lemma row_create n i ws : (i < n)%nat -> row n i None ws ->
  row n i (Some Created) (<[i := Created]> ws) /\ sum_list (weight <$> <[i := Created]> ws) = sum_list (weight <$> ws).
Proof.
  intros Hi (us & Hu & <- & ->). change (option_list None) with (@nil thread). cbn [app].
  assert (E : replicate (n - length us - length (@nil thread)) Absent = Absent :: replicate (n - length us - 1) Absent).
  { cbn [length]. by replace (n - length us - 0)%nat with (S (n - length us - 1)) by lia. }
  rewrite E, insert_app_r_alt, Nat.sub_diag by lia. split; [exists us; cbn; split; [done|]; by split|].
  by rewrite !fmap_app, !sum_list_with_app.
Qed.
Lemma row_set n i t t' ws : row n i (Some t) ws -> row n i (Some t') (<[i := t']> ws) /\
  (sum_list (weight <$> <[i := t']> ws) + weight t = sum_list (weight <$> ws) + weight t')%nat.
Proof.
  intros (us & Hu & <- & ->). change (option_list (Some t)) with [t]. cbn [app length].
  rewrite insert_app_r_alt, Nat.sub_diag by lia. split; [exists us; cbn; split; [done|]; by split|]. rewrite !fmap_app, !sum_list_with_app. cbn. lia.
Qed.
Lemma row_up n i t ws : up t -> row n i (Some t) ws -> row n (S i) None ws.
Proof.
  intros Ht (us & Hu & <- & ->). exists (us ++ [t]). rewrite Forall_app, length_app. split; [split; [done|by constructor]|].
  split; [cbn; lia|]. rewrite <- app_assoc. cbn. by replace (n - S (length us) - 0)%nat with (n - length us - 1)%nat by lia.
Qed.
(** A thread of the row: one that is up, or the one that is created now. *)
Lemma row_at n i t ws j x : row n i t ws -> ws !! j = Some x -> x <> Absent ->
  (j < i)%nat /\ up x \/ j = i /\ t = Some x.
Proof.
  intros (us & Hu & <- & ->) [Hj|[Hl Hj]]%lookup_app_Some Hx.
  - left. split; [by eapply lookup_lt_Some|]. by eapply (proj1 (Forall_lookup _ _) Hu).
  - right. apply lookup_app_Some in Hj as [Hj|[_ Hj]]; [|by apply lookup_replicate in Hj as []].
    destruct t as [t|]; [|done]. cbn [option_list] in Hj. apply list_lookup_singleton_Some in Hj as [? ->]. split; [lia|done].
Qed.
(** One that is up enters its event loop. *)
Lemma row_enter n i t ws j : row n i t ws -> ws !! j = Some Posted ->
  (exists t', (t = Some Posted /\ t' = Some Looping \/ t' = t) /\ row n i t' (<[j := Looping]> ws)) /\
  S (sum_list (weight <$> <[j := Looping]> ws)) = sum_list (weight <$> ws).
Proof.
  intros Hr Hj. destruct (row_at n i t ws j Posted Hr Hj ltac:(done)) as [[Hlt _]|[-> ->]].
  - destruct Hr as (us & Hu & <- & ->). rewrite lookup_app_l in Hj by done. rewrite insert_app_l by done. split.
    + exists t. split; [by right|]. exists (<[j := Looping]> us). split; [|by rewrite length_insert].
      apply Forall_insert; [done|by right].
    + rewrite !fmap_app, !sum_list_with_app. pose proof (weight_insert us j Posted Looping Hj) as Hs. cbn [weight] in Hs. lia.
  - destruct (row_set n i Posted Looping ws Hr) as [H1 H2]. cbn in H2. split; [|lia]. exists (Some Looping). split; [by left|done].
Qed.

Section Complete.
Context (n : nat) (alloc : nat -> bool) (Halloc : forall i, alloc i = true).
#[local] Abbreviation step := (step n true alloc).

Lemma phase_start : phase n (start n) /\ left n (start n) = (4 + 4 * n)%nat.
Proof.
  split; [split; [done|]; split; [done|]; split; [done|apply row_start]|]. unfold left. cbn [start main assign workers main_left weight].
  assert (E : sum_list (weight <$> replicate n Absent) = (2 * n)%nat); [|lia].
  clear. induction n as [|j IH]; [done|]. cbn [replicate]. rewrite fmap_cons. cbn [sum_list_with id weight]. rewrite IH. lia.
Qed.

(** The head of the loop is reached with the first [i] query threads up. *)
Lemma loop_phase i s a ws :
  (i <= n)%nat -> s = 0 -> up a -> row n i None ws ->
  phase n (Config (loop_at n i) s a ws false) /\ main_left n (loop_at n i) = (2 * (n - i))%nat.
Proof.
  intros Hi Hs Ha Hw. unfold loop_at. destruct (Nat.ltb_spec i n) as [Hlt|Hge]; [by repeat split|].
  assert (i = n) as -> by lia. split; [by repeat split|]. cbn. lia.
Qed.

Lemma main_phase c c' : phase n c -> main_next n c = Some c' -> phase n c' /\ left n c = S (left n c').
Proof.
  destruct c as [m s a ws ab]. intros [Hab Hp] Hn. cbn [main sem_barrier assign workers aborted] in *. subst ab. unfold main_next in Hn.
  cbn [main sem_barrier assign workers aborted] in Hn. destruct m as [| |i|i|].
  - destruct Hp as (-> & -> & Hw). injection Hn as <-. split; [split; [done|]; split; [done|by left]|]. unfold left. cbn. lia.
  - destruct Hp as [Hw Hc]. destruct (Z.ltb_spec 0 s) as [Hs|]; [|done]. injection Hn as <-.
    destruct Hc as [[_ E]|[Ha E]]; cbn in E; [lia|].
    destruct (loop_phase 0 (s - 1) a ws ltac:(lia) ltac:(lia) Ha Hw) as [H1 H2]. split; [exact H1|].
    unfold left. cbn [main assign workers]. rewrite H2. cbn [main_left]. lia.
  - destruct Hp as (Hi & -> & Ha & Hw). injection Hn as <-. destruct (row_create n i ws Hi Hw) as [H1 H2]. split.
    + split; [done|]. split; [done|]. split; [done|]. exists Created. split; [done|by left].
    + unfold left. cbn [main assign workers main_left]. rewrite H2. lia.
  - destruct Hp as (Hi & Ha & t & Hw & Hc). destruct (Z.ltb_spec 0 s) as [Hs|]; [|done]. injection Hn as <-.
    destruct Hc as [[_ E]|[Ht E]]; cbn in E; [lia|].
    destruct (loop_phase (S i) (s - 1) a ws ltac:(lia) ltac:(lia) Ha (row_up n i t ws Ht Hw)) as [H1 H2]. split; [exact H1|].
    unfold left. cbn [main assign workers]. rewrite H2. cbn [main_left]. lia.
  - done.
Qed.

Lemma assign_phase c c' : phase n c -> new_assign_thread true c = Some c' -> phase n c' /\ left n c = S (left n c').
Proof.
  destruct c as [m s a ws ab]. intros [Hab Hp] Hn. cbn [main sem_barrier assign workers aborted] in *. subst ab.
  unfold new_assign_thread in Hn. cbn [main sem_barrier assign workers aborted] in Hn. destruct a; try done; injection Hn as <-.
  - split; [|unfold left; cbn [main assign workers weight]; lia]. split; [done|]. cbn [main sem_barrier assign workers].
    destruct m; [by destruct Hp as (_ & ? & _)| |destruct Hp as (_ & _ & [?|?] & _); done|destruct Hp as (_ & [?|?] & _); done|
      destruct Hp as (_ & [?|?] & _); done].
    destruct Hp as [Hw [[_ E]|[[?|?] _]]]; [|done..]. cbn in E. subst s. split; [done|]. right. split; [by left|done].
  - split; [|unfold left; cbn [main assign workers weight]; lia]. split; [done|]. cbn [main sem_barrier assign workers].
    assert (Hl : up Looping) by by right.
    destruct m; [by destruct Hp as (_ & ? & _)| |by destruct Hp as (? & ? & _ & ?)|by destruct Hp as (? & _ & ?)|by destruct Hp as (? & _ & ?)].
    destruct Hp as [Hw [[? _]|[_ E]]]; [done|]. split; [done|by right].
Qed.

(** A query thread that is there is created now, or up. *)
Lemma worker_row c j x : phase n c -> workers c !! j = Some x -> x <> Absent ->
  exists i t, row n i t (workers c) /\ ((j < i)%nat /\ up x \/ main c = AwaitWorker i /\ j = i /\ t = Some x /\ creating c x).
Proof.
  intros [_ Hp] Hj Hx. destruct (main c) as [| |i|i|].
  - destruct Hp as (_ & _ & Hw). exists 0%nat, None. split; [done|]. destruct (row_at _ _ _ _ _ _ Hw Hj Hx) as [?|[_ ?]]; [by left|done].
  - destruct Hp as (Hw & _). exists 0%nat, None. split; [done|]. destruct (row_at _ _ _ _ _ _ Hw Hj Hx) as [?|[_ ?]]; [by left|done].
  - destruct Hp as (_ & _ & _ & Hw). exists i, None. split; [done|]. destruct (row_at _ _ _ _ _ _ Hw Hj Hx) as [?|[_ ?]]; [by left|done].
  - destruct Hp as (_ & _ & t & Hw & Hc). exists i, (Some t). split; [done|].
    destruct (row_at _ _ _ _ _ _ Hw Hj Hx) as [?|[-> [= ->]]]; [by left|by right].
  - destruct Hp as (_ & _ & Hw). exists n, None. split; [done|]. destruct (row_at _ _ _ _ _ _ Hw Hj Hx) as [?|[_ ?]]; [by left|done].
Qed.

Lemma worker_phase i c c' : phase n c -> new_worker_thread alloc i c = Some c' -> phase n c' /\ left n c = S (left n c').
Proof.
  intros Hp Hn. pose proof (worker_row c i) as Hrow. destruct c as [m s a ws ab]. unfold new_worker_thread in Hn.
  cbn [main sem_barrier assign workers aborted] in *. destruct (ws !! i) as [x|] eqn:Hi; [|done]. destruct x; try done; injection Hn as <-.
  - rewrite Halloc. destruct (Hrow _ Hp eq_refl ltac:(done)) as (i' & t & Hw & [[_ [?|?]]|(-> & -> & -> & Hc)]); [done..|].
    destruct (row_set n i' Created Posted ws Hw) as [H1 H2]. destruct Hp as [Hab (Hlt & Ha & _)]. cbn in Hab, Ha. subst ab. split.
    + split; [done|]. split; [done|]. split; [done|]. exists Posted. split; [done|]. right. split; [by left|].
      destruct Hc as [[_ E]|[[?|?] _]]; [|done..]. cbn in *. lia.
    + unfold left. cbn [main assign workers weight] in *. lia.
  - destruct Hp as [Hab Hp]. cbn [main sem_barrier assign workers aborted] in *. subst ab. split.
    + split; [done|]. cbn [main sem_barrier assign workers]. destruct m as [| |j|j|].
      * destruct Hp as (? & ? & Hw). by destruct (row_enter _ _ _ _ _ Hw Hi) as [(t' & [[? _]| ->] & Hw') _].
      * destruct Hp as (Hw & ?). by destruct (row_enter _ _ _ _ _ Hw Hi) as [(t' & [[? _]| ->] & Hw') _].
      * destruct Hp as (? & ? & ? & Hw). by destruct (row_enter _ _ _ _ _ Hw Hi) as [(t' & [[? _]| ->] & Hw') _].
      * destruct Hp as (? & ? & t & Hw & Hc). destruct (row_enter _ _ _ _ _ Hw Hi) as [(t' & Ht' & Hw') _]. split; [done|]. split; [done|].
        destruct Ht' as [[[= ->] ->]| ->]; [|by exists t]. exists Looping. split; [done|]. right. split; [by right|].
        by destruct Hc as [[? _]|[_ E]].
      * destruct Hp as (? & ? & Hw). by destruct (row_enter _ _ _ _ _ Hw Hi) as [(t' & [[? _]| ->] & Hw') _].
    + assert (Hr : exists j t, row n j t ws).
      { destruct m as [| |j|j|]; [destruct Hp as (_ & _ & ?)|destruct Hp as [? _]|destruct Hp as (_ & _ & _ & ?)|destruct Hp as (_ & _ & t & ? & _)|
          destruct Hp as (_ & _ & ?)]; by do 2 eexists. }
      destruct Hr as (j & t & Hw). destruct (row_enter _ _ _ _ _ Hw Hi) as [_ H2]. unfold left. cbn [main assign workers]. lia.
Qed.

Lemma step_phase c c' : phase n c -> step c c' -> phase n c' /\ left n c = S (left n c').
Proof. intros Hp Hs. destruct Hs; [by eapply main_phase|by eapply assign_phase|by eapply worker_phase]. Qed.

Lemma nsteps_phase k c : nsteps step k (start n) c -> phase n c /\ (k + left n c = 4 + 4 * n)%nat.
Proof.
  revert c; induction k as [|k IH]; intros c H.
  - inversion H; subst. destruct phase_start as [H1 H2]. by rewrite H2.
  - apply nsteps_inv_r in H as (y & Hy & Hs). destruct (IH y Hy) as [Hp E].
    destruct (step_phase y c Hp Hs) as [Hc El]. split; [done|lia].
Qed.

(** The query threads when [main] is at the joins. *)
Lemma joining_row ws : row n n None ws -> Forall up ws /\ length ws = n.
Proof. intros (us & Hu & Hl & ->). cbn. rewrite Nat.sub_diag, app_nil_r. done. Qed.

Lemma weights_zero ws : Forall up ws -> sum_list (weight <$> ws) = 0%nat <-> ws = replicate (length ws) Looping.
Proof.
  induction 1 as [|x ws [-> | ->] _ IH]; [done|..]; cbn [fmap list_fmap length replicate]; cbn [sum_list_with id weight].
  - split; [lia|done].
  - cbn. rewrite IH. split; [by intros <-|by intros [=]].
Qed.

Lemma left_zero c : phase n c -> left n c = 0%nat <-> main c = Joining /\ assign c = Looping /\ workers c = replicate n Looping.
Proof.
  intros [_ Hp]. unfold left. destruct (main c) as [| |i|i|] eqn:Em; cbn [main_left];
    [split; [lia|by intros [? _]]..|split; [|by intros [? _]]; destruct Hp; lia|split; [|by intros [? _]]; destruct Hp; lia|].
  destruct Hp as (_ & Ha & Hw). destruct (joining_row _ Hw) as [Hu Hl]. pose proof (weights_zero _ Hu) as Hz. rewrite Hl in Hz.
  destruct Ha as [-> | ->]; cbn [weight]; split; [lia|by intros (_ & ? & _)|intros E; split; [done|]; split; [done|]; apply Hz; lia|].
  intros (_ & _ & E). rewrite (proj2 Hz E). done.
Qed.

Lemma phase_moves c : phase n c -> (0 < left n c)%nat -> exists c', step c c'.
Proof.
  intros Hp Hl. destruct (decide (assign c = Posted)) as [Ea|Ea].
  { eexists. apply step_assign; [apply Hp|]. unfold new_assign_thread. by rewrite Ea. }
  destruct (decide (Posted ∈ workers c)) as [[i Hi]%list_elem_of_lookup|Hw].
  { eexists. apply (step_worker _ _ _ _ _ i); [apply Hp|]. unfold new_worker_thread. by rewrite Hi. }
  destruct (main c) as [| |i|i|] eqn:Em; pose proof Hp as [Hab Hph]; rewrite Em in Hph.
  - eexists. apply step_main; [done|]. unfold main_next. by rewrite Em.
  - destruct Hph as [_ [[Hc _]|[_ Hs]]].
    + eexists. apply step_assign; [done|]. unfold new_assign_thread. by rewrite Hc.
    + eexists. apply step_main; [done|]. unfold main_next. by rewrite Em, Hs.
  - eexists. apply step_main; [done|]. unfold main_next. by rewrite Em.
  - destruct Hph as (_ & _ & t & (us & Hu & Hl' & E) & [[-> _]|[_ Hs]]).
    + eexists. apply (step_worker _ _ _ _ _ i); [done|]. unfold new_worker_thread.
      rewrite E, lookup_app_r, Hl', Nat.sub_diag by lia. done.
    + eexists. apply step_main; [done|]. unfold main_next. by rewrite Em, Hs.
  - exfalso. destruct Hph as (_ & Ha & Hr). destruct (joining_row _ Hr) as [Hu Hlen].
    apply (Nat.lt_irrefl 0). revert Hl. rewrite (proj2 (left_zero c Hp)); [done|]. split; [done|].
    split; [by destruct Ha|]. rewrite <- Hlen. clear -Hu Hw. induction Hu as [|x ws [-> | ->] _ IH]; [done|..]; cbn.
    + destruct Hw. by apply list_elem_of_here.
    + f_equal. apply IH. intros Hin. by apply Hw, list_elem_of_further.
Qed.

(** C28: the start of the threads, when the port can be bound and memory is
    there: however [main] and the threads interleave, nothing gets stuck, and
    after exactly four steps per thread, two of [main] and two of its own,
    [main] is at its joins and every thread is in its event loop. [main] never
    goes on before the thread it created has posted the semaphore: a query
    thread is only created, and the joins are only reached, when the assign
    thread and all earlier query threads have their watchers started, though
    not all need be in [ev_run] yet (the time window the code's comment names). *)
Theorem startup_completes k c :
  nsteps step k (start n) c ->
  (k <= 4 + 4 * n)%nat /\
  (k = (4 + 4 * n)%nat <-> main c = Joining /\ assign c = Looping /\ workers c = replicate n Looping) /\
  ((k < 4 + 4 * n)%nat -> exists c', step c c') /\
  (main c = Joining -> up (assign c) /\ Forall up (workers c) /\ length (workers c) = n) /\
  (forall i, main c = CreateWorker i -> up (assign c) /\ forall j, (j < i)%nat -> exists t, workers c !! j = Some t /\ up t).
Proof.
  intros [Hp E]%nsteps_phase. split; [lia|]. split; [rewrite <- (left_zero c Hp); lia|].
  split; [intros Hk; apply phase_moves; [done|lia]|]. destruct Hp as [_ Hp]. split.
  - intros Hm. rewrite Hm in Hp. destruct Hp as (_ & Ha & Hw). split; [done|]. by apply joining_row.
  - intros i Hm. rewrite Hm in Hp. destruct Hp as (_ & _ & Ha & us & Hu & Hl & ->). split; [done|].
    intros j Hj. destruct (lookup_lt_is_Some_2 us j ltac:(lia)) as [t Ht]. exists t. rewrite lookup_app_l by lia.
    split; [done|]. by eapply (proj1 (Forall_lookup _ _) Hu).
Qed.

End Complete.

(** The steps of a small start, in an order where [main] goes first. *)
Ltac start_step :=
  eapply nsteps_l; [first [apply step_main; reflexivity | apply (step_worker _ _ _ _ _ 0); reflexivity
    | apply step_assign; reflexivity]|cbn].

Lemma startup_completes_witness :
  exists c, nsteps (step 1 true (fun _ => true)) 8 (start 1) c /\ main c = Joining /\ workers c = [Looping].
Proof.
  assert (H : nsteps (step 1 true (fun _ => true)) 8 (start 1) (Config Joining 0 Looping [Looping] false)).
  { do 8 start_step. apply nsteps_O. }
  exists (Config Joining 0 Looping [Looping] false). split; [exact H|].
  destruct (startup_completes 1 (fun _ => true) (fun _ => eq_refl) 8 _ H) as (_ & Hj & _).
  destruct (proj1 Hj eq_refl) as (Hm & _ & Hw). split; [exact Hm|exact Hw].
Defined.

(** The time window is there: [main] can be at its joins while no thread is in
    its event loop. *)
Lemma startup_window : exists c, nsteps (step 1 true (fun _ => true)) 6 (start 1) c /\
  main c = Joining /\ assign c = Posted /\ workers c = [Posted].
Proof.
  exists (Config Joining 0 Posted [Posted] false). split; [|done]. do 6 start_step. apply nsteps_O.
Qed.

(** Where the start can be, without a socket. *)
Lemma hanging n alloc k c :
  nsteps (step n false alloc) k (start n) c ->
  workers c = replicate n Absent /\ aborted c = false /\ sem_barrier c = 0 /\
  (k = 0%nat /\ main c = CreateAssign /\ assign c = Absent \/ k = 1%nat /\ main c = AwaitAssign /\ assign c = Created \/
   k = 2%nat /\ main c = AwaitAssign /\ assign c = Ended).
Proof.
  revert c; induction k as [|k IH]; intros c H.
  - inversion H; subst. do 3 (split; [done|]). by left.
  - apply nsteps_inv_r in H as (y & (Hw & Hab & Hs & Hc)%IH & Hyz). destruct Hyz as [y z _ Hn|y z _ Hn|y z i _ Hn].
    + unfold main_next in Hn. destruct Hc as [(-> & Hm & _)|[(_ & Hm & _)|(_ & Hm & _)]]; rewrite Hm in Hn;
        [injection Hn as <-; cbn; naive_solver|by rewrite Hs in Hn..].
    + unfold new_assign_thread in Hn. destruct Hc as [(_ & _ & E)|[(-> & Hm & E)|(_ & _ & E)]]; rewrite E in Hn; [done| |done].
      injection Hn as <-. cbn. naive_solver.
    + unfold new_worker_thread in Hn. rewrite Hw in Hn. destruct (replicate n Absent !! i) eqn:Hi; [|done].
      by apply lookup_replicate in Hi as [-> _].
Qed.

(** C40: when the port cannot be bound the assign thread ends without a word to
    [main], which then waits at the semaphore for ever: no query thread is ever
    created, the process neither serves nor ends, and after two more steps
    nothing moves. *)
Theorem startup_hangs n alloc k c :
  nsteps (step n false alloc) k (start n) c ->
  (main c = CreateAssign \/ main c = AwaitAssign) /\ workers c = replicate n Absent /\ aborted c = false /\
  (k <= 2)%nat /\ (k = 2%nat -> assign c = Ended /\ forall c', ~ step n false alloc c c').
Proof.
  intros H. pose proof (hanging n alloc k c H) as Hinv.
  destruct Hinv as (Hw & Hab & Hs & Hc). split; [naive_solver|]. split; [done|]. split; [done|]. split; [naive_solver lia|].
  intros ->. destruct Hc as [(? & _)|[(? & _)|(_ & Hm & Ha)]]; [done|done|]. split; [done|].
  intros c' Hst. destruct Hst as [y z _ Hn|y z _ Hn|y z i _ Hn].
  - unfold main_next in Hn. by rewrite Hm, Hs in Hn.
  - unfold new_assign_thread in Hn. by rewrite Ha in Hn.
  - unfold new_worker_thread in Hn. rewrite Hw in Hn. destruct (replicate n Absent !! i) eqn:Hi; [|done].
    by apply lookup_replicate in Hi as [-> _].
Qed.

Lemma startup_hangs_witness :
  exists c, nsteps (step 8 false (fun _ => true)) 2 (start 8) c /\ forall c', ~ step 8 false (fun _ => true) c c'.
Proof.
  assert (H : nsteps (step 8 false (fun _ => true)) 2 (start 8) (Config AwaitAssign 0 Ended (replicate 8 Absent) false)).
  { eapply nsteps_l; [apply step_main; reflexivity|]. eapply nsteps_l; [apply step_assign; reflexivity|]. apply nsteps_O. }
  eexists. split; [exact H|]. by apply (startup_hangs 8 (fun _ => true) 2 _ H).
Defined.

End Startup.
