(* ===== verification/Server.v ===== *)
(** The whole data node under load: the assign thread of
    [src/src/assign_thread.c] with any number of open connections, from the
    bytes of their sockets on, and the query threads of [Pool] behind the pipes.
    Between any two events of the assign thread the query threads may take any
    number of their steps. The specification is a desk: every client hands in
    one request, which takes effect on a map at one moment before its answer,
    or not at all when the client hangs up, is too slow, or cut the head of its
    request (the assign thread reads on, finds nothing and closes).

    The commands that leave the map alone ([sync] and [power]) are in
    [AssignSafety]; they do not occur here. *)

From Stdlib Require Import ZArith Lia String.
From stdpp Require Import base numbers list gmap.
From S2P Require Import Prelude CString IndexTypes Bdb Storage Interleave.
From S2P Require Import Protocol Task Assign AssignProps Query QueryProps Pool.

Module Server.
Import Protocol Task.
Import QueryProps (encodes, request, answer, request_ok).

(** The packets in which a client may send a request: with its head whole in the
    first one, or with its head cut, anywhere and the rest as it likes. The
    [line] of a head ends before its CR and LF. *)
Inductive sends : request -> bool -> list (list Z) -> Prop :=
  | sends_whole r packets : encodes r packets -> sends r true packets
  | sends_cut r line more rest packet packets :
      encodes r ((line ++ crlf ++ more) :: rest) -> AssignProps.plain line ->
      concat (packet :: packets) = line ++ crlf ++ more ++ concat rest ->
      packet <> [] -> (length packet < length line + 2)%nat -> sends r false (packet :: packets).

(** What is seen of the data node: a client connects, to send the packets of a
    request, with its head [whole] or cut; it hangs up, or its last five seconds
    are over, while the assign thread still has its task; its connection is
    closed; it gets its answer. *)
Inductive event :=
  | Arrived (fd : Z) (r : request) (whole : bool)
  | HungUp (fd : Z)
  | Closed (fd : Z)
  | TimedOut (fd : Z)
  | Replied (fd : Z) (bytes : list Z).

(** A connection that the assign thread watches: its task, and the packets that
    are still to come, or [None] when the client has hung up. *)
Record connection := Connection { task : query_task_s; coming : option (list (list Z)) }.

(** The first packet of a fresh connection does not end a line. *)
Definition cut_short (c : connection) : bool :=
  match state (task c), coming c with
  | s_recv_req_head, Some (packet :: _) => match CString.strstr_crlf (packet ++ [0]) 0 with Some None => true | _ => false end
  | _, _ => false
  end.
(** The client stays, and its head is or was whole. *)
Definition answerable (c : connection) : bool :=
  match coming c with Some _ => negb (cut_short c) | None => false end.

(** What the next [read] of its socket finds, if that is readable. After it
    there is nothing to read until the next event. *)
Definition readable (c : connection) : option (Assign.read_ans * option (list (list Z))) :=
  match coming c with
  | Some (packet :: packets) => Some (Assign.Bytes packet, Some packets)
  | Some [] => None
  | None => Some (Assign.Eof, None)
  end.

Section Server.
Context {DB : Type} `{BerkeleyDB DB}.

Record node := Node { last_fd : Z; connections : list connection; workers : Pool.pool DB }.

(** The world of one event of the assign thread: memory is there, the pipes take
    every pointer, and the socket answers with [reads]. *)
Definition turn_world (k : nat) (s : node) (reads : list Assign.read_ans) : Assign.world DB :=
  Assign.World (last_fd s) (Z.of_nat k) (Interleave.store (Pool.inner (workers s))) [] [] reads [] [].

(** The pointer [t] is written to pipe [i]. *)
Definition enqueue (i : Z) (t : query_task_s) (p : Pool.pool DB) : option (Pool.pool DB) :=
  q ← Pool.pipes p !! Z.to_nat i;
  Some (Pool.Threads (<[Z.to_nat i := q ++ [t]]> (Pool.pipes p)) (Pool.serving p) (Pool.inner p)).

(** One event, with [k] query threads. *)
Inductive node_step (R : option Interleave.event -> Interleave.config DB -> Interleave.config DB -> Prop)
  (behind : Z -> Z) (k : nat) : option event -> node -> node -> Prop :=
  | node_accept s fd r whole packets t w :
      sends r whole packets -> 0 <= fd -> Assign.accept_connection fd (turn_world k s []) = Assign.Ret (Some t) w ->
      node_step R behind k (Some (Arrived fd r whole)) s
        (Node (Assign.last_fd w) (connections s ++ [Connection t (Some packets)]) (workers s))
  | node_receive s j t packets a rest t' w :
      connections s !! j = Some (Connection t packets) -> readable (Connection t packets) = Some (a, rest) ->
      Assign.query_io_event_handler t Assign.EV_READ (turn_world k s [a]) = Assign.Ret (Some t') w ->
      node_step R behind k None s
        (Node (Assign.last_fd w) (<[j := Connection t' rest]> (connections s)) (workers s))
  | node_dispatch s j t packets a rest i t' w p :
      connections s !! j = Some (Connection t packets) -> readable (Connection t packets) = Some (a, rest) ->
      Assign.query_io_event_handler t Assign.EV_READ (turn_world k s [a]) = Assign.Ret None w ->
      Assign.sent w = [(i, t')] -> enqueue i t' (workers s) = Some p ->
      node_step R behind k None s (Node (Assign.last_fd w) (delete j (connections s)) p)
  | node_close s j t packets a rest t' w :
      connections s !! j = Some (Connection t packets) -> readable (Connection t packets) = Some (a, rest) ->
      Assign.query_io_event_handler t Assign.EV_READ (turn_world k s [a]) = Assign.Ret None w ->
      Assign.sent w = [] -> Assign.destroyed w = [t'] ->
      node_step R behind k (Some (Closed (sock_fd t'))) s
        (Node (Assign.last_fd w) (delete j (connections s)) (workers s))
  | node_hangup s j t packets :
      connections s !! j = Some (Connection t (Some packets)) ->
      node_step R behind k (Some (HungUp (sock_fd t))) s
        (Node (last_fd s) (<[j := Connection t None]> (connections s)) (workers s))
  | node_timeout s j t packets t' w :
      connections s !! j = Some (Connection t packets) ->
      Assign.query_timer_event_handler t Assign.EV_TIMEOUT (turn_world k s []) = Assign.Ret None w ->
      Assign.destroyed w = [t'] ->
      node_step R behind k (Some (TimedOut (sock_fd t'))) s
        (Node (Assign.last_fd w) (delete j (connections s)) (workers s))
  | node_work s p :
      Pool.pool_step R behind None (workers s) p ->
      node_step R behind k None s (Node (last_fd s) (connections s) p)
  | node_reply s p fd bytes :
      Pool.pool_step R behind (Some (Pool.Sent fd bytes)) (workers s) p ->
      node_step R behind k (Some (Replied fd bytes)) s (Node (last_fd s) (connections s) p).

Definition node_start (k : nat) (st : Storage.state DB) : node := Node 0 [] (Pool.pool_start k st).

(** No query thread is at work, whatever the connections and the pipes hold. *)
Definition idle_threads (s : node) : Prop := Forall (eq None) (Pool.serving (workers s)).
(** Nobody waits for anything. *)
Definition node_done (s : node) : Prop := connections s = [] /\ Pool.pool_done (workers s).

(** The connections whose clients wait for an answer, and the others: those whose
    clients hung up or cut their heads. *)
Definition unanswerable (s : node) : nat := length (filter (fun c => answerable c = false) (connections s)).
Definition staying (s : node) : nat := length (filter (fun c => answerable c = true) (connections s)).

End Server.
Arguments node : clear implicits.

(** ** The desk *)

(** A request at the desk: not yet served; not understood, since its head came
    cut; its client gone before it was served; or served, with the answer that
    is to be sent. *)
Inductive stage := Waiting | Cut | Lost | Served (bytes : list Z).
Record ticket := Ticket { holder : Z; wish : request; progress : stage }.
(** The tickets, in any order. *)
Record desk := Desk { stored : gmap (list Z) (list Z); tickets : list ticket }.

Inductive desk_step : option event -> desk -> desk -> Prop :=
  | desk_arrive m ts ts' fd r (whole : bool) :
      ts' ≡ₚ Ticket fd r (if whole then Waiting else Cut) :: ts -> desk_step (Some (Arrived fd r whole)) (Desk m ts) (Desk m ts')
  | desk_act m ts ts' rest fd r :
      ts ≡ₚ Ticket fd r Waiting :: rest -> ts' ≡ₚ Ticket fd r (Served (answer r m).1) :: rest ->
      desk_step None (Desk m ts) (Desk (answer r m).2 ts')
  | desk_reply m ts rest fd r bytes :
      ts ≡ₚ Ticket fd r (Served bytes) :: rest -> desk_step (Some (Replied fd bytes)) (Desk m ts) (Desk m rest)
  | desk_hangup m ts ts' rest fd r st :
      ts ≡ₚ Ticket fd r st :: rest -> st = Waiting \/ st = Cut -> ts' ≡ₚ Ticket fd r Lost :: rest ->
      desk_step (Some (HungUp fd)) (Desk m ts) (Desk m ts')
  | desk_close m ts rest fd r st :
      ts ≡ₚ Ticket fd r st :: rest -> st = Lost \/ st = Cut -> desk_step (Some (Closed fd)) (Desk m ts) (Desk m rest)
  | desk_timeout m ts rest fd r st :
      ts ≡ₚ Ticket fd r st :: rest -> (forall bytes, st <> Served bytes) -> desk_step (Some (TimedOut fd)) (Desk m ts) (Desk m rest).

(** A ticket whose request has not had its moment. *)
Definition unserved (x : ticket) : Prop := forall bytes, progress x <> Served bytes.

Definition event_ok (n : Z) (e : event) : Prop :=
  match e with Arrived _ r _ => request_ok n r | _ => True end.
Definition is_closed (e : event) : Prop := match e with Closed _ => True | _ => False end.
Definition is_reply (e : event) : Prop := match e with Replied _ _ => True | _ => False end.

End Server.
