(* ===== verification/ServerProps.v ===== *)
(** The data node under load is linearizable from the bytes its clients send to
    the bytes they get, and it answers every client that stays, unless the head
    of its request came cut. *)

From Stdlib Require Import ZArith Lia String.
From stdpp Require Import base numbers list gmap.
From S2P Require Import Prelude CString IndexTypes Bdb Storage StorageRefine StorageProps StorageThreads Interleave.
From S2P Require Import Linear Progress Concurrent Protocol Task Assign AssignProps AssignSafety Query QueryProps Pool PoolProps.
From S2P Require Import Datanode Server.

Module ServerProps.
Import Protocol Task Server.
Import QueryProps (encodes, request, answer, request_ok, carries).
Import Interleave (runs, runs_nil, runs_silent, runs_event, runs_trans, runs_one).
Import PoolProps (pooled, waiting).

(** ** One connection *)

Section Connection.
Context {DB : Type} `{BerkeleyDBLaws DB}.

(** A task whose client has gone. *)
Inductive gone : query_task_s -> Prop :=
  | gone_fresh fd : gone (AssignProps.conn fd)
  | gone_partial fd hb hs k f e m pre : (length pre < m)%nat -> gone (AssignProps.receiving fd hb hs k f e m pre)
  | gone_doomed t : state t = s_destroy_recv -> error_log t = None -> gone t.

(** The task of a connection whose client has sent a part of [r], and what is to
    come; or whose client has gone. *)
Inductive standing (n : Z) : connection -> ticket -> Prop :=
  | stand_fresh fd r packets :
      encodes r packets -> request_ok n r ->
      standing n (Connection (AssignProps.conn fd) (Some packets)) (Ticket fd r Waiting)
  | stand_partial fd hb hs k f e body pre packets :
      request_ok n (QueryProps.Set_ k f e body) -> pre ++ concat packets = body ++ crlf -> packets <> [] ->
      Forall (fun c => c <> []) packets -> 0 <= hs <= 512 ->
      standing n (Connection (AssignProps.receiving fd hb hs k f e (length body + 2) pre) (Some packets))
        (Ticket fd (QueryProps.Set_ k f e body) Waiting)
  | stand_cut fd r packet packets :
      AssignProps.headless packet -> packet <> [] -> (length packet < 512)%nat ->
      standing n (Connection (AssignProps.conn fd) (Some (packet :: packets))) (Ticket fd r Cut)
  | stand_gone t fd r : gone t -> sock_fd t = fd -> standing n (Connection t None) (Ticket fd r Lost).

Definition holds (c : connection) : Z := sock_fd (task c).

Lemma standing_holder n c x : standing n c x -> holder x = holds c /\ error_log (task c) = None.
Proof. intros [| | |t fd r Hg <-]; [by split..|]. by destruct Hg. Qed.

Lemma type_bound n (body : list Z) : 1 <= n <= Storage.MAX_BLOCK_CNT -> Z.of_nat (length body) <= StorageRefine.type_size (n - 1) ->
  Z.of_nat (length body + 2) < 2 ^ 62.
Proof. intros Hn Hl. pose proof (StorageRefine.type_size_bound (n - 1) ltac:(lia)) as Hb. lia. Qed.

Lemma key_line_fits name k : name = CString.str "get" \/ name = CString.str "delete" -> AssignProps.key_word k ->
  AssignProps.plain (AssignProps.key_line name k) /\ (length (AssignProps.key_line name k) + 2 <= 512)%nat.
Proof.
  intros Hname Hk. pose proof (AssignProps.key_word_plain k Hk) as Hp. destruct Hk as (_ & Hl & _).
  assert (Hw : AssignProps.plain name /\ (length name <= 6)%nat) by (destruct Hname as [-> | ->]; split; (repeat constructor; done) || (cbn; lia)).
  destruct Hw as [Hw Hlw]. unfold AssignProps.key_line. split; [|rewrite !length_app; cbn; lia].
  apply Forall_app. split; [done|]. by constructor.
Qed.

(** Every request starts with a line that fits into the buffer of the head. *)
Lemma encodes_line n r packets : 1 <= n <= Storage.MAX_BLOCK_CNT -> request_ok n r -> encodes r packets ->
  exists line more rest, packets = (line ++ crlf ++ more) :: rest /\ AssignProps.plain line /\ (length line + 2 <= 512)%nat.
Proof.
  intros Hn Hok He. destruct He as [k f e body c0 cs _ _ Hl|k|k|name tail more _ _ Hp Hl _]; cbn [request_ok] in Hok.
  - destruct Hok as (Hk & _ & _ & Hf & Hx & Hb). pose proof (type_bound n body Hn Hb) as Hs.
    destruct (AssignProps.set_line_plain k f e (Z.of_nat (length body)) Hk Hf Hx ltac:(lia)) as [Hp _].
    eexists _, c0, cs. split; [by rewrite <- app_assoc|]. split; [done|lia].
  - eexists _, [], []. split; [by rewrite app_nil_r|]. apply (key_line_fits (CString.str "get")); [by left|apply Hok].
  - eexists _, [], []. split; [by rewrite app_nil_r|]. apply (key_line_fits (CString.str "delete")); [by right|apply Hok].
  - eexists _, more, []. split; [by rewrite <- app_assoc|]. split; [done|lia].
Qed.

(** Where a stream of bytes that starts with [l] is cut, when it is after that. *)
Lemma cut_after (l tail packet rest : list Z) :
  packet ++ rest = l ++ tail -> (length l <= length packet)%nat -> exists c, packet = l ++ c /\ tail = c ++ rest.
Proof.
  intros E Hl. exists (drop (length l) packet).
  assert (El : take (length l) packet = l).
  { pose proof (f_equal (take (length l)) E) as Et. by rewrite take_app_length, take_app_le in Et by done. }
  split; [by rewrite <- El at 1; rewrite take_drop|].
  pose proof (f_equal (drop (length l)) E) as Ed. by rewrite drop_app_length, drop_app_le in Ed by done.
Qed.

Lemma cut_key name k packet packets :
  name = CString.str "get" \/ name = CString.str "delete" -> AssignProps.key_word k ->
  concat (packet :: packets) = AssignProps.key_line name k ++ crlf -> Forall (fun c => c <> []) (packet :: packets) ->
  packet :: packets = [AssignProps.key_line name k ++ crlf] \/ (length packet < length (AssignProps.key_line name k) + 2)%nat.
Proof.
  intros Hname Hk E Hp. apply Forall_cons in Hp as [_ Hp].
  destruct (decide (length packet < length (AssignProps.key_line name k) + 2)%nat) as [Hcut|Hwhole]; [by right|left].
  cbn [concat] in E. rewrite <- (app_nil_r (_ ++ crlf)) in E.
  apply cut_after in E as (c & -> & E); [|rewrite length_app; cbn; lia].
  symmetry in E. apply app_eq_nil in E as [-> E]. rewrite app_nil_r.
  destruct Hp as [|c packets Hc _]; [done|]. apply app_eq_nil in E as [-> _]. done.
Qed.

(** The bytes of a set, a get or a delete may come cut anywhere, when a packet is
    what one [read] brings, which for a head is at most 512 bytes: the head is
    whole in the first packet, or cut there. *)
Lemma every_cut n r bytes packet packets :
  1 <= n <= Storage.MAX_BLOCK_CNT -> request_ok n r -> r <> QueryProps.Malformed -> encodes r bytes ->
  concat (packet :: packets) = concat bytes -> Forall (fun c => c <> []) (packet :: packets) -> (length packet <= 512)%nat ->
  exists whole, sends r whole (packet :: packets).
Proof.
  intros Hn Hok Hr He E Hp Hl. pose proof He as He'. apply Forall_cons in Hp as [Hne Hps].
  destruct He as [k f e body c0 cs E1 E2 E3|k|k|]; [|..|done]; cbn [request_ok] in Hok.
  - destruct Hok as (Hk & _ & _ & Hf & Hx & Hb). pose proof (type_bound n body Hn Hb) as Hs.
    destruct (AssignProps.set_line_plain k f e (Z.of_nat (length body)) Hk Hf Hx ltac:(lia)) as [Hpl _].
    set (line := AssignProps.set_line k f e (Z.of_nat (length body))) in *. cbn [concat] in E. rewrite <- !app_assoc in E.
    destruct (decide (length packet < length line + 2)%nat) as [Hcut|Hwhole].
    + exists false. apply (sends_cut _ line c0 cs); try done. by rewrite app_assoc.
    + exists true. rewrite app_assoc in E. apply cut_after in E as (c & -> & E); [|rewrite length_app; change (length crlf) with 2%nat; lia].
      apply sends_whole, QueryProps.enc_set; [by rewrite E1|done|]. rewrite !length_app in Hl. change (length crlf) with 2%nat in Hl. fold line. lia.
  - cbn [concat] in E. rewrite app_nil_r in E.
    destruct (cut_key (CString.str "get") k packet packets) as [-> |Hcut]; [by left|apply Hok|done|by constructor| |].
    + exists true. by apply sends_whole.
    + exists false. apply (sends_cut _ (AssignProps.key_line (CString.str "get") k) [] []); try done.
      apply (key_line_fits (CString.str "get")); [by left|apply Hok].
  - cbn [concat] in E. rewrite app_nil_r in E.
    destruct (cut_key (CString.str "delete") k packet packets) as [-> |Hcut]; [by right|apply Hok|done|by constructor| |].
    + exists true. by apply sends_whole.
    + exists false. apply (sends_cut _ (AssignProps.key_line (CString.str "delete") k) [] []); try done.
      apply (key_line_fits (CString.str "delete")); [by right|apply Hok].
Qed.

(** The first packet of a cut head does not end a line. *)
Lemma cut_headless line more (packet tail : list Z) :
  AssignProps.plain line -> packet ++ tail = line ++ crlf ++ more -> (length packet < length line + 2)%nat ->
  AssignProps.headless packet.
Proof.
  intros Hp E Hl. assert (Ep : packet = take (length packet) (line ++ [CString.CR])).
  { pose proof (f_equal (take (length packet)) E) as Et. rewrite take_app_length in Et. rewrite Et at 1.
    change (line ++ crlf ++ more) with (line ++ [CString.CR] ++ CString.LF :: more). rewrite app_assoc, (take_app_le (line ++ [CString.CR])); [done|].
    rewrite length_app. cbn. lia. }
  destruct (decide (length packet <= length line)%nat) as [Hle|Hgt].
  - exists packet. split; [|by left]. rewrite Ep, take_app_le by done. by apply Forall_take.
  - exists line. split; [done|]. right. rewrite Ep. apply firstn_all2. rewrite length_app. cbn. lia.
Qed.

(** What is left of a set request that was cut into packets. *)
Lemma concat_nonempty (packets : list (list Z)) :
  packets <> [] -> Forall (fun c => c <> []) packets -> (0 < length (concat packets))%nat.
Proof.
  intros Hne Hp. destruct Hp as [|c l Hc _]; [done|]. destruct c; [done|]. cbn. lia.
Qed.

(** A packet arrives: more are needed, or the request is complete and its task
    is sent to the next query thread. *)
Definition moved (n : Z) (t : query_task_s) (packet : list Z) (rest : list (list Z)) (fd : Z) (r : request) (w : Assign.world DB) : Prop :=
  (exists t', Assign.query_io_event_handler t Assign.EV_READ (AssignProps.with_reads w [Assign.Bytes packet]) =
      Assign.Ret (Some t') (AssignProps.with_reads w []) /\
    standing n (Connection t' (Some rest)) (Ticket fd r Waiting)) \/
  (exists t', Assign.query_io_event_handler t Assign.EV_READ (AssignProps.with_reads w [Assign.Bytes packet]) =
      Assign.Ret None (AssignProps.after_send w t' []) /\
    sock_fd t' = fd /\ carries (set_watchers t' false false) r).

Lemma fresh_moved n fd r packet rest (w : Assign.world DB) :
  1 <= n <= Storage.MAX_BLOCK_CNT -> encodes r (packet :: rest) -> request_ok n r ->
  moved n (AssignProps.conn fd) packet rest fd r w.
Proof.
  intros Hn He Hok. inversion He as [k f e body c0 cs E1 E2 E3|k|k|name tail more H1 H2 H3 H4 H5]; subst.
  - destruct Hok as (Hk & Hkb & Hbb & Hf & He' & Hl). pose proof (type_bound n body Hn Hl) as Hb.
    assert (El : (length c0 + length (concat rest) = length body + 2)%nat) by (rewrite <- length_app, <- E1, length_app; done).
    assert (Ez : Z.of_nat (length body + 2) - 2 = Z.of_nat (length body)) by lia.
    pose proof (AssignProps.set_head_event w fd k f e c0 (length body + 2) [] Hk Hf He' Hb ltac:(lia) ltac:(lia)
      ltac:(rewrite Ez; lia)) as Ev.
    cbv zeta in Ev. rewrite Ez in Ev. destruct (decide (length c0 = (length body + 2)%nat)) as [Ec|Ec].
    + right. destruct Ev as (t & Ev & Ht). exists t. split; [exact Ev|].
      assert (Ebody : c0 = body ++ crlf).
      { destruct rest as [|c rest]; [by rewrite E1; cbn; rewrite app_nil_r|].
        pose proof (concat_nonempty (c :: rest) ltac:(done) E2). lia. }
      specialize (Ht body Ebody). split; [apply Ht|]. exists fd. by apply QueryProps.complete_watchers.
    + left. destruct Ev as (hb & Ev). eexists. split; [exact Ev|].
      apply stand_partial; try done.
      * intros ->. cbn in El. lia.
      * rewrite length_app. change (length crlf) with 2%nat. lia.
  - destruct Hok as (Hk & Hkb).
    destruct (AssignProps.key_line_event w fd (CString.str "get") cmd_get k []) as (t & Ev & Ht);
      [by left|by apply AssignProps.key_word_token|by apply AssignProps.key_word_plain|destruct Hk as (_ & ? & _); lia|].
    right. exists t. split; [exact Ev|]. split; [apply Ht|]. exists fd. by apply QueryProps.asked_watchers.
  - destruct Hok as (Hk & Hkb).
    destruct (AssignProps.key_line_event w fd (CString.str "delete") cmd_delete k []) as (t & Ev & Ht);
      [by right|by apply AssignProps.key_word_token|by apply AssignProps.key_word_plain|destruct Hk as (_ & ? & _); lia|].
    right. exists t. split; [exact Ev|]. split; [apply Ht|]. exists fd. by apply QueryProps.asked_watchers.
  - destruct (AssignSafety.unknown_event w fd name tail more [] H1 H2 H3 H4 H5) as (t & Ev & Ht).
    right. exists t. split; [exact Ev|]. split; [apply Ht|]. by apply (QueryProps.rejected_carries t fd).
Qed.

Lemma partial_moved n fd hb hs k f e body pre packet rest (w : Assign.world DB) :
  1 <= n <= Storage.MAX_BLOCK_CNT -> request_ok n (QueryProps.Set_ k f e body) -> pre ++ concat (packet :: rest) = body ++ crlf ->
  Forall (fun c => c <> []) (packet :: rest) -> 0 <= hs <= 512 ->
  moved n (AssignProps.receiving fd hb hs k f e (length body + 2) pre) packet rest fd (QueryProps.Set_ k f e body) w.
Proof.
  intros Hn Hok E Hp Hhs. pose proof Hok as (_ & _ & _ & _ & _ & Hl). apply Forall_cons in Hp as [Hc Hp].
  assert (El : (length pre + (length packet + length (concat rest)) = length body + 2)%nat).
  { pose proof (f_equal length E) as El. cbn [concat] in El. rewrite !length_app in El. exact El. }
  pose proof (AssignProps.chunk_event w fd hb hs k f e (length body + 2) pre packet [] ltac:(lia) Hc Hhs (type_bound n body Hn Hl)) as Ev.
  cbn [concat] in E. rewrite app_assoc in E.
  destruct (decide (length pre + length packet = length body + 2)%nat) as [Ec|Ec].
  - right. destruct Ev as (t & Ev & Ht). exists t. split; [exact Ev|].
    assert (Ebody : pre ++ packet = body ++ crlf).
    { destruct rest as [|c rest]; [by rewrite <- E; cbn; rewrite app_nil_r|].
      pose proof (concat_nonempty (c :: rest) ltac:(done) Hp). lia. }
    specialize (Ht body Ebody). split; [apply Ht|]. exists fd. by apply QueryProps.complete_watchers.
  - left. eexists. split; [exact Ev|]. apply stand_partial; try done. intros ->. cbn in El. lia.
Qed.

(** Whatever a waiting client has to send moves its task on. *)
Lemma waiting_moved n t packets fd r (w : Assign.world DB) :
  1 <= n <= Storage.MAX_BLOCK_CNT -> standing n (Connection t packets) (Ticket fd r Waiting) ->
  exists packet rest, packets = Some (packet :: rest) /\ moved n t packet rest fd r w.
Proof.
  intros Hn Hs. inversion Hs as [fd' r' ps He Hok|fd' hb hs k f e body pre ps Hok E Hne Hp Hhs| |]; subst.
  - destruct ps as [|packet rest]; [inversion He|]. exists packet, rest. split; [done|]. by apply fresh_moved.
  - destruct ps as [|packet rest]; [done|]. exists packet, rest. split; [done|]. by apply partial_moved.
Qed.

(** The task is destroyed, and nothing else happens. *)
Definition buried (w : Assign.world DB) (fd : Z) (o : Assign.outcome DB (option query_task_s)) : Prop :=
  exists t w', o = Assign.Ret None w' /\ sock_fd t = fd /\ Assign.last_fd w' = Assign.last_fd w /\
    Assign.sent w' = Assign.sent w /\ Assign.destroyed w' = Assign.destroyed w ++ [t].

Lemma doomed_event (w : Assign.world DB) t rs : state t = s_destroy_recv ->
  buried w (sock_fd t) (Assign.query_io_event_handler t Assign.EV_READ (AssignProps.with_reads w rs)).
Proof.
  intros Hs. exists (set_watchers t false false). eexists. split.
  - cbn [Assign.query_io_event_handler]. change Assign.HANDLER_FUEL with (S 1029). apply AssignProps.handler_stop.
    unfold Assign.handler_turn. rewrite Hs. reflexivity.
  - done.
Qed.

(** The connection of a client that hung up is closed, after one event or two. *)
Lemma gone_moved (w : Assign.world DB) t0 : gone t0 ->
  (exists t', Assign.query_io_event_handler t0 Assign.EV_READ (AssignProps.with_reads w [Assign.Eof]) =
      Assign.Ret (Some t') (AssignProps.with_reads w []) /\
    state t' = s_destroy_recv /\ error_log t' = None /\ sock_fd t' = sock_fd t0) \/
  buried w (sock_fd t0) (Assign.query_io_event_handler t0 Assign.EV_READ (AssignProps.with_reads w [Assign.Eof])).
Proof.
  intros [fd|fd hb hs k f e m pre Hl|t' Hs _]; [left|right|right; by apply doomed_event].
  - eexists. split; [reflexivity|by split].
  - set (t := AssignProps.receiving fd hb hs k f e m pre).
    assert (En : (need_read t =? 0) = false) by (apply Z.eqb_neq; cbn; lia).
    exists (set_watchers (set_state (set_error_log t (Some "Remote reset connection unexpected, need_read = %zd, have_read = %zd"%string)) s_destroy_recv) false false).
    eexists. split.
    + cbn [Assign.query_io_event_handler]. change Assign.HANDLER_FUEL with (S (S 1028)).
      erewrite (AssignProps.handler_step _ t).
      2: { unfold Assign.handler_turn. change (state t) with s_recv_req_data. cbv iota. erewrite AssignProps.assign_bind.
         2: { unfold Assign.recv_req_data. rewrite En.
              erewrite AssignProps.assign_bind by reflexivity. cbn [AssignProps.with_reads Assign.reads Assign.recv_data_loop].
              erewrite AssignProps.assign_bind by apply AssignProps.next_read_run. cbn [Assign.net_read].
              erewrite AssignProps.assign_bind by reflexivity. cbn [Z.eqb Z.ltb Z.compare andb negb]. rewrite En. reflexivity. }
         reflexivity. }
      apply AssignProps.handler_stop. reflexivity.
    + done.
Qed.

Lemma timer_run (w : Assign.world DB) t rs : error_log t = None ->
  buried w (sock_fd t) (Assign.query_timer_event_handler t Assign.EV_TIMEOUT (AssignProps.with_reads w rs)).
Proof.
  intros Hn. exists (set_watchers (set_error_log t (Some "read request timeout: have_read = %zd, need_read = %zd"%string)) false false).
  eexists. split.
  - unfold Assign.query_timer_event_handler, Assign.log. rewrite Hn. unfold Assign.bind, Assign.next_alloc. cbn [AssignProps.with_reads Assign.allocs].
    unfold Log. rewrite Hn. reflexivity.
  - done.
Qed.

(** What is still to happen to a connection. *)
Definition ahead (c : connection) : nat :=
  match coming c with
  | Some packets => length packets
  | None => if decide (state (task c) = s_destroy_recv) then 0 else 1
  end.

(** One event of a connection with the ticket [x]. *)
Inductive turned (n : Z) (c : connection) (rest : option (list (list Z))) (x : ticket) (w : Assign.world DB) :
  Assign.outcome DB (option query_task_s) -> Prop :=
  | turned_on t w' : Assign.last_fd w' = Assign.last_fd w -> standing n (Connection t rest) x ->
      (ahead (Connection t rest) < ahead c)%nat -> turned n c rest x w (Assign.Ret (Some t) w')
  | turned_sent t : progress x = Waiting -> sock_fd t = holder x -> carries (set_watchers t false false) (wish x) ->
      turned n c rest x w (Assign.Ret None (AssignProps.after_send w t []))
  | turned_closed o : progress x = Lost \/ progress x = Cut -> buried w (holder x) o -> turned n c rest x w o.

Lemma standing_turn n c x (w : Assign.world DB) :
  1 <= n <= Storage.MAX_BLOCK_CNT -> standing n c x ->
  exists a rest, readable c = Some (a, rest) /\
    turned n c rest x w (Assign.query_io_event_handler (task c) Assign.EV_READ (AssignProps.with_reads w [a])).
Proof.
  intros Hn Hs. assert (Hx : progress x = Waiting \/ progress x = Lost \/ progress x = Cut) by (destruct Hs; auto).
  destruct c as [t packets], x as [fd r st]. cbn [progress task] in *. destruct Hx as [-> | [-> | ->]].
  - destruct (waiting_moved n t packets fd r w Hn Hs) as (packet & rest & -> & Hm).
    exists (Assign.Bytes packet), (Some rest). split; [done|].
    destruct Hm as [(t' & -> & Hs')|(t' & -> & Hfd & Hc)]; [|by apply turned_sent]. apply turned_on; [done|done|cbn; lia].
  - assert (Hg : packets = None /\ gone t /\ sock_fd t = fd) by (inversion Hs; subst; done). destruct Hg as (-> & Hg & <-).
    exists Assign.Eof, None. split; [done|]. destruct (decide (state t = s_destroy_recv)) as [Hd|Hd].
    + apply turned_closed; [by left|]. by apply doomed_event.
    + destruct (gone_moved w t Hg) as [(t' & -> & Hd' & Hl & Hfd)|Hb]; [|apply turned_closed; [by left|done]].
      apply turned_on; [done|apply stand_gone; [by apply gone_doomed|done]|]. unfold ahead. cbn [coming task].
      rewrite decide_True, decide_False by done. lia.
  - inversion Hs as [| |fd0 r0 packet packets0 Hh Hne Hl|]; subst. exists (Assign.Bytes packet), (Some packets0). split; [done|].
    apply turned_closed; [by right|].
    destruct (AssignProps.lost_event w fd packet [] true [] Hh Hne Hl eq_refl) as (t' & E & Hfd & _).
    eexists t', _. split; [exact E|]. by split.
Qed.

(** The clients that are to get an answer are those whose tickets wait. *)
Lemma standing_answerable n c x : 1 <= n <= Storage.MAX_BLOCK_CNT -> standing n c x -> answerable c = true <-> progress x = Waiting.
Proof.
  intros Hn [fd r packets He Hok| |fd r packet packets Hh _ _|t fd r Hg Hfd]; [|done|..]; unfold answerable, cut_short;
    cbn [coming task state AssignProps.conn progress].
  - destruct (encodes_line n r packets Hn Hok He) as (line & more & rest & -> & Hp & _).
    rewrite <- !app_assoc, AssignProps.strstr_line by done. done.
  - rewrite AssignProps.strstr_headless by done. done.
  - done.
Qed.

(** A client may hang up at any time. *)
Lemma hangup_gone n t packets x : standing n (Connection t (Some packets)) x -> (progress x = Waiting \/ progress x = Cut) /\ gone t.
Proof.
  intros Hs. inversion Hs as [fd r ps He Hok|fd hb hs k f e body pre ps Hok E Hne Hp Hhs|fd r packet ps Hh Hne Hl|]; subst;
    (split; [by auto|]).
  - apply gone_fresh.
  - apply gone_partial. pose proof (concat_nonempty packets Hne Hp) as Hl. pose proof (f_equal length E) as El.
    rewrite !length_app in El. change (length crlf) with 2%nat in El. lia.
  - apply gone_fresh.
Qed.

(** A client that has connected stands at the desk. *)
Lemma sends_standing n fd r whole packets : 1 <= n <= Storage.MAX_BLOCK_CNT -> request_ok n r -> sends r whole packets ->
  standing n (Connection (AssignProps.conn fd) (Some packets)) (Ticket fd r (if whole then Waiting else Cut)).
Proof.
  intros Hn Hok Hsend. destruct Hsend as [r0 ps He|r0 line more rest packet ps He Hp E Hne Hl]; [by apply stand_fresh|].
  destruct (encodes_line n r0 _ Hn Hok He) as (line' & more' & rest' & El & Hp' & Hb). injection El as El _.
  assert (Ell : length line' = length line).
  { pose proof (AssignProps.strstr_line line more 0 Hp) as H1. pose proof (AssignProps.strstr_line line' more' 0 Hp') as H2.
    change (line ++ crlf ++ more = line' ++ crlf ++ more') in El. rewrite <- El, H1 in H2. injection H2. lia. }
  apply stand_cut; [|done|lia]. eapply (cut_headless line); [done|exact E|done].
Qed.

End Connection.
(** ** The desk and the pool *)

(** The tickets of what is in the pipes, and of what is served. *)
Definition queued_ticket (x : Z * request) : ticket := Ticket x.1 x.2 Waiting.
Definition service_ticket (s : Pool.service) : ticket :=
  Ticket (Pool.client s) (Pool.asked s) (match Pool.answered s with Some bytes => Served bytes | None => Waiting end).
Definition pool_tickets (s : Pool.server) : list ticket :=
  (Pool.queued s ≫= fmap queued_ticket) ++ omap (fmap service_ticket) (Pool.current s).

(** What the desk sees of a history of the pool. *)
Definition reply_of (e : Pool.wire) : option event :=
  match e with Pool.Sent fd bytes => Some (Replied fd bytes) | Pool.Dispatched _ _ _ => None end.
Definition arrival_of (e : Pool.wire) : option ticket :=
  match e with Pool.Dispatched _ fd r => Some (Ticket fd r Waiting) | Pool.Sent _ _ => None end.

(** The desk [d] has the tickets of the pool and [extra] ones. *)
Definition at_desk (extra : list ticket) (s : Pool.server) (d : desk) : Prop :=
  stored d = Pool.content s /\ tickets d ≡ₚ extra ++ pool_tickets s.

Lemma pool_tickets_start k m : pool_tickets (Pool.serve_start k m) = [].
Proof.
  unfold pool_tickets, Pool.serve_start. cbn [Pool.queued Pool.current].
  assert (E : replicate k (@nil (Z * request)) ≫= fmap queued_ticket = []) by (induction k as [|j IH]; [done|exact IH]).
  assert (E' : omap (fmap service_ticket) (replicate k None) = []) by (clear E; induction k as [|j IH]; [done|exact IH]).
  by rewrite E, E'.
Qed.

Lemma serve_seen o s s' extra d :
  Pool.serve_step o s s' -> at_desk (option_list (o ≫= arrival_of) ++ extra) s d ->
  exists d', runs desk_step d (option_list (o ≫= reply_of)) d' /\ at_desk extra s' d'.
Proof.
  intros Hst [Hm Ht]. destruct d as [m0 ts]. cbn [stored tickets] in *.
  inversion Hst as [m qs cs i q fd r Hi|m qs cs i fd r q Hi Hc|m qs cs i fd r Hc|m qs cs i fd r bytes Hc]; subst;
    cbn [Pool.content pool_tickets Pool.queued Pool.current option_list reply_of arrival_of mbind option_bind app] in *.
  - exists (Desk m ts). split; [apply runs_nil|]. split; [done|]. cbn [tickets]. rewrite Ht. unfold pool_tickets.
    cbn [Pool.queued Pool.current]. destruct (mbind_focus (fmap queued_ticket) qs i q Hi) as (rest & -> & ->).
    rewrite fmap_app. cbn [fmap list_fmap queued_ticket fst snd]. solve_Permutation.
  - exists (Desk m ts). split; [apply runs_nil|]. split; [done|]. cbn [tickets]. rewrite Ht. unfold pool_tickets.
    cbn [Pool.queued Pool.current]. destruct (mbind_focus (fmap queued_ticket) qs i _ Hi) as (rest & -> & ->).
    destruct (omap_focus (fmap service_ticket) cs i _ Hc) as (rest' & -> & ->). cbn. solve_Permutation.
  - destruct (omap_focus (fmap service_ticket) cs i _ Hc) as (rest & H1 & H2). cbn in H1, H2.
    exists (Desk (answer r m).2 (extra ++ pool_tickets (Pool.Server (answer r m).2 qs
      (<[i := Some (Pool.Service fd r (Some (answer r m).1))]> cs)))). split; [|by split].
    apply (runs_one _ None), (desk_act _ _ _ (extra ++ (qs ≫= fmap queued_ticket) ++ rest) fd r).
    + rewrite Ht, H1. unfold service_ticket. cbn. solve_Permutation.
    + unfold pool_tickets. cbn [Pool.queued Pool.current]. rewrite H2. cbn. solve_Permutation.
  - destruct (omap_focus (fmap service_ticket) cs i _ Hc) as (rest & H1 & H2). cbn in H1, H2.
    exists (Desk m (extra ++ pool_tickets (Pool.Server m qs (<[i := None]> cs)))). split; [|by split].
    eapply (runs_one _ (Some _)), desk_reply. rewrite Ht, H1. unfold pool_tickets. cbn [Pool.queued Pool.current].
    rewrite H2. cbn. solve_Permutation.
Qed.

Lemma serves_seen s h s' : runs Pool.serve_step s h s' -> forall extra d, at_desk (omap arrival_of h ++ extra) s d ->
  exists d', runs desk_step d (omap reply_of h) d' /\ at_desk extra s' d'.
Proof.
  induction 1 as [s|s s1 h s' Hst _ IH|e s s1 h s' Hst _ IH]; intros extra d Hd.
  - exists d. split; [apply runs_nil|exact Hd].
  - destruct (serve_seen None s s1 _ d Hst Hd) as (d1 & Hr1 & Hd1). destruct (IH extra d1 Hd1) as (d' & Hr & Hd').
    exists d'. split; [|done]. exact (runs_trans _ _ [] _ _ _ Hr1 Hr).
  - destruct (serve_seen (Some e) s s1 (omap arrival_of h ++ extra) d Hst) as (d1 & Hr1 & Hd1).
    { destruct e; exact Hd. }
    destruct (IH extra d1 Hd1) as (d' & Hr & Hd'). exists d'. split; [|done].
    destruct e; exact (runs_trans _ _ _ _ _ _ Hr1 Hr).
Qed.

(** ** The simulation *)

Section Simulation.
Context {DB : Type} `{BerkeleyDBLaws DB}.
Context (behind : Z -> Z) (n : Z) (k : nat) (Hn : 1 <= n <= Storage.MAX_BLOCK_CNT) (Hk : (0 < k)%nat).

(** The data node [c] against the desk [d]: the pool looks like the server [s],
    and every connection has a ticket of [xs]; the storage has room for [b] more
    requests. *)
Record manned (b : nat) (c : node DB) (d : desk) (s : Pool.server) (a : Interleave.atomic) (xs : list ticket) : Prop := {
  ma_pool : pooled behind n k (b + length (connections c)) (workers c) s a;
  ma_last : 0 <= last_fd c;
  ma_connections : Forall2 (standing n) (connections c) xs;
  ma_desk : at_desk xs s d;
  ma_pipes : length (Pool.pipes (workers c)) = k;
  ma_serving : length (Pool.serving (workers c)) = k
}.
Definition open_for (b : nat) (c : node DB) (d : desk) : Prop := exists s a xs, manned b c d s a xs.

(** The ticket of connection [j]. *)
Lemma ticket_at b c d s a xs j cn : manned b c d s a xs -> connections c !! j = Some cn ->
  exists x, xs !! j = Some x /\ standing n cn x.
Proof. intros [_ _ Hc _ _ _] Hj. by eapply Forall2_lookup_l. Qed.

Lemma desk_focus xs j x s d : xs !! j = Some x -> at_desk xs s d -> tickets d ≡ₚ x :: delete j xs ++ pool_tickets s.
Proof. intros Hj [_ Ht]. rewrite Ht. destruct (list_focus xs j x Hj) as [H1 _]. by rewrite H1 at 1. Qed.

(** Connection [j] is gone, without a trace in the pool. *)
Lemma connection_left b c d s a xs j cn lf :
  manned b c d s a xs -> connections c !! j = Some cn -> 0 <= lf ->
  manned b (Node lf (delete j (connections c)) (workers c)) (Desk (stored d) (delete j xs ++ pool_tickets s)) s a (delete j xs).
Proof.
  intros [Hp Hl Hc [Hm Ht] Hw1 Hw2] Hj Hlf. split; cbn [connections workers last_fd]; try done.
  - revert Hp. apply PoolProps.pooled_less. rewrite length_delete by by eexists. lia.
  - by apply Forall2_delete.
Qed.

(** It stays, with another task or another ticket. *)
Lemma connection_kept b c d s a xs j cn x lf ts :
  manned b c d s a xs -> standing n cn x -> 0 <= lf -> ts ≡ₚ <[j := x]> xs ++ pool_tickets s ->
  manned b (Node lf (<[j := cn]> (connections c)) (workers c)) (Desk (stored d) ts) s a (<[j := x]> xs).
Proof.
  intros [Hp Hl Hc [Hm Ht] Hw1 Hw2] Hs Hlf Hts. split; cbn [connections workers last_fd]; try done.
  - by rewrite length_insert.
  - by apply Forall2_insert.
Qed.

Lemma desk_self d : d = Desk (stored d) (tickets d).
Proof. by destruct d. Qed.

Lemma pool_width R o p p' : Pool.pool_step (DB := DB) R behind o p p' ->
  length (Pool.pipes p') = length (Pool.pipes p) /\ length (Pool.serving p') = length (Pool.serving p).
Proof. intros []; cbn [Pool.pipes Pool.serving]; rewrite ?length_insert; done. Qed.

(** The pool takes a step of its own. *)
Lemma pool_stepped b c d o p :
  open_for (length (option_list o) + b) c d -> Pool.pool_step Interleave.moves behind o (workers c) p ->
  (forall i fd r, o <> Some (Pool.Dispatched i fd r)) ->
  exists d', runs desk_step d (option_list (o ≫= reply_of)) d' /\ open_for b (Node (last_fd c) (connections c) p) d'.
Proof.
  intros (s & a & xs & [Hp Hl Hc Hd Hw1 Hw2]) Hst Ho.
  destruct (PoolProps.pool_simulated behind n k Hn (b + length (connections c)) o (workers c) p s Hst) as (s' & Hr & a' & Hp').
  - intros [i fd r|fd bytes] E; [by destruct (Ho i fd r)|done].
  - exists a. revert Hp. by rewrite Nat.add_assoc.
  - assert (Ea : omap arrival_of (option_list o) = []) by (destruct o as [[i fd r|]|]; [by destruct (Ho i fd r)|done..]).
    destruct (serves_seen s _ s' Hr xs d) as (d' & Hr' & Hd'); [by rewrite Ea|].
    exists d'. split; [by destruct o as [[]|]|]. destruct (pool_width _ _ _ _ Hst) as [E1 E2].
    exists s', a', xs. split; cbn [connections workers last_fd]; try done; congruence.
Qed.

(** The query thread that is next exists. *)
Lemma next_in_range (w : Assign.world DB) :
  0 <= Assign.last_fd w -> Assign.worker_thread_cnt w = Z.of_nat k -> 0 <= AssignProps.next_thread w < Z.of_nat k.
Proof. intros Hl Hc. unfold AssignProps.next_thread. rewrite Hc. destruct (Z.leb_spec (Z.of_nat k) (Assign.last_fd w)); lia. Qed.

Lemma standing_ok cn x : standing n cn x -> progress x = Waiting -> request_ok n (wish x).
Proof. by intros []. Qed.

(** A complete request goes from its connection to a pipe. *)
Lemma request_handed b c d s a xs j cn x t :
  manned b c d s a xs -> connections c !! j = Some cn -> xs !! j = Some x -> standing n cn x -> progress x = Waiting ->
  sock_fd t = holder x -> carries (set_watchers t false false) (wish x) ->
  let i := AssignProps.next_thread (turn_world k c []) in
  exists p d', enqueue i (set_watchers t false false) (workers c) = Some p /\
    runs desk_step d [] d' /\ open_for b (Node (u64 (i + 1)) (delete j (connections c)) p) d'.
Proof.
  intros [Hp Hl Hc Hd Hw1 Hw2] Hj Hx Hs Hpr Hfd Hcar i.
  pose proof (next_in_range (turn_world k c []) Hl eq_refl) as Hi. fold i in Hi.
  destruct (lookup_lt_is_Some_2 (Pool.pipes (workers c)) (Z.to_nat i) ltac:(lia)) as [q Hq].
  destruct c as [lf cs [ps ts ci]]. cbn [Pool.pipes Pool.serving Pool.inner workers connections last_fd] in *.
  assert (El : length cs = S (length (delete j cs))).
  { rewrite (length_delete cs j) by by eexists. pose proof (lookup_lt_Some _ _ _ Hj). lia. }
  destruct (PoolProps.dispatch_simulated behind n k (b + length (delete j cs)) ps ts ci (Z.to_nat i) q (set_watchers t false false) (holder x)
    (wish x) s a) as (s' & Hr & Hp'); try done.
  { revert Hp. rewrite El, Nat.add_succ_r. done. }
  { by apply (standing_ok cn). }
  destruct (serves_seen s _ s' Hr (delete j xs) d) as (d' & Hr' & Hd').
  { destruct Hd as [Hm Ht]. split; [done|]. rewrite Ht. destruct (list_focus xs j x Hx) as [H1 _]. rewrite H1 at 1.
    destruct x as [fd r st]. cbn in Hpr. by subst st. }
  exists (Pool.Threads (<[Z.to_nat i := q ++ [set_watchers t false false]]> ps) ts ci), d'.
  split; [unfold enqueue; cbn [Pool.pipes]; by rewrite Hq|]. split; [exact Hr'|].
  exists s', a, (delete j xs). split; cbn [Pool.pipes Pool.serving connections workers last_fd]; try done.
  - by apply u64_range.
  - by apply Forall2_delete.
  - by rewrite length_insert.
Qed.

(** One event of connection [j]. *)
Lemma event_seen b c d j t packets a rest o :
  open_for b c d -> connections c !! j = Some (Connection t packets) -> readable (Connection t packets) = Some (a, rest) ->
  Assign.query_io_event_handler t Assign.EV_READ (turn_world k c [a]) = o ->
  (exists t' w, o = Assign.Ret (Some t') w /\ (ahead (Connection t' rest) < ahead (Connection t packets))%nat /\
    answerable (Connection t' rest) = answerable (Connection t packets) /\
    open_for b (Node (Assign.last_fd w) (<[j := Connection t' rest]> (connections c)) (workers c)) d) \/
  (exists i t' w p d', answerable (Connection t packets) = true /\ o = Assign.Ret None w /\ Assign.sent w = [(i, t')] /\ enqueue i t' (workers c) = Some p /\
    runs desk_step d [] d' /\ open_for b (Node (Assign.last_fd w) (delete j (connections c)) p) d') \/
  (exists t' w d', answerable (Connection t packets) = false /\ o = Assign.Ret None w /\ Assign.sent w = [] /\ Assign.destroyed w = [t'] /\
    desk_step (Some (Closed (sock_fd t'))) d d' /\ open_for b (Node (Assign.last_fd w) (delete j (connections c)) (workers c)) d').
Proof.
  intros (s & at' & xs & Hm) Hj Hr Ho. destruct (ticket_at b c d s at' xs j _ Hm Hj) as (x & Hx & Hs).
  destruct (standing_turn n _ x (turn_world k c []) Hn Hs) as (a' & rest' & Hr' & Ht). rewrite Hr in Hr'.
  apply (inj Some) in Hr'. injection Hr' as <- <-. cbn [task] in Ht.
  change (AssignProps.with_reads (turn_world k c []) [a]) with (turn_world k c [a]) in Ht. rewrite Ho in Ht.
  pose proof (ma_last _ _ _ _ _ _ Hm) as Hl.
  destruct Ht as [t' w' Hlf Hs' Hless|t' Hpr Hfd Hcar|o Hpr (t' & w' & -> & Hfd & Hlf & Hsent & Hde)].
  - left. exists t', w'. split; [done|]. split; [done|]. split.
    { apply eq_true_iff_eq. by rewrite !(standing_answerable n _ x). }
    exists s, at', (<[j := x]> xs). rewrite (desk_self d).
    apply (connection_kept b c d s at' xs j); try done; [by rewrite Hlf|].
    rewrite list_insert_id by done. apply (ma_desk _ _ _ _ _ _ Hm).
  - right; left. destruct (request_handed b c d s at' xs j _ x t' Hm Hj Hx Hs Hpr Hfd Hcar) as (p & d' & Hp & Hrun & Hopen).
    eexists _, _, _, p, d'. split; [by apply (standing_answerable n _ x)|]. split; [reflexivity|]. split; [reflexivity|]. by split.
  - right; right. exists t', w', (Desk (stored d) (delete j xs ++ pool_tickets s)). split.
    { apply not_true_is_false. rewrite (standing_answerable n _ x) by done. by destruct Hpr as [-> | ->]. }
    split; [done|]. split; [exact Hsent|]. split; [exact Hde|]. split.
    + pose proof (desk_focus xs j x s d Hx (ma_desk _ _ _ _ _ _ Hm)) as Hf. rewrite Hfd, (desk_self d) at 1.
      destruct x as [fd r st]. by eapply desk_close.
    + exists s, at', (delete j xs). apply (connection_left b c d s at' xs j _ _ Hm Hj). by rewrite Hlf.
Qed.

Lemma open_less b b' c d : (b' <= b)%nat -> open_for b c d -> open_for b' c d.
Proof.
  intros Hb (s & a & xs & []). exists s, a, xs. split; try done. revert ma_pool0. apply PoolProps.pooled_less. lia.
Qed.

Lemma accept_seen b c d fd r whole packets t w :
  open_for (S b) c d -> sends r whole packets -> request_ok n r -> 0 <= fd ->
  Assign.accept_connection fd (turn_world k c []) = Assign.Ret (Some t) w ->
  exists d', desk_step (Some (Arrived fd r whole)) d d' /\
    open_for b (Node (Assign.last_fd w) (connections c ++ [Connection t (Some packets)]) (workers c)) d'.
Proof.
  intros (s & a & xs & [Hp Hl Hc [Hm Ht] Hw1 Hw2]) He Hok Hfd E.
  rewrite (AssignProps.accept_run (turn_world k c []) fd Hfd eq_refl) in E. injection E as <- <-.
  set (x := Ticket fd r (if whole then Waiting else Cut)). exists (Desk (stored d) (x :: tickets d)). split; [rewrite (desk_self d) at 1; by constructor|].
  exists s, a, (xs ++ [x]). split; cbn [connections workers last_fd Pool.pipes]; try done.
  - revert Hp. apply PoolProps.pooled_less. rewrite length_app. cbn. lia.
  - apply Forall2_app; [done|]. constructor; [by apply sends_standing|done].
  - split; [done|]. cbn [tickets]. rewrite Ht. solve_Permutation.
Qed.

Lemma hangup_seen b c d j t packets :
  open_for b c d -> connections c !! j = Some (Connection t (Some packets)) ->
  exists d', desk_step (Some (HungUp (sock_fd t))) d d' /\
    open_for b (Node (last_fd c) (<[j := Connection t None]> (connections c)) (workers c)) d'.
Proof.
  intros (s & a & xs & Hm) Hj. destruct (ticket_at b c d s a xs j _ Hm Hj) as (x & Hx & Hs).
  destruct (hangup_gone n t packets x Hs) as [Hpr Hg]. destruct (standing_holder n _ x Hs) as [Hfd _].
  pose proof (desk_focus xs j x s d Hx (ma_desk _ _ _ _ _ _ Hm)) as Hf. destruct x as [fd r st]. cbn in Hpr, Hfd. subst fd.
  set (x' := Ticket (sock_fd t) r Lost). exists (Desk (stored d) (<[j := x']> xs ++ pool_tickets s)). split.
  - rewrite (desk_self d) at 1. eapply desk_hangup; [exact Hf|done|]. destruct (list_focus xs j _ Hx) as [_ H2]. by rewrite H2.
  - exists s, a, (<[j := x']> xs). apply (connection_kept b c d s a xs j); try done; [by apply stand_gone|apply (ma_last _ _ _ _ _ _ Hm)].
Qed.

Lemma timeout_seen b c d j t packets t' w :
  open_for b c d -> connections c !! j = Some (Connection t packets) ->
  Assign.query_timer_event_handler t Assign.EV_TIMEOUT (turn_world k c []) = Assign.Ret None w -> Assign.destroyed w = [t'] ->
  exists d', desk_step (Some (TimedOut (sock_fd t'))) d d' /\
    open_for b (Node (Assign.last_fd w) (delete j (connections c)) (workers c)) d'.
Proof.
  intros (s & a & xs & Hm) Hj E Hde. destruct (ticket_at b c d s a xs j _ Hm Hj) as (x & Hx & Hs).
  destruct (standing_holder n _ x Hs) as [Hfd Hlog]. unfold holds in Hfd. cbn [task] in Hfd, Hlog.
  destruct (timer_run (turn_world k c []) t [] Hlog) as (t1 & w1 & E1 & Hfd1 & Hlf & _ & Hde1).
  change (AssignProps.with_reads (turn_world k c []) []) with (turn_world k c []) in E1. rewrite E in E1. injection E1 as <-.
  rewrite Hde in Hde1. change (Assign.destroyed (turn_world k c [])) with (@nil query_task_s) in Hde1. cbn [app] in Hde1. apply (inj (fun x => [x])) in Hde1. subst t1. rewrite Hfd1, <- Hfd.
  pose proof (desk_focus xs j x s d Hx (ma_desk _ _ _ _ _ _ Hm)) as Hf.
  exists (Desk (stored d) (delete j xs ++ pool_tickets s)). split.
  - rewrite (desk_self d) at 1. assert (Hpr : forall bytes, progress x <> Served bytes) by (by destruct Hs).
    destruct x as [fd r st]. by eapply desk_timeout.
  - exists s, a, (delete j xs). apply (connection_left b c d s a xs j _ _ Hm Hj). rewrite Hlf. apply (ma_last _ _ _ _ _ _ Hm).
Qed.

(** Every step of the data node is one of the desk, or none. *)
Lemma node_simulated b o c c' d :
  node_step Interleave.moves behind k o c c' -> (forall e, o = Some e -> event_ok n e) ->
  open_for (length (option_list o) + b) c d ->
  exists d', runs desk_step d (option_list o) d' /\ open_for b c' d'.
Proof.
  intros Hst Hok Ho. pose proof (open_less (length (option_list o) + b) b c d ltac:(lia) Ho) as Ho'.
  destruct Hst as [c fd r whole packets t w He Hfd E|c j t packets a rest t' w Hj Hr E|c j t packets a rest i t' w p Hj Hr E Hs Hp|
    c j t packets a rest t' w Hj Hr E Hs Hde|c j t packets Hj|c j t packets t' w Hj E Hde|c p Hst|c p fd bytes Hst].
  - destruct (accept_seen b c d fd r whole packets t w Ho He (Hok _ eq_refl) Hfd E) as (d' & Hd & Hn'). exists d'. split; [by apply (runs_one _ (Some _))|done].
  - destruct (event_seen b c d j t packets a rest _ Ho' Hj Hr E) as [(t1 & w1 & E1 & _ & _ & H1)|[(i & t1 & w1 & p & d' & _ & E1 & _)|(t1 & w1 & d' & _ & E1 & _)]];
      [|done|done]. injection E1 as <- <-. exists d. split; [apply runs_nil|done].
  - destruct (event_seen b c d j t packets a rest _ Ho' Hj Hr E) as [(t1 & w1 & E1 & _)|[(i1 & t1 & w1 & p1 & d' & _ & E1 & Hs1 & Hp1 & H1 & H2)|
      (t1 & w1 & d' & _ & E1 & Hs1 & _)]]; [done| |].
    + injection E1 as <-. rewrite Hs in Hs1. injection Hs1 as <- <-. rewrite Hp in Hp1. injection Hp1 as <-. by exists d'.
    + injection E1 as <-. by rewrite Hs in Hs1.
  - destruct (event_seen b c d j t packets a rest _ Ho' Hj Hr E) as [(t1 & w1 & E1 & _)|[(i1 & t1 & w1 & p1 & d' & _ & E1 & Hs1 & _)|
      (t1 & w1 & d' & _ & E1 & Hs1 & Hde1 & H1 & H2)]]; [done| |].
    + injection E1 as <-. by rewrite Hs in Hs1.
    + injection E1 as <-. rewrite Hde in Hde1. injection Hde1 as <-. exists d'. split; [by apply (runs_one _ (Some _))|done].
  - destruct (hangup_seen b c d j t packets Ho' Hj) as (d' & Hd & Hn'). exists d'. split; [by apply (runs_one _ (Some _))|done].
  - destruct (timeout_seen b c d j t packets t' w Ho' Hj E Hde) as (d' & Hd & Hn'). exists d'. split; [by apply (runs_one _ (Some _))|done].
  - exact (pool_stepped b c d None p Ho Hst ltac:(done)).
  - exact (pool_stepped b c d (Some (Pool.Sent fd bytes)) p Ho Hst ltac:(done)).
Qed.

Lemma node_start_open (st : Storage.state DB) b m :
  QueryProps.ready n (Z.of_nat b) st m -> StorageThreads.free st = st -> Z.of_nat k + 1 < 2 ^ 64 ->
  open_for b (node_start k st) (Desk m []).
Proof.
  intros Hr Hf Hk2. exists (Pool.serve_start k m), (Interleave.atomic_start k m), [].
  split; cbn [node_start workers connections last_fd Pool.pool_start Pool.pipes Pool.serving]; rewrite ?length_replicate; try done.
  - rewrite Nat.add_0_r. by apply PoolProps.pool_start_pooled.
  - split; [done|]. cbn [tickets app]. by rewrite pool_tickets_start.
Qed.

(** ** Every open connection can be brought to its end *)

Definition to_come (c : node DB) : nat := sum_list (ahead <$> connections c).

Lemma outstanding_enqueue i t p p' : enqueue (DB := DB) i t p = Some p' -> PoolProps.outstanding p' = S (PoolProps.outstanding p).
Proof.
  unfold enqueue. destruct (Pool.pipes p !! Z.to_nat i) as [q|] eqn:E; [|done]. intros [= <-].
  unfold PoolProps.outstanding. cbn [Pool.pipes Pool.serving].
  pose proof (PoolProps.waiting_insert _ _ _ (q ++ [t]) E) as Hw. rewrite length_app in Hw. cbn [length] in Hw. lia.
Qed.

(** One event of the first connection. *)
Lemma first_turn b c d cn cs :
  open_for b c d -> connections c = cn :: cs ->
  exists o c' d', node_step Interleave.step behind k o c c' /\ open_for b c' d' /\
    (forall e, o = Some e -> is_closed e) /\ (length (option_list o) + unanswerable c' = unanswerable c)%nat /\
    (to_come c' + length (connections c') < to_come c + length (connections c))%nat /\
    (PoolProps.outstanding (workers c') + staying c' = PoolProps.outstanding (workers c) + staying c)%nat.
Proof.
  intros Ho Ec. destruct cn as [t packets]. assert (Hj : connections c !! 0%nat = Some (Connection t packets)) by by rewrite Ec.
  assert (Hr : exists a rest, readable (Connection t packets) = Some (a, rest)).
  { destruct Ho as (s & a & xs & Hm). destruct (ticket_at b c d s a xs 0 _ Hm Hj) as (x & _ & Hs).
    destruct (standing_turn n _ x (turn_world k c []) Hn Hs) as (a' & rest & Hr & _). by exists a', rest. }
  destruct Hr as (a & rest & Hr).
  destruct (event_seen b c d 0 t packets a rest _ Ho Hj Hr eq_refl) as [(t1 & w1 & E & Hlt & Ha & H1)|[(i & t1 & w1 & p & d' & Ha & E & Hs & Hq & Hrun & H1)|
    (t1 & w1 & d' & Ha & E & Hs & Hde & Hd & H1)]].
  - eexists None, _, d. split; [by eapply node_receive|]. split; [exact H1|]. split; [done|].
    unfold unanswerable, staying, to_come. cbn [workers connections option_list]. rewrite Ec.
    change (<[0%nat := Connection t1 rest]> (Connection t packets :: cs)) with (Connection t1 rest :: cs). cbn [fmap list_fmap sum_list length].
    rewrite !filter_cons, Ha. destruct (answerable (Connection t packets)); repeat first [rewrite decide_True by done|rewrite decide_False by done]; cbn; lia.
  - eexists None, _, d'. split; [by eapply node_dispatch|]. split; [exact H1|]. split; [done|].
    pose proof (outstanding_enqueue _ _ _ _ Hq) as Eo. unfold unanswerable, staying, to_come. cbn [workers connections option_list]. rewrite Ec, Eo.
    change (delete 0%nat (Connection t packets :: cs)) with cs. cbn [fmap list_fmap sum_list length].
    rewrite !filter_cons, Ha. repeat first [rewrite decide_True by done|rewrite decide_False by done]. cbn. lia.
  - eexists (Some _), _, d'. split; [by eapply node_close|]. split; [exact H1|]. split; [by intros e [= <-]|].
    unfold unanswerable, staying, to_come. cbn [workers connections option_list]. rewrite Ec.
    change (delete 0%nat (Connection t packets :: cs)) with cs. cbn [fmap list_fmap sum_list length].
    rewrite !filter_cons, Ha. repeat first [rewrite decide_True by done|rewrite decide_False by done]. cbn. lia.
Qed.

(** Every connection is closed, or its request gets to a pipe. *)
Lemma connections_served b m c d :
  (to_come c + length (connections c))%nat = m -> open_for b c d ->
  exists closes c' d', runs (node_step Interleave.step behind k) c closes c' /\ open_for b c' d' /\ connections c' = [] /\
    Forall is_closed closes /\ length closes = unanswerable c /\
    PoolProps.outstanding (workers c') = (PoolProps.outstanding (workers c) + staying c)%nat.
Proof.
  revert c d. induction m as [m IH] using lt_wf_ind. intros c d Hm Ho. destruct (connections c) as [|cn cs] eqn:Ec.
  - exists [], c, d. split; [apply runs_nil|]. split; [done|]. split; [done|]. split; [constructor|].
    unfold unanswerable, staying. rewrite Ec. cbn. split; [done|lia].
  - destruct (first_turn b c d cn cs Ho Ec) as (o & c1 & d1 & Hst & Ho1 & Hcl & Hh & Hlt & Hout).
    rewrite Ec in Hlt. destruct (IH (to_come c1 + length (connections c1))%nat ltac:(cbn [length] in *; lia) c1 d1 eq_refl Ho1) as (closes & c' & d' & Hr & Ho' & He & Hf & Hl & Hout').
    exists (option_list o ++ closes), c', d'. split; [eapply runs_trans; [by apply runs_one|exact Hr]|]. split; [done|]. split; [done|].
    split; [apply Forall_app; split; [destruct o; cbn; [constructor; [by apply Hcl|constructor]|constructor]|done]|].
    rewrite length_app. split; lia.
Qed.

(** The pool inside of the data node. *)
Lemma pool_runs p h p' : runs (Pool.pool_step (DB := DB) Interleave.step behind) p h p' -> Forall Pool.is_sent h ->
  forall lf cs, exists h', runs (node_step Interleave.step behind k) (Node lf cs p) h' (Node lf cs p') /\
    Forall is_reply h' /\ length h' = length h.
Proof.
  induction 1 as [p|p p1 h p' Hst _ IH|e p p1 h p' Hst _ IH]; intros Hh lf cs.
  - exists []. split; [apply runs_nil|done].
  - destruct (IH Hh lf cs) as (h' & Hr & Hrest). exists h'. split; [|done]. eapply runs_silent; [|exact Hr].
    exact (node_work _ _ _ (Node lf cs p) p1 Hst).
  - apply Forall_cons in Hh as [He Hh]. destruct e as [|fd bytes]; [done|]. destruct (IH Hh lf cs) as (h' & Hr & Hf & Hl).
    exists (Replied fd bytes :: h'). split; [|split; [by constructor|cbn; by rewrite Hl]]. eapply runs_event; [|exact Hr].
    exact (node_reply _ _ _ (Node lf cs p) p1 fd bytes Hst).
Qed.

Lemma history_open b (st : Storage.state DB) m h c :
  QueryProps.ready n (Z.of_nat (length h + b)) st m -> StorageThreads.free st = st -> Z.of_nat k + 1 < 2 ^ 64 ->
  Forall (event_ok n) h -> runs (node_step Interleave.moves behind k) (node_start k st) h c ->
  exists d, runs desk_step (Desk m []) h d /\ open_for b c d.
Proof.
  intros Hr Hf Hk2 Hok Hrun.
  refine (Interleave.runs_simulation (node_step Interleave.moves behind k) desk_step (event_ok n) open_for _ _ h c Hrun Hok b (Desk m []) _).
  - intros b' o c1 c2 d Hst Ho Hi. by apply (node_simulated b' o c1 c2 d).
  - by apply node_start_open.
Qed.

Lemma pool_idle_unserved b (p : Pool.pool DB) s a :
  pooled behind n k b p s a -> Forall (eq None) (Pool.serving p) -> Forall unserved (pool_tickets s).
Proof.
  intros [_ _ _ (Hl1 & Hl2 & Hs) _] Hn0. unfold pool_tickets.
  assert (E' : Forall (eq None) (Pool.current s)).
  { apply Forall_lookup. intros i x Hx. pose proof (lookup_lt_Some _ _ _ Hx) as Hl.
    destruct (lookup_lt_is_Some_2 (Interleave.clients a) i ltac:(lia)) as [q Hq0].
    destruct (lookup_lt_is_Some_2 (Pool.serving p) i ltac:(lia)) as [t Ht].
    pose proof (Hs i t q x Ht Hq0 Hx) as Hslot. rewrite <- (proj1 (Forall_lookup _ _) Hn0 i t Ht) in Hslot. by inversion Hslot. }
  apply Forall_app. split.
  - clear. apply Forall_forall. intros x Hx. apply list_elem_of_bind in Hx as (q & Hx & _).
    apply list_elem_of_fmap in Hx as (y & -> & _). by intros bytes [=].
  - clear -E'. induction E' as [|x l <- _ IH]; [constructor|exact IH].
Qed.

Lemma standing_unserved c x : standing n c x -> unserved x.
Proof. by intros []. Qed.

(** What is left when no query thread is at work: the map of the desk, in the
    storage, and tickets that are not served. *)
Lemma idle_settled b c d : open_for b c d -> idle_threads c ->
  QueryProps.ready n (Z.of_nat b) (Interleave.store (Pool.inner (workers c))) (stored d) /\ Forall unserved (tickets d).
Proof.
  intros (s & a & xs & [Hp _ Hc [Hm Ht] _ _]) Hidle.
  destruct (Linear.resting_settled _ _ _ _ _ (PoolProps.po_linked _ _ _ _ _ _ _ Hp) (PoolProps.idle_resting _ _ _ _ _ _ _ Hp Hidle))
    as (_ & H1 & _ & H2 & H3).
  rewrite Hm, (PoolProps.po_content _ _ _ _ _ _ _ Hp). split.
  - split; [exact H1|]. split; [exact H3|]. revert H2. apply Linear.room_less. lia.
  - rewrite Ht. apply Forall_app. split; [|exact (pool_idle_unserved _ (workers c) s a Hp Hidle)].
    clear -Hc. induction Hc as [|cn x cs xs Hs _ IH]; constructor; [by apply (standing_unserved cn)|exact IH].
Qed.

Lemma open_drained b c d : open_for b c d ->
  exists closes replies c', runs (node_step Interleave.step behind k) c (closes ++ replies) c' /\ node_done c' /\
    Forall is_closed closes /\ length closes = unanswerable c /\
    Forall is_reply replies /\ length replies = (staying c + PoolProps.outstanding (workers c))%nat.
Proof.
  intros Ho. destruct (connections_served b _ c d eq_refl Ho) as (closes & [lf cs p] & d1 & Hr1 & (s & a & xs & Hm) & Hno & Hf1 & Hl1 & Hout).
  cbn [connections workers] in *. subst cs.
  assert (Hw : length (Pool.pipes p) = length (Pool.serving p)).
  { transitivity k; [apply (ma_pipes _ _ _ _ _ _ Hm)|symmetry; apply (ma_serving _ _ _ _ _ _ Hm)]. }
  destruct (PoolProps.drain behind n k _ _ p s a Hn eq_refl (ma_pool _ _ _ _ _ _ Hm) Hw) as (h & p' & Hr2 & Hs & Hd).
  destruct (pool_runs p h p' Hr2 Hs lf []) as (replies & Hr3 & Hf3 & Hl3).
  exists closes, replies, (Node lf [] p'). split; [by eapply runs_trans|]. split; [by split|]. split; [done|]. split; [done|].
  split; [done|]. rewrite Hl3. pose proof (PoolProps.sent_counts Interleave.step behind p h p' Hr2 Hs Hw) as Hc.
  rewrite (PoolProps.pool_done_outstanding p' Hd) in Hc. lia.
Qed.

End Simulation.
(** ** The theorems *)

Section Theorems.
Context {DB : Type} `{BerkeleyDBLaws DB}.

(** The start leaves every lock free. *)
Lemma init_free (e : Datanode.init_env DB) s v r s' :
  StorageThreads.free s = s -> Datanode.init_datanode_vars e s = Storage.Ret (v, r) s' -> StorageThreads.free s' = s'.
Proof.
  intros Hf. unfold Datanode.init_datanode_vars. destruct (Datanode.open_pipes _ _ _ _ _) as [fds []]; cbn [negb].
  - unfold Storage.bind. destruct (Storage.open_storage _ _ s) as [r1 s1| | |] eqn:E; [|done..]. intros [= <- <- <-].
    exact (StorageThreads.open_storage_free _ _ s r1 s1 Hf E).
  - intros [= <- <- <-]. exact Hf.
Qed.

(** C1: the data node is linearizable from its start on, from the bytes clients
    send to the bytes they get, with memory, every pipe written and a quiet
    system. On an empty directory [init_datanode_vars] succeeds. Then clients
    connect at any time with one request each ([request_ok]: get, delete, a set
    that the largest block holds, or an unknown command), hang up or are too slow,
    while assign thread and query threads interleave, access by access. The body
    of a set may be cut anywhere; the head is whole in the first packet, or cut
    anywhere too, when the rest is not there yet as the assign thread reads on.
    All that is seen is what a desk shows: a request whose head came whole takes
    effect on a map at one moment between its arrival and its answer, or never
    when its client was gone or too slow; one whose head came cut never does, and
    its connection is closed without an answer. Whenever no query thread is at
    work the storage represents the map of the desk. *)
Theorem datanode_linearizable behind (e : Datanode.init_env DB) ps d s :
  Datanode.starts e ps d s -> StorageThreads.free s = s ->
  exists v s', Datanode.init_datanode_vars e s = Storage.Ret (v, IndexTypes.RET_SUCCESS) s' /\
    forall h c, Forall (event_ok 18) h -> Z.of_nat (length h) <= 2 ^ 32 ->
      let k := Z.to_nat (Datanode.worker_thread_cnt (Datanode.settings v)) in
      runs (node_step Interleave.moves behind k) (node_start k s') h c ->
      exists dk, runs desk_step (Desk ∅ []) h dk /\
        (idle_threads c -> StorageRefine.represents (Interleave.store (Pool.inner (workers c))) (stored dk)).
Proof.
  intros Hst Hf. destruct (Datanode.init_run e ps d s Hst) as (v & s' & E & Hr & Hset & _).
  exists v, s'. split; [exact E|]. intros h c Hok Hl k Hrun. unfold k in Hrun. rewrite Hset in Hrun.
  destruct (history_open behind 18 8 ltac:(done) ltac:(lia) 0 s' ∅ h c) as (dk & Hd & Ho).
  - destruct Hr as (H1 & H2 & H3). split; [done|]. split; [done|]. apply (Linear.room_less s' _ (2 ^ 32)); [lia|done].
  - by apply (init_free e s v RET_SUCCESS).
  - lia.
  - exact Hok.
  - exact Hrun.
  - exists dk. split; [exact Hd|]. intros Hidle. by apply (idle_settled behind 18 8 ltac:(lia) 0 c dk Ho Hidle).
Qed.

(** C3: every client is answered or sent away. Wherever a run of C1 stands, with
    memory, every pipe written and a quiet system, the data node can go on by
    itself, with no new client, no time-out and no spurious wake-up, until nobody
    waits: every request on a connection whose client stays and whose head is or
    was whole, in a pipe or with a query thread gets exactly one answer, and every
    other connection, whose client hung up or cut the head, is closed without one. *)
Theorem node_progress behind n k (st : Storage.state DB) m h c :
  QueryProps.ready n (Z.of_nat (length h)) st m -> StorageThreads.free st = st -> (0 < k)%nat -> Z.of_nat k + 1 < 2 ^ 64 ->
  Forall (event_ok n) h -> runs (node_step Interleave.moves behind k) (node_start k st) h c ->
  exists closes replies c', runs (node_step Interleave.step behind k) c (closes ++ replies) c' /\ node_done c' /\
    Forall is_closed closes /\ length closes = unanswerable c /\
    Forall is_reply replies /\ length replies = (staying c + PoolProps.outstanding (workers c))%nat.
Proof.
  intros Hr Hf Hk Hk2 Hok Hrun. pose proof (QueryProps.ready_count _ _ _ _ Hr) as Hn.
  rewrite <- (Nat.add_0_r (length h)) in Hr.
  destruct (history_open behind n k Hn Hk 0 st m h c Hr Hf Hk2 Hok Hrun) as (d & _ & Ho).
  exact (open_drained behind n k Hn Hk 0 c d Ho).
Qed.

End Theorems.

(** ** Three clients: one stores a value in two packets, one hangs up, and the
    packet of the third ends in the middle of its head *)

Import MapDB.
Import CString (str).

Definition ex_packets : list (list Z) :=
  [(AssignProps.set_line (str "key") 0 0 3 ++ crlf) ++ [1]; [2; 3] ++ crlf].
Definition ex_events : list event := [Arrived 9 PoolProps.ex_set true; Arrived 10 (QueryProps.Get (str "key")) true;
  Arrived 11 (QueryProps.Get (str "key")) false; HungUp 10].
Definition ex_cut : list (list Z) := [str "get k"; str "ey" ++ crlf].
Definition ex_node (k : nat) (st : Storage.state (gmap (list Z) (list Z))) : node (gmap (list Z) (list Z)) :=
  Node 0 [Connection (AssignProps.conn 9) (Some ex_packets); Connection (AssignProps.conn 10) None;
    Connection (AssignProps.conn 11) (Some ex_cut)] (Pool.pool_start k st).

Lemma ex_run k st : runs (node_step Interleave.moves (fun _ => 0) k) (node_start k st) ex_events (ex_node k st).
Proof.
  eapply runs_event.
  { apply (node_accept _ _ _ _ 9 PoolProps.ex_set true ex_packets); [|lia|by apply AssignProps.accept_run].
    apply sends_whole, (QueryProps.enc_set (str "key") 0 0 [1; 2; 3] [1] [[2; 3] ++ crlf]);
      [reflexivity|by repeat constructor|apply Nat.leb_le; vm_compute; reflexivity]. }
  eapply runs_event.
  { apply (node_accept _ _ _ _ 10 (QueryProps.Get (str "key")) true [AssignProps.key_line (str "get") (str "key") ++ crlf]);
      [apply sends_whole, QueryProps.enc_get|lia|by apply AssignProps.accept_run]. }
  eapply runs_event.
  { apply (node_accept _ _ _ _ 11 (QueryProps.Get (str "key")) false ex_cut); [|lia|by apply AssignProps.accept_run].
    apply (sends_cut _ (AssignProps.key_line (str "get") (str "key")) [] []);
      [apply QueryProps.enc_get|by apply AssignProps.plain_str|reflexivity|done|cbn; lia]. }
  eapply runs_event; [by eapply (node_hangup _ _ _ _ 1 (AssignProps.conn 10))|]. apply runs_nil.
Qed.

Lemma ex_events_ok n : 1 <= n -> Forall (event_ok n) ex_events.
Proof.
  intros Hn. pose proof (PoolProps.ex_wires_ok n Hn) as Hw. apply Forall_cons in Hw as [H1 Hw]. apply Forall_cons in Hw as [H2 _].
  constructor; [exact H1|constructor; [exact H2|constructor; [exact H2|constructor; [exact I|constructor]]]].
Qed.

Lemma node_progress_witness : exists (st : Storage.state (gmap (list Z) (list Z))) fd1 fd2 bytes fd' c',
  runs (node_step Interleave.step (fun _ => 0) 2) (ex_node 2 st) [Closed fd1; Closed fd2; Replied fd' bytes] c' /\ node_done c'.
Proof.
  destruct (PoolProps.ex_ready_free 4 ltac:(lia)) as (st & Hr & Hf).
  destruct (node_progress (fun _ => 0) 1 2 st ∅ ex_events (ex_node 2 st) Hr Hf ltac:(lia) ltac:(lia) (ex_events_ok 1 ltac:(lia)) (ex_run 2 st))
    as (closes & replies & c' & Hrun & Hd & Hc & Hcl & Hp & Hpl).
  change (unanswerable (ex_node 2 st)) with 2%nat in Hcl. change (staying (ex_node 2 st)) with 1%nat in Hpl.
  change (PoolProps.outstanding (workers (ex_node 2 st))) with 0%nat in Hpl.
  destruct closes as [|e1 [|e2 [|]]], replies as [|e3 [|]]; try discriminate.
  apply Forall_cons in Hc as [Hc1 Hc]. apply Forall_cons in Hc as [Hc2 _]. apply Forall_cons in Hp as [Hp _].
  destruct e1 as [| |fd1| |]; try destruct Hc1. destruct e2 as [| |fd2| |]; try destruct Hc2. destruct e3 as [| | | |fd' bytes]; try destruct Hp.
  exists st, fd1, fd2, bytes, fd', c'. split; [exact Hrun|exact Hd].
Defined.

Lemma stepped_node (behind : Z -> Z) (k : nat) (c : node (gmap (list Z) (list Z))) h c' :
  runs (node_step Interleave.step behind k) c h c' -> runs (node_step Interleave.moves behind k) c h c'.
Proof.
  assert (Hp : forall o p p', Pool.pool_step (DB := gmap (list Z) (list Z)) Interleave.step behind o p p' ->
    Pool.pool_step Interleave.moves behind o p p').
  { intros o p p' []; [econstructor 1|econstructor 2|econstructor 3|econstructor 4|econstructor 5]; eauto; by left. }
  assert (Hst : forall o c1 c2, node_step (DB := gmap (list Z) (list Z)) Interleave.step behind k o c1 c2 ->
    node_step Interleave.moves behind k o c1 c2).
  { intros o c1 c2 []; [econstructor 1|econstructor 2|econstructor 3|econstructor 4|econstructor 5|econstructor 6|econstructor 7|
      econstructor 8]; eauto. }
  induction 1; [apply runs_nil|eapply runs_silent|eapply runs_event]; eauto.
Qed.

Lemma ex_answered k b st m : QueryProps.ready 18 (Z.of_nat (7 + b)) st m -> StorageThreads.free st = st -> (0 < k)%nat -> Z.of_nat k + 1 < 2 ^ 64 ->
  exists h c, Forall (event_ok 18) h /\ length h = 7%nat /\ node_done c /\
    runs (node_step Interleave.moves (fun _ => 0) k) (node_start k st) h c.
Proof.
  intros (H1 & H2 & H3) Hf Hk Hk2. assert (Hn : 1 <= 18 <= Storage.MAX_BLOCK_CNT) by done.
  destruct (history_open (fun _ => 0) 18 k Hn Hk 0 st m ex_events (ex_node k st)) as (d & _ & Ho); try done.
  - split; [done|]. split; [done|]. revert H3. apply Linear.room_less. cbn. lia.
  - by apply ex_events_ok.
  - apply ex_run.
  - destruct (open_drained (fun _ => 0) 18 k Hn Hk 0 _ d Ho) as (closes & replies & c & Hrun & Hd & Hc & Hcl & Hp & Hpl).
    exists (ex_events ++ closes ++ replies), c. split; [|split; [|split; [done|]]].
    + apply Forall_app. split; [by apply ex_events_ok|]. apply Forall_app. split; (eapply Forall_impl; [eassumption|by intros []]).
    + rewrite !length_app, Hcl, Hpl. change (unanswerable (ex_node k st)) with 2%nat. change (staying (ex_node k st)) with 1%nat.
      assert (E : PoolProps.outstanding (workers (ex_node k st)) = 0%nat); [|by rewrite E].
      apply PoolProps.pool_done_outstanding. split; by apply Forall_replicate.
    + eapply runs_trans; [apply ex_run|by apply stepped_node].
Qed.

Lemma datanode_linearizable_witness : exists v s' h c dk,
  Datanode.init_datanode_vars Datanode.ex_init StorageProps.ex_pristine = Storage.Ret (v, IndexTypes.RET_SUCCESS) s' /\
  length h = 7%nat /\ node_done c /\ runs desk_step (Desk ∅ []) h dk /\
  StorageRefine.represents (Interleave.store (Pool.inner (workers c))) (stored dk).
Proof.
  destruct (datanode_linearizable (fun _ => 0) Datanode.ex_init Datanode.ex_pipes ∅ StorageProps.ex_pristine Datanode.ex_starts eq_refl)
    as (v & s' & E & Hlin).
  destruct (Datanode.init_run Datanode.ex_init Datanode.ex_pipes ∅ StorageProps.ex_pristine Datanode.ex_starts) as (v2 & s2 & E2 & Hr & Hset & _).
  pose proof (eq_trans (eq_sym E) E2) as E3. injection E3 as <- <-.
  assert (Hr7 : QueryProps.ready 18 (Z.of_nat (7 + 0)) s' ∅).
  { destruct Hr as (H1 & H2 & H3). split; [done|]. split; [done|]. by apply (Linear.room_less s' _ (2 ^ 32)). }
  destruct (ex_answered 8 0 s' ∅ Hr7 (init_free _ _ _ _ _ eq_refl E) ltac:(lia) ltac:(lia)) as (h & c & Hok & Hl & Hd & Hrun).
  rewrite Hset in Hlin. destruct (Hlin h c Hok ltac:(rewrite Hl; done) Hrun) as (dk & Hdk & Hrep).
  exists v, s', h, c, dk. split; [exact E|]. split; [exact Hl|]. split; [exact Hd|]. split; [exact Hdk|exact (Hrep (proj2 (proj2 Hd)))].
Defined.

End ServerProps.
