(* ===== verification/Lifetime.v ===== *)
(** The data node over its whole life: it starts on an empty directory, works
    under load, stops at [power halt], is started again on the files that are
    there, and so on. A halt may come while clients are connected and tasks wait
    in the pipes, but while no query thread is at work, and none takes up a task
    before the process is gone: [close_storage] takes no lock, so that a halt
    while a query thread uses the storage is outside of the model. *)

From Stdlib Require Import ZArith Lia String.
From stdpp Require Import base numbers list gmap.
From S2P Require Import Prelude CString IndexTypes Bdb Storage StorageRefine StorageProps StorageThreads Interleave.
From S2P Require Import Linear Protocol Assign AssignProps AssignSafety QueryProps Pool PoolProps Datanode Server ServerProps.

Module Lifetime.
Import Protocol Server.
Import Interleave (runs, runs_nil, runs_silent, runs_event, runs_trans).

Section Lifetime.
Context {DB : Type} `{BerkeleyDBLaws DB}.

Definition storage_of (c : node DB) : Storage.state DB := Interleave.store (Pool.inner (workers c)).

(** A process starts with the variables and files of [s], data files being there
    or not ([again]), and a database that holds [ct]; with memory, pipes and a
    quiet system; and then works through the history [h] up to [c]. *)
Definition session (behind : Z -> Z) (again : bool) (s : Storage.state DB) (ct : gmap (list Z) (list Z))
  (h : list event) (c : node DB) : Prop :=
  exists e ps d v s', Datanode.boots e ps /\ StorageRefine.opens (Datanode.ie_storage e) 18 again d /\ healthy d /\ contents d = ct /\
    Datanode.init_datanode_vars e s = Storage.Ret (v, IndexTypes.RET_SUCCESS) s' /\
    let k := Z.to_nat (Datanode.worker_thread_cnt (Datanode.settings v)) in
    runs (node_step Interleave.moves behind k) (node_start k s') h c.

(** A client connects and sends [power halt] while no query thread is at work,
    whatever the other connections and the pipes hold, and none takes up a task
    while the command is carried out: the process exits, and [s], [ct] is what the
    next one finds. *)
Definition halted (c : node DB) (s : Storage.state DB) (ct : gmap (list Z) (list Z)) : Prop :=
  exists k fd w b, idle_threads c /\ 0 <= fd /\
    AssignProps.serve_connection fd 1 (turn_world k c [Assign.Bytes AssignSafety.power_line]) = Assign.Exit w /\
    Storage.indexdb (storage_of c) = Some b /\ ct = contents (Bdb.dbp b) /\
    Datanode.inherits (Assign.storage w) s /\ StorageThreads.free s = s.

(** One history for every session. *)
Inductive lifetime (behind : Z -> Z) : bool -> Storage.state DB -> gmap (list Z) (list Z) -> list (list event) -> node DB -> Prop :=
  | life_now again s ct h c : session behind again s ct h c -> lifetime behind again s ct [h] c
  | life_more again s ct h c s' ct' hs c' :
      session behind again s ct h c -> halted c s' ct' -> lifetime behind true s' ct' hs c' ->
      lifetime behind again s ct (h :: hs) c'.

(** The desk over several sessions: at a halt, the requests that have not had
    their moment are dropped, and everything that has been served is answered. *)
Inductive desk_life : desk -> list (list event) -> desk -> Prop :=
  | desk_now d h d' : runs desk_step d h d' -> desk_life d [h] d'
  | desk_halt d h d1 hs d' :
      runs desk_step d h d1 -> Forall unserved (tickets d1) -> desk_life (Desk (stored d1) []) hs d' -> desk_life d (h :: hs) d'.

(** What a process finds means [m], with room for [b] blocks. *)
Definition found (again : bool) (s : Storage.state DB) (ct m : gmap (list Z) (list Z)) (b : nat) : Prop :=
  StorageThreads.free s = s /\
  forall e d, StorageRefine.opens e 18 again d -> healthy d -> contents d = ct ->
    exists s', Storage.open_storage e (1024 * 1024 * 16) s = Storage.Ret 0 s' /\ QueryProps.ready 18 (Z.of_nat b) s' m.

Lemma pristine_found (s : Storage.state DB) b :
  StorageRefine.pristine s 18 -> StorageThreads.free s = s -> Z.of_nat b <= 2 ^ 32 -> found false s ∅ ∅ b.
Proof.
  intros Hs Hf Hb. split; [done|]. intros e d Ho Hh Hc.
  destruct (StorageRefine.open_fresh_run e 18 d _ s Ho Hh Hc Datanode.sizes_production Hs) as (s' & E & H1 & H2 & H3).
  exists s'. split; [exact E|]. split; [done|]. split; [done|]. by apply (Linear.room_less s' _ (2 ^ 32)).
Qed.

Lemma session_run behind again s ct m h b c :
  found again s ct m (length h + b) -> session behind again s ct h c -> Forall (event_ok 18) h ->
  exists dk, runs desk_step (Desk m []) h dk /\ ServerProps.open_for behind 18 8 b c dk.
Proof.
  intros [Hf Hfound] (e & ps & d & v & s' & Hb & Ho & Hh & Hc & E & Hrun) Hok.
  destruct (Hfound (Datanode.ie_storage e) d Ho Hh Hc) as (s1 & Eo & Hr).
  destruct (Datanode.init_opened e ps s s1 Hb Eo) as (v1 & E1 & Hset & _). rewrite E in E1. injection E1 as <- <-.
  cbv zeta in Hrun. rewrite Hset in Hrun.
  apply (ServerProps.history_open behind 18 8 ltac:(done) ltac:(lia) b s' m h c Hr); try done.
  by apply (ServerProps.init_free e s v IndexTypes.RET_SUCCESS).
Qed.

Lemma halted_found behind b c dk s ct :
  ServerProps.open_for behind 18 8 b c dk -> halted c s ct -> found true s ct (stored dk) b /\ Forall unserved (tickets dk).
Proof.
  intros Ho (k & fd & w & bd & Hidle & Hfd & Ex & Hbd & -> & (H1 & H2 & H3 & H4) & Hf).
  destruct (ServerProps.idle_settled behind 18 8 ltac:(lia) b c dk Ho Hidle) as [(Hrep & Hn & Hroom) Ht]. split; [|exact Ht].
  destruct (AssignSafety.power_halt_run (stored dk) (turn_world k c []) fd 18 (Z.of_nat b) Hrep Hn Hroom Hfd) as (w' & b' & Ex' & Hb' & Hd).
  change (AssignProps.with_reads (turn_world k c []) [Assign.Bytes AssignSafety.power_line])
    with (turn_world k c [Assign.Bytes AssignSafety.power_line]) in Ex'. rewrite Ex in Ex'. injection Ex' as <-.
  change (Assign.storage (turn_world k c [])) with (storage_of c) in Hb'. rewrite Hbd in Hb'. injection Hb' as <-.
  split; [exact Hf|]. intros e d Ho' Hh Hc.
  destruct (Hd e d _ s Datanode.sizes_production Ho' Hh Hc H1 H2 H3 H4) as (s' & Eo & Hr' & Hn' & Hroom').
  exists s'. split; [exact Eo|]. by split.
Qed.

Lemma lifetime_run behind again s ct hs c : lifetime behind again s ct hs c ->
  forall m, found again s ct m (length (concat hs)) -> Forall (event_ok 18) (concat hs) ->
  exists dk, desk_life (Desk m []) hs dk /\ ServerProps.open_for behind 18 8 0 c dk.
Proof.
  induction 1 as [again s ct h c Hs|again s ct h c s' ct' hs c' Hs Hh _ IH]; intros m Hf Hok; cbn [concat] in *.
  - rewrite app_nil_r in *. destruct (session_run behind again s ct m h 0 c) as (dk & Hr & Ho); [by rewrite Nat.add_0_r|done|done|].
    exists dk. split; [by apply desk_now|done].
  - rewrite length_app in Hf. apply Forall_app in Hok as [Hok1 Hok2].
    destruct (session_run behind again s ct m h (length (concat hs)) c Hf Hs Hok1) as (d1 & Hr1 & Ho1).
    destruct (halted_found behind _ c _ s' ct' Ho1 Hh) as [Hf' Ht]. destruct (IH (stored d1) Hf' Hok2) as (dk & Hr2 & Ho2).
    exists dk. split; [by eapply desk_halt|done].
Qed.

(** C2: what was stored survives every restart. A data node starts on an empty
    directory and is halted and started again any number of times, with memory
    and a quiet system; a halt comes from a client that sends [power halt] while
    no query thread is at work (and none takes up a task before the process is
    gone), though other clients may be connected and tasks may wait in the pipes. In every session clients connect with requests as in
    C1, hang up and are too slow while all threads interleave. All of that looks
    like one desk with one map: each request takes effect on it at one moment
    before its answer, or never, when its client was gone, too slow or cut its
    head, or when the halt came first; nothing that was answered is lost, and the
    next process finds the map as the last one left it. *)
Theorem lifetime_linearizable behind s hs c :
  StorageRefine.pristine s 18 -> StorageThreads.free s = s -> lifetime behind false s ∅ hs c ->
  Forall (event_ok 18) (concat hs) -> Z.of_nat (length (concat hs)) <= 2 ^ 32 ->
  exists dk, desk_life (Desk ∅ []) hs dk /\
    (idle_threads c -> StorageRefine.represents (storage_of c) (stored dk)).
Proof.
  intros Hp Hf Hl Hok Hlen.
  destruct (lifetime_run behind false s ∅ hs c Hl ∅ (pristine_found s _ Hp Hf Hlen) Hok) as (dk & Hr & Ho).
  exists dk. split; [exact Hr|]. intros Hidle. by apply (ServerProps.idle_settled behind 18 8 ltac:(lia) 0 c dk Ho Hidle).
Qed.

End Lifetime.

(** ** Two sessions: the first is halted with three clients connected *)

Import MapDB.

Lemma ex_session again s ct m b ps e d : Datanode.boots e ps -> StorageRefine.opens (Datanode.ie_storage e) 18 again d ->
  healthy d -> contents d = ct -> found again s ct m b ->
  exists s', QueryProps.ready 18 (Z.of_nat b) s' m /\ StorageThreads.free s' = s' /\
    forall h c, runs (node_step Interleave.moves (fun _ => 0) 8) (node_start 8 s') h c ->
      session (DB := gmap (list Z) (list Z)) (fun _ => 0) again s ct h c.
Proof.
  intros Hb Ho Hh Hc [Hf Hfound]. destruct (Hfound (Datanode.ie_storage e) d Ho Hh Hc) as (s1 & Eo & Hr).
  destruct (Datanode.init_opened e ps s s1 Hb Eo) as (v & E & Hset & _).
  exists s1. split; [done|]. split; [exact (ServerProps.init_free e s v _ s1 Hf E)|].
  intros h c Hrun. exists e, ps, d, v, s1. do 5 (split; [done|]). cbv zeta. rewrite Hset. exact Hrun.
Qed.

Lemma ex_lifetime : exists h c, lifetime (fun _ => 0) false StorageProps.ex_pristine ∅ [ServerProps.ex_events; h] c /\
  Forall (event_ok 18) (ServerProps.ex_events ++ h) /\ length h = 7%nat /\ node_done c.
Proof.
  pose proof (pristine_found StorageProps.ex_pristine 11 (StorageProps.ex_pristine_ok 18) eq_refl ltac:(done)) as Hf1.
  destruct (ex_session false StorageProps.ex_pristine ∅ ∅ 11 Datanode.ex_pipes Datanode.ex_init ∅) as (s1 & Hr1 & Hf & Hs1);
    [by split|apply StorageProps.ex_opens|done|reflexivity|exact Hf1|].
  pose proof (Hs1 _ _ (ServerProps.ex_run 8 s1)) as Hses. set (c1 := ServerProps.ex_node 8 s1) in *.
  pose proof (ServerProps.ex_events_ok 18 ltac:(lia)) as Hok1.
  destruct (session_run (fun _ => 0) false StorageProps.ex_pristine ∅ ∅ ServerProps.ex_events 7 c1 Hf1 Hses Hok1) as (dk & _ & Ho).
  assert (Hidle : idle_threads c1) by (by apply Forall_replicate).
  destruct (ServerProps.idle_settled (fun _ => 0) 18 8 ltac:(lia) 7 c1 dk Ho Hidle) as [(Hrep & Hn & Hroom) _].
  destruct (AssignSafety.power_halt_run (stored dk) (turn_world 8 c1 []) 9 18 (Z.of_nat 7) Hrep Hn Hroom ltac:(done)) as (w & b & Ex & Hb & _).
  set (s2 := Datanode.ex_reborn (Assign.storage w)).
  assert (Hh : halted c1 s2 (contents (Bdb.dbp b))).
  { exists 8%nat, 9, w, b. split; [exact Hidle|]. split; [done|]. split; [exact Ex|]. split; [exact Hb|]. by repeat split. }
  destruct (halted_found (fun _ => 0) 7 c1 dk s2 (contents (Bdb.dbp b)) Ho Hh) as [Hf2 _].
  destruct (ex_session true s2 (contents (Bdb.dbp b)) (stored dk) 7 Datanode.ex_pipes (Datanode.ex_reinit (Bdb.dbp b)) (Bdb.dbp b)) as (s3 & Hr3 & Hf3 & Hs3);
    [by split|apply StorageRefine.reopen_opens|done|reflexivity|exact Hf2|].
  destruct (ServerProps.ex_answered 8 0 s3 (stored dk) Hr3 Hf3 ltac:(lia) ltac:(lia)) as (h & c & Hok & Hl & Hd & Hrun).
  exists h, c. split; [|by split; [apply Forall_app|]].
  eapply life_more; [exact Hses|exact Hh|]. by apply life_now, Hs3.
Qed.

Lemma lifetime_linearizable_witness : exists h (c : node (gmap (list Z) (list Z))) dk,
  lifetime (fun _ => 0) false StorageProps.ex_pristine ∅ [ServerProps.ex_events; h] c /\ length h = 7%nat /\ node_done c /\
  desk_life (Desk ∅ []) [ServerProps.ex_events; h] dk /\ StorageRefine.represents (storage_of c) (stored dk).
Proof.
  destruct ex_lifetime as (h & c & Hl & Hok & Hlen & Hd).
  assert (Hok' : Forall (event_ok 18) (concat [ServerProps.ex_events; h])) by (cbn [concat]; by rewrite app_nil_r).
  destruct (lifetime_linearizable (fun _ => 0) StorageProps.ex_pristine [ServerProps.ex_events; h] c (StorageProps.ex_pristine_ok 18) eq_refl Hl Hok'
    ltac:(cbn [concat]; rewrite !length_app, Hlen; cbn; lia)) as (dk & Hr & Hrep).
  exists h, c, dk. split; [exact Hl|]. split; [exact Hlen|]. split; [exact Hd|]. split; [exact Hr|exact (Hrep (proj2 (proj2 Hd)))].
Defined.

End Lifetime.
