(* ===== verification/Master.v ===== *)
(** The master node of [src/src/master_mirror.c]: its settings, its command
    line, the coroutine that reads a request, the loop that accepts. The file
    is unfinished: [execute_one_slave] is cut off in the middle of a statement,
    [fetch_result] and [sendback_result] do nothing. *)

From Stdlib Require Import ZArith Lia String.
From stdpp Require Import base numbers list gmap.
From S2P Require Import Prelude CString IndexTypes Slab Protocol Task Assign AssignProps AssignSafety Query Log.

Module Master.
Import Protocol.
Import CString (str, atoi, print_dec, strlen, wr).
Import IndexTypes (RET_FAILED).

(** ** Data *)

Definition MAX_SLAVE_CNT : Z := 4.
Definition MASTER_BIND_IP : Z := 0.
Definition MASTER_ACCEPT_PORT : Z := 6000.
Definition MASTER_READ_TIMEOUT : Z := 1000 * 60.
Definition MASTER_WRITE_TIMEOUT : Z := 1000 * 10.
Definition MASTER_LOG_PATH : list Z := str "./log/master.log".
Definition MASTER_MEMPOOL_SIZE : Z := 128 * 1024 * 1024.
(** The size of [slave_t.addr] and of the copy [parse_slave_info] works on. *)
Definition ADDR_SIZE : Z := 128.
Definition BUFSIZ : Z := 8192.

Inductive service_status_t := read_write | readonly.
Inductive mm_ret_t :=
  | RET_SUCC | RET_ADDR_ERROR | RET_IP_ERROR | RET_PORT_ERROR | RET_CONNECT_TIMEOUT | RET_CONNECT_REFUSED | RET_CONNECT_FAILED.

Record master_mirror_settings_s := Settings {
  bind_ip : Z;
  accept_port : Z;
  read_timeout : Z;
  write_timeout : Z;
  log_path : list Z
}.

(** [port] in network byte order; [addr] as a C string. *)
Record slave_t := Slave { slave_ip : Z; slave_port : Z; slave_addr : list Z }.
Definition zero_slave : slave_t := Slave 0 0 [].

(** The table has [MAX_SLAVE_CNT] slaves; the counters are not used. *)
Record master_mirror_runtime_vars_s := RuntimeVars {
  status : service_status_t;
  slave_cnt : Z;
  slaves : list slave_t
}.
Definition set_slave (v : master_mirror_runtime_vars_s) (i : Z) (s : slave_t) : master_mirror_runtime_vars_s :=
  RuntimeVars (status v) (slave_cnt v) (<[Z.to_nat i := s]> (slaves v)).
Definition set_slave_cnt (v : master_mirror_runtime_vars_s) (n : Z) : master_mirror_runtime_vars_s :=
  RuntimeVars (status v) n (slaves v).

(** [Exit]: the process prints a line and ends; [Overrun]: an access behind a
    table or a buffer; [Aborted]: an assertion fails. *)
Inductive outcome (A : Type) := Done (a : A) | Exit (line : string) | Overrun | Aborted.
Arguments Done {A}. Arguments Exit {A}. Arguments Overrun {A}. Arguments Aborted {A}.
Definition bind {A B} (m : outcome A) (k : A -> outcome B) : outcome B :=
  match m with Done a => k a | Exit l => Exit l | Overrun => Overrun | Aborted => Aborted end.
#[local] Notation "'let*' x := m 'in' k" := (bind m (fun x => k))
  (at level 10, x name, m at level 100, k at level 200).

(** ** The start *)

(** [init_vars], with what [log_open] found: the settings, the variables, the
    allocator and the descriptor of the log. *)
Definition init_vars (sb : Log.stat_ans) (opened : Z)
  : master_mirror_settings_s * master_mirror_runtime_vars_s * option Slab.slab_t * Z :=
  (Settings MASTER_BIND_IP MASTER_ACCEPT_PORT MASTER_READ_TIMEOUT MASTER_WRITE_TIMEOUT MASTER_LOG_PATH,
   RuntimeVars read_write 0 (replicate (Z.to_nat MAX_SLAVE_CNT) zero_slave),
   Slab.slab_init (Slab.Slab [] 0 0 (-1) (fun _ => 0)) MASTER_MEMPOOL_SIZE Slab.factor_1_125,
   (Log.log_open (-1) sb opened).1).

Definition colon : Z := 58.
(** [strchr(str, ':')]: what is before it and behind it. *)
Fixpoint split_colon (l : list Z) : option (list Z * list Z) :=
  match l with
  | [] => None
  | c :: l => if c =? colon then Some ([], l) else '(a, b) ← split_colon l; Some (c :: a, b)
  end.
(** A 16-bit number with its bytes swapped. *)
Definition htons (x : Z) : Z := let x := x mod 2 ^ 16 in (x mod 2 ^ 8) * 2 ^ 8 + x / 2 ^ 8.

Section Args.
(** The address a dotted quad stands for. *)
Context (inet_pton : list Z -> option Z).

(** [slave_ptr] is a slave of the table, or points behind it. *)
Definition parse_slave_info (s : list Z) (v : master_mirror_runtime_vars_s) (i : Z)
  : outcome (master_mirror_runtime_vars_s * Z) :=
  if BUFSIZ <=? Z.of_nat (length s) then Overrun
  else
    match split_colon s with
    | None => Done (v, -1)
    | Some (ip, port) =>
        match inet_pton ip with
        | None => Done (v, -1)
        | Some ip =>
            match slaves v !! Z.to_nat i with
            | None => Overrun
            | Some sl =>
                let v := set_slave v i (Slave ip (slave_port sl) (slave_addr sl)) in
                if atoi port <? 80 then Done (v, -1)
                else Done (set_slave v i (Slave ip (htons (atoi port)) (slave_addr sl)), 0)
            end
        end
    end.

(** The loop over [j]: the variables, and the arguments from the first refused
    one on. *)
Fixpoint slave_loop (args : list (list Z)) (v : master_mirror_runtime_vars_s)
  : outcome (master_mirror_runtime_vars_s * list (list Z)) :=
  match args with
  | [] => Done (v, [])
  | a :: rest =>
      let* r := parse_slave_info a v (slave_cnt v) in
      let '(v, ok) := r in
      if ok =? -1 then Done (v, args)
      else if MAX_SLAVE_CNT <=? slave_cnt v then Exit "too many slave"
      else if ADDR_SIZE <=? Z.of_nat (length a) then Overrun
      else
        match slaves v !! Z.to_nat (slave_cnt v) with
        | None => Overrun
        | Some sl =>
            let v := set_slave v (slave_cnt v) (Slave (slave_ip sl) (slave_port sl) a) in
            slave_loop rest (set_slave_cnt v (slave_cnt v + 1))
        end
  end.

(** The loop over [i], on the arguments left. *)
Fixpoint args_loop (fuel : nat) (args : list (list Z)) (v : master_mirror_runtime_vars_s)
  : option (outcome master_mirror_runtime_vars_s) :=
  match args with
  | [] => Some (Done v)
  | a :: rest =>
      match fuel with
      | O => None
      | S fuel =>
          if bool_decide (a = str "-s") then
            match slave_loop rest v with
            | Done (v, rest) => args_loop fuel rest v
            | Exit l => Some (Exit l)
            | Overrun => Some Overrun
            | Aborted => Some Aborted
            end
          else Some (Exit "arg error")
      end
  end.

(** The arguments behind the program's name; the lines printed. *)
Definition init_args (args : list (list Z)) (v : master_mirror_runtime_vars_s)
  : option (outcome (master_mirror_runtime_vars_s * (Z * list (list Z)))) :=
  o ← args_loop (length args) args v;
  Some (let* v := o in
        if slave_cnt v =? 0 then Exit "no slave provided"
        else Done (v, (slave_cnt v, slave_addr <$> take (Z.to_nat (slave_cnt v)) (slaves v)))).

End Args.

(** ** Slaves *)

Definition ECONNREFUSED : Z := 111.
Definition EWOULDBLOCK : Z := 11.
Definition execute_all_slaves : Z := 0.
(** [fd]: what the connection attempt returned, [crt_errno] after it; the byte
    streams of the arguments. Either the error, or what was sent, at the place
    where the code is cut off. *)
Definition execute_one_slave (fd crt_errno : Z) (streams : list (list Z)) : mm_ret_t + list Z :=
  if fd <? 0 then
    inl (if crt_errno =? ECONNREFUSED then RET_CONNECT_REFUSED
         else if crt_errno =? EWOULDBLOCK then RET_CONNECT_TIMEOUT
         else RET_CONNECT_FAILED)
  else inr (concat streams).

(** ** Requests *)

(** The answer of a read of one byte. *)
Inductive read_ans := Got (b : Z) | NotGot (nread crt_errno : Z).
(** The answer of the read of a body: the bytes that came, the count returned. *)
Record body_ans := BodyAns { body_bytes : list Z; body_nread : Z; body_errno : Z }.

(** What a coroutine leaves behind: what it sent, its line in the log (a
    warning's text, [None]: a notice), whether it freed a body, whether
    its socket is closed. *)
Record served := Served {
  request : query_request_s;
  sent : list Z;
  line : string * option (list Z);
  freed : bool;
  closed : bool
}.

Section Requests.
Context (strerror : Z -> list Z).

Definition warn_size : Z := 1024.
(** [snprintf(warn_log_mesg, ...)] and its assertions. *)
Definition warn (text : list Z) : outcome (list Z) :=
  if Z.of_nat (length text) <? warn_size then Done text else Aborted.
Definition read_failed (crt_errno : Z) : list Z :=
  str "read sock failed: " ++ print_dec crt_errno ++ str " - " ++ strerror crt_errno.
Definition body_failed (nread crt_errno : Z) : list Z :=
  str "read request body failed: nread = " ++ print_dec nread ++ str ", error = " ++ print_dec crt_errno ++ str " - " ++ strerror crt_errno.
Definition cmd_number (c : cmd_type_e) : Z :=
  match c with cmd_unknown => 0 | cmd_set => 1 | cmd_get => 2 | cmd_delete => 3 | cmd_sync => 4 | cmd_power => 5 end.
Definition parse_failed (c : cmd_type_e) : list Z := str "parse request failed, cmd type: " ++ print_dec (cmd_number c).

Definition fetch_result (request : query_request_s) : option unit := None.
Definition sendback_result (response : option unit) : list Z := [].
Definition sendback_error_mesg : list Z := Query.MC_ERR_STR.

(** The label [done]: the body is freed, the line is logged, the socket closed. *)
Definition finish (qr : query_request_s) (sent warn_log_mesg : list Z) : served :=
  Served qr sent (cmd_type_name (cmd_type qr), match warn_log_mesg with [] => None | _ => Some warn_log_mesg end)
    (negb (Query.is_null (data qr))) true.

(** The loop that reads the head byte by byte, from [i] on; [inl]: [goto done]
    with a warning. No answer left: the connection is closed. *)
Fixpoint recv_header (n : nat) (i : Z) (reads : list read_ans) (qr : query_request_s)
  : outcome (query_request_s * list Z + query_request_s) :=
  match n with
  | O => Done (inr qr)
  | S n =>
      match reads with
      | Got b :: reads =>
          match wr (query_head_buf qr) i b with
          | None => Overrun
          | Some buf =>
              let qr := set_head qr buf (query_head_buf_size qr) in
              match try_parse_memcached_string_head qr with
              | None => Overrun
              | Some None => recv_header n (i + 1) reads qr
              | Some (Some _) => Done (inr qr)
              end
          end
      | NotGot nread e :: _ => let* w := warn (read_failed e) in Done (inl (qr, w))
      | [] => let* w := warn (read_failed 0) in Done (inl (qr, w))
      end
  end.

(** A [set]: memory for the body and its line end ([alloc]), then the body. *)
Definition recv_body (alloc : bool) (body : body_ans) (qr : query_request_s)
  : outcome (query_request_s * list Z + query_request_s) :=
  let qr := set_data_size qr (u64 (data_size qr + 2)) in
  if alloc then
    let qr := set_data qr (Some (body_bytes body)) in
    if body_nread body =? i64 (data_size qr) then Done (inr qr)
    else let* w := warn (body_failed (body_nread body) (body_errno body)) in Done (inl (qr, w))
  else Aborted.

Definition handle_request (reads : list read_ans) (alloc : bool) (body : body_ans) : outcome served :=
  let* r := recv_header 512 0 reads (request_of []) in
  match r with
  | inl (qr, w) => Done (finish qr [] w)
  | inr qr =>
      match strlen (head_memory qr) 0 with
      | None => Overrun
      | Some n =>
          match parse_memcached_string_head (set_head qr (query_head_buf qr) n) with
          | None => Overrun
          | Some (qr, ret) =>
              if (ret =? RET_SUCCESS) && bool_decide (parse_status qr = ps_succ) then
                let* r := match cmd_type qr with cmd_set => recv_body alloc body qr | _ => Done (inr qr) end in
                match r with
                | inl (qr, w) => Done (finish qr [] w)
                | inr qr => Done (finish qr (sendback_result (fetch_result qr)) [])
                end
              else
                let* w := warn (parse_failed (cmd_type qr)) in
                Done (finish qr (sendback_error_mesg ++ sendback_result (fetch_result qr)) w)
          end
      end
  end.

End Requests.

(** ** Accepting *)

(** [socket], [bind] and [listen] (each with the number of its error), then the
    answers of [accept]: as long as there are any, the coroutines started and
    the warnings given; the socket stays open when the loop is not reached. *)
Record listening := Listening { l_socket : option Z; l_bind : option Z; l_listen : option Z }.
Inductive accept_result := NotListening (text : string) | Accepted (fds : list Z) (warnings : list Z).
Fixpoint accepting (answers : list (Z * Z)) : list Z * list Z :=
  match answers with
  | [] => ([], [])
  | (fd, e) :: answers =>
      let '(fds, ws) := accepting answers in
      if fd <? 0 then (fds, e :: ws) else (fd :: fds, ws)
  end.
Definition accept_loop (l : listening) (answers : list (Z * Z)) : accept_result :=
  match l_socket l with
  | Some _ => NotListening "socket() failed"
  | None =>
      match l_bind l with
      | Some _ => NotListening "bind port failed"
      | None =>
          match l_listen l with
          | Some _ => NotListening "listen() failed"
          | None => let '(fds, ws) := accepting answers in Accepted fds ws
          end
      end
  end.

(** [main]: the variables at the end, and the coroutines started. *)
Definition main (inet_pton : list Z -> option Z) (sb : Log.stat_ans) (opened : Z) (args : list (list Z))
    (coroutines : bool) (l : listening) (answers : list (Z * Z)) : option (outcome (master_mirror_runtime_vars_s * list Z)) :=
  let '(_, v, _, _) := init_vars sb opened in
  o ← init_args inet_pton args v;
  Some (let* r := o in
        if negb coroutines then Exit "init async_coro failed"
        else match accept_loop l answers with
             | NotListening _ => Exit "accept_loop() failed"
             | Accepted fds _ => Done (r.1, fds)
             end).

(** ** The command line *)

Section ArgsProps.
Context (inet_pton : list Z -> option Z).

(** What an argument [ip:port] stands for. *)
Definition slave_of (a : list Z) : option slave_t :=
  '(ip, port) ← split_colon a; ip ← inet_pton ip;
  if atoi port <? 80 then None else Some (Slave ip (htons (atoi port)) a).
Definition group (g : list (list Z)) : list (list Z) := str "-s" :: g.

(** The variables with these slaves. *)
Definition with_slaves (l : list slave_t) : master_mirror_runtime_vars_s :=
  RuntimeVars read_write (Z.of_nat (length l)) (l ++ replicate (4 - length l) zero_slave).

(** Arguments that are slaves, none too long. *)
Definition slave_args (g : list (list Z)) (l : list slave_t) : Prop :=
  Forall2 (fun a s => slave_of a = Some s /\ Z.of_nat (length a) < ADDR_SIZE) g l.

Lemma slave_of_split a s : slave_of a = Some s ->
  exists ip port n, split_colon a = Some (ip, port) /\ inet_pton ip = Some n /\ (atoi port <? 80) = false /\
    s = Slave n (htons (atoi port)) a.
Proof.
  unfold slave_of. intros ((ip & port) & E & H)%bind_Some. apply bind_Some in H as (n & En & H).
  destruct (atoi port <? 80) eqn:Ep; [done|]. injection H as <-. by exists ip, port, n.
Qed.

Lemma slave_loop_one a s l rest :
  slave_of a = Some s -> Z.of_nat (length a) < ADDR_SIZE -> (length l <= 4)%nat ->
  slave_loop inet_pton (a :: rest) (with_slaves l) =
  if (length l <? 4)%nat then slave_loop inet_pton rest (with_slaves (l ++ [s])) else Overrun.
Proof.
  intros (ip & port & n & E1 & E2 & Ep & ->)%slave_of_split Ha Hl. cbn [slave_loop].
  assert (Es : parse_slave_info inet_pton a (with_slaves l) (slave_cnt (with_slaves l)) =
    if (length l <? 4)%nat then
      Done (RuntimeVars read_write (Z.of_nat (length l)) (l ++ Slave n (htons (atoi port)) [] :: replicate (3 - length l) zero_slave), 0)
    else Overrun).
  { unfold parse_slave_info. rewrite (proj2 (Z.leb_gt _ _)) by (unfold ADDR_SIZE in Ha; unfold BUFSIZ; lia).
    rewrite E1, E2. cbn [with_slaves slave_cnt slaves status]. rewrite Nat2Z.id, lookup_app_r by lia. rewrite Nat.sub_diag.
    destruct (Nat.ltb_spec (length l) 4) as [Hlt|Hge].
    - replace (4 - length l)%nat with (S (3 - length l)) by lia. cbn [replicate lookup list_lookup]. rewrite Ep.
      unfold set_slave. cbn [status slave_cnt slaves slave_port slave_addr zero_slave].
      unfold with_slaves. cbn [status slave_cnt slaves]. rewrite Nat2Z.id, list_insert_insert_eq.
      replace (4 - length l)%nat with (S (3 - length l)) by lia. by rewrite insert_app_r_alt, Nat.sub_diag by lia.
    - by replace (4 - length l)%nat with 0%nat by lia. }
  rewrite Es. destruct (Nat.ltb_spec (length l) 4) as [Hlt|Hge]; [|done]. cbn [bind slave_cnt Z.eqb].
  rewrite (proj2 (Z.leb_gt MAX_SLAVE_CNT _)) by (unfold MAX_SLAVE_CNT; lia). rewrite (proj2 (Z.leb_gt _ _)) by done.
  cbn [slaves]. rewrite Nat2Z.id, list_lookup_middle by done. f_equal.
  unfold set_slave_cnt, set_slave, with_slaves. cbn [status slave_cnt slaves slave_ip slave_port].
  rewrite Nat2Z.id, insert_app_r_alt, Nat.sub_diag by lia. cbn [insert list_insert].
  rewrite length_app. cbn [length]. f_equal; [lia|]. rewrite <- app_assoc. cbn [app].
  by replace (4 - (length l + 1))%nat with (3 - length l)%nat by lia.
Qed.

(** A group is read up to the next one, as long as the table has room. *)
Lemma slave_loop_group g l' l rest :
  slave_args g l' -> (length l <= 4)%nat -> rest = [] \/ (exists r, rest = str "-s" :: r) ->
  slave_loop inet_pton (g ++ rest) (with_slaves l) =
  if (length (l ++ l') <=? 4)%nat then Done (with_slaves (l ++ l'), rest) else Overrun.
Proof.
  intros Hg. revert l; induction Hg as [|a s g l' [Ha Hs] _ IH]; intros l Hl Hrest.
  - rewrite app_nil_r, (proj2 (Nat.leb_le _ _)) by done. by destruct Hrest as [->|(r & ->)].
  - cbn [app]. rewrite (slave_loop_one a s) by done. destruct (Nat.ltb_spec (length l) 4) as [Hlt|Hge].
    + rewrite IH; [by rewrite <- app_assoc|rewrite length_app; cbn; lia|done].
    + rewrite (proj2 (Nat.leb_gt _ _)); [done|]. rewrite length_app. cbn. lia.
Qed.

Lemma groups_head gs : concat (group <$> gs) = [] \/ exists r, concat (group <$> gs) = str "-s" :: r.
Proof. destruct gs; [by left|right]. cbn. by eexists. Qed.

Lemma args_loop_groups fuel gs ls l :
  Forall2 slave_args gs ls -> (length l <= 4)%nat -> (length gs <= fuel)%nat ->
  args_loop inet_pton fuel (concat (group <$> gs)) (with_slaves l) =
  Some (if (length (l ++ concat ls) <=? 4)%nat then Done (with_slaves (l ++ concat ls)) else Overrun).
Proof.
  intros Hg. revert fuel l; induction Hg as [|g l' gs ls Ha _ IH]; intros fuel l Hl Hf.
  - cbn. rewrite app_nil_r, (proj2 (Nat.leb_le _ _)) by done. by destruct fuel.
  - destruct fuel as [|fuel]; [cbn in Hf; lia|]. cbn [fmap list_fmap concat group app args_loop].
    rewrite bool_decide_eq_true_2 by done. rewrite (slave_loop_group g l') by (done || apply groups_head).
    destruct (Nat.leb_spec (length (l ++ l')) 4) as [Hle|Hgt].
    + rewrite IH; [by rewrite <- app_assoc|done|cbn in Hf; lia].
    + rewrite (proj2 (Nat.leb_gt _ _)); [done|]. rewrite app_assoc, length_app. lia.
Qed.

(** C30: for every command line of groups [-s ip:port ...] whose arguments are
    slaves shorter than 128 bytes, the slaves table holds exactly these slaves,
    in order, with the port in network order, and they are printed, when there
    are one to four of them; without any the process exits; a fifth is written
    behind the table before it is counted. *)
Theorem init_args_slaves sb opened gs ls :
  Forall2 slave_args gs ls ->
  init_args inet_pton (concat (group <$> gs)) (init_vars sb opened).1.1.2 =
  Some (if (length (concat ls) =? 0)%nat then Exit "no slave provided"
        else if (length (concat ls) <=? 4)%nat then
          Done (with_slaves (concat ls), (Z.of_nat (length (concat ls)), slave_addr <$> concat ls))
        else Overrun).
Proof.
  intros Hg. change (init_vars sb opened).1.1.2 with (with_slaves []). unfold init_args.
  rewrite (args_loop_groups _ gs ls []); [|done|cbn; lia|].
  2: { clear Hg. induction gs as [|g gs IH]; [done|]. cbn. rewrite length_app. lia. }
  cbn [mbind option_bind app]. destruct (Nat.leb_spec (length (concat ls)) 4) as [Hle|Hgt]; cbn [bind].
  - cbn [with_slaves slave_cnt slaves]. destruct (Nat.eqb_spec (length (concat ls)) 0) as [E|E].
    + by rewrite E.
    + rewrite (proj2 (Z.eqb_neq _ _)) by lia. by rewrite Nat2Z.id, take_app_length.
  - by rewrite (proj2 (Nat.eqb_neq _ _)) by lia.
Qed.

(** The program's first arguments are refused when they are no group. *)
Lemma init_args_refused a rest v : a <> str "-s" -> init_args inet_pton (a :: rest) v = Some (Exit "arg error").
Proof. intros Ha. unfold init_args. cbn [length args_loop]. by rewrite bool_decide_eq_false_2. Qed.

End ArgsProps.

(** A table of addresses for the examples. *)
Definition ex_pton (ip : list Z) : option Z :=
  if bool_decide (ip = str "10.0.0.1") then Some 16777226 else if bool_decide (ip = str "10.0.0.2") then Some 33554442 else None.

(** Port 65616 is taken as port 80: only its low 16 bits are stored. *)
Lemma init_args_slaves_witness :
  init_args ex_pton [str "-s"; str "10.0.0.1:6000"; str "-s"; str "10.0.0.2:65616"] (init_vars Log.Missing 3).1.1.2 =
  Some (Done (with_slaves [Slave 16777226 28695 (str "10.0.0.1:6000"); Slave 33554442 20480 (str "10.0.0.2:65616")],
    (2, [str "10.0.0.1:6000"; str "10.0.0.2:65616"]))).
Proof.
  apply (init_args_slaves ex_pton Log.Missing 3 [[str "10.0.0.1:6000"]; [str "10.0.0.2:65616"]]
    [[Slave 16777226 28695 (str "10.0.0.1:6000")]; [Slave 33554442 20480 (str "10.0.0.2:65616")]]).
  repeat constructor.
Defined.

(** ** Requests *)

(** The request after the first bytes of the connection. *)
Definition heard (l : list Z) : query_request_s :=
  QueryRequest (l ++ replicate (512 - length l) 0) 0 None 0 cmd_unknown ps_unknown 0 0 (replicate 251 0).

Lemma heard_more l b : (length l < 512)%nat ->
  wr (query_head_buf (heard l)) (Z.of_nat (length l)) b = Some (query_head_buf (heard (l ++ [b]))).
Proof.
  intros Hl. cbn [heard query_head_buf]. replace (512 - length l)%nat with (S (511 - length l)) by lia. cbn [replicate].
  rewrite CString.wr_app, <- app_assoc, length_app. cbn [app length]. by replace (512 - (length l + 1))%nat with (511 - length l)%nat by lia.
Qed.

Lemma heard_memory l : (length l <= 512)%nat -> exists rest, head_memory (heard l) = l ++ 0 :: rest.
Proof.
  intros Hl. unfold head_memory. cbn [heard query_head_buf query_head_buf_size]. change (le_split 8 0) with (replicate 8 0).
  rewrite <- app_assoc, <- replicate_add. replace (512 - length l + 8)%nat with (S (519 - length l)) by lia. by eexists.
Qed.

Lemma heard_length l : (length l <= 512)%nat -> Z.of_nat (length (query_head_buf (heard l))) = MAX_QUERY_HEADER_SIZE.
Proof. intros Hl. cbn [heard query_head_buf]. rewrite length_app, length_replicate. unfold MAX_QUERY_HEADER_SIZE. lia. Qed.

Lemma strstr_mem l i : 0 ∈ l -> exists o, CString.strstr_crlf l i = Some o.
Proof.
  intros (s & rest & -> & Hs)%AssignSafety.first_nul.
  destruct (AssignSafety.strstr_cases s i Hs rest) as [E|(line & more & _ & E)]; rewrite E; by eexists.
Qed.

Section RequestProps.
Context (strerror : Z -> list Z).

(** One byte of the head. *)
Lemma recv_byte n l b reads : (length l < 512)%nat ->
  recv_header strerror (S n) (Z.of_nat (length l)) (Got b :: reads) (heard l) =
  match try_parse_memcached_string_head (heard (l ++ [b])) with
  | None => Overrun
  | Some None => recv_header strerror n (Z.of_nat (length (l ++ [b]))) reads (heard (l ++ [b]))
  | Some (Some _) => Done (inr (heard (l ++ [b])))
  end.
Proof.
  intros Hl. cbn [recv_header]. rewrite heard_more by done. rewrite length_app, Nat2Z.inj_add. done.
Qed.

(** No CR and LF among the bytes yet. *)
Lemma recv_plain l l' n reads :
  AssignProps.plain (l ++ l') -> (length (l ++ l') <= 512)%nat ->
  recv_header strerror (length l' + n) (Z.of_nat (length l)) ((Got <$> l') ++ reads) (heard l) =
  recv_header strerror n (Z.of_nat (length (l ++ l'))) reads (heard (l ++ l')).
Proof.
  revert l; induction l' as [|b l' IH]; intros l Hp Hl; [by rewrite app_nil_r|].
  rewrite length_app in Hl. cbn [length] in Hl. cbn [fmap list_fmap app length Nat.add]. rewrite recv_byte by lia.
  replace (l ++ b :: l') with ((l ++ [b]) ++ l') in * by by rewrite <- app_assoc.
  destruct (heard_memory (l ++ [b])) as [rest Em]; [rewrite length_app; cbn; lia|].
  unfold try_parse_memcached_string_head. rewrite Em, AssignProps.strstr_none by by apply Forall_app in Hp as [].
  apply IH; [done|]. rewrite !length_app in *. cbn in *. lia.
Qed.

(** A head is read up to its line end, and no byte more. *)
Lemma recv_head line reads :
  AssignProps.plain line -> (length line <= 510)%nat ->
  recv_header strerror 512 0 ((Got <$> line ++ crlf) ++ reads) (request_of []) = Done (inr (heard (line ++ crlf))).
Proof.
  intros Hp Hl. change (request_of []) with (heard []). rewrite fmap_app, <- app_assoc.
  replace 512%nat with (length line + S (S (510 - length line)))%nat at 1 by lia.
  rewrite (recv_plain [] line) by (done || (cbn; lia)).
  cbn [app]. change ((Got <$> crlf) ++ reads) with (Got CString.CR :: Got CString.LF :: reads).
  rewrite recv_byte by lia. destruct (heard_memory (line ++ [CString.CR])) as [rest Em]; [rewrite length_app; cbn; lia|].
  unfold try_parse_memcached_string_head at 1. rewrite Em, <- app_assoc. cbn [app]. rewrite AssignProps.strstr_cr by done.
  rewrite recv_byte by (rewrite length_app; cbn; lia).
  destruct (heard_memory ((line ++ [CString.CR]) ++ [CString.LF])) as [rest' Em']; [rewrite !length_app; cbn; lia|].
  unfold try_parse_memcached_string_head. rewrite Em', <- !app_assoc. cbn [app].
  change (line ++ CString.CR :: CString.LF :: 0 :: rest') with (line ++ crlf ++ 0 :: rest').
  by rewrite AssignProps.strstr_line by done.
Qed.

(** Whatever the bytes, the head stays in its buffer. *)
Lemma recv_safe n l reads :
  (forall e, Z.of_nat (length (read_failed strerror e)) < warn_size) -> (length l + n = 512)%nat ->
  (exists w, recv_header strerror n (Z.of_nat (length l)) reads (heard l) = Done (inl (heard w.1, w.2)) /\ (length w.1 <= 512)%nat /\ w.2 <> []) \/
  (exists l', recv_header strerror n (Z.of_nat (length l)) reads (heard l) = Done (inr (heard l')) /\ (length l' <= 512)%nat).
Proof.
  intros He. revert l reads; induction n as [|n IH]; intros l reads Hl; [right; exists l; split; [done|lia]|].
  assert (Hw : forall e, (let* w := warn (read_failed strerror e) in Done (inl (heard l, w))) =
    Done (inl (heard l, read_failed strerror e)) :> outcome (query_request_s * list Z + query_request_s)).
  { intros e. unfold warn. by rewrite (proj2 (Z.ltb_lt _ _)) by apply He. }
  destruct reads as [|[b|nr e] reads].
  - left. exists (l, read_failed strerror 0). cbn [recv_header]. rewrite Hw. split; [done|]. split; [cbn; lia|done].
  - rewrite recv_byte by lia.
    destruct (heard_memory (l ++ [b])) as [rest Em]; [rewrite length_app; cbn; lia|].
    unfold try_parse_memcached_string_head. rewrite Em. destruct (strstr_mem ((l ++ [b]) ++ 0 :: rest) 0) as [[p|] E];
      [by apply elem_of_app; right; apply list_elem_of_here| |]; rewrite E.
    + right. exists (l ++ [b]). split; [done|]. rewrite length_app. cbn. lia.
    + apply IH. rewrite length_app. cbn. lia.
  - left. exists (l, read_failed strerror e). cbn [recv_header]. rewrite Hw. split; [done|]. split; [cbn; lia|done].
Qed.

End RequestProps.

Section HandlerProps.
Context (strerror : Z -> list Z).

(** Every text of the C library is short enough for the warning's buffer. *)
Definition short_errors : Prop := forall e, Z.of_nat (length (strerror e)) <= 900.

Lemma print_dec_short n : (length (print_dec n) <= 21)%nat.
Proof.
  unfold print_dec. destruct (n <? 0); cbn [length]; [pose proof (CString.dec_digits_length 20 (- n) [])|pose proof (CString.dec_digits_length 20 n [])];
    cbn [length] in *; lia.
Qed.

Lemma read_failed_short e : short_errors -> Z.of_nat (length (read_failed strerror e)) < warn_size.
Proof.
  intros He. unfold read_failed, warn_size. rewrite !length_app. pose proof (print_dec_short e). specialize (He e). cbn [length str] in *.
  change (length (str "read sock failed: ")) with 18%nat. change (length (str " - ")) with 3%nat. lia.
Qed.
Lemma body_failed_short n e : short_errors -> Z.of_nat (length (body_failed strerror n e)) < warn_size.
Proof.
  intros He. unfold body_failed, warn_size. rewrite !length_app. pose proof (print_dec_short e). pose proof (print_dec_short n). specialize (He e).
  change (length (str "read request body failed: nread = ")) with 34%nat. change (length (str " - ")) with 3%nat.
  change (length (str ", error = ")) with 10%nat. lia.
Qed.
Lemma warn_short text : Z.of_nat (length text) < warn_size -> warn text = Done text.
Proof. intros Ht. unfold warn. by rewrite (proj2 (Z.ltb_lt _ _)). Qed.

(** The bytes of the head up to a NUL fill at most the buffer. *)
Lemma strlen_heard l : (length l <= 512)%nat -> exists n, strlen (head_memory (heard l)) 0 = Some n.
Proof.
  intros Hl. destruct (heard_memory l Hl) as [rest Em]. rewrite Em.
  destruct (AssignSafety.first_nul (l ++ 0 :: rest)) as (s & r & -> & Hs); [by apply elem_of_app; right; apply list_elem_of_here|].
  exists (Z.of_nat (length s)). exact (CString.strlen_app [] s r Hs).
Qed.

(** What the label [done] frees: nothing without a body, and the body of a set. *)
Lemma finish_freed qr out w (P : Prop) : data qr = None -> ~ P ->
  (freed (finish qr out w) = true <-> is_Some (data (request (finish qr out w)))) /\ (freed (finish qr out w) = true <-> P).
Proof. intros Hd HP. cbn. rewrite Hd. split; (split; [done|]); [by intros []|by intros ?]. Qed.
Lemma finish_taken qr out w b : data qr = Some b -> parse_status qr = ps_succ -> cmd_type qr = cmd_set ->
  (freed (finish qr out w) = true <-> is_Some (data (request (finish qr out w)))) /\
  (freed (finish qr out w) = true <-> parse_status (request (finish qr out w)) = ps_succ /\
     cmd_type (request (finish qr out w)) = cmd_set /\ true = true).
Proof. intros Hd Hp Hc. cbn. rewrite Hd, Hp, Hc. split; (split; [|done]); [by eexists|done]. Qed.

(** C29: a coroutine of the master answers any sequence of bytes, failed reads
    and bodies, provided that every error text of the C library has at most 900
    bytes. It sends nothing, or ERROR to a head that is no request and with a
    warning in the log; it takes memory for a body exactly when the head is a
    set request, and frees it then and only then; it closes its socket and ends.
    The only assertion that can stop the process is the one on the memory for a
    body, when there is none. It touches nothing outside of the request's
    record: a head that fills its 512 bytes has no NUL, but the search for the
    line end and [strlen] then stop in the field behind it, which is still
    zero. *)
Theorem master_request_total reads alloc body :
  short_errors ->
  (exists s, handle_request strerror reads alloc body = Done s /\ closed s = true /\
     (parse_status (request s) = ps_failed /\ sent s = Query.MC_ERR_STR /\ is_Some (line s).2 \/
      parse_status (request s) <> ps_failed /\ sent s = []) /\
     (freed s = true <-> is_Some (data (request s))) /\
     (freed s = true <-> parse_status (request s) = ps_succ /\ cmd_type (request s) = cmd_set /\ alloc = true)) \/
  (handle_request strerror reads alloc body = Aborted /\ alloc = false).
Proof.
  intros He. unfold handle_request. change (request_of []) with (heard []).
  destruct (recv_safe strerror 512 [] reads (fun e => read_failed_short e He) eq_refl) as [(w & E & _ & _)|(l & E & Hl)].
  { change (Z.of_nat (length (@nil Z))) with 0 in E. rewrite E. left. cbn [bind]. eexists. split; [reflexivity|].
    split; [done|]. split; [by right|]. apply finish_freed; [done|by intros (? & _)]. }
  change (Z.of_nat (length (@nil Z))) with 0 in E. rewrite E. cbn [bind].
  destruct (strlen_heard l Hl) as [n En]. rewrite En.
  destruct (parser_run (set_head (heard l) (query_head_buf (heard l)) n)) as (qr & r & Ep & Hfr & Hres); [by apply heard_length|].
  rewrite Ep. pose proof (fr_data _ _ Hfr) as Hd. cbn [set_head heard data] in Hd.
  destruct Hres as [(-> & Es & _ & _)|(-> & Es)]; rewrite Es; cbn [andb Z.eqb RET_SUCCESS RET_PARSE_REQ_FAILED].
  - rewrite bool_decide_eq_true_2 by done. destruct (cmd_type qr) eqn:Ec.
    2: { unfold recv_body. destruct alloc; [left|right; by split].
      destruct (body_nread body =? _); cbn [bind]; rewrite ?warn_short by (by apply body_failed_short); cbn [bind];
        eexists; (split; [reflexivity|]); (split; [done|]); (split; [right; cbn; by rewrite Es|]); by eapply finish_taken. }
    all: left; cbn [bind]; eexists; (split; [reflexivity|]); (split; [done|]); (split; [right; cbn; by rewrite Es|]);
      apply finish_freed; [done|]; intros (_ & Ecs & _); cbn in Ecs; congruence.
  - rewrite warn_short by (destruct (cmd_type qr); by vm_compute). cbn [bind].
    left. eexists. split; [reflexivity|]. split; [done|]. split; [left; split; [done|]; split; [done|by eexists]|].
    apply finish_freed; [done|]. intros (Es2 & _); cbn in Es2; congruence.
Qed.

(** A set request sent to the master, head and body, is read completely:
    the coroutine holds key, flags, expiration time and the body with its line
    end, and logs SET as a notice; and the client is sent nothing, since
    nothing is stored or answered yet. *)
Theorem master_set_unanswered k f e d :
  AssignProps.key_word k -> - 2 ^ 31 <= f < 2 ^ 31 -> - 2 ^ 31 <= e < 2 ^ 31 -> Z.of_nat (length d) < 2 ^ 62 ->
  exists s, handle_request strerror (Got <$> AssignProps.set_line k f e (Z.of_nat (length d)) ++ crlf) true
      (BodyAns (d ++ crlf) (Z.of_nat (length (d ++ crlf))) 0) = Done s /\
    key_str (request s) = k /\ flag (request s) = f /\ exptime (request s) = e /\ data (request s) = Some (d ++ crlf) /\
    line s = ("SET"%string, None) /\ sent s = [] /\ freed s = true /\ closed s = true.
Proof.
  intros Hk Hf He Hd. destruct (AssignProps.set_line_plain k f e (Z.of_nat (length d)) Hk Hf He ltac:(lia)) as [Hp Hl].
  pose proof (AssignProps.key_word_token k Hk) as Ht. remember (AssignProps.set_line k f e (Z.of_nat (length d))) as ln eqn:Eln.
  unfold handle_request. pose proof (recv_head strerror ln [] Hp ltac:(lia)) as E. rewrite app_nil_r in E. rewrite E. cbn [bind].
  destruct (strlen_heard (ln ++ crlf)) as [n En]; [rewrite length_app; cbn; lia|]. rewrite En.
  assert (Hbuf : query_head_buf (heard (ln ++ crlf)) = (ln ++ crlf) ++ 0 :: replicate (511 - length (ln ++ crlf)) 0).
  { cbn [heard query_head_buf]. f_equal. rewrite length_app. cbn. by replace (512 - (length ln + 2))%nat with (S (511 - (length ln + 2))) by lia. }
  rewrite (parse_set_head _ k f e (Z.of_nat (length d)) (replicate (511 - length (ln ++ crlf)) 0)).
  - cbn [andb Z.eqb RET_SUCCESS parse_status set_cmd]. rewrite bool_decide_eq_true_2 by done.
    cbn [cmd_type set_cmd]. unfold recv_body. cbn [data_size set_data_size set_cmd body_nread set_data].
    rewrite (u64_small (Z.of_nat (length d))) by (unfold is_u64; lia). rewrite u64_small, i64_small by (unfold is_u64; lia).
    rewrite length_app, Nat2Z.inj_add, Z.eqb_refl. cbn [bind]. eexists. split; [reflexivity|].
    assert (Ek : default [] (CString.cstr (key_field k) 0) = k).
    { rewrite (key_field_str k (CString.token_nonzero _ Ht)). destruct Hk as (_ & Hlen & _). change (take 250 k = k). apply take_ge. lia. }
    split; [exact Ek|]. done.
  - cbn [set_head query_head_buf]. rewrite Hbuf, Eln. unfold AssignProps.set_line. do 8 (rewrite <- ?app_assoc; cbn [app]). reflexivity.
  - cbn [set_head query_head_buf]. apply heard_length. rewrite length_app. cbn. lia.
  - done.
  - by destruct Hk as (_ & ? & _).
  - done.
  - done.
  - lia.
Qed.

End HandlerProps.

Definition ex_strerror (e : Z) : list Z := str "some error".

Lemma master_request_total_witness :
  exists s, handle_request ex_strerror (Got <$> str "bogus" ++ crlf) false (BodyAns [] 0 0) = Done s /\ sent s = Query.MC_ERR_STR.
Proof.
  destruct (master_request_total ex_strerror (Got <$> str "bogus" ++ crlf) false (BodyAns [] 0 0)) as [(s & E & _)|[E _]].
  - intros e. vm_compute. discriminate.
  - exists s. split; [exact E|]. vm_compute in E. injection E as <-. vm_compute. reflexivity.
  - vm_compute in E. discriminate E.
Defined.

Lemma master_set_unanswered_witness :
  exists s, handle_request ex_strerror (Got <$> AssignProps.set_line (str "pic") 1 0 3 ++ crlf) true
      (BodyAns (str "abc" ++ crlf) 5 0) = Done s /\ sent s = [] /\ key_str (request s) = str "pic".
Proof.
  destruct (master_set_unanswered ex_strerror (str "pic") 1 0 (str "abc")) as (s & E & Ek & _ & _ & _ & _ & Es & _); try lia.
  - split; [discriminate|]. split; [vm_compute; discriminate|]. repeat constructor; vm_compute; discriminate.
  - vm_compute. reflexivity.
  - exists s. split; [exact E|]. split; [exact Es|exact Ek].
Defined.

End Master.
