(* ===== verification/Queue.v ===== *)
(** The singly-linked queues of [src/include/bsdqueue.h]: items in memory that
    hold the address of the next one, and heads with the address of the first
    item, the address of the last link and a count. The macros are translated
    as assignments to that memory; each queue is a list, and lists that share
    no item do not disturb each other. *)

From Stdlib Require Import ZArith Lia.
From stdpp Require Import base numbers list gmap.
From S2P Require Import Prelude.

Module Queue.

(** ** Memory *)

(** Addresses are integers, 0 is NULL. What [stqh_last] can point to: the
    [stqh_first] of a head, or the [stqe_next] of an item. *)
Inductive link := FirstOf (head : Z) | NextOf (item : Z).

Record head_t := Head { stqh_first : Z; stqh_last : link; lock : bool; size : Z }.

(** The [stqe_next] of every allocated item, and every allocated head. *)
Record mem := Mem { nexts : gmap Z Z; heads : gmap Z head_t }.

(** Accesses; [None] is an access through NULL or to memory that was freed. *)
Definition STAILQ_NEXT (m : mem) (i : Z) : option Z := nexts m !! i.
Definition set_next (m : mem) (i v : Z) : option mem :=
  if decide (is_Some (nexts m !! i)) then Some (Mem (<[i := v]> (nexts m)) (heads m)) else None.
Definition head (m : mem) (h : Z) : option head_t := heads m !! h.
Definition set_head (m : mem) (h : Z) (f : head_t -> head_t) : option mem :=
  hd ← heads m !! h; Some (Mem (nexts m) (<[h := f hd]> (heads m))).
Definition with_first (v : Z) (hd : head_t) : head_t := Head v (stqh_last hd) (lock hd) (size hd).
Definition with_last (l : link) (hd : head_t) : head_t := Head (stqh_first hd) l (lock hd) (size hd).
Definition with_size (n : Z) (hd : head_t) : head_t := Head (stqh_first hd) (stqh_last hd) (lock hd) n.
Definition with_lock (b : bool) (hd : head_t) : head_t := Head (stqh_first hd) (stqh_last hd) b (size hd).

(** [*l = v]. *)
Definition store (m : mem) (l : link) (v : Z) : option mem :=
  match l with FirstOf h => set_head m h (with_first v) | NextOf i => set_next m i v end.
(** [head->size += n] of an unsigned int. *)
Definition add_size (m : mem) (h n : Z) : option mem := set_head m h (fun hd => with_size (u32 (size hd + n)) hd).

(** ** The macros *)

Definition STAILQ_FIRST (m : mem) (h : Z) : option Z := hd ← head m h; Some (stqh_first hd).
Definition STAILQ_EMPTY (m : mem) (h : Z) : option bool := f ← STAILQ_FIRST m h; Some (f =? 0).
Definition STAILQ_INIT (m : mem) (h : Z) : option mem := set_head m h (fun _ => Head 0 (FirstOf h) false 0).

Definition STAILQ_CONCAT (m : mem) (h1 h2 : Z) : option mem :=
  e ← STAILQ_EMPTY m h2;
  if e : bool then Some m
  else
    hd1 ← head m h1; hd2 ← head m h2;
    m ← store m (stqh_last hd1) (stqh_first hd2);
    hd2 ← head m h2;
    m ← set_head m h1 (with_last (stqh_last hd2));
    hd2 ← head m h2;
    m ← add_size m h1 (size hd2);
    STAILQ_INIT m h2.

Definition STAILQ_INSERT_AFTER (m : mem) (h tqelm elm : Z) : option mem :=
  n ← STAILQ_NEXT m tqelm;
  m ← set_next m elm n;
  m ← (if n =? 0 then set_head m h (with_last (NextOf elm)) else Some m);
  m ← set_next m tqelm elm;
  add_size m h 1.

Definition STAILQ_INSERT_HEAD (m : mem) (h elm : Z) : option mem :=
  n ← STAILQ_FIRST m h;
  m ← set_next m elm n;
  m ← (if n =? 0 then set_head m h (with_last (NextOf elm)) else Some m);
  m ← set_head m h (with_first elm);
  add_size m h 1.

Definition STAILQ_INSERT_TAIL (m : mem) (h elm : Z) : option mem :=
  m ← set_next m elm 0;
  hd ← head m h;
  m ← store m (stqh_last hd) elm;
  m ← set_head m h (with_last (NextOf elm));
  add_size m h 1.

(** The item around the link [stqh_last]; the last link of a head is no item. *)
Definition STAILQ_LAST (m : mem) (h : Z) : option Z :=
  hd ← head m h;
  if stqh_first hd =? 0 then Some 0
  else match stqh_last hd with NextOf i => Some i | FirstOf _ => None end.

Definition STAILQ_REMOVE_HEAD (m : mem) (h : Z) : option mem :=
  f ← STAILQ_FIRST m h;
  n ← STAILQ_NEXT m f;
  m ← set_head m h (with_first n);
  m ← (if n =? 0 then set_head m h (with_last (FirstOf h)) else Some m);
  add_size m h (-1).

(** The loop [while (STAILQ_NEXT(curelm) != elm)]; every turn visits another
    item unless the links are a circle, so there are no more than items. *)
Fixpoint remove_loop (fuel : nat) (m : mem) (curelm elm : Z) : option Z :=
  match fuel with
  | O => None
  | S fuel =>
      n ← STAILQ_NEXT m curelm;
      if n =? elm then Some curelm else remove_loop fuel m n elm
  end.
Definition STAILQ_REMOVE (m : mem) (h elm : Z) : option mem :=
  f ← STAILQ_FIRST m h;
  if f =? elm then STAILQ_REMOVE_HEAD m h
  else
    curelm ← remove_loop (S (base.size (nexts m))) m f elm;
    n ← STAILQ_NEXT m curelm;
    n ← STAILQ_NEXT m n;
    m ← set_next m curelm n;
    m ← (if n =? 0 then set_head m h (with_last (NextOf curelm)) else Some m);
    add_size m h (-1).

(** The count is left as it is. *)
Definition STAILQ_REMOVE_HEAD_UNTIL (m : mem) (h elm : Z) : option mem :=
  n ← STAILQ_NEXT m elm;
  m ← set_head m h (with_first n);
  if n =? 0 then set_head m h (with_last (FirstOf h)) else Some m.

(** The items a [STAILQ_FOREACH] visits. *)
Fixpoint foreach_loop (fuel : nat) (m : mem) (var : Z) : option (list Z) :=
  if var =? 0 then Some []
  else match fuel with
       | O => None
       | S fuel => n ← STAILQ_NEXT m var; l ← foreach_loop fuel m n; Some (var :: l)
       end.
Definition STAILQ_FOREACH (m : mem) (h : Z) : option (list Z) :=
  f ← STAILQ_FIRST m h; foreach_loop (base.size (nexts m)) m f.

(** ** The interface *)

(** [list_new] with the address its allocation gave; NULL is written through. *)
Definition list_new (m : mem) (p : Z) (garbage : head_t) : option mem :=
  if p =? 0 then None else STAILQ_INIT (Mem (nexts m) (<[p := garbage]> (heads m))) p.
Definition list_item_new (m : mem) (p garbage : Z) : mem :=
  if p =? 0 then m else Mem (<[p := garbage]> (nexts m)) (heads m).
Definition mem_free (m : mem) (i : Z) : option mem :=
  if decide (is_Some (nexts m !! i)) then Some (Mem (delete i (nexts m)) (heads m)) else None.

(** The inner [None]: the caller waits. *)
Definition list_lock (m : mem) (h : Z) : option (option mem) :=
  hd ← head m h; if lock hd then Some None else Some <$> set_head m h (with_lock true).
Definition list_unlock (m : mem) (h : Z) : option mem := set_head m h (with_lock false).
Definition list_size (m : mem) (h : Z) : option Z := hd ← head m h; Some (size hd).

Definition list_push := STAILQ_INSERT_TAIL.
Definition list_unshift := STAILQ_INSERT_HEAD.
Definition list_insert := STAILQ_INSERT_AFTER.
Definition list_cat := STAILQ_CONCAT.
Definition list_remove := STAILQ_REMOVE.
Definition list_remove_head := STAILQ_REMOVE_HEAD.
Definition list_first := STAILQ_FIRST.
Definition list_last := STAILQ_LAST.
Definition list_foreach := STAILQ_FOREACH.

Definition list_shift (m : mem) (h : Z) : option (Z * mem) :=
  i ← list_first m h; m ← list_remove_head m h; Some (i, m).
Definition list_pop (m : mem) (h : Z) : option (Z * mem) :=
  i ← list_last m h; m ← list_remove m h i; Some (i, m).

(** [while (--m >= 0)]. *)
Fixpoint addr_loop (k : nat) (m : mem) (i : Z) : option Z :=
  match k with O => Some i | S k => n ← STAILQ_NEXT m i; addr_loop k m n end.
Definition list_addr (m : mem) (h n : Z) : option Z :=
  let k := i32 n in
  s ← list_size m h;
  if i32 s <=? k then Some 0 else f ← list_first m h; addr_loop (Z.to_nat k) m f.

Definition list_delete (m : mem) (h i : Z) : option mem := m ← list_remove m h i; mem_free m i.
Definition list_delete_head (m : mem) (h : Z) : option mem :=
  f ← list_first m h; m ← list_remove_head m h; mem_free m f.
Fixpoint clear_loop (fuel : nat) (m : mem) (h : Z) : option mem :=
  f ← list_first m h;
  if f =? 0 then Some m
  else match fuel with O => None | S fuel => m ← list_delete_head m h; clear_loop fuel m h end.
Definition list_clear (m : mem) (h : Z) : option mem := clear_loop (base.size (nexts m)) m h.
Definition list_destroy (m : mem) (h : Z) : option mem :=
  m ← list_clear m h; Some (Mem (nexts m) (delete h (heads m))).

(** ** Queues as lists *)

(** From [p], the links of the items [l] lead to [q]. *)
Fixpoint lseg (nx : gmap Z Z) (p : Z) (l : list Z) (q : Z) : Prop :=
  match l with
  | [] => p = q
  | x :: l => p = x /\ exists n, nx !! x = Some n /\ lseg nx n l q
  end.

Definition last_link (h : Z) (l : list Z) : link := match last l with Some x => NextOf x | None => FirstOf h end.

Record is_queue (m : mem) (h : Z) (l : list Z) : Prop := {
  iq_head : exists k, heads m !! h = Some (Head (default 0 (list.head l)) (last_link h l) k (u32 (Z.of_nat (length l))));
  iq_links : lseg (nexts m) (default 0 (list.head l)) l 0;
  iq_nodup : NoDup l;
  iq_null : 0 ∉ l
}.

Lemma lseg_app nx p l1 l2 q : lseg nx p (l1 ++ l2) q <-> exists r, lseg nx p l1 r /\ lseg nx r l2 q.
Proof.
  revert p; induction l1 as [|x l1 IH]; intros p; cbn.
  - split; [intros Hl; by exists p|by intros (r & -> & Hl)].
  - split.
    + intros (-> & n & Hn & Hl). apply IH in Hl as (r & H1 & H2). exists r. eauto.
    + intros (r & (-> & n & Hn & H1) & H2). split; [done|]. exists n. split; [done|]. apply IH. eauto.
Qed.

Lemma lseg_frame nx nx' p l q : (forall x, x ∈ l -> nx' !! x = nx !! x) -> lseg nx p l q -> lseg nx' p l q.
Proof.
  revert p; induction l as [|x l IH]; intros p Hf Hl; [done|]. destruct Hl as (-> & n & Hn & Hl).
  split; [done|]. exists n. rewrite Hf by apply list_elem_of_here. split; [done|].
  apply IH; [|done]. intros y Hy. apply Hf. by apply list_elem_of_further.
Qed.

Lemma lseg_insert nx p l q i v : i ∉ l -> lseg nx p l q -> lseg (<[i := v]> nx) p l q.
Proof. intros Hi. apply lseg_frame. intros x Hx. apply lookup_insert_ne. intros ->. done. Qed.

(** A queue is kept by whatever does not touch its items and its head. *)
Lemma is_queue_frame m m' h l :
  (forall x, x ∈ l -> nexts m' !! x = nexts m !! x) -> heads m' !! h = heads m !! h -> is_queue m h l -> is_queue m' h l.
Proof.
  intros Hn Hh [Hhd Hl Hnd H0]. split; [by rewrite Hh|by apply (lseg_frame (nexts m))|done|done].
Qed.


(** ** What each macro does to a list *)

(** Only the heads [H] and the links of [I] differ. *)
Record touches (m m' : mem) (H I : list Z) : Prop := {
  to_links : forall x, x ∉ I -> nexts m' !! x = nexts m !! x;
  to_items : forall x, is_Some (nexts m' !! x) <-> is_Some (nexts m !! x);
  to_heads : forall h, h ∉ H -> heads m' !! h = heads m !! h
}.

Lemma head_run m h hd : heads m !! h = Some hd -> head m h = Some hd.
Proof. done. Qed.
Lemma set_head_run m h hd f : heads m !! h = Some hd -> set_head m h f = Some (Mem (nexts m) (<[h := f hd]> (heads m))).
Proof. intros E. unfold set_head. by rewrite E. Qed.
Lemma set_next_run m i v : is_Some (nexts m !! i) -> set_next m i v = Some (Mem (<[i := v]> (nexts m)) (heads m)).
Proof. intros Hi. unfold set_next. by rewrite decide_True. Qed.
Lemma add_size_run m h hd n : heads m !! h = Some hd ->
  add_size m h n = Some (Mem (nexts m) (<[h := with_size (u32 (size hd + n)) hd]> (heads m))).
Proof. intros E. unfold add_size. by rewrite (set_head_run m h hd). Qed.

Lemma u32_add a b : u32 (u32 a + b) = u32 (a + b).
Proof. unfold u32. apply Zplus_mod_idemp_l. Qed.
Lemma u32_add_r a b : u32 (a + u32 b) = u32 (a + b).
Proof. unfold u32. apply Zplus_mod_idemp_r. Qed.
Lemma u32_succ a n : a + 1 = Z.of_nat n -> u32 (u32 a + 1) = u32 (Z.of_nat n).
Proof. intros <-. apply u32_add. Qed.

Lemma lseg_last nx p l x q : lseg nx p (l ++ [x]) q -> nx !! x = Some q.
Proof. intros (r & _ & Hl)%lseg_app. destruct Hl as (_ & n & Hn & Hq). cbn in Hq. by subst n. Qed.

(** Every item of a queue is allocated. *)
Lemma lseg_items nx p l q x : lseg nx p l q -> x ∈ l -> is_Some (nx !! x).
Proof.
  revert p; induction l as [|y l IH]; intros p Hl Hx; [by apply elem_of_nil in Hx|].
  destruct Hl as (-> & n & Hn & Hl). apply elem_of_cons in Hx as [->|Hx]; [by exists n|by apply (IH n)].
Qed.

Lemma insert_items {A} (nx : gmap Z A) i v x : is_Some (nx !! i) -> is_Some (<[i := v]> nx !! x) <-> is_Some (nx !! x).
Proof. intros Hi. destruct (decide (x = i)) as [->|Hne]; [rewrite lookup_insert_eq; split; eauto|by rewrite lookup_insert_ne]. Qed.

Lemma NoDup_snoc (l : list Z) i : NoDup (l ++ [i]) <-> NoDup l /\ (i ∉ l).
Proof.
  rewrite NoDup_app. split.
  - intros (Hl & Hd & _). split; [done|]. intros Hi. apply (Hd i Hi). by apply list_elem_of_singleton.
  - intros [Hl Hi]. split; [done|]. split; [|apply NoDup_singleton]. intros x Hx Hx'. apply list_elem_of_singleton in Hx' as ->. done.
Qed.

Ltac mem_look := repeat first [rewrite lookup_insert_eq | rewrite lookup_insert_ne by done].
(** Runs the assignments of a macro on known memory. *)
Ltac mem_step :=
  cbn [mbind option_bind store nexts heads stqh_first stqh_last lock size with_first with_last with_size with_lock];
  first
  [ rewrite set_next_run by (cbn [nexts]; rewrite ?insert_items by assumption; assumption)
  | erewrite set_head_run by (cbn [heads]; mem_look; first [reflexivity|eassumption])
  | erewrite add_size_run by (cbn [heads]; mem_look; first [reflexivity|eassumption])
  | erewrite head_run by (cbn [heads]; mem_look; first [reflexivity|eassumption]) ].
Ltac mem_run := repeat mem_step; cbn [mbind option_bind store nexts heads stqh_first stqh_last lock size with_first with_last with_size with_lock].

Lemma head_app (l l' : list Z) x : default 0 (list.head ((l ++ [x]) ++ l')) = default 0 (list.head (l ++ [x])).
Proof. by destruct l. Qed.
Lemma last_link_snoc h l x : last_link h (l ++ [x]) = NextOf x.
Proof. unfold last_link. by rewrite last_snoc. Qed.

Lemma touches_one m h i nx hd :
  (forall x, x ∉ i -> nx !! x = nexts m !! x) -> (forall x, is_Some (nx !! x) <-> is_Some (nexts m !! x)) ->
  touches m (Mem nx (<[h := hd]> (heads m))) [h] i.
Proof.
  intros Hx Hd. split; [done|done|]. intros h' Hh. cbn. apply lookup_insert_ne. intros ->. apply Hh. by apply list_elem_of_singleton.
Qed.

Lemma push_spec m h l i :
  is_queue m h l -> is_Some (nexts m !! i) -> i ∉ l -> i <> 0 ->
  exists m', list_push m h i = Some m' /\ is_queue m' h (l ++ [i]) /\ touches m m' [h] (i :: l).
Proof.
  intros [[k Hhd] Hl Hnd H0] Hi Hil Hi0. unfold list_push, STAILQ_INSERT_TAIL.
  assert (Hnd' : NoDup (l ++ [i]) /\ (0 ∉ l ++ [i])).
  { split; [by apply NoDup_snoc|]. rewrite elem_of_app, list_elem_of_singleton. by intros [|]. }
  destruct Hnd' as [Hnd' H0']. destruct l as [|x l _] using rev_ind.
  - cbn in Hhd. change (last_link h []) with (FirstOf h) in *. mem_run. rewrite !insert_insert_eq.
    eexists. split; [reflexivity|]. split; [split; cbn; try done|].
    + exists k. by rewrite lookup_insert_eq.
    + split; [done|]. exists 0. by rewrite lookup_insert_eq.
    + apply touches_one; [|intros x; by apply insert_items]. intros x Hx. apply lookup_insert_ne. set_solver +Hx.
  - rewrite last_link_snoc in Hhd. pose proof (lseg_last _ _ _ _ _ Hl) as Hx.
    assert (Hxi : x <> i) by set_solver +Hil. assert (Hxs : is_Some (nexts m !! x)) by eauto.
    mem_run. rewrite !insert_insert_eq.
    eexists. split; [reflexivity|]. split; [split; cbn; try done|].
    + exists k. rewrite lookup_insert_eq, head_app, last_link_snoc, u32_add, !length_app. unfold with_size, with_last. cbn. do 3 f_equal. lia.
    + rewrite head_app. apply lseg_app. exists i. split.
      * apply lseg_app in Hl as (r & H1 & -> & n & Hn & H2). apply lseg_app. exists x.
        apply NoDup_snoc in Hnd as [_ Hxl]. split; [apply lseg_insert; [done|apply lseg_insert; [set_solver +Hil|done]]|].
        split; [done|]. exists i. by rewrite lookup_insert_eq.
      * split; [done|]. exists 0. by rewrite lookup_insert_ne, lookup_insert_eq.
    + apply touches_one; [|intros y; rewrite !insert_items; try done; by apply insert_items].
      intros y Hy. rewrite !lookup_insert_ne; set_solver +Hy.
Qed.

Lemma lseg_head nx p l q : lseg nx p l q -> p = default q (list.head l).
Proof. destruct l; [done|by intros [-> _]]. Qed.

(** The address of the first item is NULL only for the empty list. *)
Lemma head_zero l : 0 ∉ l -> (default 0 (list.head l) =? 0) = match l with [] => true | _ => false end.
Proof. destruct l as [|x l]; [done|]. intros H0. apply Z.eqb_neq. set_solver +H0. Qed.

Lemma last_link_cons h x y l : last_link h (x :: y :: l) = last_link h (y :: l).
Proof. done. Qed.
Lemma last_link_app h l1 x l2 : last_link h (l1 ++ x :: l2) = last_link h (x :: l2).
Proof. unfold last_link. rewrite last_app. cbn. by destruct l2 as [|y l2]; [|rewrite last_cons; destruct (last (y :: l2))]. Qed.

Ltac size_eq := unfold with_size, with_last, with_first; cbn; rewrite ?u32_add, ?u32_add_r; do 3 f_equal; rewrite ?length_app; cbn; lia.
Ltac touched := apply touches_one;
  [ let y := fresh "y" in let Hy := fresh "Hy" in intros y Hy; rewrite ?lookup_insert_ne by set_solver +Hy; done
  | let y := fresh "y" in intros y; rewrite ?insert_items; try done; by apply insert_items].

Lemma unshift_spec m h l i :
  is_queue m h l -> is_Some (nexts m !! i) -> i ∉ l -> i <> 0 ->
  exists m', list_unshift m h i = Some m' /\ is_queue m' h (i :: l) /\ touches m m' [h] (i :: l).
Proof.
  intros [[k Hhd] Hl Hnd H0] Hi Hil Hi0. unfold list_unshift, STAILQ_INSERT_HEAD, STAILQ_FIRST. mem_run.
  assert (Hlinks : lseg (<[i := default 0 (list.head l)]> (nexts m)) i (i :: l) 0).
  { split; [done|]. exists (default 0 (list.head l)). rewrite lookup_insert_eq. split; [done|by apply lseg_insert]. }
  rewrite head_zero by done. destruct l as [|x l]; mem_run; rewrite !insert_insert_eq;
    (eexists; split; [reflexivity|]; split; [split; [|exact Hlinks|by constructor|set_solver +H0 Hi0]|touched]);
    exists k; cbn [heads]; rewrite lookup_insert_eq; size_eq.
Qed.

Lemma insert_spec m h l1 pos l2 i :
  is_queue m h (l1 ++ pos :: l2) -> is_Some (nexts m !! i) -> i ∉ l1 ++ pos :: l2 -> i <> 0 ->
  exists m', list_insert m h pos i = Some m' /\ is_queue m' h (l1 ++ pos :: i :: l2) /\
    touches m m' [h] (i :: l1 ++ pos :: l2).
Proof.
  intros [[k Hhd] Hl Hnd H0] Hi Hil Hi0. unfold list_insert, STAILQ_INSERT_AFTER, STAILQ_NEXT.
  pose proof Hl as (r & Hl1 & -> & n & Hn & Hl2)%lseg_app.
  pose proof (lseg_head _ _ _ _ Hl2) as En. assert (Hps : is_Some (nexts m !! pos)) by eauto.
  rewrite Hn. cbn [mbind option_bind].
  assert (Hnd' : NoDup (l1 ++ pos :: i :: l2)).
  { apply NoDup_app in Hnd as (Hd1 & Hd2 & Hd3). apply NoDup_cons in Hd3 as [Hd3 Hd4].
    apply NoDup_app. split; [done|]. split; [intros y Hy; specialize (Hd2 y Hy); set_solver +Hil Hy Hd2|].
    apply NoDup_cons. split; [set_solver +Hil Hd3|]. apply NoDup_cons. split; [set_solver +Hil|done]. }
  assert (Hlinks : lseg (<[pos := i]> (<[i := n]> (nexts m))) (default 0 (list.head (l1 ++ pos :: l2))) (l1 ++ pos :: i :: l2) 0).
  { apply lseg_app. exists pos. split; [by repeat (apply lseg_insert; [apply NoDup_app in Hnd as (_ & Hd & _); set_solver +Hil Hd|])|].
    split; [done|]. exists i. rewrite lookup_insert_eq. split; [done|]. split; [done|]. exists n.
    rewrite lookup_insert_ne, lookup_insert_eq by set_solver +Hil. split; [done|].
    apply NoDup_app in Hnd as (_ & _ & [Hd _]%NoDup_cons). apply lseg_insert; [done|apply lseg_insert; [set_solver +Hil|done]]. }
  assert (Ehead : default 0 (list.head (l1 ++ pos :: i :: l2)) = default 0 (list.head (l1 ++ pos :: l2))) by (by destruct l1).
  rewrite <- Ehead in Hlinks. subst n.
  mem_run. rewrite head_zero by set_solver +H0. destruct l2 as [|x l2]; mem_run; rewrite ?insert_insert_eq;
    (eexists; split; [reflexivity|]; split; [split; [|exact Hlinks|done|set_solver +H0 Hi0]|touched]);
    exists k; cbn [heads]; rewrite lookup_insert_eq, Ehead, ?last_link_app, ?last_link_cons; size_eq.
Qed.

Lemma remove_head_spec m h x l :
  is_queue m h (x :: l) ->
  exists m', list_remove_head m h = Some m' /\ is_queue m' h l /\ touches m m' [h] [].
Proof.
  intros [[k Hhd] Hl Hnd H0]. unfold list_remove_head, STAILQ_REMOVE_HEAD, STAILQ_FIRST, STAILQ_NEXT.
  pose proof Hl as (_ & n & Hn & Hl2). pose proof (lseg_head _ _ _ _ Hl2) as En. subst n.
  mem_run. cbn [default list.head from_option id] in *. rewrite Hn. mem_run. rewrite head_zero by set_solver +H0.
  apply NoDup_cons in Hnd as [_ Hnd].
  destruct l as [|y l]; mem_run; rewrite !insert_insert_eq;
    (eexists; split; [reflexivity|]; split; [split; [|exact Hl2|done|set_solver +H0]|touched]);
    exists k; cbn [heads]; rewrite lookup_insert_eq; size_eq.
Qed.

(** The items of a queue are not more than the allocated ones. *)
Lemma queue_length m h l : is_queue m h l -> (length l <= base.size (nexts m))%nat.
Proof.
  intros [_ Hl Hnd _]. rewrite <- (size_list_to_set (C := gset Z) l Hnd), <- size_dom. apply subseteq_size.
  intros x Hx%elem_of_list_to_set. apply elem_of_dom. by apply (lseg_items _ _ _ _ _ Hl).
Qed.

(** The loop stops at the item before [i]. *)
Lemma remove_loop_run m p l0 c i l2 fuel :
  lseg (nexts m) p (l0 ++ c :: i :: l2) 0 -> i ∉ l0 -> i <> c -> (length l0 < fuel)%nat ->
  remove_loop fuel m p i = Some c.
Proof.
  revert p fuel; induction l0 as [|x l0 IH]; intros p fuel Hl Hi Hc Hf; (destruct fuel as [|fuel]; [cbn in Hf; lia|]);
    cbn [app] in Hl; destruct Hl as (-> & n & Hn & Hl); cbn [remove_loop]; unfold STAILQ_NEXT; rewrite Hn; cbn [mbind option_bind].
  - destruct Hl as (-> & _). by rewrite Z.eqb_refl.
  - assert (Hne : n <> i) by (destruct l0; destruct Hl as (-> & _); set_solver +Hi Hc).
    rewrite (proj2 (Z.eqb_neq _ _)) by done. apply IH; [done|set_solver +Hi|done|cbn in Hf; lia].
Qed.

Lemma remove_spec m h l1 i l2 :
  is_queue m h (l1 ++ i :: l2) ->
  exists m', list_remove m h i = Some m' /\ is_queue m' h (l1 ++ l2) /\ touches m m' [h] (l1 ++ l2).
Proof.
  intros Hq. pose proof Hq as [[k Hhd] Hl Hnd H0]. unfold list_remove, STAILQ_REMOVE, STAILQ_FIRST. mem_run.
  destruct l1 as [|c l0 _] using rev_ind.
  { cbn [app list.head default from_option id]. rewrite Z.eqb_refl.
    destruct (remove_head_spec m h i l2 Hq) as (m' & E & Hq' & [H1 H2 H3]). exists m'. split; [exact E|].
    split; [exact Hq'|]. split; [|done|done]. intros x _. apply H1. set_solver +. }
  assert (Hi : (i ∉ l0) /\ i <> c /\ (i ∉ l2) /\ (c ∉ l0) /\ (c ∉ l2) /\ NoDup ((l0 ++ [c]) ++ l2)).
  { apply NoDup_app in Hnd as (Hd1 & Hd2 & [Hd3 Hd4]%NoDup_cons). pose proof Hd1 as [Hd5 Hd6]%NoDup_snoc.
    split; [intros Hx; apply (Hd2 i); set_solver +Hx|]. split; [intros ->; apply (Hd2 c); set_solver +|].
    split; [done|]. split; [done|]. split; [intros Hx; apply (Hd2 c); set_solver +Hx|].
    apply NoDup_app. split; [done|]. split; [|done]. intros x Hx Hx'. apply (Hd2 x Hx). by apply list_elem_of_further. }
  destruct Hi as (Hi0 & Hic & Hi2 & Hc0 & Hc2 & Hnd').
  rewrite <- app_assoc in Hl. cbn [app] in Hl.
  assert (Ef : (default 0 (list.head ((l0 ++ [c]) ++ i :: l2)) =? i) = false).
  { apply Z.eqb_neq. destruct l0; cbn; set_solver +Hi0 Hic. }
  rewrite Ef. pose proof (queue_length _ _ _ Hq) as Hlen. rewrite !length_app in Hlen. cbn in Hlen.
  rewrite <- app_assoc in Hhd |- *. cbn [app] in Hhd |- *.
  rewrite (remove_loop_run m _ l0 c i l2) by (done || lia). cbn [mbind option_bind].
  pose proof Hl as (r & Hl0 & -> & ni & Hnc & -> & n & Hni & Hl2)%lseg_app.
  pose proof (lseg_head _ _ _ _ Hl2) as En. subst n. unfold STAILQ_NEXT. rewrite Hnc. cbn [mbind option_bind]. rewrite Hni. cbn [mbind option_bind].
  assert (Hcs : is_Some (nexts m !! c)) by eauto.
  assert (Hlinks : lseg (<[c := default 0 (list.head l2)]> (nexts m)) (default 0 (list.head (l0 ++ c :: l2))) (l0 ++ c :: l2) 0).
  { replace (default 0 (list.head (l0 ++ c :: l2))) with (default 0 (list.head (l0 ++ c :: i :: l2))) by (by destruct l0).
    apply lseg_app. exists c. split; [by apply lseg_insert|]. split; [done|]. eexists. rewrite lookup_insert_eq.
    split; [done|by apply lseg_insert]. }
  assert (Hsub : l0 ++ c :: l2 = (l0 ++ [c]) ++ l2) by (by rewrite <- app_assoc). rewrite <- Hsub in *.
  mem_run. rewrite head_zero by set_solver +H0. destruct l2 as [|x l2]; mem_run; rewrite ?insert_insert_eq;
    (eexists; split; [reflexivity|]; split; [split; [|exact Hlinks|done|set_solver +H0]|touched]);
    exists k; cbn [heads]; rewrite lookup_insert_eq, ?last_link_app, ?last_link_cons; destruct l0; size_eq.
Qed.

Lemma last_spec m h l x : is_queue m h (l ++ [x]) -> list_last m h = Some x.
Proof.
  intros [[k Hhd] _ _ H0]. unfold list_last, STAILQ_LAST. mem_run.
  rewrite head_zero, last_link_snoc by done. by destruct l.
Qed.

Lemma pop_spec m h l x :
  is_queue m h (l ++ [x]) ->
  exists m', list_pop m h = Some (x, m') /\ is_queue m' h l /\ touches m m' [h] l.
Proof.
  intros Hq. unfold list_pop. rewrite (last_spec m h l x Hq). cbn [mbind option_bind].
  destruct (remove_spec m h l x [] Hq) as (m' & E & Hq' & Ht). rewrite E, app_nil_r in *. by exists m'.
Qed.

Lemma shift_spec m h x l :
  is_queue m h (x :: l) -> exists m', list_shift m h = Some (x, m') /\ is_queue m' h l /\ touches m m' [h] [].
Proof.
  intros Hq. pose proof Hq as [[k Hhd] _ _ _]. unfold list_shift, list_first, STAILQ_FIRST. mem_run.
  destruct (remove_head_spec m h x l Hq) as (m' & E & Hq' & Ht). rewrite E. by exists m'.
Qed.

(** [list_pop] and [list_shift] of an empty queue follow NULL. *)
Lemma empty_spec m h : is_queue m h [] -> nexts m !! 0 = None -> list_pop m h = None /\ list_shift m h = None.
Proof.
  intros [[k Hhd] _ _ _] H0. unfold list_pop, list_shift, list_last, STAILQ_LAST, list_first, STAILQ_FIRST,
    list_remove, STAILQ_REMOVE, list_remove_head, STAILQ_REMOVE_HEAD, STAILQ_FIRST, STAILQ_NEXT. mem_run.
  cbn. by rewrite H0.
Qed.

Lemma cat_nodup (l1 l2 : list Z) : NoDup l1 -> NoDup l2 -> 0 ∉ l1 -> 0 ∉ l2 -> (forall x, x ∈ l1 -> x ∉ l2) ->
  NoDup (l1 ++ l2) /\ (0 ∉ l1 ++ l2).
Proof. intros H1 H2 H3 H4 Hd. split; [by apply NoDup_app|]. rewrite elem_of_app. by intros [|]. Qed.

Lemma touches_two m h1 h2 i nx hd1 hd2 :
  (forall x, x ∉ i -> nx !! x = nexts m !! x) -> (forall x, is_Some (nx !! x) <-> is_Some (nexts m !! x)) ->
  touches m (Mem nx (<[h2 := hd2]> (<[h1 := hd1]> (heads m)))) [h1; h2] i.
Proof. intros Hx Hd. split; [done|done|]. intros h' Hh. cbn. rewrite !lookup_insert_ne; set_solver +Hh. Qed.

Lemma last_link_here h h' x l : last_link h (x :: l) = last_link h' (x :: l).
Proof. unfold last_link. by rewrite last_cons; destruct (last l). Qed.

Lemma cat_spec m h1 h2 l1 l2 :
  h1 <> h2 -> is_queue m h1 l1 -> is_queue m h2 l2 -> (forall x, x ∈ l1 -> x ∉ l2) ->
  exists m', list_cat m h1 h2 = Some m' /\ is_queue m' h1 (l1 ++ l2) /\ is_queue m' h2 [] /\ touches m m' [h1; h2] l1.
Proof.
  intros Hh [[k1 Hh1] Hl1 Hnd1 H01] Hq2 Hdis. pose proof Hq2 as [[k2 Hh2] Hl2 Hnd2 H02].
  destruct (cat_nodup l1 l2) as [Hnd H0]; try done.
  unfold list_cat, STAILQ_CONCAT, STAILQ_EMPTY, STAILQ_FIRST. mem_run. rewrite head_zero by done.
  destruct l2 as [|y l2].
  { exists m. rewrite app_nil_r in *. do 3 (split; [by split; eauto|]). by split. }
  assert (Hne : h2 <> h1) by done.
  destruct l1 as [|x l1 _] using rev_ind.
  - change (last_link h1 []) with (FirstOf h1) in *. cbn [app] in *. mem_run. unfold STAILQ_INIT. mem_run. rewrite !insert_insert_eq.
    eexists. split; [reflexivity|]. split; [split; [|exact Hl2|done|done]|split; [split; [|done|by apply NoDup_nil|done]|]].
    + exists k1. cbn [heads]. mem_look. rewrite (last_link_here h2 h1). size_eq.
    + exists false. cbn [heads]. by mem_look.
    + by apply touches_two.
  - rewrite last_link_snoc in *. pose proof (lseg_last _ _ _ _ _ Hl1) as Hx.
    assert (Hxs : is_Some (nexts m !! x)) by eauto. mem_run. unfold STAILQ_INIT. mem_run. rewrite !insert_insert_eq.
    eexists. split; [reflexivity|]. split; [split; [| |done|done]|split; [split; [|done|by apply NoDup_nil|set_solver]|]].
    + exists k1. cbn [heads]. mem_look. rewrite head_app, <- app_assoc. cbn [app]. rewrite !last_link_app, last_link_cons, (last_link_here h2 h1). size_eq.
    + cbn [nexts]. rewrite head_app. apply lseg_app. exists y. 
      apply lseg_app in Hl1 as (r & H1 & -> & n & Hn & H2). apply NoDup_snoc in Hnd1 as [_ Hxl]. split.
      * apply lseg_app. exists x. split; [by apply lseg_insert|]. split; [done|]. exists y. by rewrite lookup_insert_eq.
      * apply lseg_insert; [|done]. apply Hdis. set_solver +.
    + exists false. cbn [heads]. by mem_look.
    + apply touches_two; [|intros z; by apply insert_items]. intros z Hz. apply lookup_insert_ne. set_solver +Hz.
Qed.

Lemma first_spec m h l : is_queue m h l -> list_first m h = Some (default 0 (list.head l)).
Proof. intros [[k Hhd] _ _ _]. unfold list_first, STAILQ_FIRST. by mem_run. Qed.

Lemma size_spec m h l : is_queue m h l -> list_size m h = Some (u32 (Z.of_nat (length l))).
Proof. intros [[k Hhd] _ _ _]. unfold list_size. by mem_run. Qed.

Lemma foreach_loop_run m p l fuel :
  lseg (nexts m) p l 0 -> 0 ∉ l -> (length l <= fuel)%nat -> foreach_loop fuel m p = Some l.
Proof.
  revert p fuel; induction l as [|x l IH]; intros p fuel Hl H0 Hf.
  - cbn in Hl. subst p. by destruct fuel.
  - destruct Hl as (-> & n & Hn & Hl). destruct fuel as [|fuel]; [cbn in Hf; lia|]. cbn [foreach_loop].
    assert (Hx : x <> 0) by set_solver +H0. rewrite (proj2 (Z.eqb_neq _ _)) by done.
    unfold STAILQ_NEXT. rewrite Hn. cbn [mbind option_bind]. rewrite IH; [done|done|set_solver +H0|cbn in Hf; lia].
Qed.

Lemma foreach_spec m h l : is_queue m h l -> list_foreach m h = Some l.
Proof.
  intros Hq. unfold list_foreach, STAILQ_FOREACH. pose proof (first_spec m h l Hq) as E. unfold list_first in E.
  rewrite E. cbn [mbind option_bind]. apply foreach_loop_run; [apply Hq|apply Hq|by apply (queue_length m h)].
Qed.

Lemma addr_loop_run m p l k x : lseg (nexts m) p l 0 -> l !! k = Some x -> addr_loop k m p = Some x.
Proof.
  revert p l; induction k as [|k IH]; intros p l Hl Hk; (destruct l as [|y l]; [done|]); destruct Hl as (-> & n & Hn & Hl).
  - by injection Hk as ->.
  - cbn [addr_loop]. unfold STAILQ_NEXT. rewrite Hn. cbn [mbind option_bind]. by apply (IH n l).
Qed.

(** An index past the end is answered with NULL, a negative one with the first item. *)
Lemma addr_spec m h l n :
  is_queue m h l -> Z.of_nat (length l) < 2 ^ 31 -> - 2 ^ 31 <= n < 2 ^ 31 ->
  list_addr m h n = Some (default 0 (l !! Z.to_nat n)).
Proof.
  intros Hq Hs Hn. unfold list_addr. rewrite (size_spec m h l Hq). cbn [mbind option_bind].
  rewrite (i32_small n), (u32_small (Z.of_nat (length l))), i32_small by (unfold is_u32; lia). destruct (Z.leb_spec (Z.of_nat (length l)) n) as [Hle|Hlt].
  - by rewrite lookup_ge_None_2 by lia.
  - rewrite (first_spec m h l Hq). cbn [mbind option_bind]. destruct l as [|x l].
    + cbn in Hlt. replace (Z.to_nat n) with 0%nat by lia. done.
    + destruct (lookup_lt_is_Some_2 (x :: l) (Z.to_nat n)) as [y Hy]; [cbn in *; lia|].
      rewrite Hy. by apply (addr_loop_run m _ (x :: l)); [apply Hq|].
Qed.

End Queue.
