(* ===== verification/QueueProps.v ===== *)
(** Any history of calls on any number of queues that share no item: the macros
    do what the same calls do to lists, and no call disturbs another queue. *)

From Stdlib Require Import ZArith Lia.
From stdpp Require Import base numbers list gmap.
From S2P Require Import Prelude.
From S2P Require Import Queue.

Module QueueProps.
Import Queue.

(** ** The calls *)

Inductive op :=
  | New (h : Z) | ItemNew (i : Z)
  | Push (h i : Z) | Unshift (h i : Z) | Insert (h pos i : Z) | Cat (h1 h2 : Z)
  | Shift (h : Z) | Pop (h : Z) | Remove (h i : Z) | Delete (h i : Z) | DeleteHead (h : Z) | Clear (h : Z) | Destroy (h : Z) | Free (i : Z)
  | First (h : Z) | Last (h : Z) | Size (h : Z) | Empty (h : Z) | Foreach (h : Z) | Addr (h n : Z).
Inductive answer := Nothing | Item (i : Z) | Number (n : Z) | Flag (b : bool) | Items (l : list Z).

Definition quiet (m : mem) : answer * mem := (Nothing, m).
Definition asking (m : mem) (a : answer) : answer * mem := (a, m).
Definition giving (r : Z * mem) : answer * mem := (Item r.1, r.2).

(** What the macros do; a new head is cleared memory, a new item is any memory. *)
Definition call (garbage : Z) (m : mem) (o : op) : option (answer * mem) :=
  match o with
  | New h => quiet <$> list_new m h (Head 0 (FirstOf 0) false 0)
  | ItemNew i => Some (quiet (list_item_new m i garbage))
  | Push h i => quiet <$> list_push m h i
  | Unshift h i => quiet <$> list_unshift m h i
  | Insert h pos i => quiet <$> list_insert m h pos i
  | Cat h1 h2 => quiet <$> list_cat m h1 h2
  | Shift h => giving <$> list_shift m h
  | Pop h => giving <$> list_pop m h
  | Remove h i => quiet <$> list_remove m h i
  | Delete h i => quiet <$> list_delete m h i
  | DeleteHead h => quiet <$> list_delete_head m h
  | Clear h => quiet <$> list_clear m h
  | Destroy h => quiet <$> list_destroy m h
  | Free i => quiet <$> mem_free m i
  | First h => (fun i => asking m (Item i)) <$> list_first m h
  | Last h => (fun i => asking m (Item i)) <$> list_last m h
  | Size h => (fun n => asking m (Number n)) <$> list_size m h
  | Empty h => (fun b => asking m (Flag b)) <$> STAILQ_EMPTY m h
  | Foreach h => (fun l => asking m (Items l)) <$> list_foreach m h
  | Addr h n => (fun i => asking m (Item i)) <$> list_addr m h n
  end.

Fixpoint calls (m : mem) (os : list (Z * op)) : option (list answer * mem) :=
  match os with
  | [] => Some ([], m)
  | (g, o) :: os => '(a, m) ← call g m o; '(l, m) ← calls m os; Some (a :: l, m)
  end.

(** ** The same on lists *)

(** The queues, and the items in no queue. *)
Record contents := Contents { queues : gmap Z (list Z); loose : gset Z }.

Fixpoint insert_after (pos i : Z) (l : list Z) : option (list Z) :=
  match l with
  | [] => None
  | x :: l => if x =? pos then Some (x :: i :: l) else cons x <$> insert_after pos i l
  end.
Definition without (i : Z) (l : list Z) : list Z := filter (.≠ i) l.

(** [put s h l out into]: queue [h] becomes [l], the items [out] leave the loose ones, [into] join them. *)
Definition put (s : contents) (h : Z) (l : list Z) (out into : list Z) : contents :=
  Contents (<[h := l]> (queues s)) ((loose s ∖ list_to_set out) ∪ list_to_set into).

Definition in_queue (s : contents) (i : Z) : bool :=
  bool_decide (map_Exists (fun _ l => i ∈ l) (queues s)).

(** [None]: a call that is no use of the interface, on memory that is not an
    item or a queue, or takes from an empty queue. *)
Definition spec (s : contents) (o : op) : option (answer * contents) :=
  match o with
  | New h =>
      if decide (queues s !! h = None /\ h <> 0) then Some (Nothing, put s h [] [] []) else None
  | ItemNew i =>
      if decide ((i ∉ loose s) /\ in_queue s i = false /\ i <> 0) then Some (Nothing, Contents (queues s) ({[i]} ∪ loose s)) else None
  | Push h i => l ← queues s !! h; if decide (i ∈ loose s) then Some (Nothing, put s h (l ++ [i]) [i] []) else None
  | Unshift h i => l ← queues s !! h; if decide (i ∈ loose s) then Some (Nothing, put s h (i :: l) [i] []) else None
  | Insert h pos i =>
      l ← queues s !! h; l' ← insert_after pos i l;
      if decide (i ∈ loose s) then Some (Nothing, put s h l' [i] []) else None
  | Cat h1 h2 =>
      l1 ← queues s !! h1; l2 ← queues s !! h2;
      if decide (h1 <> h2) then Some (Nothing, Contents (<[h1 := l1 ++ l2]> (<[h2 := []]> (queues s))) (loose s)) else None
  | Shift h => l ← queues s !! h; match l with [] => None | x :: l => Some (Item x, put s h l [] [x]) end
  | Pop h => l ← queues s !! h; x ← last l; Some (Item x, put s h (removelast l) [] [x])
  | Remove h i => l ← queues s !! h; if decide (i ∈ l) then Some (Nothing, put s h (without i l) [] [i]) else None
  | Delete h i => l ← queues s !! h; if decide (i ∈ l) then Some (Nothing, put s h (without i l) [] []) else None
  | DeleteHead h => l ← queues s !! h; match l with [] => None | _ :: l => Some (Nothing, put s h l [] []) end
  | Clear h => l ← queues s !! h; Some (Nothing, put s h [] [] [])
  | Destroy h => _ ← queues s !! h; Some (Nothing, Contents (delete h (queues s)) (loose s))
  | Free i => if decide (i ∈ loose s) then Some (Nothing, Contents (queues s) (loose s ∖ {[i]})) else None
  | First h => l ← queues s !! h; Some (Item (default 0 (list.head l)), s)
  | Last h => l ← queues s !! h; Some (Item (default 0 (last l)), s)
  | Size h => l ← queues s !! h; Some (Number (u32 (Z.of_nat (length l))), s)
  | Empty h => l ← queues s !! h; Some (Flag (bool_decide (l = [])), s)
  | Foreach h => l ← queues s !! h; Some (Items l, s)
  | Addr h n =>
      l ← queues s !! h;
      if decide (Z.of_nat (length l) < 2 ^ 31 /\ - 2 ^ 31 <= n < 2 ^ 31) then Some (Item (default 0 (l !! Z.to_nat n)), s) else None
  end.

Fixpoint specs (s : contents) (os : list (Z * op)) : option (list answer * contents) :=
  match os with
  | [] => Some ([], s)
  | (_, o) :: os => '(a, s) ← spec s o; '(l, s) ← specs s os; Some (a :: l, s)
  end.

(** ** The memory holds the lists *)

Record holds (m : mem) (s : contents) : Prop := {
  h_queue : forall h l, queues s !! h = Some l -> is_queue m h l;
  h_apart : forall h1 h2 l1 l2 x, queues s !! h1 = Some l1 -> queues s !! h2 = Some l2 -> x ∈ l1 -> x ∈ l2 -> h1 = h2;
  h_loose : forall i, i ∈ loose s -> is_Some (nexts m !! i) /\ i <> 0;
  h_free : forall h l x, queues s !! h = Some l -> x ∈ l -> x ∉ loose s
}.

(** One queue is put: the memory changed no other, and what left and entered is
    accounted for. *)
Lemma holds_put m m' s h l l' I out into :
  holds m s -> default [] (queues s !! h) = l -> is_queue m' h l' -> touches m m' [h] I ->
  (forall x, x ∈ I -> x ∈ l \/ x ∈ loose s) -> (forall x, x ∈ l' -> x ∈ l \/ x ∈ out) ->
  (forall x, x ∈ out -> x ∈ loose s) -> (forall x, x ∈ into -> x ∈ l) -> (forall x, x ∈ into -> x ∉ l') ->
  holds m' (put s h l' out into).
Proof.
  intros [Hq Ha Hl Hf] El Hq' [Ht1 Ht2 Ht3] HI Hl' Hout Hinto Hinto'.
  assert (Hown : forall h2 l2 x, h2 <> h -> queues s !! h2 = Some l2 -> x ∈ l2 -> (x ∉ l) /\ (x ∉ loose s)).
  { intros h2 l2 x Hh E Hx. split; [|by apply (Hf h2 l2)]. subst l. intros Hx'.
    destruct (queues s !! h) as [l|] eqn:Eh; [|by apply elem_of_nil in Hx']. by apply Hh, (Ha h2 h l2 l x). }
  assert (Hcase : forall h2 l2, <[h := l']> (queues s) !! h2 = Some l2 -> h2 = h /\ l2 = l' \/ h2 <> h /\ queues s !! h2 = Some l2).
  { intros h2 l2. rewrite lookup_insert_Some. naive_solver. }
  assert (Hin : forall x, x ∈ l -> exists l0, queues s !! h = Some l0 /\ l0 = l).
  { subst l. intros x Hx. destruct (queues s !! h); [eauto|by apply elem_of_nil in Hx]. }
  split; cbn.
  - intros h2 l2 [[-> ->]|[Hh E]]%Hcase; [done|].
    apply (is_queue_frame m); [|apply Ht3; set_solver +Hh|by apply Hq].
    intros x Hx. apply Ht1. intros Hx'. destruct (Hown h2 l2 x Hh E Hx). naive_solver.
  - intros h1 h2 l1 l2 x [[-> ->]|[Hh1 E1]]%Hcase [[-> ->]|[Hh2 E2]]%Hcase H1 H2; [done| | |by apply (Ha h1 h2 l1 l2 x)].
    + destruct (Hown h2 l2 x Hh2 E2 H2). naive_solver.
    + destruct (Hown h1 l1 x Hh1 E1 H1). naive_solver.
  - intros i [[Hi _]%elem_of_difference|Hi%elem_of_list_to_set]%elem_of_union.
    + rewrite Ht2. by apply Hl.
    + destruct (Hin i) as (l0 & E & ->); [by apply Hinto|]. specialize (Hq h l E). rewrite Ht2.
      split; [apply (lseg_items _ _ _ _ _ (iq_links _ _ _ Hq)); auto|]. intros ->. apply (iq_null _ _ _ Hq). auto.
  - intros h2 l2 x [[-> ->]|[Hh E]]%Hcase Hx [[Hi Ho]%elem_of_difference|Hi%elem_of_list_to_set]%elem_of_union.
    + destruct (Hl' x Hx) as [Hx'|Hx']; [|by apply Ho, elem_of_list_to_set]. destruct (Hin x Hx') as (l0 & E & ->). by apply (Hf h l x).
    + by apply (Hinto' x).
    + by apply (Hf h2 l2 x).
    + destruct (Hown h2 l2 x Hh E Hx). auto.
Qed.

Lemma put_kept s h l : queues s !! h = Some l -> put s h l [] [] = s.
Proof. intros E. destruct s as [qs ls]. unfold put. cbn in *. rewrite insert_id by done. f_equal. set_solver +. Qed.

(** An item in no queue is freed. *)
Lemma holds_mem_free m s i :
  holds m s -> i ∈ loose s ->
  exists m', mem_free m i = Some m' /\ holds m' (Contents (queues s) (loose s ∖ {[i]})).
Proof.
  intros [Hq Ha Hl Hf] Hi. unfold mem_free. rewrite decide_True by (by apply Hl). eexists. split; [done|]. split; cbn.
  - intros h l E. apply (is_queue_frame m); [|done|by apply Hq]. intros x Hx. cbn. apply lookup_delete_ne. intros ->. by apply (Hf h l x).
  - done.
  - intros x [Hx Hne]%elem_of_difference. rewrite lookup_delete_ne; [by apply Hl|]. set_solver +Hne.
  - intros h l x E Hx [Hx' _]%elem_of_difference. by apply (Hf h l x).
Qed.

(** Two queues become one. *)
Lemma holds_cat m m' s h1 h2 l1 l2 :
  holds m s -> h1 <> h2 -> queues s !! h1 = Some l1 -> queues s !! h2 = Some l2 ->
  is_queue m' h1 (l1 ++ l2) -> is_queue m' h2 [] -> touches m m' [h1; h2] l1 ->
  holds m' (Contents (<[h1 := l1 ++ l2]> (<[h2 := []]> (queues s))) (loose s)).
Proof.
  intros [Hq Ha Hl Hf] Hh E1 E2 Hq1 Hq2 [Ht1 Ht2 Ht3].
  assert (Hcase : forall h l, <[h1 := l1 ++ l2]> (<[h2 := []]> (queues s)) !! h = Some l ->
    h = h1 /\ l = l1 ++ l2 \/ h = h2 /\ l = [] \/ h <> h1 /\ h <> h2 /\ queues s !! h = Some l).
  { intros h l. rewrite !lookup_insert_Some. naive_solver. }
  assert (Hown : forall h l x, h <> h1 -> h <> h2 -> queues s !! h = Some l -> x ∈ l -> x ∉ l1 ++ l2).
  { intros h l x H1 H2 E Hx [Hx'|Hx']%elem_of_app; [by apply H1, (Ha h h1 l l1 x)|by apply H2, (Ha h h2 l l2 x)]. }
  split; cbn.
  - intros h l [[-> ->]|[[-> ->]|(H1 & H2 & E)]]%Hcase; [done|done|].
    apply (is_queue_frame m); [|apply Ht3; set_solver +H1 H2|by apply Hq].
    intros x Hx. apply Ht1. specialize (Hown h l x H1 H2 E Hx). set_solver +Hown.
  - intros h h' l l' x [[-> ->]|[[-> ->]|(H1 & H2 & E)]]%Hcase [[-> ->]|[[-> ->]|(H1' & H2' & E')]]%Hcase Hx Hx';
      try done; try (by apply elem_of_nil in Hx); try (by apply elem_of_nil in Hx').
    + by destruct (Hown h' l' x).
    + by destruct (Hown h l x).
    + by apply (Ha h h' l l' x).
  - intros i Hi. rewrite Ht2. by apply Hl.
  - intros h l x [[-> ->]|[[-> ->]|(H1 & H2 & E)]]%Hcase Hx; [|by apply elem_of_nil in Hx|by apply (Hf h l)].
    apply elem_of_app in Hx as [Hx|Hx]; [by apply (Hf h1 l1)|by apply (Hf h2 l2)].
Qed.

Lemma without_other i l : i ∉ l -> without i l = l.
Proof.
  unfold without. induction l as [|x l IH]; [done|]. intros [Hx Hl]%not_elem_of_cons. rewrite filter_cons_True by done. by rewrite IH.
Qed.
Lemma without_app i l1 l2 : NoDup (l1 ++ i :: l2) -> without i (l1 ++ i :: l2) = l1 ++ l2.
Proof.
  intros (_ & Hd & [Hd' _]%NoDup_cons)%NoDup_app. unfold without. rewrite filter_app, filter_cons_False by auto.
  fold (without i l1) (without i l2). rewrite !without_other; [done|done|]. intros Hx. apply (Hd i Hx). apply list_elem_of_here.
Qed.
Lemma elem_of_without x i l : x ∈ without i l <-> x <> i /\ x ∈ l.
Proof. unfold without. by rewrite list_elem_of_filter. Qed.

Lemma insert_after_split pos i l l' :
  insert_after pos i l = Some l' -> exists l1 l2, l = l1 ++ pos :: l2 /\ l' = l1 ++ pos :: i :: l2.
Proof.
  revert l'; induction l as [|x l IH]; intros l'; cbn; [done|]. destruct (Z.eqb_spec x pos) as [->|Hne].
  - intros [= <-]. by exists [], l.
  - intros (l0 & E & ->)%fmap_Some. destruct (IH l0 E) as (l1 & l2 & -> & ->). by exists (x :: l1), l2.
Qed.

(** An item is taken out and freed. *)
Lemma holds_out_free m s h l i :
  holds m (put s h l [] [i]) -> i ∉ loose s ->
  exists m', mem_free m i = Some m' /\ holds m' (put s h l [] []).
Proof.
  intros Hm Hi. destruct (holds_mem_free _ _ i Hm) as (m' & E & Hm'); [unfold put; cbn; set_solver +|].
  exists m'. split; [done|]. unfold put in *. cbn in Hm'. replace ((loose s ∖ _) ∪ list_to_set []) with
    (((loose s ∖ list_to_set []) ∪ list_to_set [i]) ∖ {[i]}); [done|]. set_solver +Hi.
Qed.

Lemma delete_head_holds m s h x l :
  holds m s -> queues s !! h = Some (x :: l) -> exists m', list_delete_head m h = Some m' /\ holds m' (put s h l [] []).
Proof.
  intros Hm E. pose proof (h_queue _ _ Hm h _ E) as Hq. unfold list_delete_head. rewrite (first_spec m h _ Hq).
  cbn [mbind option_bind list.head default from_option id].
  destruct (remove_head_spec m h x l Hq) as (m1 & E1 & Hq1 & Ht1). rewrite E1. cbn [mbind option_bind].
  apply holds_out_free.
  - apply (holds_put m m1 s h (x :: l) l [] [] [x]); try done; [by rewrite E|set_solver +..|set_solver +|].
    intros y ->%list_elem_of_singleton. by pose proof (iq_nodup _ _ _ Hq) as [Hx _]%NoDup_cons.
  - apply (h_free _ _ Hm h (x :: l)); [done|apply list_elem_of_here].
Qed.

Lemma put_twice s h l l' : put (put s h l [] []) h l' [] [] = put s h l' [] [].
Proof. unfold put. cbn. rewrite insert_insert_eq. f_equal. set_solver +. Qed.

Lemma clear_holds fuel m s h l :
  holds m s -> queues s !! h = Some l -> (length l <= fuel)%nat ->
  exists m', clear_loop fuel m h = Some m' /\ holds m' (put s h [] [] []).
Proof.
  revert m s l; induction fuel as [|fuel IH]; intros m s l Hm E Hf;
    pose proof (h_queue _ _ Hm h _ E) as Hq; cbn [clear_loop]; rewrite (first_spec m h l Hq); cbn [mbind option_bind];
    rewrite head_zero by apply Hq; destruct l as [|x l]; try (exists m; by rewrite put_kept); [cbn in Hf; lia|].
  destruct (delete_head_holds m s h x l Hm E) as (m1 & E1 & Hm1). rewrite E1. cbn [mbind option_bind].
  destruct (IH m1 _ l Hm1) as (m2 & E2 & Hm2); [by apply lookup_insert_eq|cbn in Hf; lia|].
  exists m2. by rewrite put_twice in Hm2.
Qed.

(** ** Each call *)

Definition refines (g : Z) (m : mem) (s : contents) (o : op) : Prop :=
  forall a s', spec s o = Some (a, s') -> exists m', call g m o = Some (a, m') /\ holds m' s'.

(** Reads what the specification asks for. *)
Ltac spec_inv :=
  repeat match goal with
  | H : _ ≫= _ = Some _ |- _ => apply bind_Some in H as (? & ? & ?)
  | H : (if decide ?P then _ else _) = Some _ |- _ => destruct (decide P) as [?|?]; [|discriminate H]
  | H : Some _ = Some _ |- _ => injection H as <- <-
  | H : match ?l with [] => _ | _ => _ end = Some _ |- _ => let y := fresh "y" in let l2 := fresh "l" in destruct l as [|y l2]; [try discriminate H|try discriminate H]
  end.
Ltac queue_of Hm E Hq := pose proof (h_queue _ _ Hm _ _ E) as Hq.

Lemma new_refines g m s h : holds m s -> refines g m s (New h).
Proof.
  intros Hm a s' H. unfold spec in H. spec_inv. destruct a0 as [E H0]. cbn [call]. unfold list_new.
  rewrite (proj2 (Z.eqb_neq _ _) H0). unfold STAILQ_INIT. mem_run. rewrite insert_insert_eq. eexists. split; [reflexivity|].
  apply (holds_put m _ s h [] [] []); [done|by rewrite E| |by apply touches_one|set_solver +..].
  split; [|done|by apply NoDup_nil|set_solver +]. exists false. cbn. by rewrite lookup_insert_eq.
Qed.

Lemma item_new_refines g m s i : holds m s -> refines g m s (ItemNew i).
Proof.
  intros [Hq Ha Hl Hf] a s' H. unfold spec in H. spec_inv. destruct a0 as (Hi & Hn & H0). cbn [call].
  unfold list_item_new. rewrite (proj2 (Z.eqb_neq _ _) H0). eexists. split; [reflexivity|].
  assert (Hno : forall h l, queues s !! h = Some l -> i ∉ l).
  { intros h l E Hx. unfold in_queue in Hn. apply bool_decide_eq_false in Hn. apply Hn. by exists h, l. }
  split; cbn; [|done| |].
  - intros h l E. apply (is_queue_frame m); [|done|by apply Hq]. intros x Hx. cbn. apply lookup_insert_ne. intros ->. by apply (Hno h l).
  - intros x [->%elem_of_singleton|Hx]%elem_of_union; [rewrite lookup_insert_eq; eauto|].
    destruct (Hl x Hx) as [Hs H1]. split; [|done]. destruct (decide (x = i)) as [->|]; [done|]. by rewrite lookup_insert_ne.
  - intros h l x E Hx [->%elem_of_singleton|Hx']%elem_of_union; [by apply (Hno h l)|by apply (Hf h l x)].
Qed.

Lemma push_refines g m s h i : holds m s -> refines g m s (Push h i).
Proof.
  intros Hm a s' H. unfold spec in H. spec_inv. queue_of Hm H Hq. cbn [call].
  destruct (h_loose _ _ Hm i) as [Hi Hi0]; [done|].
  destruct (push_spec m h x i Hq) as (m' & E & Hq' & Ht); [done|by intros Hx; apply (h_free _ _ Hm h x i)|done|].
  rewrite E. eexists. split; [reflexivity|].
  apply (holds_put m m' s h x _ (i :: x)); try done; [by rewrite H|set_solver..].
Qed.

Lemma unshift_refines g m s h i : holds m s -> refines g m s (Unshift h i).
Proof.
  intros Hm a s' H. unfold spec in H. spec_inv. queue_of Hm H Hq. cbn [call].
  destruct (h_loose _ _ Hm i) as [Hi Hi0]; [done|].
  destruct (unshift_spec m h x i Hq) as (m' & E & Hq' & Ht); [done|by intros Hx; apply (h_free _ _ Hm h x i)|done|].
  rewrite E. eexists. split; [reflexivity|].
  apply (holds_put m m' s h x _ (i :: x)); try done; [by rewrite H|set_solver..].
Qed.

Lemma insert_refines g m s h pos i : holds m s -> refines g m s (Insert h pos i).
Proof.
  intros Hm a s' H. unfold spec in H. spec_inv. queue_of Hm H Hq. cbn [call].
  destruct (insert_after_split _ _ _ _ H0) as (l1 & l2 & -> & ->).
  destruct (h_loose _ _ Hm i) as [Hi Hi0]; [done|].
  destruct (insert_spec m h l1 pos l2 i Hq) as (m' & E & Hq' & Ht); [done|by intros Hx; apply (h_free _ _ Hm h _ i H)|done|].
  rewrite E. eexists. split; [reflexivity|].
  apply (holds_put m m' s h _ _ _ _ _ Hm (f_equal _ H) Hq' Ht); set_solver.
Qed.

Lemma cat_refines g m s h1 h2 : holds m s -> refines g m s (Cat h1 h2).
Proof.
  intros Hm a s' H. unfold spec in H. spec_inv. queue_of Hm H Hq1. queue_of Hm H0 Hq2. cbn [call].
  destruct (cat_spec m h1 h2 x x0) as (m' & E & Hq1' & Hq2' & Ht); [done..| |].
  { intros y Hy Hy'. by apply n, (h_apart _ _ Hm h1 h2 x x0 y). }
  rewrite E. eexists. split; [reflexivity|]. by apply (holds_cat m m' s h1 h2 x x0).
Qed.

(** The first or the last item leaves and is loose again. *)
Lemma shift_refines g m s h : holds m s -> refines g m s (Shift h).
Proof.
  intros Hm a s' H. unfold spec in H. spec_inv. queue_of Hm H Hq. cbn [call].
  destruct (shift_spec m h y l Hq) as (m' & E & Hq' & Ht).
  rewrite E. eexists. split; [reflexivity|]. pose proof (iq_nodup _ _ _ Hq) as [Hz _]%NoDup_cons.
  apply (holds_put m m' s h _ _ _ _ _ Hm (f_equal _ H) Hq' Ht); set_solver.
Qed.

Lemma pop_refines g m s h : holds m s -> refines g m s (Pop h).
Proof.
  intros Hm a s' H. unfold spec in H. spec_inv. queue_of Hm H Hq. cbn [call].
  apply last_Some in H0 as [l ->]. rewrite removelast_last.
  destruct (pop_spec m h l x0 Hq) as (m' & E & Hq' & Ht).
  rewrite E. eexists. split; [reflexivity|]. pose proof (iq_nodup _ _ _ Hq) as [_ Hz]%NoDup_snoc.
  apply (holds_put m m' s h _ _ _ _ _ Hm (f_equal _ H) Hq' Ht); set_solver.
Qed.

Lemma remove_holds m s h l i :
  holds m s -> queues s !! h = Some l -> i ∈ l ->
  exists m', list_remove m h i = Some m' /\ holds m' (put s h (without i l) [] [i]).
Proof.
  intros Hm H Hi. queue_of Hm H Hq. apply list_elem_of_split in Hi as (l1 & l2 & ->).
  rewrite without_app by apply Hq. destruct (remove_spec m h l1 i l2 Hq) as (m' & E & Hq' & Ht).
  exists m'. split; [done|]. pose proof (iq_nodup _ _ _ Hq) as (_ & Hd1 & [Hd2 _]%NoDup_cons)%NoDup_app.
  apply (holds_put m m' s h _ _ _ _ _ Hm (f_equal _ H) Hq' Ht); [set_solver +..|].
  intros x ->%list_elem_of_singleton [Hx|Hx]%elem_of_app; [by apply (Hd1 i Hx), list_elem_of_here|done].
Qed.

Lemma remove_refines g m s h i : holds m s -> refines g m s (Remove h i).
Proof.
  intros Hm a s' H. unfold spec in H. spec_inv. cbn [call].
  destruct (remove_holds m s h x i) as (m' & E & Hm'); [done..|]. rewrite E. by eexists.
Qed.

Lemma delete_refines g m s h i : holds m s -> refines g m s (Delete h i).
Proof.
  intros Hm a s' H. unfold spec in H. spec_inv. cbn [call].
  destruct (remove_holds m s h x i) as (m' & E & Hm'); [done..|]. unfold list_delete. rewrite E. cbn [mbind option_bind].
  destruct (holds_out_free m' s h _ i Hm') as (m2 & E2 & Hm2); [by apply (h_free _ _ Hm h x)|]. rewrite E2. by eexists.
Qed.

Lemma delete_head_refines g m s h : holds m s -> refines g m s (DeleteHead h).
Proof.
  intros Hm a s' H. unfold spec in H. spec_inv. cbn [call].
  destruct (delete_head_holds m s h _ _ Hm H) as (m' & E & Hm'). rewrite E. by eexists.
Qed.

Lemma clear_refines g m s h : holds m s -> refines g m s (Clear h).
Proof.
  intros Hm a s' H. unfold spec in H. spec_inv. queue_of Hm H Hq. cbn [call]. unfold list_clear.
  destruct (clear_holds (base.size (nexts m)) m s h x Hm H) as (m' & E & Hm'); [by apply (queue_length m h)|]. rewrite E. by eexists.
Qed.

Lemma destroy_refines g m s h : holds m s -> refines g m s (Destroy h).
Proof.
  intros Hm a s' H. unfold spec in H. spec_inv. queue_of Hm H Hq. cbn [call]. unfold list_destroy, list_clear.
  destruct (clear_holds (base.size (nexts m)) m s h x Hm H) as (m' & E & [H1 H2 H3 H4]); [by apply (queue_length m h)|].
  rewrite E. eexists. split; [reflexivity|].
  assert (Hin : forall k l, delete h (queues s) !! k = Some l -> k <> h /\ queues (put s h [] [] []) !! k = Some l).
  { intros k l [Hk Hl]%lookup_delete_Some. cbn. by rewrite lookup_insert_ne. }
  split; cbn.
  - intros k l [Hk Hl]%Hin. apply (is_queue_frame m'); [done|cbn; by rewrite lookup_delete_ne|by apply H1].
  - intros k1 k2 l1 l2 y [_ E1]%Hin [_ E2]%Hin. by apply H2.
  - intros i Hi. apply H3. cbn. set_solver +Hi.
  - intros k l y [_ E1]%Hin Hy Hy'. apply (H4 k l y E1 Hy). cbn. set_solver +Hy'.
Qed.

Lemma free_refines g m s i : holds m s -> refines g m s (Free i).
Proof.
  intros Hm a s' H. unfold spec in H. spec_inv. cbn [call].
  destruct (holds_mem_free m s i Hm) as (m' & E & Hm'); [done|]. rewrite E. by eexists.
Qed.

(** The questions leave the memory as it is. *)
Lemma asks_refine g m s o :
  match o with First _ | Last _ | Size _ | Empty _ | Foreach _ | Addr _ _ => True | _ => False end -> holds m s -> refines g m s o.
Proof.
  intros Ho Hm a s' H. destruct o; try done; unfold spec in H; spec_inv; queue_of Hm H Hq; cbn [call].
  - rewrite (first_spec m h x Hq). by eexists.
  - destruct x as [|y x _] using rev_ind.
    + pose proof Hq as [[k Hhd] _ _ _]. unfold list_last, STAILQ_LAST. mem_run. by eexists.
    + rewrite (last_spec m h x y Hq), last_snoc. by eexists.
  - rewrite (size_spec m h x Hq). by eexists.
  - unfold STAILQ_EMPTY. pose proof (first_spec m h x Hq) as E. unfold list_first in E. rewrite E.
    cbn [mbind option_bind fmap option_fmap option_map]. rewrite head_zero by apply Hq. destruct x; by eexists.
  - rewrite (foreach_spec m h x Hq). by eexists.
  - rewrite (addr_spec m h x n Hq) by apply a0. by eexists.
Qed.

Lemma call_refines g m s o : holds m s -> refines g m s o.
Proof.
  intros Hm. destruct o; try (by apply asks_refine); revert Hm;
    auto using new_refines, item_new_refines, push_refines, unshift_refines, insert_refines, cat_refines, shift_refines,
      pop_refines, remove_refines, delete_refines, delete_head_refines, clear_refines, destroy_refines, free_refines.
Qed.

Lemma empty_holds : holds (Mem ∅ ∅) (Contents ∅ ∅).
Proof. split; cbn; intros; set_solver. Qed.

(** ** What the queues promise *)

(** C24: every history of calls to the queue macros that the interface allows,
    on any number of queues and items, runs in memory without following a NULL
    or freed link, answers each call as the same call on lists would, and
    leaves memory that holds exactly those lists: walking any queue visits the
    items of its list in order and counts them. *)
Theorem queues_are_lists m s os l s' :
  holds m s -> specs s os = Some (l, s') ->
  exists m', calls m os = Some (l, m') /\ holds m' s' /\
    (forall h q, queues s' !! h = Some q -> list_foreach m' h = Some q /\ list_size m' h = Some (u32 (Z.of_nat (length q)))).
Proof.
  revert m s l s'; induction os as [|[g o] os IH]; intros m s l s' Hm H; cbn [specs calls] in *.
  - injection H as <- <-. exists m. split; [done|]. split; [done|]. intros h q E. pose proof (h_queue _ _ Hm h q E).
    split; [by apply foreach_spec|by apply size_spec].
  - apply bind_Some in H as ([a s1] & E & H). apply bind_Some in H as ([l1 s2] & E1 & H). injection H as <- <-.
    destruct (call_refines g m s o Hm a s1 E) as (m1 & Em & Hm1). rewrite Em. cbn [mbind option_bind].
    destruct (IH m1 s1 l1 s2 Hm1 E1) as (m' & El & Hm' & Hq). rewrite El. by exists m'.
Qed.

Definition history : list (Z * op) :=
  [(0, New 100); (0, New 200); (7, ItemNew 1); (7, ItemNew 2); (7, ItemNew 3); (7, ItemNew 4);
   (0, Push 100 1); (0, Push 100 2); (0, Unshift 100 3); (0, Insert 100 3 4); (0, Foreach 100);
   (0, Pop 100); (0, Push 200 2); (0, Cat 200 100); (0, Foreach 200); (0, Remove 200 3); (0, Addr 200 1);
   (0, Last 200); (0, Delete 200 1); (0, Shift 200); (0, Size 200); (0, Empty 100); (0, Destroy 100)].

Lemma queues_are_lists_witness :
  exists m', calls (Mem ∅ ∅) history =
    Some ([Nothing; Nothing; Nothing; Nothing; Nothing; Nothing; Nothing; Nothing; Nothing; Nothing; Items [3; 4; 1; 2];
           Item 2; Nothing; Nothing; Items [2; 3; 4; 1]; Nothing; Item 4; Item 1; Nothing; Item 2; Number 1; Flag true; Nothing], m') /\
    list_foreach m' 200 = Some [4].
Proof.
  destruct (queues_are_lists (Mem ∅ ∅) (Contents ∅ ∅) history
    [Nothing; Nothing; Nothing; Nothing; Nothing; Nothing; Nothing; Nothing; Nothing; Nothing; Items [3; 4; 1; 2];
     Item 2; Nothing; Nothing; Items [2; 3; 4; 1]; Nothing; Item 4; Item 1; Nothing; Item 2; Number 1; Flag true; Nothing]
    (Contents {[200 := [4]]} {[2; 3]}) empty_holds) as (m' & E & _ & Hq); [vm_compute; reflexivity|].
  exists m'. split; [exact E|]. apply (Hq 200 [4]). vm_compute. reflexivity.
Defined.

(** [STAILQ_REMOVE_HEAD_UNTIL] takes the items up to a given one off the
    front, but leaves the count: the queue then walks over the rest of the list
    while [list_size] still counts the items taken. *)
Theorem remove_until_keeps_size m h l1 i l2 :
  is_queue m h (l1 ++ i :: l2) ->
  exists m', STAILQ_REMOVE_HEAD_UNTIL m h i = Some m' /\ list_foreach m' h = Some l2 /\
    list_size m' h = Some (u32 (Z.of_nat (length (l1 ++ i :: l2)))).
Proof.
  intros Hq. pose proof Hq as [[k Hhd] Hl Hnd H0]. unfold STAILQ_REMOVE_HEAD_UNTIL, STAILQ_NEXT.
  pose proof Hl as (r & _ & -> & n & Hn & Hl2)%lseg_app. pose proof (lseg_head _ _ _ _ Hl2) as En. subst n.
  pose proof (queue_length _ _ _ Hq) as Hlen. rewrite length_app in Hlen. cbn in Hlen.
  rewrite Hn. mem_run. rewrite head_zero by set_solver +H0.
  assert (Hwalk : forall hd, stqh_first hd = default 0 (list.head l2) -> size hd = u32 (Z.of_nat (length (l1 ++ i :: l2))) ->
    list_foreach (Mem (nexts m) (<[h := hd]> (heads m))) h = Some l2 /\
    list_size (Mem (nexts m) (<[h := hd]> (heads m))) h = Some (u32 (Z.of_nat (length (l1 ++ i :: l2))))).
  { intros hd Ef Es. unfold list_foreach, STAILQ_FOREACH, STAILQ_FIRST, list_size, head. cbn [heads nexts].
    rewrite lookup_insert_eq. cbn [mbind option_bind]. rewrite Ef, Es. split; [|done].
    apply foreach_loop_run; [done|set_solver +H0|cbn; lia]. }
  destruct l2 as [|x l2]; mem_run; rewrite ?insert_insert_eq; (eexists; split; [reflexivity|]); by apply Hwalk.
Qed.

Lemma remove_until_keeps_size_witness :
  exists m', STAILQ_REMOVE_HEAD_UNTIL (Mem {[1 := 2; 2 := 0]} {[9 := Head 1 (NextOf 2) false 2]}) 9 1 = Some m' /\
    list_foreach m' 9 = Some [2] /\ list_size m' 9 = Some 2.
Proof.
  apply (remove_until_keeps_size _ 9 [] 1 [2]). split; [exists false; reflexivity| | |].
  - split; [reflexivity|]. exists 2. split; [reflexivity|]. split; [reflexivity|]. exists 0. split; reflexivity.
  - by apply (bool_decide_unpack _); vm_compute.
  - by apply (bool_decide_unpack _); vm_compute.
Defined.

End QueueProps.
